(** * fplay: a shallow embedding of the streaming transfer engine

    The development follows [fplay.c]: the C globals become the fields of
    one [state] record threaded through every function, the ALSA device,
    the kernel's [read]/[write] and the delivery of signals become an
    abstract environment [E] with a record of operations, and [exit]
    becomes a constructor of the result type.  Machine integers are [Z]
    with the wrap-around written out where the C types wrap.

    What is covered: the interleaved transfer ([playback], [capture] and
    what they call) without a channel map, [main] from the file of
    [--process-id-file] on, the names of the capture files, the two
    diagnostics, and, each on its own, the option loop of [main],
    [setup_chmap], [remap_data], [create_path] and the text of the VU
    meter.  The signal handlers run where the program waits in a call of
    [read], [write] or of the device.  The non-interleaved mode ([-I])
    and the interactive mode are not covered. *)

From Stdlib Require Import ZArith Lia Bool List Ascii String.
From Stdlib.Strings Require Import Byte.
From Stdlib Require Import Sorted.
From Stdlib Require SpecFloat.
From stdpp Require Import base tactics option list strings gmap pretty.

Local Open Scope Z_scope.

(** ** Machine integers *)

Module CInt.

(** Conversion to a signed two's complement integer of [w] bits. *)
Definition signed (w x : Z) : Z :=
  (x + 2 ^ (w - 1)) mod 2 ^ w - 2 ^ (w - 1).

(** Conversion to an unsigned integer of [w] bits. *)
Definition unsigned (w x : Z) : Z := x mod 2 ^ w.

Definition int8 := signed 8.
Definition int16 := signed 16.
Definition int32 := signed 32.
Definition int64 := signed 64.
Definition size_t := unsigned 64.
Definition ssize_t := signed 64.

Definition INT_MAX : Z := 2147483647.
Definition SSIZE_MAX : Z := 9223372036854775807.
Definition LLONG_MAX : Z := 9223372036854775807.

(** [abs] from <stdlib.h> on [int]; the result is stored in an [int]. *)
Definition abs (v : Z) : Z := int32 (Z.abs v).

End CInt.

(** ** The environment: device, kernel and signals *)

Inductive signal := SIGINT | SIGTERM | SIGABRT | SIGUSR1.

Global Instance signal_eq_dec : EqDecision signal.
Proof. solve_decision. Defined.

Definition EAGAIN : Z := 11.
Definition EPIPE : Z := 32.
Definition ESTRPIPE : Z := 86.
Definition EXIT_SUCCESS : Z := 0.
Definition EXIT_FAILURE : Z := 1.

(** What the program calls but does not define.  Each operation takes the
    environment's state and returns the call's result with the next state.
    - [sys_write e n]: [write(fd, p, n)] on the capture output; the number
      of bytes accepted, or zero or a negative error;
    - [sys_read e n avail]: [read(fd, p, n)] on the playback input holding
      [avail] more bytes;
    - [writei]/[readi]: the device transfer primitives behind
      [writei_func]/[readi_func], counting frames; [readi] also yields
      the bytes the device put in the buffer;
    - [recover_xrun], [resume]: whether the ALSA calls made by [xrun()]
      and [suspend()] succeed ([false]: the function ends in [prg_exit]);
    - [avail_delay], [status]: the two position queries of the monitor;
    - [signals]: the signals delivered while the last blocking call was
      in progress;
    - [strftime fmt t]: the text [strftime] makes of the format [fmt] and
      of [localtime] at the time [t]. *)
Record env_ops (E : Type) : Type := EnvOps {
  sys_write : E → Z → Z * E;
  sys_read : E → Z → Z → Z * E;
  writei : E → list byte → Z → Z * E;
  readi : E → Z → (Z * list byte) * E;
  pcm_wait : E → E;
  recover_xrun : E → bool * E;
  resume : E → bool * E;
  avail_delay : E → option (Z * Z) * E;
  status : E → option (Z * Z) * E;
  time : E → Z * E;
  signals : E → list signal * E;
  strftime : string → Z → string;
}.
Arguments sys_write {E} _ _ _.
Arguments sys_read {E} _ _ _ _.
Arguments writei {E} _ _ _ _.
Arguments readi {E} _ _ _.
Arguments pcm_wait {E} _ _.
Arguments recover_xrun {E} _ _.
Arguments resume {E} _ _.
Arguments avail_delay {E} _ _.
Arguments status {E} _ _.
Arguments time {E} _ _.
Arguments signals {E} _ _.
Arguments strftime {E} _ _ _.

(** ** [xwrite]: write all bytes or return an error *)

Section Xwrite.
Context {E : Type} (ops : env_ops E).

(** The loop of [xwrite].  [out] is the content of the file behind [fd]:
    a [write] that returns [written > 0] has appended the [written] bytes
    at [buf + offset] to it.  Every turn of the loop adds at least one to
    [offset], so [fuel] at least [count] is never used up. *)
Fixpoint xwrite_loop (fuel : nat) (e : E) (out buf : list byte)
    (count offset : Z) : option (Z * list byte * E) :=
  if offset <? count then
    match fuel with
    | O => None
    | S fuel' =>
        let '(written, e') := sys_write ops e (CInt.size_t (count - offset)) in
        if written <=? 0 then Some (written, out, e')
        else
          xwrite_loop fuel' e'
            (out ++ take (Z.to_nat written) (drop (Z.to_nat offset) buf))
            buf count (CInt.size_t (offset + written))
    end
  else Some (CInt.ssize_t offset, out, e).

Definition xwrite (e : E) (out buf : list byte) (count : Z)
    : option (Z * list byte * E) :=
  xwrite_loop (Z.to_nat count) e out buf count 0.

End Xwrite.

(** ** Sample formats

    [hwparams.format] is an ALSA format; the program only asks ALSA for
    its physical width, its significant width, its byte order and its
    silence pattern.  A format is the record of those answers. *)

Record pcm_format := PcmFormat {
  physical_width : Z;      (* snd_pcm_format_physical_width(format) *)
  width : Z;               (* snd_pcm_format_width(format) *)
  little_endian : bool;    (* snd_pcm_format_little_endian(format) != 0 *)
  silence_64 : Z;          (* snd_pcm_format_silence_64(format) *)
}.

Definition byte_val (b : byte) : Z := Z.of_N (Byte.to_N b).

Definition byte_of_Z (z : Z) : byte :=
  default x00 (Byte.of_N (Z.to_N (z mod 256))).

(** [snd_pcm_format_silence], [_16] and [_32]: the low 8, 16 and 32 bits
    of the 64-bit pattern. *)
Definition snd_pcm_format_silence (f : pcm_format) : Z := CInt.unsigned 8 (silence_64 f).
Definition snd_pcm_format_silence_16 (f : pcm_format) : Z := CInt.unsigned 16 (silence_64 f).
Definition snd_pcm_format_silence_32 (f : pcm_format) : Z := CInt.unsigned 32 (silence_64 f).

(** The bytes of one silent sample, as [snd_pcm_format_set_silence] stores
    them on a little-endian host: the low [physical_width / 8] bytes of
    the pattern, least significant first. *)
Definition silence_sample (f : pcm_format) : list byte :=
  map (λ i : nat, byte_of_Z (Z.shiftr (silence_64 f) (8 * Z.of_nat i)))
      (seq 0 (Z.to_nat (physical_width f / 8))).

(** [snd_pcm_format_size(format, samples)] for the linear formats. *)
Definition snd_pcm_format_size (f : pcm_format) (samples : Z) : Z :=
  CInt.ssize_t (samples * physical_width f / 8).

(** [memcpy]-like store of [src] at offset [off] of [buf]; the buffer keeps
    its length. *)
Definition store (buf : list byte) (off : nat) (src : list byte) : list byte :=
  take (length buf) (take off buf ++ src ++ drop (off + length src) buf).

(** [snd_pcm_format_set_silence(format, buf + off, samples)]. *)
Definition snd_pcm_format_set_silence (f : pcm_format) (buf : list byte)
    (off : nat) (samples : nat) : list byte :=
  store buf off (concat (replicate samples (silence_sample f))).

(** ** Peak meter: the decoding loops of [compute_max_peak] *)

Inductive vumeter_t := VUMETER_NONE | VUMETER_MONO | VUMETER_STEREO.

Global Instance vumeter_eq_dec : EqDecision vumeter_t.
Proof. solve_decision. Defined.

Module Peak.

(** One turn of each [while (samples-- > 0)] loop up to the comparison
    with [max_peak[c]]: the amplitude [val] and the advanced pointer.
    [None] is a read past the end of the buffer. *)

(** [case 8]: [val = *valp++ ^ mask; val = abs(val);] on [signed char]. *)
Definition sample8 (f : pcm_format) (data : list byte) : option (Z * list byte) :=
  match data with
  | b :: rest =>
      let mask := CInt.int8 (snd_pcm_format_silence f) in
      Some (CInt.abs (Z.lxor (CInt.int8 (byte_val b)) mask), rest)
  | _ => None
  end.

(** [case 16]: [sval] is [le16toh] or [be16toh] of the sample; [sval ^= mask]. *)
Definition sample16 (f : pcm_format) (data : list byte) : option (Z * list byte) :=
  match data with
  | b0 :: b1 :: rest =>
      let mask := CInt.int16 (snd_pcm_format_silence_16 f) in
      let raw :=
        if little_endian f then byte_val b0 + 256 * byte_val b1
        else byte_val b1 + 256 * byte_val b0 in
      let sval := CInt.int16 (Z.lxor (CInt.int16 raw) mask) in
      Some (CInt.abs sval, rest)
  | _ => None
  end.

(** [case 24]: three packed bytes, the sign bit 23 extended by hand. *)
Definition sample24 (f : pcm_format) (data : list byte) : option (Z * list byte) :=
  match data with
  | b0 :: b1 :: b2 :: rest =>
      let mask := CInt.int32 (snd_pcm_format_silence_32 f) in
      let val :=
        if little_endian f then
          Z.lor (Z.lor (byte_val b0) (Z.shiftl (byte_val b1) 8)) (Z.shiftl (byte_val b2) 16)
        else
          Z.lor (Z.lor (Z.shiftl (byte_val b0) 16) (Z.shiftl (byte_val b1) 8)) (byte_val b2) in
      let val := Z.lxor val mask in
      let val :=
        if Z.land val (Z.shiftl 1 (physical_width f - 1)) =? 0 then val
        else Z.lor val (CInt.int32 (Z.shiftl 255 24)) in
      Some (CInt.abs val, rest)
  | _ => None
  end.

(** [case 32]: [0x80000000] has no absolute value and becomes
    [0x7fffffff]. *)
Definition sample32 (f : pcm_format) (data : list byte) : option (Z * list byte) :=
  match data with
  | b0 :: b1 :: b2 :: b3 :: rest =>
      let mask := CInt.int32 (snd_pcm_format_silence_32 f) in
      let raw :=
        if little_endian f then
          byte_val b0 + 256 * byte_val b1 + 65536 * byte_val b2 + 16777216 * byte_val b3
        else
          byte_val b3 + 256 * byte_val b2 + 65536 * byte_val b1 + 16777216 * byte_val b0 in
      let val := Z.lxor (CInt.int32 raw) mask in
      Some (if CInt.unsigned 32 val =? 2147483648 then CInt.INT_MAX else CInt.abs val, rest)
  | _ => None
  end.

(** The shared shape of the four loops: [c] is the channel index, which
    alternates only for the stereo meter. *)
Fixpoint scan (sample : list byte → option (Z * list byte)) (stereo : bool)
    (samples : nat) (data : list byte) (c : bool) (max_peak : Z * Z)
    : option (Z * Z) :=
  match samples with
  | O => Some max_peak
  | S samples' =>
      match sample data with
      | None => None
      | Some (val, data') =>
          let max_peak' :=
            if c then (max_peak.1, if max_peak.2 <? val then val else max_peak.2)
            else (if max_peak.1 <? val then val else max_peak.1, max_peak.2) in
          scan sample stereo samples' data' (if stereo then negb c else c) max_peak'
      end
  end.

(** The [switch (bits_per_sample)]: [None] is the [default:] label. *)
Definition decoder (f : pcm_format) : option (list byte → option (Z * list byte)) :=
  if physical_width f =? 8 then Some (sample8 f)
  else if physical_width f =? 16 then Some (sample16 f)
  else if physical_width f =? 24 then Some (sample24 f)
  else if physical_width f =? 32 then Some (sample32 f)
  else None.

(** [max = 1 << (significant_bits_per_sample-1); if (max <= 0) max =
    0x7fffffff;].  The shift is done on [int]: for 32 significant bits
    it lands on the sign bit. *)
Definition full_scale (f : pcm_format) : Z :=
  let max := CInt.int32 (Z.shiftl 1 (width f - 1)) in
  if max <=? 0 then CInt.INT_MAX else max.

(** [if (max_peak[c] > max) max_peak[c] = max;] *)
Definition clamp (max p : Z) : Z := if max <? p then max else p.

(** The percentage, coarser above 16 bits.  C's [/] truncates, and so
    does [Z.quot]. *)
Definition percent (f : pcm_format) (max p : Z) : Z :=
  if 16 <? physical_width f then Z.quot p (Z.quot max 100)
  else Z.quot (CInt.int32 (p * 100)) max.

(** Clamped peak and percentage of the channels the meter shows. *)
Definition levels (f : pcm_format) (stereo : bool) (max_peak : Z * Z)
    : list (Z * Z) :=
  let max := full_scale f in
  map (λ p, (clamp max p, percent f max (clamp max p)))
      (if stereo then [max_peak.1; max_peak.2] else [max_peak.1]).

End Peak.

(** ** Configuration, diagnostics and the program state *)

Inductive stream_t := SND_PCM_STREAM_PLAYBACK | SND_PCM_STREAM_CAPTURE.

Global Instance stream_eq_dec : EqDecision stream_t.
Proof. solve_decision. Defined.

(** The globals that are fixed once the options are parsed and the device
    has accepted the parameters.  [period_size] and [buffer_size] are what
    [snd_pcm_hw_params_get_period_size] and [_get_buffer_size] report in
    [set_params]. *)
Record config := Config {
  stream : stream_t;
  format : pcm_format;       (* hwparams.format *)
  channels : Z;              (* hwparams.channels *)
  rate : Z;                  (* hwparams.rate *)
  timelimit : Z;
  sampleslimit : Z;
  quiet_mode : bool;
  interleaved : bool;
  verbose : Z;
  vumeter_opt : vumeter_t;   (* vumeter as the options leave it *)
  test_position : bool;
  test_coef : Z;
  test_nowait : bool;
  max_file_time : Z;
  use_strftime : bool;
  pidfile_name : option string;
  period_size : Z;
  buffer_size : Z;
}.

(** The assignments at the end of [set_params]. *)
Definition chunk_size (cfg : config) : Z := period_size cfg.
Definition buffer_frames (cfg : config) : Z := buffer_size cfg.
Definition bits_per_sample (cfg : config) : Z := physical_width (format cfg).
Definition significant_bits_per_sample (cfg : config) : Z := width (format cfg).
Definition bits_per_frame (cfg : config) : Z := bits_per_sample cfg * channels cfg.
Definition chunk_bytes (cfg : config) : Z := chunk_size cfg * bits_per_frame cfg / 8.

(** "stereo VU-meter isn't always available..." *)
Definition vumeter (cfg : config) : vumeter_t :=
  match vumeter_opt cfg with
  | VUMETER_STEREO =>
      if negb (channels cfg =? 2) || negb (interleaved cfg) || (2 <? verbose cfg)
      then VUMETER_MONO else VUMETER_STEREO
  | v => v
  end.

Inductive suspicious_kind :=
  | Susp_position           (* "Suspicious buffer position" *)
  | Susp_status_position    (* "Suspicious status buffer position" *)
  | Susp_avail_gt_delay     (* "Suspicious buffer position avail > delay" *)
  | Susp_status_avail_gt_delay.

(** What the program prints on [stderr], one constructor per message. *)
Inductive event :=
  | Ev_aborted (sig : signal)
  | Ev_unsupported_bits (bits : Z)
  | Ev_vu_meter (perc : list Z) (maxperc : Z * Z)
  | Ev_max_peak (samples peak perc : Z)
  | Ev_suspicious (kind : suspicious_kind) (counter avail delay : Z)
  | Ev_bufpos (avgavail avgdelay minavail mindelay maxavail maxdelay : Z)
  | Ev_status_dump
  | Ev_header (name : string)
  | Ev_error (msg : string).

(** ALSA calls with no result the program looks at. *)
Inductive pcm_call := Pcm_close | Pcm_abort | Pcm_drain.

(** The arithmetic on [float] that [do_test_position] needs. *)
Record float_ops (F : Type) : Type := FloatOps {
  f_zero : F;                  (* 0 *)
  f_add : F → Z → F;           (* x += n, n a long *)
  f_incr : F → F;              (* x++ *)
  f_quot : F → F → Z;          (* (long)(x / y) *)
}.
Arguments f_zero {F} _.
Arguments f_add {F} _ _ _.
Arguments f_incr {F} _ _.
Arguments f_quot {F} _ _ _.

(** The [static] variables of [do_test_position]. *)
Record pos_state (F : Type) : Type := PosState {
  counter : Z;
  tmr : Z;
  availsum : F;
  delaysum : F;
  samples : F;
  maxavail : Z;
  maxdelay : Z;
  minavail : Z;
  mindelay : Z;
  badavail : Z;
  baddelay : Z;
}.
Arguments PosState {F}.
Arguments counter {F} _.
Arguments tmr {F} _.
Arguments availsum {F} _.
Arguments delaysum {F} _.
Arguments samples {F} _.
Arguments maxavail {F} _.
Arguments maxdelay {F} _.
Arguments minavail {F} _.
Arguments mindelay {F} _.
Arguments badavail {F} _.
Arguments baddelay {F} _.

(** The [static] variables of [compute_max_peak]. *)
Record meter_state := MeterState {
  run : bool;
  maxperc : Z * Z;
  meter_t : Z;
}.

Section Program.
Context {E F : Type} (ops : env_ops E) (fl : float_ops F).

(** The globals that change while the program runs, the files, and what
    the device has been given so far.
    - [sig_dfl]: the signals set back to [SIG_DFL];
    - [handle]: [handle != NULL];
    - [st_input]: the bytes not yet read from the playback input;
    - [st_fs]: the regular files, by path;
    - [delivered]: the bytes the device has accepted, in order;
    - [st_frames]: the frames the device has handed over to [readi].

    Each field has its setter. *)
Record state := State {
  st_env : E;
  in_aborting : bool;
  recycle_capture_file : bool;
  sig_dfl : list signal;
  handle : bool;
  pidfile_written : bool;
  audiobuf : list byte;
  fdcount : Z;
  pbrec_count : Z;
  max_file_size : Z;
  st_input : list byte;
  st_fs : gmap string (list byte);
  st_stdout : list byte;
  st_stderr : list event;
  meter : meter_state;
  pos : pos_state F;
  pcm_log : list pcm_call;
  delivered : list byte;
  st_frames : Z;
}.

Definition set_st_env (v : E) (s : state) : state :=
  {| st_env := v; in_aborting := in_aborting s;
     recycle_capture_file := recycle_capture_file s; sig_dfl := sig_dfl s;
     handle := handle s; pidfile_written := pidfile_written s;
     audiobuf := audiobuf s; fdcount := fdcount s;
     pbrec_count := pbrec_count s; max_file_size := max_file_size s;
     st_input := st_input s; st_fs := st_fs s; st_stdout := st_stdout s;
     st_stderr := st_stderr s; meter := meter s; pos := pos s;
     pcm_log := pcm_log s; delivered := delivered s;
     st_frames := st_frames s |}.
Definition set_in_aborting (v : bool) (s : state) : state :=
  {| st_env := st_env s; in_aborting := v;
     recycle_capture_file := recycle_capture_file s; sig_dfl := sig_dfl s;
     handle := handle s; pidfile_written := pidfile_written s;
     audiobuf := audiobuf s; fdcount := fdcount s;
     pbrec_count := pbrec_count s; max_file_size := max_file_size s;
     st_input := st_input s; st_fs := st_fs s; st_stdout := st_stdout s;
     st_stderr := st_stderr s; meter := meter s; pos := pos s;
     pcm_log := pcm_log s; delivered := delivered s;
     st_frames := st_frames s |}.
Definition set_recycle_capture_file (v : bool) (s : state) : state :=
  {| st_env := st_env s; in_aborting := in_aborting s;
     recycle_capture_file := v; sig_dfl := sig_dfl s; handle := handle s;
     pidfile_written := pidfile_written s; audiobuf := audiobuf s;
     fdcount := fdcount s; pbrec_count := pbrec_count s;
     max_file_size := max_file_size s; st_input := st_input s;
     st_fs := st_fs s; st_stdout := st_stdout s; st_stderr := st_stderr s;
     meter := meter s; pos := pos s; pcm_log := pcm_log s;
     delivered := delivered s; st_frames := st_frames s |}.
Definition set_sig_dfl (v : list signal) (s : state) : state :=
  {| st_env := st_env s; in_aborting := in_aborting s;
     recycle_capture_file := recycle_capture_file s; sig_dfl := v;
     handle := handle s; pidfile_written := pidfile_written s;
     audiobuf := audiobuf s; fdcount := fdcount s;
     pbrec_count := pbrec_count s; max_file_size := max_file_size s;
     st_input := st_input s; st_fs := st_fs s; st_stdout := st_stdout s;
     st_stderr := st_stderr s; meter := meter s; pos := pos s;
     pcm_log := pcm_log s; delivered := delivered s;
     st_frames := st_frames s |}.
Definition set_handle (v : bool) (s : state) : state :=
  {| st_env := st_env s; in_aborting := in_aborting s;
     recycle_capture_file := recycle_capture_file s; sig_dfl := sig_dfl s;
     handle := v; pidfile_written := pidfile_written s;
     audiobuf := audiobuf s; fdcount := fdcount s;
     pbrec_count := pbrec_count s; max_file_size := max_file_size s;
     st_input := st_input s; st_fs := st_fs s; st_stdout := st_stdout s;
     st_stderr := st_stderr s; meter := meter s; pos := pos s;
     pcm_log := pcm_log s; delivered := delivered s;
     st_frames := st_frames s |}.
Definition set_pidfile_written (v : bool) (s : state) : state :=
  {| st_env := st_env s; in_aborting := in_aborting s;
     recycle_capture_file := recycle_capture_file s; sig_dfl := sig_dfl s;
     handle := handle s; pidfile_written := v; audiobuf := audiobuf s;
     fdcount := fdcount s; pbrec_count := pbrec_count s;
     max_file_size := max_file_size s; st_input := st_input s;
     st_fs := st_fs s; st_stdout := st_stdout s; st_stderr := st_stderr s;
     meter := meter s; pos := pos s; pcm_log := pcm_log s;
     delivered := delivered s; st_frames := st_frames s |}.
Definition set_audiobuf (v : list byte) (s : state) : state :=
  {| st_env := st_env s; in_aborting := in_aborting s;
     recycle_capture_file := recycle_capture_file s; sig_dfl := sig_dfl s;
     handle := handle s; pidfile_written := pidfile_written s; audiobuf := v;
     fdcount := fdcount s; pbrec_count := pbrec_count s;
     max_file_size := max_file_size s; st_input := st_input s;
     st_fs := st_fs s; st_stdout := st_stdout s; st_stderr := st_stderr s;
     meter := meter s; pos := pos s; pcm_log := pcm_log s;
     delivered := delivered s; st_frames := st_frames s |}.
Definition set_fdcount (v : Z) (s : state) : state :=
  {| st_env := st_env s; in_aborting := in_aborting s;
     recycle_capture_file := recycle_capture_file s; sig_dfl := sig_dfl s;
     handle := handle s; pidfile_written := pidfile_written s;
     audiobuf := audiobuf s; fdcount := v; pbrec_count := pbrec_count s;
     max_file_size := max_file_size s; st_input := st_input s;
     st_fs := st_fs s; st_stdout := st_stdout s; st_stderr := st_stderr s;
     meter := meter s; pos := pos s; pcm_log := pcm_log s;
     delivered := delivered s; st_frames := st_frames s |}.
Definition set_pbrec_count (v : Z) (s : state) : state :=
  {| st_env := st_env s; in_aborting := in_aborting s;
     recycle_capture_file := recycle_capture_file s; sig_dfl := sig_dfl s;
     handle := handle s; pidfile_written := pidfile_written s;
     audiobuf := audiobuf s; fdcount := fdcount s; pbrec_count := v;
     max_file_size := max_file_size s; st_input := st_input s;
     st_fs := st_fs s; st_stdout := st_stdout s; st_stderr := st_stderr s;
     meter := meter s; pos := pos s; pcm_log := pcm_log s;
     delivered := delivered s; st_frames := st_frames s |}.
Definition set_max_file_size (v : Z) (s : state) : state :=
  {| st_env := st_env s; in_aborting := in_aborting s;
     recycle_capture_file := recycle_capture_file s; sig_dfl := sig_dfl s;
     handle := handle s; pidfile_written := pidfile_written s;
     audiobuf := audiobuf s; fdcount := fdcount s;
     pbrec_count := pbrec_count s; max_file_size := v;
     st_input := st_input s; st_fs := st_fs s; st_stdout := st_stdout s;
     st_stderr := st_stderr s; meter := meter s; pos := pos s;
     pcm_log := pcm_log s; delivered := delivered s;
     st_frames := st_frames s |}.
Definition set_st_input (v : list byte) (s : state) : state :=
  {| st_env := st_env s; in_aborting := in_aborting s;
     recycle_capture_file := recycle_capture_file s; sig_dfl := sig_dfl s;
     handle := handle s; pidfile_written := pidfile_written s;
     audiobuf := audiobuf s; fdcount := fdcount s;
     pbrec_count := pbrec_count s; max_file_size := max_file_size s;
     st_input := v; st_fs := st_fs s; st_stdout := st_stdout s;
     st_stderr := st_stderr s; meter := meter s; pos := pos s;
     pcm_log := pcm_log s; delivered := delivered s;
     st_frames := st_frames s |}.
Definition set_st_fs (v : gmap string (list byte)) (s : state) : state :=
  {| st_env := st_env s; in_aborting := in_aborting s;
     recycle_capture_file := recycle_capture_file s; sig_dfl := sig_dfl s;
     handle := handle s; pidfile_written := pidfile_written s;
     audiobuf := audiobuf s; fdcount := fdcount s;
     pbrec_count := pbrec_count s; max_file_size := max_file_size s;
     st_input := st_input s; st_fs := v; st_stdout := st_stdout s;
     st_stderr := st_stderr s; meter := meter s; pos := pos s;
     pcm_log := pcm_log s; delivered := delivered s;
     st_frames := st_frames s |}.
Definition set_st_stdout (v : list byte) (s : state) : state :=
  {| st_env := st_env s; in_aborting := in_aborting s;
     recycle_capture_file := recycle_capture_file s; sig_dfl := sig_dfl s;
     handle := handle s; pidfile_written := pidfile_written s;
     audiobuf := audiobuf s; fdcount := fdcount s;
     pbrec_count := pbrec_count s; max_file_size := max_file_size s;
     st_input := st_input s; st_fs := st_fs s; st_stdout := v;
     st_stderr := st_stderr s; meter := meter s; pos := pos s;
     pcm_log := pcm_log s; delivered := delivered s;
     st_frames := st_frames s |}.
Definition set_st_stderr (v : list event) (s : state) : state :=
  {| st_env := st_env s; in_aborting := in_aborting s;
     recycle_capture_file := recycle_capture_file s; sig_dfl := sig_dfl s;
     handle := handle s; pidfile_written := pidfile_written s;
     audiobuf := audiobuf s; fdcount := fdcount s;
     pbrec_count := pbrec_count s; max_file_size := max_file_size s;
     st_input := st_input s; st_fs := st_fs s; st_stdout := st_stdout s;
     st_stderr := v; meter := meter s; pos := pos s; pcm_log := pcm_log s;
     delivered := delivered s; st_frames := st_frames s |}.
Definition set_meter (v : meter_state) (s : state) : state :=
  {| st_env := st_env s; in_aborting := in_aborting s;
     recycle_capture_file := recycle_capture_file s; sig_dfl := sig_dfl s;
     handle := handle s; pidfile_written := pidfile_written s;
     audiobuf := audiobuf s; fdcount := fdcount s;
     pbrec_count := pbrec_count s; max_file_size := max_file_size s;
     st_input := st_input s; st_fs := st_fs s; st_stdout := st_stdout s;
     st_stderr := st_stderr s; meter := v; pos := pos s;
     pcm_log := pcm_log s; delivered := delivered s;
     st_frames := st_frames s |}.
Definition set_pos (v : pos_state F) (s : state) : state :=
  {| st_env := st_env s; in_aborting := in_aborting s;
     recycle_capture_file := recycle_capture_file s; sig_dfl := sig_dfl s;
     handle := handle s; pidfile_written := pidfile_written s;
     audiobuf := audiobuf s; fdcount := fdcount s;
     pbrec_count := pbrec_count s; max_file_size := max_file_size s;
     st_input := st_input s; st_fs := st_fs s; st_stdout := st_stdout s;
     st_stderr := st_stderr s; meter := meter s; pos := v;
     pcm_log := pcm_log s; delivered := delivered s;
     st_frames := st_frames s |}.
Definition set_pcm_log (v : list pcm_call) (s : state) : state :=
  {| st_env := st_env s; in_aborting := in_aborting s;
     recycle_capture_file := recycle_capture_file s; sig_dfl := sig_dfl s;
     handle := handle s; pidfile_written := pidfile_written s;
     audiobuf := audiobuf s; fdcount := fdcount s;
     pbrec_count := pbrec_count s; max_file_size := max_file_size s;
     st_input := st_input s; st_fs := st_fs s; st_stdout := st_stdout s;
     st_stderr := st_stderr s; meter := meter s; pos := pos s; pcm_log := v;
     delivered := delivered s; st_frames := st_frames s |}.
Definition set_delivered (v : list byte) (s : state) : state :=
  {| st_env := st_env s; in_aborting := in_aborting s;
     recycle_capture_file := recycle_capture_file s; sig_dfl := sig_dfl s;
     handle := handle s; pidfile_written := pidfile_written s;
     audiobuf := audiobuf s; fdcount := fdcount s;
     pbrec_count := pbrec_count s; max_file_size := max_file_size s;
     st_input := st_input s; st_fs := st_fs s; st_stdout := st_stdout s;
     st_stderr := st_stderr s; meter := meter s; pos := pos s;
     pcm_log := pcm_log s; delivered := v; st_frames := st_frames s |}.
Definition set_st_frames (v : Z) (s : state) : state :=
  {| st_env := st_env s; in_aborting := in_aborting s;
     recycle_capture_file := recycle_capture_file s; sig_dfl := sig_dfl s;
     handle := handle s; pidfile_written := pidfile_written s;
     audiobuf := audiobuf s; fdcount := fdcount s;
     pbrec_count := pbrec_count s; max_file_size := max_file_size s;
     st_input := st_input s; st_fs := st_fs s; st_stdout := st_stdout s;
     st_stderr := st_stderr s; meter := meter s; pos := pos s;
     pcm_log := pcm_log s; delivered := delivered s; st_frames := v |}.

(** *** Results: return, [exit], death by signal *)

(** [Stuck] stands for a loop that used up its fuel and for what C leaves
    undefined (a read past the end of a buffer). *)
Inductive result (A : Type) : Type :=
  | Ret (a : A) (s : state)
  | Exit (code : Z) (s : state)
  | Killed (sig : signal) (s : state)
  | Stuck.
Arguments Ret {A} _ _.
Arguments Exit {A} _ _.
Arguments Killed {A} _ _.
Arguments Stuck {A}.

Definition M (A : Type) : Type := state → result A.

Definition ret {A} (a : A) : M A := λ s, Ret a s.

Definition bind {A B} (m : M A) (k : A → M B) : M B :=
  λ s, match m s with
       | Ret a s' => k a s'
       | Exit code s' => Exit code s'
       | Killed sig s' => Killed sig s'
       | Stuck => Stuck
       end.

Notation "x <~ m ; k" := (bind m (λ x, k))
  (at level 20, m at level 100, k at level 200, only parsing).
Notation "' x <~ m ; k" := (bind m (λ x, k))
  (at level 20, x pattern, m at level 100, k at level 200, only parsing).
Notation "m ;~ k" := (bind m (λ _, k))
  (at level 100, k at level 200, only parsing, right associativity).

Definition get : M state := λ s, Ret s s.
Definition modify (f : state → state) : M unit := λ s, Ret tt (f s).
Definition when (b : bool) (m : M unit) : M unit := if b then m else ret tt.
Definition stuck {A} : M A := λ _, Stuck.

(** A call into the environment. *)
Definition call {A} (op : E → A * E) : M A :=
  λ s, let '(a, e') := op (st_env s) in Ret a (set_st_env e' s).

Definition fprintf_stderr (ev : event) : M unit :=
  modify (λ s, set_st_stderr (st_stderr s ++ [ev]) s).

(** [putchar(c)].  The program only ever prints a newline this way, and
    [stdout] is taken to be a terminal, where [stdio] writes a line out
    at its newline: the byte is in [st_stdout] at once.  With [stdout] a
    pipe or a file, [stdio] would hold the byte until [exit], behind what
    [write] has put there in the meantime. *)
Definition putchar (b : byte) : M unit :=
  modify (λ s, set_st_stdout (st_stdout s ++ [b]) s).

Definition pcm (c : pcm_call) : M unit :=
  modify (λ s, set_pcm_log (pcm_log s ++ [c]) s).

(** *** [prg_exit] and the signal handlers *)

Section WithConfig.
Variable cfg : config.

(** [remove(path)] and [rename(old, new)] on regular files. *)
Definition fs_remove (path : string) : M unit :=
  modify (λ s, set_st_fs (delete path (st_fs s)) s).

Definition fs_rename (old new : string) : M unit :=
  modify (λ s, match st_fs s !! old with
               | Some content => set_st_fs (<[new := content]> (delete old (st_fs s))) s
               | None => s
               end).

(** "Subroutine to clean up before exit."  [done_stdin] returns at once
    when the program is not interactive. *)
Definition prg_exit {A} (code : Z) : M A :=
  λ s,
    let s := if handle s then set_pcm_log (pcm_log s ++ [Pcm_close]) s else s in
    let s :=
      if pidfile_written s then
        match pidfile_name cfg with
        | Some name => set_st_fs (delete name (st_fs s)) s
        | None => s
        end
      else s in
    Exit code s.

Definition signal_handler (sig : signal) : M unit :=
  s <~ get ;
  if in_aborting s then ret tt
  else
    modify (set_in_aborting true) ;~
    when (verbose cfg =? 2) (putchar x0a) ;~
    when (negb (quiet_mode cfg)) (fprintf_stderr (Ev_aborted sig)) ;~
    when (handle s) (pcm Pcm_abort) ;~
    if decide (sig = SIGABRT) then
      (* do not call snd_pcm_close() and abort immediately *)
      modify (set_handle false) ;~
      prg_exit EXIT_FAILURE
    else
      modify (λ s, set_sig_dfl (sig :: sig_dfl s) s).

(** "call on SIGUSR1 signal." *)
Definition signal_handler_recycle : M unit :=
  modify (set_recycle_capture_file true).

(** The kernel delivers [sig]: the default action of all four signals is
    to end the process; [main] installs [signal_handler] for the first
    three and [signal_handler_recycle] for [SIGUSR1]. *)
Definition deliver (sig : signal) : M unit :=
  s <~ get ;
  if decide (sig ∈ sig_dfl s) then (λ s, Killed sig s)
  else if decide (sig = SIGUSR1) then signal_handler_recycle
  else signal_handler sig.

Fixpoint deliver_all (sigs : list signal) : M unit :=
  match sigs with
  | [] => ret tt
  | sig :: sigs' => deliver sig ;~ deliver_all sigs'
  end.

(** A blocking call, followed by the handlers of the signals that came
    in while it was in progress.  The program spends its time in these
    calls, and this is where the development lets the signals arrive: a
    signal that the kernel delivers between two statements of the
    program, such as between [snd_pcm_close(handle)] and [handle = NULL]
    in [main] or right after a test of [in_aborting], is not part of it.
    What is proved about signals is proved about the signals that arrive
    during a call of [read], [write], [readi_func] or [writei_func]. *)
Definition blocking {A} (op : E → A * E) : M A :=
  a <~ call op ;
  sigs <~ call (signals ops) ;
  deliver_all sigs ;~
  ret a.

(** *** [compute_max_peak] *)

(** "peak handler".  [data] is the buffer from the pointer on and
    [nsamples] the number of samples to look at. *)
Definition compute_max_peak (data : list byte) (nsamples : Z) : M unit :=
  let stereo := bool_decide (vumeter cfg = VUMETER_STEREO) in
  match Peak.decoder (format cfg) with
  | None =>
      (* default: *)
      s <~ get ;
      when (negb (run (meter s)))
        (fprintf_stderr (Ev_unsupported_bits (CInt.int32 (bits_per_sample cfg))) ;~
         modify (λ s, set_meter (MeterState true (maxperc (meter s)) (meter_t (meter s))) s))
  | Some sample =>
      match Peak.scan sample stereo (Z.to_nat nsamples) data false (0, 0) with
      | None => stuck
      | Some max_peak =>
          let lv := Peak.levels (format cfg) stereo max_peak in
          let perc := lv.*2 in
          if interleaved cfg && (verbose cfg <=? 2) then
            tt_ <~ call (time ops) ;
            s <~ get ;
            let m := meter s in
            let m := if meter_t m <? tt_ then MeterState (run m) (0, 0) tt_ else m in
            let mp0 := if (maxperc m).1 <? perc !!! 0%nat then perc !!! 0%nat else (maxperc m).1 in
            let mp1 := if stereo && ((maxperc m).2 <? perc !!! 1%nat) then perc !!! 1%nat else (maxperc m).2 in
            modify (set_meter (MeterState (run m) (mp0, mp1) (meter_t m))) ;~
            fprintf_stderr (Ev_vu_meter perc (mp0, mp1))
          else if verbose cfg =? 3 then
            fprintf_stderr (Ev_max_peak nsamples (lv.*1 !!! 0%nat) (perc !!! 0%nat))
          else ret tt
      end
  end.

(** The calls of the meter in the order the transfer loops make them,
    each with its buffer and its number of samples. *)
Fixpoint meter_calls (calls : list (list byte * Z)) : M unit :=
  match calls with
  | [] => ret tt
  | (data, nsamples) :: calls' =>
      compute_max_peak data nsamples ;~ meter_calls calls'
  end.

(** *** [do_test_position] *)

Definition reset_accumulators (p : pos_state F) : pos_state F :=
  PosState (counter p) (tmr p) (f_zero fl) (f_zero fl) (f_zero fl)
    0 0
    (CInt.int64 (CInt.size_t (buffer_frames cfg * 16)))
    (CInt.int64 (CInt.size_t (buffer_frames cfg * 16)))
    (badavail p) (baddelay p).

Definition set_bad (avail delay : Z) (p : pos_state F) : pos_state F :=
  PosState (counter p) (tmr p) (availsum p) (delaysum p) (samples p)
    (maxavail p) (maxdelay p) (minavail p) (mindelay p) avail delay.

Definition incr_counter (p : pos_state F) : pos_state F :=
  PosState (CInt.int64 (counter p + 1)) (tmr p) (availsum p) (delaysum p) (samples p)
    (maxavail p) (maxdelay p) (minavail p) (mindelay p) (badavail p) (baddelay p).

(** [fprintf(stderr, "Suspicious ... (%li total)", ++counter, ...)]. *)
Definition suspicious (kind : suspicious_kind) (avail delay : Z) : M unit :=
  modify (λ s, set_pos (incr_counter (pos s)) s) ;~
  s <~ get ;
  fprintf_stderr (Ev_suspicious kind (counter (pos s)) avail delay).

(** The envelope: [(test_coef * (snd_pcm_sframes_t)buffer_frames) / 2]. *)
Definition outofrange : Z :=
  Z.quot (CInt.int64 (test_coef cfg * CInt.int64 (buffer_frames cfg))) 2.

Definition out_of_range (x : Z) : bool :=
  (outofrange <? x) || (x <? CInt.int64 (- outofrange)).

(** The [else if (verbose)] branch: the running statistics. *)
Definition accumulate (avail delay savail sdelay now : Z) (p : pos_state F)
    : pos_state F * option event :=
  let p :=
    if tmr p =? -1 then
      reset_accumulators
        (PosState (counter p) now (availsum p) (delaysum p) (samples p)
           (maxavail p) (maxdelay p) (minavail p) (mindelay p) (badavail p) (baddelay p))
    else p in
  let maxavail' := if maxavail p <? avail then avail else maxavail p in
  let maxavail' := if maxavail' <? savail then savail else maxavail' in
  let maxdelay' := if maxdelay p <? delay then delay else maxdelay p in
  let maxdelay' := if maxdelay' <? sdelay then sdelay else maxdelay' in
  let minavail' := if avail <? minavail p then avail else minavail p in
  let minavail' := if savail <? minavail' then savail else minavail' in
  let mindelay' := if delay <? mindelay p then delay else mindelay p in
  let mindelay' := if sdelay <? mindelay' then sdelay else mindelay' in
  let availsum' := f_add fl (availsum p) avail in
  let delaysum' := f_add fl (delaysum p) delay in
  let samples' := f_incr fl (samples p) in
  let print := (negb (maxavail' =? 0) || negb (maxdelay' =? 0)) && negb (now =? tmr p) in
  (PosState (counter p) (if print then now else tmr p) availsum' delaysum' samples'
     maxavail' maxdelay' minavail' mindelay' (badavail p) (baddelay p),
   if print then
     Some (Ev_bufpos (f_quot fl availsum' samples') (f_quot fl delaysum' samples')
             minavail' mindelay' maxavail' maxdelay')
   else None).

Definition do_test_position : M unit :=
  ad <~ call (avail_delay ops) ;
  match ad with
  | None => ret tt                        (* err < 0: return *)
  | Some (avail, delay) =>
      st <~ call (status ops) ;
      match st with
      | None => ret tt
      | Some (savail, sdelay) =>
          (if out_of_range avail || out_of_range delay then
             modify (λ s, set_pos (reset_accumulators (set_bad avail delay (pos s))) s) ;~
             suspicious Susp_position avail delay
           else if out_of_range savail || out_of_range sdelay then
             modify (λ s, set_pos (reset_accumulators (set_bad savail sdelay (pos s))) s) ;~
             suspicious Susp_status_position savail sdelay
           else if bool_decide (stream cfg = SND_PCM_STREAM_CAPTURE) && (delay <? avail) then
             suspicious Susp_avail_gt_delay avail delay
           else if bool_decide (stream cfg = SND_PCM_STREAM_CAPTURE) && (sdelay <? savail) then
             suspicious Susp_status_avail_gt_delay savail sdelay
           else if negb (verbose cfg =? 0) then
             now <~ call (time ops) ;
             s <~ get ;
             let '(p, ev) := accumulate avail delay savail sdelay now (pos s) in
             modify (set_pos p) ;~
             match ev with Some ev => fprintf_stderr ev | None => ret tt end
           else ret tt) ;~
          when (verbose cfg =? 1) (fprintf_stderr Ev_status_dump)
      end
  end.

(** *** The transfer loop: [pcm_write] and [pcm_read] *)

(** [n * bits_per_frame / 8]: frames to bytes. *)
Definition frame_bytes (n : Z) : Z := n * bits_per_frame cfg / 8.

(** [check_stdin] returns at once when [interactive] is 0, and the
    interactive mode is left out of this development. *)
Definition check_stdin : M unit := ret tt.

(** "I/O error handler" and "I/O suspend handler": they return when the
    device could be prepared again and end in [prg_exit] otherwise. *)
Definition xrun : M unit :=
  ok <~ call (recover_xrun ops) ;
  if ok then ret tt else prg_exit EXIT_FAILURE.

Definition suspend : M unit :=
  ok <~ call (resume ops) ;
  if ok then ret tt else prg_exit EXIT_FAILURE.

Definition snd_pcm_wait : M unit :=
  modify (λ s, set_st_env (pcm_wait ops (st_env s)) s).

(** What follows a transfer call that returned [r] with [count] frames
    asked for. *)
Definition after_transfer (what : string) (r count : Z) : M unit :=
  if (r =? - EAGAIN) || ((0 <=? r) && (r <? count)) then
    when (negb (test_nowait cfg)) snd_pcm_wait
  else if r =? - EPIPE then xrun
  else if r =? - ESTRPIPE then suspend
  else if r <? 0 then
    fprintf_stderr (Ev_error what) ;~ prg_exit EXIT_FAILURE
  else ret tt.

(** [r = writei_func(handle, data, count)]: the device takes the first
    [r] frames at [data] when [r > 0]. *)
Definition call_writei (data count : Z) : M Z :=
  s <~ get ;
  let buf := drop (Z.to_nat data) (audiobuf s) in
  r <~ blocking (λ e, writei ops e buf count) ;
  when (0 <? r)
    (modify (λ s, set_delivered
                    (delivered s ++ take (Z.to_nat (frame_bytes r)) buf) s)) ;~
  ret r.

(** The [while (count > 0 && !in_aborting)] loop of [pcm_write]; [data]
    is the offset of the pointer in [audiobuf]. *)
Fixpoint pcm_write_loop (fuel : nat) (data count result : Z) : M Z :=
  s <~ get ;
  if (0 <? count) && negb (in_aborting s) then
    match fuel with
    | O => stuck
    | S fuel' =>
        when (test_position cfg) do_test_position ;~
        check_stdin ;~
        r <~ call_writei data count ;
        when (test_position cfg) do_test_position ;~
        after_transfer "write error" r count ;~
        if 0 <? r then
          s <~ get ;
          when (negb (bool_decide (vumeter cfg = VUMETER_NONE)))
            (compute_max_peak (drop (Z.to_nat data) (audiobuf s)) (r * channels cfg)) ;~
          pcm_write_loop fuel' (data + frame_bytes r) (CInt.size_t (count - r)) (result + r)
        else pcm_write_loop fuel' data count result
    end
  else ret result.

(** "write function".  The program is taken without a channel map, where
    [remap_data(data, count)] is [(data)]. *)
Definition pcm_write (fuel : nat) (data count : Z) : M Z :=
  count <~
    (if count <? chunk_size cfg then
       modify (λ s, set_audiobuf
                      (snd_pcm_format_set_silence (format cfg) (audiobuf s)
                         (Z.to_nat (data + frame_bytes count))
                         (Z.to_nat (CInt.unsigned 32 ((chunk_size cfg - count) * channels cfg))))
                      s) ;~
       ret (chunk_size cfg)
     else ret count) ;
  pcm_write_loop fuel data count 0.

(** [r = readi_func(handle, data, count)]: the device puts [r] frames at
    [data] when [r > 0]. *)
Definition call_readi (data count : Z) : M Z :=
  '(r, bytes) <~ blocking (λ e, readi ops e count) ;
  when (0 <? r)
    (modify (λ s, set_st_frames (st_frames s + r)
                    (set_audiobuf
                       (store (audiobuf s) (Z.to_nat data)
                          (take (Z.to_nat (frame_bytes r)) bytes)) s))) ;~
  ret r.

(** The [while (count > 0)] loop of [pcm_read] with its [goto abort];
    the value is the local [result]. *)
Fixpoint pcm_read_loop (fuel : nat) (data count result : Z) : M Z :=
  s <~ get ;
  if 0 <? count then
    if in_aborting s then ret result
    else
      match fuel with
      | O => stuck
      | S fuel' =>
          when (test_position cfg) do_test_position ;~
          check_stdin ;~
          r <~ call_readi data count ;
          when (test_position cfg) do_test_position ;~
          after_transfer "read error" r count ;~
          if 0 <? r then
            s <~ get ;
            when (negb (bool_decide (vumeter cfg = VUMETER_NONE)))
              (compute_max_peak (drop (Z.to_nat data) (audiobuf s)) (r * channels cfg)) ;~
            pcm_read_loop fuel' (data + frame_bytes r) (CInt.size_t (count - r)) (result + r)
          else pcm_read_loop fuel' data count result
      end
  else ret result.

(** "read function": both ways out of the loop end in [return rcount]. *)
Definition pcm_read (fuel : nat) (data rcount : Z) : M Z :=
  let count := if negb (rcount =? chunk_size cfg) then chunk_size cfg else rcount in
  result <~ pcm_read_loop fuel data count 0 ;
  ret rcount.

(** *** Playback *)

(** "Safe read (for pipes)": [buf] is the offset in [audiobuf]. *)
Fixpoint safe_read_loop (fuel : nat) (buf count result : Z) : M Z :=
  s <~ get ;
  if (0 <? count) && negb (in_aborting s) then
    match fuel with
    | O => stuck
    | S fuel' =>
        res <~ blocking (λ e, sys_read ops e count (Z.of_nat (length (st_input s)))) ;
        if res =? 0 then ret result
        else if res <? 0 then ret (if 0 <? result then result else res)
        else
          modify (λ s, set_audiobuf
                         (store (audiobuf s) (Z.to_nat buf)
                            (take (Z.to_nat res) (st_input s)))
                         (set_st_input (drop (Z.to_nat res) (st_input s)) s)) ;~
          safe_read_loop fuel' (buf + res) (CInt.size_t (count - res)) (result + res)
    end
  else ret result.

Definition safe_read (fuel : nat) (buf count : Z) : M Z :=
  safe_read_loop fuel buf count 0.

Definition header (name : string) : M unit :=
  when (negb (quiet_mode cfg)) (fprintf_stderr (Ev_header name)).

(** [set_params]: the negotiation with the device is ALSA's and is taken
    to succeed with the period and buffer sizes of [cfg]; what is left is
    the check on those two and the new size of [audiobuf], whose fresh
    bytes are unspecified and read as zero here. *)
Definition set_params : M unit :=
  if chunk_size cfg =? buffer_size cfg then
    fprintf_stderr (Ev_error "Can't use period equal to buffer size") ;~
    prg_exit EXIT_FAILURE
  else
    modify (λ s, set_audiobuf (resize (Z.to_nat (chunk_bytes cfg)) x00 (audiobuf s)) s).

(** "calculate the data count to read from/to dsp" *)
Definition calc_count : M Z :=
  s <~ get ;
  let count :=
    if timelimit cfg =? 0 then
      if sampleslimit cfg =? 0 then pbrec_count s
      else snd_pcm_format_size (format cfg)
             (CInt.unsigned 32 (sampleslimit cfg * channels cfg))
    else
      CInt.int64 (snd_pcm_format_size (format cfg)
                    (CInt.unsigned 32 (rate cfg * channels cfg))
                  * timelimit cfg) in
  ret (if count <? pbrec_count s then count else pbrec_count s).

(** The first loop of [playback_go], over the bytes loaded before the
    call; [None] is its [return]. *)
Fixpoint playback_loaded (fuel : nat) (loaded written count : Z) : M (option (Z * Z)) :=
  s <~ get ;
  if (chunk_bytes cfg <? loaded) && (written <? count) && negb (in_aborting s) then
    match fuel with
    | O => stuck
    | S fuel' =>
        r <~ pcm_write fuel written (chunk_size cfg) ;
        if r <=? 0 then ret None
        else playback_loaded fuel' (CInt.size_t (loaded - chunk_bytes cfg))
               (written + chunk_bytes cfg) count
    end
  else ret (Some (loaded, written)).

(** The [do ... while ((size_t)l < chunk_bytes)] loop that fills
    [audiobuf] from the input; the value is [l]. *)
Fixpoint playback_fill (fuel : nat) (name : string) (l written count : Z) : M Z :=
  match fuel with
  | O => stuck
  | S fuel' =>
      let c := count - written in
      let c := if chunk_bytes cfg <? c then chunk_bytes cfg else c in
      (* c < l, there is more data loaded then we actually need to write *)
      let l := if c <? l then CInt.int32 c else l in
      let c := c - l in
      if c =? 0 then ret l
      else
        r <~ safe_read fuel l c ;
        let r := CInt.int32 r in
        if r <? 0 then
          fprintf_stderr (Ev_error name) ;~ prg_exit EXIT_FAILURE
        else
          modify (λ s, set_fdcount (fdcount s + r) s) ;~
          if r =? 0 then ret l
          else
            let l := CInt.int32 (l + r) in
            if CInt.size_t l <? chunk_bytes cfg then playback_fill fuel' name l written count
            else ret l
  end.

(** The second loop of [playback_go]. *)
Fixpoint playback_chunks (fuel : nat) (name : string) (l written count : Z) : M unit :=
  s <~ get ;
  if (written <? count) && negb (in_aborting s) then
    match fuel with
    | O => stuck
    | S fuel' =>
        l <~ playback_fill fuel name l written count ;
        let l := CInt.int32 (CInt.size_t (CInt.int32 (l * 8)) / bits_per_frame cfg) in
        r <~ pcm_write fuel 0 (CInt.size_t l) ;
        let r := CInt.int32 r in
        if negb (r =? l) then ret tt
        else
          let r := CInt.int32 (CInt.size_t r * bits_per_frame cfg / 8) in
          playback_chunks fuel' name 0 (written + r) count
    end
  else ret tt.

(** "playing raw data" *)
Definition playback_go (fuel : nat) (loaded count : Z) (name : string) : M unit :=
  header name ;~
  set_params ;~
  lw <~ playback_loaded fuel loaded 0 count ;
  match lw with
  | None => ret tt
  | Some (loaded, written) =>
      when ((0 <? written) && (0 <? loaded))
        (modify (λ s, set_audiobuf
                        (store (audiobuf s) 0
                           (take (Z.to_nat loaded) (drop (Z.to_nat written) (audiobuf s))))
                        s)) ;~
      playback_chunks fuel name (CInt.int32 loaded) written count ;~
      s <~ get ;
      when (negb (in_aborting s)) (pcm Pcm_drain)
  end.

(** [init_raw_data] copies [rhwparams], which [cfg] already holds. *)
Definition playback_raw (fuel : nat) (name : string) (loaded : Z) : M Z :=
  count <~ calc_count ;
  modify (set_pbrec_count count) ;~
  playback_go fuel loaded count name ;~
  ret 0.

(** [playback(name)]: [None] is the null pointer.  The input behind
    [stdin] is [st_input] as the program finds it; a named file is read
    from [st_fs]. *)
Definition playback (fuel : nat) (name : option string) : M unit :=
  modify (set_pbrec_count CInt.LLONG_MAX) ;~
  modify (set_fdcount 0) ;~
  name <~
    (match name with
     | None => ret "stdin"%string
     | Some n =>
         if String.eqb n "-" then ret "stdin"%string
         else
           s <~ get ;
           match st_fs s !! n with
           | Some content => modify (set_st_input content) ;~ ret n
           | None => fprintf_stderr (Ev_error n) ;~ prg_exit EXIT_FAILURE
           end
     end) ;
  playback_raw fuel name 0 ;~
  ret tt.

(** *** Capture file names *)

Definition PATH_MAX : Z := 4096.

(** [sprintf(s, "%02d", n)] and the [%02i] of [snprintf]: the decimal
    digits of [n], padded with zeros on the left to two characters. *)
Definition sprintf_02d (n : Z) : string :=
  let digits := pretty n in
  if (String.length digits <? 2)%nat then ("0" +:+ digits)%string else digits.

(** [snprintf(namebuf, namelen, ...)] keeps [namelen - 1] characters. *)
Definition snprintf (namelen : Z) (text : string) : string :=
  String.substring 0 (Z.to_nat (namelen - 1)) text.

(** The [for] loop of [mystrftime] over [userformat]: [format] is the
    text written to [formatstring] so far.  The fixed size of
    [formatstring] is left out. *)
Fixpoint mystrftime_format (userformat : string) (format : string)
    (filenumber : Z) : string :=
  match userformat with
  | EmptyString => format
  | String "%" rest =>
      match rest with
      | EmptyString =>
          (* case '\0': end of string; the '%' itself is copied *)
          (format +:+ "%")%string
      | String "v" rest' =>
          (* file number *)
          mystrftime_format rest' (format +:+ sprintf_02d filenumber) filenumber
      | String ch rest' =>
          (* All other codes will be handled by strftime *)
          mystrftime_format rest' (format +:+ String "%" (String ch EmptyString)) filenumber
      end
  | String ch rest =>
      (* For any other character than % we simply copy the character *)
      mystrftime_format rest (format +:+ String ch EmptyString) filenumber
  end.

(** [mystrftime(s, max, userformat, tm, filenumber)] with [tm] the local
    time at [t]: the value returned and the text left in [s].
    [strftime] returns 0, with [s] unspecified (empty here), when the
    text and its final zero do not fit in [max] bytes. *)
Definition mystrftime (max : Z) (userformat : option string) (t : Z)
    (filenumber : Z) : Z * string :=
  match userformat with
  | None => (0, EmptyString)
  | Some userformat =>
      let text := strftime ops (mystrftime_format userformat EmptyString filenumber) t in
      if Z.of_nat (String.length text) <? max
      then (Z.of_nat (String.length text), text)
      else (0, EmptyString)
  end.

(** The backward scan for the extension:
    [while (s > buf && *s != '.' && *s != '/') --s;] with [i] the index
    of [s] in [buf]. *)
Fixpoint scan_extension (buf : string) (i : nat) : nat :=
  match i with
  | O => O
  | S j =>
      match String.get i buf with
      | Some "."%char | Some "/"%char => i
      | _ => scan_extension buf j
      end
  end.

(** "separate extension from filename": [buf] cut at the dot and the
    text [s] points to. *)
Definition split_extension (buf : string) : string * string :=
  let n := String.length buf in
  let i := scan_extension buf n in
  match String.get i buf with
  | Some "."%char => (String.substring 0 i buf, String.substring (S i) (n - S i) buf)
  | Some "/"%char => (buf, EmptyString)
  | _ => (buf, String.substring i (n - i) buf)
  end.

(** [new_capture_file(name, namebuf, namelen, filecount)]: the value
    returned and the text left in [namebuf]. *)
Definition new_capture_file (name : string) (namelen : Z) (filecount : Z)
    : M (Z * string) :=
  if use_strftime cfg then
    t <~ call (time ops) ;
    let '(n, namebuf) := mystrftime namelen (Some name) t (CInt.int32 (filecount + 1)) in
    if n =? 0 then
      fprintf_stderr (Ev_error "mystrftime returned 0") ;~ prg_exit EXIT_FAILURE
    else ret (filecount, namebuf)
  else
    (* get a copy of the original filename *)
    let buf := String.substring 0 (Z.to_nat (PATH_MAX - 10 - 1)) name in
    let '(buf, ext) := split_extension buf in
    let numbered (n : string) : string :=
      if String.eqb ext EmptyString
      then snprintf namelen (buf +:+ "-" +:+ n)
      else snprintf namelen (buf +:+ "-" +:+ n +:+ "." +:+ ext) in
    (* upon first jump to this if block rename the first file *)
    filecount <~
      (if filecount =? 1 then
         fs_remove (numbered "01") ;~
         fs_rename name (numbered "01") ;~
         ret 2
       else ret filecount) ;
    (* name of the current file *)
    ret (filecount, numbered (sprintf_02d filecount)).

(** *** Capture *)

(** The bytes behind [fd]: [stdout], or the file opened last. *)
Definition output (tostdout : bool) (name : string) (s : state) : list byte :=
  if tostdout then st_stdout s else default [] (st_fs s !! name).

Definition set_output (tostdout : bool) (name : string) (out : list byte)
    (s : state) : state :=
  if tostdout then set_st_stdout out s else set_st_fs (<[name := out]> (st_fs s)) s.

(** [xwrite(fd, audiobuf, save)] in the program state. *)
Definition xwrite_fd (tostdout : bool) (name : string) (save : Z) : M Z :=
  s <~ get ;
  match xwrite ops (st_env s) (output tostdout name s) (audiobuf s) save with
  | None => stuck
  | Some (written, out, e') =>
      modify (λ s, set_output tostdout name out (set_st_env e' s)) ;~
      sigs <~ call (signals ops) ;
      deliver_all sigs ;~
      ret written
  end.

(** [safe_open(name)] after the [lstat]/[remove] of [capture]: every
    path of the model is a regular file that can be opened, so the file
    is new and empty. *)
Definition open_output (name : string) : M unit :=
  fs_remove name ;~
  modify (λ s, set_st_fs (<[name := []]> (st_fs s)) s).

(** The inner [while] of [capture]; the value is [count] as the loop
    leaves it. *)
Fixpoint capture_chunks (fuel : nat) (tostdout : bool) (name : string)
    (count rest : Z) : M Z :=
  s <~ get ;
  if (0 <? rest) && negb (recycle_capture_file s) && negb (in_aborting s) then
    match fuel with
    | O => stuck
    | S fuel' =>
        let c := if rest <=? chunk_bytes cfg then CInt.size_t rest else chunk_bytes cfg in
        let f := c * 8 / bits_per_frame cfg in
        read <~ pcm_read fuel 0 f ;
        let read := CInt.size_t read in
        when (negb (read =? f)) (modify (set_in_aborting true)) ;~
        let save := read * bits_per_frame cfg / 8 in
        written <~ xwrite_fd tostdout name save ;
        if negb (CInt.size_t written =? save) then
          fprintf_stderr (Ev_error name) ;~
          modify (set_in_aborting true) ;~
          ret count
        else
          modify (λ s, set_fdcount (fdcount s + c) s) ;~
          capture_chunks fuel' tostdout name (count - c) (rest - c)
    end
  else ret count.

(** "open a file to write", the first statement of the [do ... while] of
    [capture]: the name of the file opened and [filecount] after its
    [filecount++]. *)
Definition open_next (orig_name : string) (tostdout : bool) (name : string)
    (filecount : Z) : M (string * Z) :=
  if tostdout then ret (name, filecount)
  else
    (* upon the second file we start the numbering scheme *)
    '(name, filecount) <~
      (if negb (filecount =? 0) || use_strftime cfg then
         '(filecount, namebuf) <~ new_capture_file orig_name (PATH_MAX + 2) filecount ;
         ret (namebuf, filecount)
       else ret (name, filecount)) ;
    (* open a new file *)
    open_output name ;~
    ret (name, CInt.int32 (filecount + 1)).

(** The [do ... while] of [capture], one turn per output file. *)
Fixpoint capture_files (fuel : nat) (orig_name : string) (tostdout : bool)
    (name : string) (filecount count : Z) : M unit :=
  match fuel with
  | O => stuck
  | S fuel' =>
      '(name, filecount) <~ open_next orig_name tostdout name filecount ;
      (* capture *)
      modify (set_fdcount 0) ;~
      count <~ capture_chunks fuel tostdout name count count ;
      (* re-enable SIGUSR1 signal *)
      modify (set_recycle_capture_file false) ;~
      s <~ get ;
      if in_aborting s then prg_exit EXIT_FAILURE
      else if ((timelimit cfg =? 0) && (sampleslimit cfg =? 0)) || (0 <? count)
      then capture_files fuel' orig_name tostdout name filecount count
      else ret tt
  end.

(** [capture(orig_name)]: [None] is the null pointer. *)
Definition capture (fuel : nat) (orig_name : option string) : M unit :=
  (* get number of bytes to capture *)
  count <~ calc_count ;
  let count := if count =? 0 then CInt.LLONG_MAX else count in
  (* compute the number of bytes per file *)
  modify (set_max_file_size
            (CInt.int64 (max_file_time cfg *
                         snd_pcm_format_size (format cfg)
                           (CInt.unsigned 32 (rate cfg * channels cfg))))) ;~
  let count :=
    if count <? CInt.LLONG_MAX then count + Z.rem count 2 else count - Z.rem count 2 in
  let tostdout :=
    match orig_name with
    | None => true
    | Some n => String.eqb n "-"
    end in
  header (default "stdin"%string orig_name) ;~
  set_params ;~
  capture_files fuel (default EmptyString orig_name) tostdout
    (if tostdout then "stdout"%string else default EmptyString orig_name) 0 count.

(** *** [main], from the file of [--process-id-file] on

    What [main] does before is not part of the development: the options
    are parsed ([cfg]), the device is open, the buffer is there, and the
    file of [--process-id-file], when the option asks for one, could be
    created.  The [return 1] of [main] on a wrong option, on a failure
    of [snd_pcm_open] or of [malloc], and on a file of process id that
    cannot be created, all come before this point.  The files to play
    or record are [names].

    Only the interleaved mode is part of the development: with [-I],
    where [main] calls [playbackv] or [capturev], the model stops, and
    what is proved about [main] has [interleaved cfg = true] for a
    hypothesis.  No channel map is set either, see [pcm_write]. *)
Fixpoint each_file (fuel : nat) (names : list string) : M unit :=
  match names with
  | [] => ret tt
  | name :: names' =>
      (if decide (stream cfg = SND_PCM_STREAM_PLAYBACK)
       then playback fuel (Some name) else capture fuel (Some name)) ;~
      each_file fuel names'
  end.

Definition main (fuel : nat) (names : list string) : M Z :=
  (match pidfile_name cfg with
   | Some name =>
       modify (λ s, set_pidfile_written true (set_st_fs (<[name := []]> (st_fs s)) s))
   | None => ret tt
   end) ;~
  modify (set_sig_dfl []) ;~
  (if interleaved cfg then
     match names with
     | [] =>
         if decide (stream cfg = SND_PCM_STREAM_PLAYBACK)
         then playback fuel None else capture fuel None
     | _ => each_file fuel names
     end
   else stuck) ;~
  when (verbose cfg =? 2) (putchar x0a) ;~
  pcm Pcm_close ;~
  modify (set_handle false) ;~
  prg_exit EXIT_SUCCESS.

End WithConfig.
End Program.

Arguments state : clear implicits.
Arguments result : clear implicits.
Arguments M : clear implicits.
Arguments Ret {E F A} _ _.
Arguments Exit {E F A} _ _.
Arguments Killed {E F A} _ _.
Arguments Stuck {E F A}.

(** ** A scripted environment

    An environment that can be run: every operation takes its answer from
    a script and, when the script is used up, does what was asked in full
    and at once.  The examples and the counterexamples below run the
    program in it. *)

Module Script.

Record env := Env {
  sc_write : list Z;               (* results of write(2) *)
  sc_read : list Z;                (* results of read(2) *)
  sc_writei : list Z;              (* results of writei_func *)
  sc_readi : list Z;               (* results of readi_func *)
  sc_avail_delay : list (option (Z * Z));
  sc_status : list (option (Z * Z));
  sc_signals : list (list signal); (* signals, blocking call by blocking call *)
  sc_clock : Z;                    (* time(NULL) *)
  sc_frame : Z;                    (* bytes per frame of the captured data *)
  sc_fill : byte;                  (* the byte the device records *)
}.

Definition quiet (frame : Z) (fill : byte) : env :=
  Env [] [] [] [] [] [] [] 0 frame fill.

Definition next {A} (script : list A) (dflt : A) : A * list A :=
  match script with
  | a :: script' => (a, script')
  | [] => (dflt, [])
  end.

Definition ops : env_ops env := {|
  sys_write e n :=
    let '(r, sc) := next (sc_write e) n in
    (r, Env sc (sc_read e) (sc_writei e) (sc_readi e) (sc_avail_delay e)
          (sc_status e) (sc_signals e) (sc_clock e) (sc_frame e) (sc_fill e));
  sys_read e n avail :=
    let '(r, sc) := next (sc_read e) (Z.min n avail) in
    (r, Env (sc_write e) sc (sc_writei e) (sc_readi e) (sc_avail_delay e)
          (sc_status e) (sc_signals e) (sc_clock e) (sc_frame e) (sc_fill e));
  writei e data count :=
    let '(r, sc) := next (sc_writei e) count in
    (r, Env (sc_write e) (sc_read e) sc (sc_readi e) (sc_avail_delay e)
          (sc_status e) (sc_signals e) (sc_clock e) (sc_frame e) (sc_fill e));
  readi e count :=
    let '(r, sc) := next (sc_readi e) count in
    ((r, replicate (Z.to_nat (r * sc_frame e)) (sc_fill e)),
     Env (sc_write e) (sc_read e) (sc_writei e) sc (sc_avail_delay e)
       (sc_status e) (sc_signals e) (sc_clock e) (sc_frame e) (sc_fill e));
  pcm_wait e := e;
  recover_xrun e := (true, e);
  resume e := (true, e);
  avail_delay e :=
    let '(r, sc) := next (sc_avail_delay e) (Some (0, 0)) in
    (r, Env (sc_write e) (sc_read e) (sc_writei e) (sc_readi e) sc
          (sc_status e) (sc_signals e) (sc_clock e) (sc_frame e) (sc_fill e));
  status e :=
    let '(r, sc) := next (sc_status e) (Some (0, 0)) in
    (r, Env (sc_write e) (sc_read e) (sc_writei e) (sc_readi e) (sc_avail_delay e)
          sc (sc_signals e) (sc_clock e) (sc_frame e) (sc_fill e));
  time e := (sc_clock e, e);
  signals e :=
    let '(r, sc) := next (sc_signals e) [] in
    (r, Env (sc_write e) (sc_read e) (sc_writei e) (sc_readi e) (sc_avail_delay e)
          (sc_status e) sc (sc_clock e) (sc_frame e) (sc_fill e));
  strftime fmt t := fmt;
|}.

(** [float] is IEEE 754 binary32: 24 bits of precision, exponents up to
    128, every operation rounded to the nearest value, ties to even. *)
Definition float : Type := SpecFloat.spec_float.

(** The conversion of a [long] to [float]. *)
Definition float_of_long (n : Z) : float :=
  SpecFloat.binary_normalize 24 128 n 0 false.

(** The conversion [(long)x]: the fraction is dropped.  C leaves it
    undefined for a value that is not a number or that a [long] does not
    hold; the conversion instruction of x86-64 gives [LONG_MIN] then. *)
Definition long_of_float (x : float) : Z :=
  match x with
  | SpecFloat.S754_zero _ => 0
  | SpecFloat.S754_finite sign m e =>
      let v := if 0 <=? e then Z.pos m * 2 ^ e else Z.quot (Z.pos m) (2 ^ (- e)) in
      let v := if sign then - v else v in
      if (- 2 ^ 63 <=? v) && (v <? 2 ^ 63) then v else - 2 ^ 63
  | _ => - 2 ^ 63
  end.

Definition floats : float_ops float := {|
  f_zero := SpecFloat.S754_zero false;
  f_add x n := SpecFloat.SFadd 24 128 x (float_of_long n);
  f_incr x := SpecFloat.SFadd 24 128 x (float_of_long 1);
  f_quot x y := long_of_float (SpecFloat.SFdiv 24 128 x y);
|}.

(** The state [main] starts from: the device open, no flag set, the
    [static] variables at their initialisers. *)
Definition initial (e : env) (fs : gmap string (list byte)) (stdin_ : list byte)
    : state env float :=
  {| st_env := e; in_aborting := false; recycle_capture_file := false;
     sig_dfl := []; handle := true; pidfile_written := false;
     audiobuf := replicate 1024 x00; fdcount := 0;
     pbrec_count := CInt.LLONG_MAX; max_file_size := 0;
     st_input := stdin_; st_fs := fs; st_stdout := []; st_stderr := [];
     meter := MeterState false (0, 0) 0;
     pos := PosState 0 (-1) (f_zero floats) (f_zero floats) (f_zero floats) 0 0 0 0 0 0;
     pcm_log := []; delivered := []; st_frames := 0 |}.

(** Formats and configurations of the examples. *)
Definition U8 : pcm_format := PcmFormat 8 8 true 128.
Definition S16_LE : pcm_format := PcmFormat 16 16 true 0.
Definition S32_LE : pcm_format := PcmFormat 32 32 true 0.
Definition FLOAT64_LE : pcm_format := PcmFormat 64 64 true 0.

Definition play (f : pcm_format) (chans period : Z) : config :=
  {| stream := SND_PCM_STREAM_PLAYBACK; format := f; channels := chans;
     rate := 8000; timelimit := 0; sampleslimit := 0; quiet_mode := false;
     interleaved := true; verbose := 0; vumeter_opt := VUMETER_NONE;
     test_position := false; test_coef := 8; test_nowait := false;
     max_file_time := 0; use_strftime := false; pidfile_name := None;
     period_size := period; buffer_size := 4 * period |}.

Definition record (f : pcm_format) (chans period : Z) : config :=
  {| stream := SND_PCM_STREAM_CAPTURE; format := f; channels := chans;
     rate := 8000; timelimit := 0; sampleslimit := 0; quiet_mode := false;
     interleaved := true; verbose := 0; vumeter_opt := VUMETER_NONE;
     test_position := false; test_coef := 8; test_nowait := false;
     max_file_time := 0; use_strftime := false; pidfile_name := None;
     period_size := period; buffer_size := 4 * period |}.

End Script.

(** ** A steady environment

    No signal, no fault, no error: every call moves what was asked, at
    most [burst] bytes or frames at a time. *)

Module Steady.

Record env := Env {
  burst : positive;   (* the most one call moves *)
  frame : Z;          (* bytes per frame of the captured data *)
}.

Definition ops : env_ops env := {|
  sys_write e n := (Z.min n (Z.pos (burst e)), e);
  sys_read e n avail := (Z.min (Z.min n avail) (Z.pos (burst e)), e);
  writei e data count := (Z.min count (Z.pos (burst e)), e);
  readi e count :=
    let r := Z.min count (Z.pos (burst e)) in
    ((r, replicate (Z.to_nat (r * frame e)) x2a), e);
  pcm_wait e := e;
  recover_xrun e := (true, e);
  resume e := (true, e);
  avail_delay e := (Some (0, 0), e);
  status e := (Some (0, 0), e);
  time e := (0, e);
  signals e := ([], e);
  strftime fmt t := fmt;
|}.

Definition initial (e : env) (buf : list byte) : state env Script.float :=
  {| st_env := e; in_aborting := false; recycle_capture_file := false;
     sig_dfl := []; handle := true; pidfile_written := false;
     audiobuf := buf; fdcount := 0;
     pbrec_count := CInt.LLONG_MAX; max_file_size := 0;
     st_input := []; st_fs := ∅; st_stdout := []; st_stderr := [];
     meter := MeterState false (0, 0) 0;
     pos := PosState 0 (-1) (f_zero Script.floats) (f_zero Script.floats)
              (f_zero Script.floats) 0 0 0 0 0 0;
     pcm_log := []; delivered := []; st_frames := 0 |}.

End Steady.

(** ** A steady environment with [SIGUSR1]

    The steady environment, with a schedule for [SIGUSR1]: one entry for
    each call during which a signal can arrive, [true] when the signal
    does arrive; no signal once the schedule is used up. *)

Module Rotating.

Record env := Env {
  burst : positive;   (* the most one call moves *)
  frame : Z;          (* bytes per frame of the captured data *)
  usr1 : list bool;   (* SIGUSR1, call by call *)
}.

Definition ops : env_ops env := {|
  sys_write e n := (Z.min n (Z.pos (burst e)), e);
  sys_read e n avail := (Z.min (Z.min n avail) (Z.pos (burst e)), e);
  writei e data count := (Z.min count (Z.pos (burst e)), e);
  readi e count :=
    let r := Z.min count (Z.pos (burst e)) in
    ((r, replicate (Z.to_nat (r * frame e)) x2a), e);
  pcm_wait e := e;
  recover_xrun e := (true, e);
  resume e := (true, e);
  avail_delay e := (Some (0, 0), e);
  status e := (Some (0, 0), e);
  time e := (0, e);
  signals e :=
    match usr1 e with
    | [] => ([], e)
    | now :: later =>
        (if now : bool then [SIGUSR1] else [], Env (burst e) (frame e) later)
    end;
  strftime fmt t := fmt;
|}.

Definition initial (e : env) (fs : gmap string (list byte)) : state env Script.float :=
  {| st_env := e; in_aborting := false; recycle_capture_file := false;
     sig_dfl := []; handle := true; pidfile_written := false;
     audiobuf := []; fdcount := 0;
     pbrec_count := CInt.LLONG_MAX; max_file_size := 0;
     st_input := []; st_fs := fs; st_stdout := []; st_stderr := [];
     meter := MeterState false (0, 0) 0;
     pos := PosState 0 (-1) (f_zero Script.floats) (f_zero Script.floats)
              (f_zero Script.floats) 0 0 0 0 0 0;
     pcm_log := []; delivered := []; st_frames := 0 |}.

End Rotating.

(** ** What a transfer depends on *)

(** The part of the state the transfer loops read and the device sees: the
    abort flag, the buffer, the input not yet read, and the bytes
    delivered so far. *)
Definition transfer_view {E F : Type} (s : state E F)
    : bool * list byte * list byte * list byte :=
  (in_aborting s, audiobuf s, st_input s, delivered s).

(** ** The pattern of the capture file names, in the words of the
    specification *)

(** "two digits, zero-padded": the tens and the units of [index]. *)
Definition two_digits (index : Z) : string :=
  String (ascii_of_nat (48 + Z.to_nat (index / 10)))
    (String (ascii_of_nat (48 + Z.to_nat (index mod 10))) EmptyString).

(** "the literal escape [%v] expands to the current one-based file index
    (two digits, zero-padded), and all other [%]-prefixed tokens are
    passed through to a calendar-time formatter". *)
Fixpoint expand_template (template : string) (index : Z) : string :=
  match template with
  | EmptyString => EmptyString
  | String "%" (String "v" rest) => two_digits index +:+ expand_template rest index
  | String "%" (String ch rest) => String "%" (String ch (expand_template rest index))
  | String ch rest => String ch (expand_template rest index)
  end.

(** The same in the words of the amended claim: the index is "printed
    by [%02d], that is as two zero-padded decimal digits for indices 1 to
    99 and with as many digits as the index has from 100 on". *)
Definition index_text (index : Z) : string :=
  if index <=? 99 then two_digits index else pretty index.

Fixpoint expand_template_02d (template : string) (index : Z) : string :=
  match template with
  | EmptyString => EmptyString
  | String "%" (String "v" rest) => index_text index +:+ expand_template_02d rest index
  | String "%" (String ch rest) => String "%" (String ch (expand_template_02d rest index))
  | String ch rest => String ch (expand_template_02d rest index)
  end.

(** ** Reading the log *)

(** The "Unsupported bit size" lines of a log up to the next header. *)
Fixpoint reports_in_stream (log : list event) : nat :=
  match log with
  | [] => 0
  | Ev_header _ :: _ => 0
  | Ev_unsupported_bits _ :: log' => S (reports_in_stream log')
  | _ :: log' => reports_in_stream log'
  end.

(** The number of those lines stream by stream: [header] opens the log of
    each stream. *)
Fixpoint reports_per_stream (log : list event) : list nat :=
  match log with
  | [] => []
  | Ev_header _ :: log' => reports_in_stream log' :: reports_per_stream log'
  | _ :: log' => reports_per_stream log'
  end.

Definition is_suspicious (ev : event) : bool :=
  match ev with
  | Ev_suspicious _ _ _ _ => true
  | _ => false
  end.

(** The log of one call of [do_test_position] from the state [s] that
    found the reading suspicious: its line, with the counter after
    [++counter], comes first, and no other such line follows. *)
Definition suspicious_log {E F : Type} (s : state E F) (kind : suspicious_kind)
    (a d : Z) (log : list event) : Prop :=
  ∃ tail,
    log = Ev_suspicious kind (CInt.int64 (counter (pos s) + 1)) a d :: tail ∧
    existsb is_suspicious tail = false.

Definition is_meter_output (ev : event) : bool :=
  match ev with
  | Ev_vu_meter _ _ | Ev_max_peak _ _ _ => true
  | _ => false
  end.

(** ** What a run ends with

    [wp m Φ Q K s]: the run of [m] from [s] ends in a value and a state
    that satisfy [Φ], in an [exit] whose code and state satisfy [Q], or
    in the default action of a signal with [K]; a run that the model
    does not follow to its end satisfies every [wp]. *)
Definition wp {E F A : Type} (m : M E F A) (Φ : A → state E F → Prop)
    (Q : Z → state E F → Prop) (K : signal → state E F → Prop)
    (s : state E F) : Prop :=
  match m s with
  | Ret a s' => Φ a s'
  | Exit code s' => Q code s'
  | Killed sig s' => K sig s'
  | Stuck => True
  end.

(** ** Configurations of the examples *)

(** [aplay --samples=n] on a device with periods of [period] frames. *)
Definition play_samples (f : pcm_format) (chans period n : Z) : config :=
  {| stream := SND_PCM_STREAM_PLAYBACK; format := f; channels := chans;
     rate := 8000; timelimit := 0; sampleslimit := n; quiet_mode := false;
     interleaved := true; verbose := 0; vumeter_opt := VUMETER_NONE;
     test_position := false; test_coef := 8; test_nowait := false;
     max_file_time := 0; use_strftime := false; pidfile_name := None;
     period_size := period; buffer_size := 4 * period |}.

(** [arecord --samples=n]. *)
Definition record_samples (f : pcm_format) (chans period n : Z) : config :=
  {| stream := SND_PCM_STREAM_CAPTURE; format := f; channels := chans;
     rate := 8000; timelimit := 0; sampleslimit := n; quiet_mode := false;
     interleaved := true; verbose := 0; vumeter_opt := VUMETER_NONE;
     test_position := false; test_coef := 8; test_nowait := false;
     max_file_time := 0; use_strftime := false; pidfile_name := None;
     period_size := period; buffer_size := 4 * period |}.

(** [aplay --process-id-file fplay.pid]. *)
Definition play_with_pid_file (f : pcm_format) (chans period : Z) : config :=
  {| stream := SND_PCM_STREAM_PLAYBACK; format := f; channels := chans;
     rate := 8000; timelimit := 0; sampleslimit := 0; quiet_mode := false;
     interleaved := true; verbose := 0; vumeter_opt := VUMETER_NONE;
     test_position := false; test_coef := 8; test_nowait := false;
     max_file_time := 0; use_strftime := false; pidfile_name := Some "fplay.pid"%string;
     period_size := period; buffer_size := 4 * period |}.

(** [arecord --use-strftime]. *)
Definition record_strftime (f : pcm_format) (chans period : Z) : config :=
  {| stream := SND_PCM_STREAM_CAPTURE; format := f; channels := chans;
     rate := 8000; timelimit := 0; sampleslimit := 0; quiet_mode := false;
     interleaved := true; verbose := 0; vumeter_opt := VUMETER_NONE;
     test_position := false; test_coef := 8; test_nowait := false;
     max_file_time := 0; use_strftime := true; pidfile_name := None;
     period_size := period; buffer_size := 4 * period |}.

(** [arecord -vv --test-position]. *)
Definition record_monitored (f : pcm_format) (chans period : Z) : config :=
  {| stream := SND_PCM_STREAM_CAPTURE; format := f; channels := chans;
     rate := 8000; timelimit := 0; sampleslimit := 0; quiet_mode := false;
     interleaved := true; verbose := 2; vumeter_opt := VUMETER_NONE;
     test_position := true; test_coef := 8; test_nowait := false;
     max_file_time := 0; use_strftime := false; pidfile_name := None;
     period_size := period; buffer_size := 4 * period |}.

(** ** File names *)

(** A character that ends neither a base name nor a directory: not a dot
    and not a slash. *)
Definition plain_char (c : ascii) : bool :=
  negb (Ascii.eqb c ".") && negb (Ascii.eqb c "/").

(** A text without dot and slash. *)
Fixpoint plain (s : string) : bool :=
  match s with
  | EmptyString => true
  | String c s' => plain_char c && plain s'
  end.

(** ** What a recording depends on *)

(** The part of the state the loops of [capture] read and leave behind:
    the two flags, the files, the size of the buffer and the number of
    frames taken from the device. *)
Definition capture_view {E F : Type} (s : state E F)
    : bool * bool * gmap string (list byte) * nat * Z :=
  (in_aborting s, recycle_capture_file s, st_fs s, length (audiobuf s), st_frames s).

(** The part of the state that a recording rotated by [SIGUSR1] goes
    by: the abort flag, the files, the size of the buffer and the
    signals set back to their default action.  [recycle_capture_file] is
    what the signal changes. *)
Definition rotation_view {E F : Type} (s : state E F)
    : bool * gmap string (list byte) * nat * list signal :=
  (in_aborting s, st_fs s, length (audiobuf s), sig_dfl s).

(** The name of the [k]-th file of a recording to [rec.wav] that has
    more than one file. *)
Definition rec_wav (k : Z) : string := ("rec-" +:+ index_text k +:+ ".wav")%string.

(** ** [create_path] *)

Definition EEXIST : Z := 17.

(** [strchr(s, c)] with the index counted from [i]. *)
Fixpoint strchr_from (s : string) (c : ascii) (i : nat) : option nat :=
  match s with
  | EmptyString => None
  | String a s' => if Ascii.eqb a c then Some i else strchr_from s' c (S i)
  end.

(** The text at [path + n]. *)
Fixpoint skip (n : nat) (path : string) : string :=
  match n, path with
  | S n', String _ path' => skip n' path'
  | _, _ => path
  end.

(** [strchr(path + n, c)] as an index in [path]; [None] is the null
    pointer. *)
Definition strchr_at (path : string) (n : nat) (c : ascii) : option nat :=
  strchr_from (skip n path) c n.

Section CreatePath.
Context {D : Type}.

(** [mkdir(buffer, mode)] in a file system [D]: [None] when the
    directory is made, or [errno]. *)
Variable mkdir : D → string → option Z * D.

(** The [while (start)] loop of [create_path]: the value returned, the
    directories [mkdir] was called with, and the file system; the message
    on [stderr] that names the directory of a failed [mkdir] is left out.
    [start] moves to the right at every turn, so [fuel] of the length of
    [path] is never used up. *)
Fixpoint create_path_loop (fuel : nat) (path : string) (start : option nat) (d : D)
    : option (Z * list string * D) :=
  match start with
  | None => Some (0, [], d)
  | Some i =>
      match fuel with
      | O => None
      | S fuel' =>
          let buffer := String.substring 0 i path in
          let '(err, d) := mkdir d buffer in
          if match err with
             | Some errno => negb (errno =? EEXIST)
             | None => false
             end
          then Some (-1, [buffer], d)
          else
            match create_path_loop fuel' path (strchr_at path (S i) "/") d with
            | Some (r, calls, d) => Some (r, buffer :: calls, d)
            | None => None
            end
      end
  end.

(** "This function creates a file path, like mkdir -p." *)
Definition create_path (path : string) (d : D) : option (Z * list string * D) :=
  let start :=
    match String.get 0 path with
    | Some "/"%char => strchr_at path 1 "/"
    | _ => strchr_at path 0 "/"
    end in
  create_path_loop (String.length path) path start d.

End CreatePath.

(** ** Channel maps

    A channel map ([snd_pcm_chmap_t]) is the list of its positions
    [pos[0]], ..., [pos[channels - 1]]. *)

(** How the matching loop of [setup_chmap] ends: with [hw_map] filled
    in, at the [return -1] for a channel without a match, or in an access
    past the end of [chmap->pos] or [mapped], which C leaves undefined
    (the hardware map has more channels than [hwparams]). *)
Inductive chmap_outcome :=
  | Chmap_ok (hw_map : list nat)
  | Chmap_mismatch (ch : nat) (hw_map : list nat)
  | Chmap_undefined.

(** [for (i = ...; i < hw_chmap->channels; i++)] with its [break]:
    [Some (Some i)] at the [break], [Some None] when the loop runs to its
    end. *)
Fixpoint chmap_find (pos : Z) (hw : list Z) (mapped : list bool) (i todo : nat)
    : option (option nat) :=
  match todo with
  | O => Some None
  | S todo' =>
      match mapped !! i, hw !! i with
      | Some m, Some h =>
          if negb m && (pos =? h) then Some (Some i)
          else chmap_find pos hw mapped (S i) todo'
      | _, _ => None
      end
  end.

(** [for (ch = ...; ch < hw_chmap->channels; ch++)]. *)
Fixpoint chmap_loop (chmap hw : list Z) (mapped : list bool) (hw_map : list nat)
    (ch todo : nat) : chmap_outcome :=
  match todo with
  | O => Chmap_ok hw_map
  | S todo' =>
      match chmap !! ch, hw !! ch with
      | Some c, Some h =>
          if c =? h then
            chmap_loop chmap hw (<[ch := true]> mapped) (<[ch := ch]> hw_map)
              (S ch) todo'
          else
            match chmap_find c hw mapped 0 (length hw) with
            | Some (Some i) =>
                chmap_loop chmap hw (<[i := true]> mapped) (<[ch := i]> hw_map)
                  (S ch) todo'
            | Some None => Chmap_mismatch ch hw_map
            | None => Chmap_undefined
            end
      | _, _ => Chmap_undefined
      end
  end.

(** [setup_chmap()]: [channel_map] is the map of the option [--chmap],
    [channels] is [hwparams.channels], [err] the value of
    [snd_pcm_set_chmap] and [hw_chmap] that of [snd_pcm_get_chmap].  The
    result is the value returned, [hw_map] ([None]: the null pointer) and
    what is printed on [stderr]; there is none when the loop runs past
    the end of an array. *)
Definition setup_chmap (channel_map : option (list Z)) (channels : Z) (err : Z)
    (hw_chmap : option (list Z)) : option (Z * option (list nat) * list event) :=
  match channel_map with
  | None => Some (0, None, [])
  | Some chmap =>
      if negb (Z.of_nat (length chmap) =? channels) then
        Some (-1, None,
              [Ev_error "Channel numbers don't match between hw_params and channel map"])
      else if err =? 0 then Some (0, None, [])
      else
        match hw_chmap with
        | None => Some (0, None, [Ev_error "Warning: unable to get channel map"])
        | Some hw =>
            if bool_decide (hw = chmap) then
              (* maps are identical, so no need to convert *)
              Some (0, None, [])
            else
              let n := Z.to_nat channels in
              match chmap_loop chmap hw (replicate n false) (replicate n 0%nat)
                      0 (length hw) with
              | Chmap_ok hw_map => Some (0, Some hw_map, [])
              | Chmap_mismatch ch hw_map =>
                  Some (-1, Some hw_map,
                        [Ev_error "Channel doesn't match with hw_params";
                         Ev_error "hardware chmap"])
              | Chmap_undefined => None
              end
        end
  end.

(** [memcpy(dst, src + off, len)] reads [len] bytes at [src + off];
    [None] when they are not all in [src]. *)
Definition read_bytes (src : list byte) (off len : nat) : option (list byte) :=
  if decide (off + len ≤ length src)%nat then Some (take len (drop off src)) else None.

(** The inner loop of [remap_data] over the channels of one frame: [dst]
    is what is written to [tmp] so far. *)
Fixpoint remap_frame (hw_map : list nat) (sample_bytes : nat) (src : list byte)
    (ch todo : nat) (dst : list byte) : option (list byte) :=
  match todo with
  | O => Some dst
  | S todo' =>
      match hw_map !! ch with
      | None => None
      | Some m =>
          match read_bytes src (sample_bytes * m) sample_bytes with
          | None => None
          | Some bytes => remap_frame hw_map sample_bytes src (S ch) todo' (dst ++ bytes)
          end
      end
  end.

(** The outer loop over the frames. *)
Fixpoint remap_frames (hw_map : list nat) (sample_bytes step channels : nat)
    (src : list byte) (todo : nat) (dst : list byte) : option (list byte) :=
  match todo with
  | O => Some dst
  | S todo' =>
      match remap_frame hw_map sample_bytes src 0 channels dst with
      | None => None
      | Some dst => remap_frames hw_map sample_bytes step channels (drop step src) todo' dst
      end
  end.

(** [remap_data(data, count)]: the bytes at the pointer returned, as far
    as they are written; the buffer [tmp] is large enough for them. *)
Definition remap_data (cfg : config) (hw_map : option (list nat)) (data : list byte)
    (count : Z) : option (list byte) :=
  match hw_map with
  | None => Some data
  | Some hw_map =>
      let sample_bytes := CInt.size_t (bits_per_sample cfg / 8) in
      let step := CInt.size_t (bits_per_frame cfg / 8) in
      remap_frames hw_map (Z.to_nat sample_bytes) (Z.to_nat step)
        (Z.to_nat (channels cfg)) data (Z.to_nat count) []
  end.

(** ** Reading the channel map and the remapped buffer *)

(** What holds of [hw_map] before the turn of channel [ch] in the loop of
    [setup_chmap]: the channels before [ch] are mapped to hardware
    channels of their position. *)
Definition matched (chmap hw : list Z) (hw_map : list nat) (ch : nat) : Prop :=
  ∀ c, (c < ch)%nat →
       ∃ i, hw_map !! c = Some i ∧ (i < length hw)%nat ∧ hw !! i = chmap !! c.

(** What holds of [mapped] there: a hardware channel that is taken has
    the position of a channel before [ch]. *)
Definition taken (chmap hw : list Z) (mapped : list bool) (ch : nat) : Prop :=
  ∀ i, mapped !! i = Some true → ∃ c, (c < ch)%nat ∧ chmap !! c = hw !! i.

(** The sample of channel [m] in the frame at [src]. *)
Definition sample_at (sample_bytes : nat) (src : list byte) (m : nat) : list byte :=
  take sample_bytes (drop (sample_bytes * m) src).

(** ** The text of the VU meter *)

(** [memset], [memcpy] and [sprintf] on [char line[80]]: [src] is stored
    at [line + off]; the array keeps its length. *)
Definition poke (line : list ascii) (off : nat) (src : list ascii) : list ascii :=
  take (length line) (take off line ++ src ++ drop (off + length src) line).

(** The characters [sprintf] stores: the text and the final NUL. *)
Definition c_chars (text : string) : list ascii :=
  list_ascii_of_string text ++ [Ascii.zero].

(** What [fputs(line, stderr)] prints: the text up to the first NUL. *)
Fixpoint c_text (line : list ascii) : string :=
  match line with
  | [] => EmptyString
  | c :: line' => if Ascii.eqb c Ascii.zero then EmptyString else String c (c_text line')
  end.

(** [for (; cond(val); val++) line[val] = c;]: the line and [val] after
    the loop.  Each caller gives the loop the turns its condition leaves
    it, so the loop is never cut short. *)
Fixpoint vu_fill (fuel : nat) (cond : Z → bool) (c : ascii) (line : list ascii)
    (val : Z) : list ascii * Z :=
  match fuel with
  | O => (line, val)
  | S fuel' =>
      if cond val
      then vu_fill fuel' cond c (<[Z.to_nat val := c]> line) (val + 1)
      else (line, val)
  end.

(** [print_vu_meter_mono(perc, maxperc)]: what is printed on [stderr].
    [line] is the array as the function finds it on the stack. *)
Definition print_vu_meter_mono (line : list ascii) (perc maxperc : Z) : string :=
  let bar_length := 50 in
  let turns := Z.to_nat (bar_length + 1) in
  let '(line, val) :=
    vu_fill turns
      (λ val, (val <=? Z.quot (CInt.int32 (perc * bar_length)) 100) && (val <? bar_length))
      "#" line 0 in
  let '(line, val) :=
    vu_fill turns
      (λ val, (val <=? Z.quot (CInt.int32 (maxperc * bar_length)) 100) && (val <? bar_length))
      " " line val in
  let line := <[Z.to_nat val := "+"%char]> line in
  let '(line, val) := vu_fill turns (λ val, val <=? bar_length) " " line (val + 1) in
  let line :=
    if 99 <? maxperc then poke line (Z.to_nat val) (c_chars "| MAX")
    else poke line (Z.to_nat val) (c_chars ("| " +:+ sprintf_02d maxperc +:+ "%")) in
  (c_text line +:+ (if (100 <? perc)%Z then " !clip  " else ""))%string.

(** One turn of the [for (c = 0; c < 2; c++)] of
    [print_vu_meter_stereo]; [None] when [memset] is given a negative
    length or [sprintf] more than the four characters of [tmp].

    [ABS(a)] is the macro [(a) < 0 ? -(a) : (a)], without parentheses
    around it, so that [ABS(maxperc[c]) > 99] is
    [maxperc[c] < 0 ? -maxperc[c] : (maxperc[c] > 99)]: a negative
    maximum is printed as [MAX]. *)
Definition vu_channel (c : bool) (perc maxperc : Z) (line : list ascii)
    : option (list ascii) :=
  let bar_length := 35 in
  let p := Z.quot (CInt.int32 (perc * bar_length)) 100 in
  let p := if bar_length <? p then bar_length else p in
  if p <? 0 then None
  else
    let line :=
      if c then poke line (Z.to_nat (bar_length + 6 + 1)) (replicate (Z.to_nat p) "#"%char)
      else poke line (Z.to_nat (bar_length - p)) (replicate (Z.to_nat p) "#"%char) in
    let p := CInt.int32 (Z.quot (CInt.int32 (maxperc * bar_length)) 100 - 1) in
    let p := if p <? 0 then 0 else if bar_length <=? p then bar_length - 1 else p in
    let line :=
      if c then <[Z.to_nat (bar_length + 6 + 1 + p) := "+"%char]> line
      else <[Z.to_nat (bar_length - p - 1) := "+"%char]> line in
    let tmp :=
      if (if maxperc <? 0 then negb (CInt.int32 (- maxperc) =? 0) else 99 <? maxperc)
      then c_chars "MAX"
      else c_chars (sprintf_02d maxperc +:+ "%") in
    if (4 <? length tmp)%nat then None
    else
      Some (if c then poke line (Z.to_nat (bar_length + 3 + 1)) (take 3 tmp)
            else poke line (Z.to_nat bar_length) (take 3 tmp)).

(** [print_vu_meter_stereo(perc, maxperc)]. *)
Definition print_vu_meter_stereo (line : list ascii) (perc maxperc : Z * Z)
    : option string :=
  let bar_length := 35 in
  let line := poke line 0 (replicate (length line - 1) " "%char) in
  let line := <[Z.to_nat (bar_length + 3) := "|"%char]> line in
  line ← vu_channel false perc.1 maxperc.1 line ;
  line ← vu_channel true perc.2 maxperc.2 line ;
  let line := <[Z.to_nat (bar_length * 2 + 6 + 2) := Ascii.zero]> line in
  Some (c_text line).


(** ** The meter line in words *)

(** The mono line: the bar of [#] up to the level, blanks up to the
    mark [+] of the maximum, blanks up to the end of the bar, and the
    maximum in figures. *)
Definition mono_line (perc maxperc : Z) : string :=
  let level := Z.to_nat (Z.min (perc * 50 / 100 + 1) 50) in
  let mark := Z.to_nat (Z.max (Z.min (perc * 50 / 100 + 1) 50)
                           (Z.min (maxperc * 50 / 100 + 1) 50)) in
  (string_of_list_ascii
     (replicate level "#"%char ++ replicate (mark - level) " "%char ++ ["+"%char] ++
      replicate (50 - mark) " "%char)
   +:+ (if (99 <? maxperc)%Z then "| MAX" else "| " +:+ sprintf_02d maxperc +:+ "%"))%string.

(** One bar of the stereo line, from the middle outwards: [#] up to the
    level, with the mark [+] of the maximum on top. *)
Definition stereo_bar (perc maxperc : Z) : list ascii :=
  <[Z.to_nat (Z.max 0 (maxperc * 35 / 100 - 1)) := "+"%char]>
    (replicate (Z.to_nat (perc * 35 / 100)) "#"%char ++
     replicate (35 - Z.to_nat (perc * 35 / 100)) " "%char).

Definition stereo_figures (maxperc : Z) : string :=
  if 99 <? maxperc then "MAX"%string else (sprintf_02d maxperc +:+ "%")%string.

(** The stereo line: the left bar growing to the left, the two maxima
    in figures around a [|], the right bar and a blank. *)
Definition stereo_line (perc maxperc : Z * Z) : string :=
  (string_of_list_ascii (reverse (stereo_bar perc.1 maxperc.1))
   +:+ stereo_figures maxperc.1 +:+ "|" +:+ stereo_figures maxperc.2
   +:+ string_of_list_ascii (stereo_bar perc.2 maxperc.2) +:+ " ")%string.

(** One turn of the loop of [print_vu_meter_stereo] seen from the part
    of the line it writes to: the first 38 characters at the first turn,
    the characters after the [|] at the second. *)
Definition vu_half (c : bool) (perc maxperc : Z) (half : list ascii)
    : option (list ascii) :=
  let p := Z.quot (CInt.int32 (perc * 35)) 100 in
  let p := if 35 <? p then 35 else p in
  if p <? 0 then None
  else
    let half :=
      if c then poke half 3 (replicate (Z.to_nat p) "#"%char)
      else poke half (Z.to_nat (35 - p)) (replicate (Z.to_nat p) "#"%char) in
    let p := CInt.int32 (Z.quot (CInt.int32 (maxperc * 35)) 100 - 1) in
    let p := if p <? 0 then 0 else if 35 <=? p then 35 - 1 else p in
    let half :=
      if c then <[(3 + Z.to_nat p)%nat := "+"%char]> half
      else <[Z.to_nat (35 - p - 1) := "+"%char]> half in
    let tmp :=
      if (if maxperc <? 0 then negb (CInt.int32 (- maxperc) =? 0) else 99 <? maxperc)
      then c_chars "MAX"
      else c_chars (sprintf_02d maxperc +:+ "%") in
    if (4 <? length tmp)%nat then None
    else Some (if c then poke half 0 (take 3 tmp) else poke half 35 (take 3 tmp)).


(** ** The options of [main]

    [getopt_long] is the C library's: what it returns for the command
    line, option by option, is the input of this part. *)

(** The values [getopt_long] returns, with [optarg] where the option
    takes an argument; [Opt_unknown] is its ['?']. *)
Inductive opt :=
  | Opt_h | Opt_version | Opt_l | Opt_L
  | Opt_D (optarg : string)
  | Opt_q
  | Opt_c (optarg : string)
  | Opt_f (optarg : string)
  | Opt_r (optarg : string)
  | Opt_d (optarg : string)
  | Opt_s (optarg : string)
  | Opt_N
  | Opt_F (optarg : string)
  | Opt_B (optarg : string)
  | Opt_period_size (optarg : string)
  | Opt_buffer_size (optarg : string)
  | Opt_A (optarg : string)
  | Opt_R (optarg : string)
  | Opt_T (optarg : string)
  | Opt_v
  | Opt_V (optarg : string)
  | Opt_M | Opt_I | Opt_P | Opt_C | Opt_i
  | Opt_disable_resample | Opt_disable_channels | Opt_disable_format
  | Opt_disable_softvol
  | Opt_test_position
  | Opt_test_coef (optarg : string)
  | Opt_test_nowait
  | Opt_max_file_time (optarg : string)
  | Opt_process_id_file (optarg : string)
  | Opt_use_strftime | Opt_dump_hwparams | Opt_fatal_errors
  | Opt_m (optarg : string)
  | Opt_unknown.

(** The variables of integer type that the options set: locals of [main],
    the members of [rhwparams] and globals. *)
Inductive ivar :=
  | V_do_device_list | V_do_pcm_list | V_force_sample_format
  | V_duration_or_sample
  | V_format | V_channels | V_rate
  | V_timelimit | V_sampleslimit | V_quiet_mode | V_open_mode | V_stream
  | V_mmap_flag | V_interleaved | V_nonblock
  | V_period_time | V_buffer_time | V_period_frames | V_buffer_frames
  | V_avail_min | V_start_delay | V_stop_delay
  | V_interactive | V_fatal_errors | V_verbose | V_vumeter
  | V_test_position | V_test_coef | V_test_nowait
  | V_max_file_time | V_use_strftime | V_dump_hw_params.

Global Instance ivar_eq_dec : EqDecision ivar.
Proof. solve_decision. Defined.

(** The variables the options set. *)
Record settings := Settings {
  ints : ivar → Z;
  pcm_name : string;
  command : string;
  pidfile : option string;            (* pidfile_name *)
  channel_map : option (list Z);
}.

(** [var = v;] *)
Definition assign (var : ivar) (v : Z) (o : settings) : settings :=
  {| ints := λ var', if decide (var' = var) then v else ints o var';
     pcm_name := pcm_name o; command := command o; pidfile := pidfile o;
     channel_map := channel_map o |}.

Definition SND_PCM_FORMAT_UNKNOWN : Z := -1.
Definition SND_PCM_FORMAT_U8 : Z := 1.
Definition SND_PCM_FORMAT_S16_LE : Z := 2.
Definition SND_PCM_FORMAT_S16_BE : Z := 3.
Definition DEFAULT_FORMAT : Z := SND_PCM_FORMAT_U8.
Definition DEFAULT_SPEED : Z := 8000.
Definition SND_PCM_NONBLOCK : Z := 1.
Definition SND_PCM_NO_AUTO_RESAMPLE : Z := 65536.
Definition SND_PCM_NO_AUTO_CHANNELS : Z := 131072.
Definition SND_PCM_NO_AUTO_FORMAT : Z := 262144.
Definition SND_PCM_NO_SOFTVOL : Z := 524288.

(** The variables when the loop over the options begins: the
    initialisers of the declarations and the assignments of [main] before
    the loop. *)
Definition initial_settings (argv0 : string) : settings :=
  {| ints := λ var,
       match var with
       | V_format => DEFAULT_FORMAT
       | V_rate => DEFAULT_SPEED
       | V_channels => 1
       | V_interleaved => 1
       | V_avail_min => -1
       | V_test_coef => 8
       | _ => 0
       end;
     pcm_name := "default"; command := argv0; pidfile := None;
     channel_map := None |}.

(** One turn of the loop ends in the next turn or in a [return] (or the
    [exit] of [prg_exit]) with a status; the messages are left out. *)
Inductive turn :=
  | Next (o : settings)
  | Return (status : Z).

(** [strcasecmp(a, b) == 0] for a lower-case [b]. *)
Definition lower (c : ascii) : ascii :=
  let n := nat_of_ascii c in
  if (65 <=? n)%nat && (n <=? 90)%nat then ascii_of_nat (n + 32) else c.

Fixpoint lower_string (s : string) : string :=
  match s with
  | EmptyString => EmptyString
  | String c s' => String (lower c) (lower_string s')
  end.

Definition strcasecmp_eq (a b : string) : bool := String.eqb (lower_string a) b.

Section Options.

(** What the libraries answer: [strtol(str, &endptr, 0)] with whether it
    took the whole text without error, [snd_pcm_format_value] and
    [snd_pcm_chmap_parse_string]. *)
Variable strtol : string → Z * bool.
Variable snd_pcm_format_value : string → Z.
Variable snd_pcm_chmap_parse_string : string → option (list Z).

(** [parse_long(str, &err)]: the value and [err]. *)
Definition parse_long (str : string) : Z * Z :=
  let '(val, whole) := strtol str in
  (val, if whole then 0 else -1).

(** [var = parse_long(optarg, &err); if (err < 0) { error(...); return 1; }]
    with the conversion [conv] to the type of [var]. *)
Definition assign_long (var : ivar) (conv : Z → Z) (optarg : string) (o : settings)
    : turn :=
  let '(val, err) := parse_long optarg in
  let o := assign var (conv val) o in
  if err <? 0 then Return 1 else Next o.

(** The [switch (c)] of [main]. *)
Definition option_case (c : opt) (o : settings) : turn :=
  match c with
  | Opt_h => Return 0
  | Opt_version => Return 0
  | Opt_l => Next (assign V_do_device_list 1 o)
  | Opt_L => Next (assign V_do_pcm_list 1 o)
  | Opt_D optarg =>
      Next {| ints := ints o; pcm_name := optarg; command := command o;
              pidfile := pidfile o; channel_map := channel_map o |}
  | Opt_q => Next (assign V_quiet_mode 1 o)
  | Opt_c optarg =>
      let '(val, err) := parse_long optarg in
      let o := assign V_channels (CInt.unsigned 32 val) o in
      if err <? 0 then Return 1
      else if (ints o V_channels <? 1) || (256 <? ints o V_channels) then Return 1
      else Next o
  | Opt_f optarg =>
      let o := assign V_force_sample_format 1 o in
      if strcasecmp_eq optarg "cd" || strcasecmp_eq optarg "cdr" then
        let o :=
          if strcasecmp_eq optarg "cdr" then assign V_format SND_PCM_FORMAT_S16_BE o
          else assign V_format SND_PCM_FORMAT_S16_LE o in
        Next (assign V_channels 2 (assign V_rate 44100 o))
      else if strcasecmp_eq optarg "dat" then
        Next (assign V_channels 2
                (assign V_rate 48000 (assign V_format SND_PCM_FORMAT_S16_LE o)))
      else
        let o := assign V_format (snd_pcm_format_value optarg) o in
        if ints o V_format =? SND_PCM_FORMAT_UNKNOWN then Return EXIT_FAILURE
        else Next o
  | Opt_r optarg =>
      let '(val, err) := parse_long optarg in
      let tmp := CInt.int32 val in
      if err <? 0 then Return 1
      else
        let tmp := if tmp <? 1000 then CInt.int32 (tmp * 1000) else tmp in
        Next (assign V_rate (CInt.unsigned 32 tmp) o)
  | Opt_d optarg =>
      if negb (ints o V_duration_or_sample =? 0) then Return 1
      else
        match assign_long V_timelimit CInt.int32 optarg o with
        | Next o => Next (assign V_duration_or_sample 1 o)
        | r => r
        end
  | Opt_s optarg =>
      if negb (ints o V_duration_or_sample =? 0) then Return 1
      else
        match assign_long V_sampleslimit CInt.int32 optarg o with
        | Next o => Next (assign V_duration_or_sample 1 o)
        | r => r
        end
  | Opt_N =>
      Next (assign V_open_mode (Z.lor (ints o V_open_mode) SND_PCM_NONBLOCK)
              (assign V_nonblock 1 o))
  | Opt_F optarg => assign_long V_period_time (CInt.unsigned 32) optarg o
  | Opt_B optarg => assign_long V_buffer_time (CInt.unsigned 32) optarg o
  | Opt_period_size optarg => assign_long V_period_frames CInt.size_t optarg o
  | Opt_buffer_size optarg => assign_long V_buffer_frames CInt.size_t optarg o
  | Opt_A optarg => assign_long V_avail_min CInt.int32 optarg o
  | Opt_R optarg => assign_long V_start_delay CInt.int32 optarg o
  | Opt_T optarg => assign_long V_stop_delay CInt.int32 optarg o
  | Opt_v =>
      let o := assign V_verbose (CInt.int32 (ints o V_verbose + 1)) o in
      if (1 <? ints o V_verbose) && (ints o V_vumeter =? 0)
      then Next (assign V_vumeter 1 o) else Next o
  | Opt_V optarg =>
      match String.get 0 optarg with
      | Some "s"%char => Next (assign V_vumeter 2 o)
      | Some "m"%char => Next (assign V_vumeter 1 o)
      | _ => Next (assign V_vumeter 0 o)
      end
  | Opt_M => Next (assign V_mmap_flag 1 o)
  | Opt_I => Next (assign V_interleaved 0 o)
  | Opt_P =>
      let o := assign V_stream 0 o in
      Next {| ints := ints o; pcm_name := pcm_name o; command := "aplay";
              pidfile := pidfile o; channel_map := channel_map o |}
  | Opt_C =>
      let o := assign V_stream 1 o in
      let o := {| ints := ints o; pcm_name := pcm_name o; command := "arecord";
                  pidfile := pidfile o; channel_map := channel_map o |} in
      Next (assign V_start_delay 1 o)
  | Opt_i => Next (assign V_interactive 1 o)
  | Opt_disable_resample =>
      Next (assign V_open_mode (Z.lor (ints o V_open_mode) SND_PCM_NO_AUTO_RESAMPLE) o)
  | Opt_disable_channels =>
      Next (assign V_open_mode (Z.lor (ints o V_open_mode) SND_PCM_NO_AUTO_CHANNELS) o)
  | Opt_disable_format =>
      Next (assign V_open_mode (Z.lor (ints o V_open_mode) SND_PCM_NO_AUTO_FORMAT) o)
  | Opt_disable_softvol =>
      Next (assign V_open_mode (Z.lor (ints o V_open_mode) SND_PCM_NO_SOFTVOL) o)
  | Opt_test_position => Next (assign V_test_position 1 o)
  | Opt_test_coef optarg =>
      match assign_long V_test_coef CInt.int32 optarg o with
      | Next o => if ints o V_test_coef <? 1 then Next (assign V_test_coef 1 o) else Next o
      | r => r
      end
  | Opt_test_nowait => Next (assign V_test_nowait 1 o)
  | Opt_max_file_time optarg => assign_long V_max_file_time CInt.int32 optarg o
  | Opt_process_id_file optarg =>
      Next {| ints := ints o; pcm_name := pcm_name o; command := command o;
              pidfile := Some optarg; channel_map := channel_map o |}
  | Opt_use_strftime => Next (assign V_use_strftime 1 o)
  | Opt_dump_hwparams => Next (assign V_dump_hw_params 1 o)
  | Opt_fatal_errors => Next (assign V_fatal_errors 1 o)
  | Opt_m optarg =>
      match snd_pcm_chmap_parse_string optarg with
      | None => Return 1
      | Some map =>
          Next {| ints := ints o; pcm_name := pcm_name o; command := command o;
                  pidfile := pidfile o; channel_map := Some map |}
      end
  | Opt_unknown => Return 1
  end.

(** [while ((c = getopt_long(...)) != -1) switch (c) ...]: [opts] are the
    values [getopt_long] returns before its [-1]. *)
Fixpoint options_loop (opts : list opt) (o : settings) : turn :=
  match opts with
  | [] => Next o
  | c :: opts' =>
      match option_case c o with
      | Next o => options_loop opts' o
      | r => r
      end
  end.

End Options.

(** [-d] and [-s]. *)
Definition is_limit (c : opt) : bool :=
  match c with
  | Opt_d _ | Opt_s _ => true
  | _ => false
  end.

(** What every turn of the loop keeps: the channels are between 1 and
    256, the test coefficient is 1 at least, the meter is one of the
    three, and a limit is set only with [duration_or_sample]. *)
Definition well_set (o : settings) : Prop :=
  1 ≤ ints o V_channels ≤ 256 ∧
  1 ≤ ints o V_test_coef ∧
  0 ≤ ints o V_vumeter ≤ 2 ∧
  (ints o V_timelimit = 0 ∨ ints o V_sampleslimit = 0) ∧
  (ints o V_duration_or_sample = 0 →
   ints o V_timelimit = 0 ∧ ints o V_sampleslimit = 0).

(** * Properties *)

(** ** Machine integers in range *)
Lemma size_t_small (x : Z) : 0 ≤ x < 2 ^ 64 → CInt.size_t x = x.
Proof. intros H. unfold CInt.size_t, CInt.unsigned. by apply Z.mod_small. Qed.

Lemma signed_small (w x : Z) :
  0 < w → - 2 ^ (w - 1) ≤ x < 2 ^ (w - 1) → CInt.signed w x = x.
Proof.
  intros Hw H. unfold CInt.signed.
  assert (2 ^ w = 2 * 2 ^ (w - 1)) as Hp.
  { rewrite <- Z.pow_succ_r by lia. f_equal. lia. }
  rewrite Z.mod_small; lia.
Qed.

Lemma signed_range (w x : Z) :
  0 < w → - 2 ^ (w - 1) ≤ CInt.signed w x < 2 ^ (w - 1).
Proof.
  intros Hw. unfold CInt.signed.
  assert (2 ^ w = 2 * 2 ^ (w - 1)) as Hp.
  { rewrite <- Z.pow_succ_r by lia. f_equal. lia. }
  assert (0 < 2 ^ (w - 1)) by (apply Z.pow_pos_nonneg; lia).
  pose proof (Z.mod_pos_bound (x + 2 ^ (w - 1)) (2 ^ w) ltac:(lia)). lia.
Qed.

Lemma ssize_t_small (x : Z) : 0 ≤ x ≤ CInt.SSIZE_MAX → CInt.ssize_t x = x.
Proof.
  intros H. unfold CInt.ssize_t. apply signed_small; [lia|].
  unfold CInt.SSIZE_MAX in H. change (2 ^ (64 - 1)) with 9223372036854775808. lia.
Qed.

Lemma int32_small (x : Z) : - 2147483648 ≤ x < 2147483648 → CInt.int32 x = x.
Proof. intros H. apply signed_small; [lia|]. by change (2 ^ (32 - 1)) with 2147483648. Qed.

(** ** Running a bind *)

Lemma bind_Ret {E F A B : Type} (m : M E F A) (k : A → M E F B)
    (s s' : state E F) (a : A) :
  m s = Ret a s' → bind m k s = k a s'.
Proof. unfold bind. by intros ->. Qed.

(** ** [xwrite] *)

Section XwriteProperties.
Context {E : Type} (ops : env_ops E).

(** [write] never reports more bytes than it was given. *)
Hypothesis write_bounded : ∀ e n, (sys_write ops e n).1 ≤ n.

Variables (buf : list byte) (count : Z).
Hypothesis count_range : 0 ≤ count ≤ CInt.SSIZE_MAX.

(** What the loop of [xwrite] ends with when [buf] is written up to
    [offset]: either everything is written and the value is [count], or
    some [write] returned [r <= 0] with [k < count] bytes written, and
    [r] is the value. *)
Lemma xwrite_loop_outcome (fuel : nat) (e : E) (out : list byte) (offset : Z) :
  0 ≤ offset ≤ count →
  count - offset ≤ Z.of_nat fuel →
  ∃ r out' e',
    xwrite_loop ops fuel e (out ++ take (Z.to_nat offset) buf) buf count offset
      = Some (r, out', e') ∧
    ((r = count ∧ out' = out ++ take (Z.to_nat count) buf) ∨
     (r ≤ 0 ∧ ∃ k e0, 0 ≤ k < count ∧ out' = out ++ take (Z.to_nat k) buf ∧
                      sys_write ops e0 (count - k) = (r, e'))).
Proof.
  revert e offset. induction fuel as [|fuel IH]; intros e offset Hoff Hfuel.
  - assert (offset = count) as -> by lia. simpl.
    rewrite Z.ltb_irrefl. do 3 eexists; split; [done|]. left.
    by rewrite ssize_t_small.
  - simpl. destruct (Z.ltb_spec offset count) as [Hlt|Hge].
    + rewrite size_t_small by (unfold CInt.SSIZE_MAX in *; lia).
      pose proof (write_bounded e (count - offset)) as Hle.
      destruct (sys_write ops e (count - offset)) as [written e'] eqn:Hw.
      simpl in Hle.
      destruct (Z.leb_spec written 0) as [Hneg|Hpos].
      * do 3 eexists; split; [done|]. right. split; [done|].
        exists offset, e. split; [lia|]. by split.
      * rewrite size_t_small by (unfold CInt.SSIZE_MAX in *; lia).
        rewrite <- (assoc_L (++)), take_take_drop.
        replace (Z.to_nat offset + Z.to_nat written)%nat
          with (Z.to_nat (offset + written)) by lia.
        apply IH; lia.
    + assert (offset = count) as -> by lia.
      do 3 eexists; split; [done|]. left. by rewrite ssize_t_small.
Qed.

End XwriteProperties.

(** C10. [xwrite] returns: with a [write] that never reports more than it
    was given, a count that fits [ssize_t] and a buffer of at least [count]
    bytes, the call ends either with all of [buf] appended to the file and
    the value [count], or at the first [write] that returned [r <= 0],
    with that [r] as its value and fewer than [count] bytes appended.  So
    the value is [count] if and only if the whole buffer was written. *)
Theorem xwrite_count_iff_all_written {E : Type} (ops : env_ops E)
    (e : E) (out buf : list byte) (count : Z) :
  (∀ e n, (sys_write ops e n).1 ≤ n) →
  0 ≤ count ≤ CInt.SSIZE_MAX →
  count ≤ Z.of_nat (length buf) →
  ∃ r out' e',
    xwrite ops e out buf count = Some (r, out', e') ∧
    ((r = count ∧ out' = out ++ take (Z.to_nat count) buf) ∨
     (r ≤ 0 ∧ ∃ k e0, 0 ≤ k < count ∧ out' = out ++ take (Z.to_nat k) buf ∧
                      sys_write ops e0 (count - k) = (r, e'))) ∧
    (r = count ↔ out' = out ++ take (Z.to_nat count) buf).
Proof.
  intros Hw Hcount Hlen.
  destruct (xwrite_loop_outcome ops Hw buf count Hcount (Z.to_nat count) e out 0)
    as (r & out' & e' & Hrun & Hout); [lia..|].
  exists r, out', e'. rewrite app_nil_r in Hrun.
  split; [exact Hrun|]. split; [exact Hout|].
  destruct Hout as [[-> ->]|(Hr & k & e0 & Hk & -> & _)]; [done|].
  split; [lia|]. intros Heq. apply (inj (app out)) in Heq.
  apply (f_equal length) in Heq. rewrite !length_take in Heq. lia.
Qed.

(** A kernel that takes 3 bytes at a time writes 5 bytes in two calls. *)
Lemma xwrite_count_iff_all_written_witness :
  ∃ r out' e',
    xwrite Steady.ops (Steady.Env 3 1) [] [x01; x02; x03; x04; x05] 5
      = Some (r, out', e') ∧
    (r = 5 ↔ out' = [x01; x02; x03; x04; x05]).
Proof.
  destruct (xwrite_count_iff_all_written Steady.ops (Steady.Env 3 1) []
              [x01; x02; x03; x04; x05] 5) as (r & out' & e' & H1 & _ & H3).
  - intros e n; simpl; lia.
  - unfold CInt.SSIZE_MAX. lia.
  - simpl. lia.
  - exists r, out', e'. split; [exact H1|exact H3].
Defined.

(** ** The peak meter *)

Section PeakProperties.
Variable f : pcm_format.

Lemma abs_le_int_max (v : Z) : CInt.abs v ≤ CInt.INT_MAX.
Proof.
  unfold CInt.abs, CInt.int32, CInt.INT_MAX.
  pose proof (signed_range 32 (Z.abs v) ltac:(lia)) as H.
  change (2 ^ (32 - 1)) with 2147483648 in H. lia.
Qed.

(** Each decoder yields an [int] and moves the pointer by the size of
    one sample. *)
Lemma decoder_step (sample : list byte → option (Z * list byte)) (data : list byte) :
  Peak.decoder f = Some sample →
  physical_width f / 8 ≤ Z.of_nat (length data) →
  ∃ val data', sample data = Some (val, data') ∧ val ≤ CInt.INT_MAX ∧
               Z.of_nat (length data') = Z.of_nat (length data) - physical_width f / 8.
Proof.
  unfold Peak.decoder. intros Hdec Hlen.
  repeat case_match; simplify_eq;
    repeat match goal with H : (_ =? _) = true |- _ => apply Z.eqb_eq in H end.
  - replace (physical_width f / 8) with 1 in * by (by rewrite H).
    destruct data as [|b0 data]; simpl in *; [lia|].
    do 2 eexists. split; [done|]. split; [apply abs_le_int_max|lia].
  - replace (physical_width f / 8) with 2 in * by (by rewrite H0).
    destruct data as [|b0 [|b1 data]]; simpl in *; try lia.
    do 2 eexists. split; [done|]. split; [apply abs_le_int_max|lia].
  - replace (physical_width f / 8) with 3 in * by (by rewrite H1).
    destruct data as [|b0 [|b1 [|b2 data]]]; simpl in *; try lia.
    do 2 eexists. split; [done|]. split; [apply abs_le_int_max|lia].
  - replace (physical_width f / 8) with 4 in * by (by rewrite H2).
    destruct data as [|b0 [|b1 [|b2 [|b3 data]]]]; simpl in *; try lia.
    do 2 eexists. split; [done|]. split; [|lia].
    case_match; [done|apply abs_le_int_max].
Qed.

(** The loop ends when the buffer holds the samples, and the running
    maxima stay between 0 and [INT_MAX]. *)
Lemma scan_total (sample : list byte → option (Z * list byte)) (stereo : bool)
    (nsamples : nat) (data : list byte) (c : bool) (max_peak : Z * Z) :
  Peak.decoder f = Some sample →
  0 ≤ physical_width f / 8 →
  Z.of_nat nsamples * (physical_width f / 8) ≤ Z.of_nat (length data) →
  0 ≤ max_peak.1 ≤ CInt.INT_MAX → 0 ≤ max_peak.2 ≤ CInt.INT_MAX →
  ∃ raw, Peak.scan sample stereo nsamples data c max_peak = Some raw ∧
         0 ≤ raw.1 ≤ CInt.INT_MAX ∧ 0 ≤ raw.2 ≤ CInt.INT_MAX.
Proof.
  intros Hdec Hw. revert data c max_peak.
  induction nsamples as [|n IH]; intros data c [m0 m1] Hlen H0 H1; simpl in *.
  - eexists. by split.
  - destruct (decoder_step sample data Hdec) as (val & data' & -> & Hval & Hlen');
      [nia|].
    apply IH; [nia|..]; destruct c; simpl; repeat case_match; lia.
Qed.

End PeakProperties.

Section LevelProperties.
Variable f : pcm_format.
Hypothesis physical : physical_width f = 8 ∨ physical_width f = 16 ∨
                      physical_width f = 24 ∨ physical_width f = 32.
Hypothesis significant : 1 ≤ width f ≤ physical_width f.
Hypothesis significant_wide : 16 < physical_width f → 16 < width f.

(** [max] is the full scale [2^(width-1)], but for 32 bits, where it is
    one less. *)
Lemma full_scale_value :
  Peak.full_scale f = if width f =? 32 then CInt.INT_MAX else 2 ^ (width f - 1).
Proof.
  unfold Peak.full_scale.
  assert (∃ w : nat, width f = Z.of_nat w ∧ (1 ≤ w ≤ 32)%nat) as (w & -> & Hw).
  { exists (Z.to_nat (width f)). lia. }
  do 33 (destruct w as [|w]; [try lia; vm_compute; reflexivity|]). lia.
Qed.

Lemma clamp_min (raw : Z) :
  0 ≤ raw ≤ CInt.INT_MAX →
  Peak.clamp (Peak.full_scale f) raw = Z.min raw (2 ^ (width f - 1)).
Proof.
  intros Hraw. rewrite full_scale_value. unfold Peak.clamp, CInt.INT_MAX in *.
  destruct (Z.eqb_spec (width f) 32) as [->|_].
  - change (2 ^ (32 - 1)) with 2147483648. case_match; lia.
  - destruct (Z.ltb_spec (2 ^ (width f - 1)) raw); lia.
Qed.

Lemma percent_bounded (p : Z) :
  0 ≤ p ≤ Peak.full_scale f →
  0 ≤ Peak.percent f (Peak.full_scale f) p ≤ 100.
Proof.
  rewrite full_scale_value. unfold Peak.percent.
  assert (∃ w : nat, width f = Z.of_nat w ∧ (1 ≤ w ≤ 32)%nat) as (w & Hwf & Hw).
  { exists (Z.to_nat (width f)). lia. }
  rewrite Hwf in *.
  destruct (Z.ltb_spec 16 (physical_width f)) as [Hwide|Hnarrow].
  - specialize (significant_wide Hwide).
    set (max := if Z.of_nat w =? 32 then CInt.INT_MAX else 2 ^ (Z.of_nat w - 1)).
    assert (65536 ≤ max) as Hmax.
    { unfold max, CInt.INT_MAX. case_match; [lia|].
      change 65536 with (2 ^ 16). apply Z.pow_le_mono_r; lia. }
    intros Hp.
    pose proof (Z.quot_rem' max 100) as Hqr.
    pose proof (Z.rem_bound_pos max 100 ltac:(lia) ltac:(lia)) as Hr.
    split.
    + apply Z.quot_pos; lia.
    + apply Z.lt_succ_r, Z.quot_lt_upper_bound; lia.
  - assert (w ≤ 16)%nat as Hw16 by lia.
    intros Hp.
    assert ((Z.of_nat w =? 32) = false) as Hne by (apply Z.eqb_neq; lia).
    rewrite Hne in *.
    assert (0 < 2 ^ (Z.of_nat w - 1)) as Hpos by (apply Z.pow_pos_nonneg; lia).
    assert (2 ^ (Z.of_nat w - 1) ≤ 2 ^ 15) as Hmax
      by (apply Z.pow_le_mono_r; lia).
    change (2 ^ 15) with 32768 in Hmax.
    unfold CInt.int32. rewrite signed_small by (change (2 ^ (32 - 1)) with 2147483648; lia).
    split.
    + apply Z.quot_pos; lia.
    + apply Z.lt_succ_r, Z.quot_lt_upper_bound; lia.
Qed.

End LevelProperties.

(** C6. At a supported width (8, 16, 24 or 32 bits a sample, with the
    significant bits ALSA's formats have there) and with the samples in
    the buffer, the decoding loop ends, and for each channel shown the
    peak is the loop's maximum clamped to [2^(significant_bits-1)] and the
    percentage lies between 0 and 100.  The percentage is therefore never
    above 100, with or without a full-scale sample in the input. *)
Theorem peak_clamped_percent_in_range (f : pcm_format) (stereo : bool)
    (data : list byte) (nsamples : nat) :
  physical_width f = 8 ∨ physical_width f = 16 ∨
    physical_width f = 24 ∨ physical_width f = 32 →
  1 ≤ width f ≤ physical_width f →
  (16 < physical_width f → 16 < width f) →
  Z.of_nat nsamples * (physical_width f / 8) ≤ Z.of_nat (length data) →
  ∃ sample raw,
    Peak.decoder f = Some sample ∧
    Peak.scan sample stereo nsamples data false (0, 0) = Some raw ∧
    Forall2 (λ r lv, lv.1 = Z.min r (2 ^ (width f - 1)) ∧ 0 ≤ lv.2 ≤ 100)
      (if stereo then [raw.1; raw.2] else [raw.1])
      (Peak.levels f stereo raw).
Proof.
  intros Hphys Hsig Hwide Hlen.
  assert (∃ sample, Peak.decoder f = Some sample) as [sample Hdec].
  { unfold Peak.decoder.
    destruct Hphys as [Hp | [Hp | [Hp | Hp]]]; rewrite Hp; simpl; eauto. }
  assert (0 ≤ physical_width f / 8) as Hbytes by (apply Z.div_pos; lia).
  destruct (scan_total f sample stereo nsamples data false (0, 0) Hdec Hbytes Hlen)
    as (raw & Hscan & Hr0 & Hr1); [simpl; unfold CInt.INT_MAX; lia..|].
  exists sample, raw. split; [done|]. split; [done|].
  assert (∀ r, 0 ≤ r ≤ CInt.INT_MAX →
               (Peak.clamp (Peak.full_scale f) r = Z.min r (2 ^ (width f - 1))) ∧
               0 ≤ Peak.percent f (Peak.full_scale f) (Peak.clamp (Peak.full_scale f) r) ≤ 100)
    as Hlevel.
  { intros r Hr. split; [by apply clamp_min|].
    apply percent_bounded; try done.
    unfold Peak.clamp. pose proof (full_scale_value f Hphys Hsig Hwide) as Hfs.
    assert (0 < Peak.full_scale f).
    { rewrite Hfs. case_match; [unfold CInt.INT_MAX; lia|]. apply Z.pow_pos_nonneg; lia. }
    destruct (Z.ltb_spec (Peak.full_scale f) r); lia. }
  unfold Peak.levels. destruct stereo; simpl; repeat constructor; simpl;
    by apply Hlevel.
Qed.

(** Two 16-bit samples, the second at negative full scale. *)
Lemma peak_clamped_percent_in_range_witness :
  ∃ sample raw,
    Peak.decoder Script.S16_LE = Some sample ∧
    Peak.scan sample false 2 [x01; x00; x00; x80] false (0, 0) = Some raw ∧
    Forall2 (λ r lv, lv.1 = Z.min r (2 ^ (16 - 1)) ∧ 0 ≤ lv.2 ≤ 100)
      [raw.1] (Peak.levels Script.S16_LE false raw).
Proof.
  apply (peak_clamped_percent_in_range Script.S16_LE false [x01; x00; x00; x80] 2).
  - right; left; reflexivity.
  - unfold Script.S16_LE; simpl; lia.
  - unfold Script.S16_LE; simpl; intros; lia.
  - by vm_compute.
Defined.

(** ** The meter at an unsupported width *)

Section UnsupportedWidth.
Context {E F : Type} (ops : env_ops E) (cfg : config).

Hypothesis unsupported :
  physical_width (format cfg) ≠ 8 ∧ physical_width (format cfg) ≠ 16 ∧
  physical_width (format cfg) ≠ 24 ∧ physical_width (format cfg) ≠ 32.

Lemma decoder_unsupported : Peak.decoder (format cfg) = None.
Proof.
  unfold Peak.decoder.
  repeat case_match; try done;
    match goal with H : (_ =? _) = true |- _ => apply Z.eqb_eq in H end; lia.
Qed.

(** One call: the line is printed when [run] is still 0, [run] is set,
    and nothing else changes. *)
Lemma compute_max_peak_unsupported (data : list byte) (nsamples : Z)
    (s : state E F) :
  compute_max_peak ops cfg data nsamples s
  = Ret tt
      (if run (meter s) then s
       else set_meter (MeterState true (maxperc (meter s)) (meter_t (meter s)))
              (set_st_stderr
                 (st_stderr s ++ [Ev_unsupported_bits (CInt.int32 (bits_per_sample cfg))])
                 s)).
Proof.
  unfold compute_max_peak. rewrite decoder_unsupported.
  unfold bind, get, when, ret, fprintf_stderr, modify. simpl.
  destruct (run (meter s)) eqn:Hrun; simpl; [done|].
  reflexivity.
Qed.

(** Once [run] is set, no call prints or changes anything. *)
Lemma meter_calls_silent (calls : list (list byte * Z)) (s : state E F) :
  run (meter s) = true →
  meter_calls ops cfg calls s = Ret tt s.
Proof.
  intros Hrun. induction calls as [|[data n] calls IH]; simpl; [done|].
  unfold bind. rewrite compute_max_peak_unsupported, Hrun. exact IH.
Qed.

End UnsupportedWidth.

(** C7, as amended.  At a physical width other than 8, 16, 24 and 32 the
    meter reports the unsupported width once in the life of the process:
    of any calls made from a state where nothing was reported yet, the
    first prints the line and sets [run], and no call prints anything
    else or computes or shows a level; every call returns, and nothing but
    the log and [run] changes, so the transfer goes on as without the
    meter.  Calls made after that, in the same stream or in a later one,
    print nothing. *)
Theorem unsupported_width_reported_once {E F : Type} (ops : env_ops E)
    (cfg : config) (calls : list (list byte * Z))
    (s : state E F) :
  physical_width (format cfg) ≠ 8 ∧ physical_width (format cfg) ≠ 16 ∧
    physical_width (format cfg) ≠ 24 ∧ physical_width (format cfg) ≠ 32 →
  meter_calls ops cfg calls s
  = Ret tt
      (if run (meter s) || bool_decide (calls = []) then s
       else set_meter (MeterState true (maxperc (meter s)) (meter_t (meter s)))
              (set_st_stderr
                 (st_stderr s ++ [Ev_unsupported_bits (CInt.int32 (bits_per_sample cfg))])
                 s)).
Proof.
  intros Hw. destruct calls as [|[data n] calls].
  - rewrite orb_true_r. reflexivity.
  - simpl. unfold bind. rewrite compute_max_peak_unsupported by done.
    destruct (run (meter s)) eqn:Hrun; simpl.
    + by apply meter_calls_silent.
    + by apply meter_calls_silent.
Qed.

(** Three calls at 64 bits a sample: one line. *)
Lemma unsupported_width_reported_once_witness :
  ∃ s', meter_calls Script.ops
          (Script.play Script.FLOAT64_LE 1 4)
          [([x00], 1); ([x00], 1); ([x00], 1)]
          (Script.initial (Script.quiet 8 x00) ∅ []) = Ret tt s' ∧
        st_stderr s' = [Ev_unsupported_bits 64] ∧
        filter is_meter_output (st_stderr s') = [].
Proof.
  eexists. split.
  - apply (unsupported_width_reported_once Script.ops
             (Script.play Script.FLOAT64_LE 1 4)
             [([x00], 1); ([x00], 1); ([x00], 1)]).
    by vm_compute.
  - by vm_compute.
Defined.

(** C7 as stated fails on the second of two streams played by one process
    with the meter on at 64 bits a sample: the line is printed in the
    first stream and not in the second. *)
Lemma unsupported_width_second_stream_unreported :
  match
    main Script.ops Script.floats
      {| stream := SND_PCM_STREAM_PLAYBACK; format := Script.FLOAT64_LE;
         channels := 1; rate := 8000; timelimit := 0; sampleslimit := 0;
         quiet_mode := false; interleaved := true; verbose := 0;
         vumeter_opt := VUMETER_MONO; test_position := false; test_coef := 8;
         test_nowait := false; max_file_time := 0; use_strftime := false;
         pidfile_name := None; period_size := 2; buffer_size := 8 |}
      100 ["a.raw"; "b.raw"]%string
      (Script.initial (Script.quiet 8 x00)
         {[ "a.raw"%string := replicate 40 x01; "b.raw"%string := replicate 40 x02 ]} [])
  with
  | Exit _ s => reports_per_stream (st_stderr s) = [1; 0]%nat
  | _ => False
  end.
Proof. by vm_compute. Qed.

(** ** The buffer position monitor *)

Section PositionProperties.
Context {E F : Type} (ops : env_ops E) (fl : float_ops F) (cfg : config).

(** The envelope is computed without overflow. *)
Hypothesis buffer_range : 0 ≤ buffer_frames cfg < 2 ^ 63.
Hypothesis envelope_range : - 2 ^ 63 < test_coef cfg * buffer_frames cfg < 2 ^ 63.

Lemma outofrange_value :
  outofrange cfg = Z.quot (test_coef cfg * buffer_frames cfg) 2.
Proof.
  unfold outofrange, CInt.int64.
  rewrite (signed_small 64 (buffer_frames cfg)) by (change (2 ^ (64 - 1)) with (2 ^ 63); lia).
  rewrite signed_small by (change (2 ^ (64 - 1)) with (2 ^ 63); lia). done.
Qed.

(** [x > outofrange || x < -outofrange] is [|x| > outofrange]. *)
Lemma out_of_range_abs (x : Z) :
  out_of_range cfg x = true ↔ Z.quot (test_coef cfg * buffer_frames cfg) 2 < Z.abs x.
Proof.
  unfold out_of_range. rewrite outofrange_value.
  set (o := Z.quot (test_coef cfg * buffer_frames cfg) 2).
  assert (- 2 ^ 63 < o < 2 ^ 63) as Ho.
  { unfold o. pose proof (Z.quot_rem' (test_coef cfg * buffer_frames cfg) 2).
    assert (0 < 2 ^ 63) by done.
    pose proof (Z.rem_bound_abs (test_coef cfg * buffer_frames cfg) 2). lia. }
  unfold CInt.int64. rewrite signed_small by (change (2 ^ (64 - 1)) with (2 ^ 63); lia).
  rewrite orb_true_iff, !Z.ltb_lt. lia.
Qed.

Variables (s : state E F) (avail delay savail sdelay : Z) (e1 e2 : E).
Hypothesis query : avail_delay ops (st_env s) = (Some (avail, delay), e1).
Hypothesis snapshot : status ops e1 = (Some (savail, sdelay), e2).

Lemma accumulate_event (now : Z) (p : pos_state F) (ev : event) :
  (accumulate fl cfg avail delay savail sdelay now p).2 = Some ev →
  is_suspicious ev = false.
Proof.
  unfold accumulate. simpl. intros H.
  match type of H with (if ?b then _ else _) = _ => destruct b end;
    by simplify_eq.
Qed.

(** The statistics leave the counter of the suspicious readings alone. *)
Lemma accumulate_counter (now : Z) (p : pos_state F) :
  counter (accumulate fl cfg avail delay savail sdelay now p).1 = counter p.
Proof. unfold accumulate. simpl. by destruct (tmr p =? -1). Qed.

Local Opaque accumulate.

Lemma do_test_position_cases :
  ∃ s', do_test_position ops fl cfg s = Ret tt s' ∧
  ∃ log,
    st_stderr s' = st_stderr s ++ log ∧
    (if out_of_range cfg avail || out_of_range cfg delay then
       suspicious_log s Susp_position avail delay log ∧
       pos s' = incr_counter (reset_accumulators fl cfg (set_bad avail delay (pos s)))
     else if out_of_range cfg savail || out_of_range cfg sdelay then
       suspicious_log s Susp_status_position savail sdelay log ∧
       pos s' = incr_counter (reset_accumulators fl cfg (set_bad savail sdelay (pos s)))
     else if bool_decide (stream cfg = SND_PCM_STREAM_CAPTURE) && (delay <? avail) then
       suspicious_log s Susp_avail_gt_delay avail delay log ∧ pos s' = incr_counter (pos s)
     else if bool_decide (stream cfg = SND_PCM_STREAM_CAPTURE) && (sdelay <? savail) then
       suspicious_log s Susp_status_avail_gt_delay savail sdelay log ∧
       pos s' = incr_counter (pos s)
     else existsb is_suspicious log = false ∧ counter (pos s') = counter (pos s)).
Proof.
  assert (∀ (l : list event) (P : list event → Prop),
            P [] → ∃ log, l = l ++ log ∧ P log) as Hnil.
  { intros l P HP. exists []. by rewrite app_nil_r. }
  assert (∀ (l k : list event) (P : list event → Prop),
            P k → ∃ log, l ++ k = l ++ log ∧ P log) as Hone.
  { intros l k P HP. by exists k. }
  assert (∀ (l k1 k2 : list event) (P : list event → Prop),
            P (k1 ++ k2) → ∃ log, (l ++ k1) ++ k2 = l ++ log ∧ P log) as Htwo.
  { intros l k1 k2 P HP. exists (k1 ++ k2). by rewrite (assoc_L (++)). }
  assert (∀ kind a d tail, existsb is_suspicious tail = false →
            suspicious_log s kind a d
              (Ev_suspicious kind (CInt.int64 (counter (pos s) + 1)) a d :: tail))
    as Hline.
  { intros kind a d tail Htail. by exists tail. }
  unfold do_test_position, bind, call. rewrite query. simpl. rewrite snapshot. simpl.
  destruct (out_of_range cfg avail || out_of_range cfg delay) eqn:H1.
  { unfold suspicious, modify, bind, get, fprintf_stderr, when, ret; simpl.
    destruct (verbose cfg =? 1); simpl; eexists; (split; [reflexivity|]); simpl;
      [apply Htwo|apply Hone]; (split; [by apply Hline|done]). }
  destruct (out_of_range cfg savail || out_of_range cfg sdelay) eqn:H2.
  { unfold suspicious, modify, bind, get, fprintf_stderr, when, ret; simpl.
    destruct (verbose cfg =? 1); simpl; eexists; (split; [reflexivity|]); simpl;
      [apply Htwo|apply Hone]; (split; [by apply Hline|done]). }
  destruct (bool_decide (stream cfg = SND_PCM_STREAM_CAPTURE)) eqn:H3; simpl;
    [destruct (delay <? avail) eqn:H4; simpl;
     [|destruct (sdelay <? savail) eqn:H5; simpl]|];
    unfold suspicious, modify, bind, get, fprintf_stderr, when, ret, call; simpl;
    try (destruct (verbose cfg =? 1); simpl; eexists; (split; [reflexivity|]); simpl;
         [apply Htwo|apply Hone]; (split; [by apply Hline|done])).
  all: destruct (verbose cfg =? 0) eqn:Hv0; simpl;
    [destruct (verbose cfg =? 1); simpl; eexists; (split; [reflexivity|]); simpl;
     [apply Hone|apply Hnil]; done|].
  all: destruct (time ops e2) as [now e3]; simpl.
  all: pose proof (accumulate_counter now (pos s)) as Hcounter.
  all: destruct (accumulate fl cfg avail delay savail sdelay now (pos s))
         as [p [ev|]] eqn:Hacc; simpl in *.
  all: try (pose proof (accumulate_event now (pos s) ev) as Hev;
            rewrite Hacc in Hev; specialize (Hev eq_refl)).
  all: destruct (verbose cfg =? 1); simpl; eexists; (split; [reflexivity|]); simpl;
    first [ by apply Htwo; simpl; rewrite Hev
          | by apply Hone; simpl; rewrite ?Hev
          | by apply Hnil ].
Qed.

End PositionProperties.

(** C9, as amended.  With both queries answered and the envelope
    [test_coef * buffer_frames / 2] computed without overflow, a reading is
    logged as suspicious exactly when the absolute value of one of the four
    values is above the envelope or, in capture only, [avail > delay] holds
    for one of the two pairs.  A suspicious reading adds one to the counter
    and its line in the log, the first of the call, shows the counter; any
    other reading leaves the counter as it is.  A value above the envelope
    resets the accumulated sums, maxima and minima; a reading that is
    suspicious only because [avail > delay] is logged and counted and
    leaves them as they were. *)
Theorem position_suspicious_iff {E F : Type} (ops : env_ops E) (fl : float_ops F)
    (cfg : config) (s : state E F) (avail delay savail sdelay : Z) (e1 e2 : E) :
  0 ≤ buffer_frames cfg < 2 ^ 63 →
  - 2 ^ 63 < test_coef cfg * buffer_frames cfg < 2 ^ 63 →
  avail_delay ops (st_env s) = (Some (avail, delay), e1) →
  status ops e1 = (Some (savail, sdelay), e2) →
  let envelope := Z.quot (test_coef cfg * buffer_frames cfg) 2 in
  let beyond := envelope < Z.abs avail ∨ envelope < Z.abs delay ∨
                envelope < Z.abs savail ∨ envelope < Z.abs sdelay in
  let inverted := stream cfg = SND_PCM_STREAM_CAPTURE ∧
                  (delay < avail ∨ sdelay < savail) in
  ∃ s' log,
    do_test_position ops fl cfg s = Ret tt s' ∧
    st_stderr s' = st_stderr s ++ log ∧
    (existsb is_suspicious log = true ↔ beyond ∨ inverted) ∧
    (beyond ∨ inverted →
       counter (pos s') = CInt.int64 (counter (pos s) + 1) ∧
       ∃ kind a d tail,
         log = Ev_suspicious kind (counter (pos s')) a d :: tail ∧
         existsb is_suspicious tail = false) ∧
    (¬ (beyond ∨ inverted) → counter (pos s') = counter (pos s)) ∧
    (beyond →
       availsum (pos s') = f_zero fl ∧ delaysum (pos s') = f_zero fl ∧
       samples (pos s') = f_zero fl ∧
       maxavail (pos s') = 0 ∧ maxdelay (pos s') = 0 ∧
       minavail (pos s') = CInt.int64 (CInt.size_t (buffer_frames cfg * 16)) ∧
       mindelay (pos s') = CInt.int64 (CInt.size_t (buffer_frames cfg * 16))) ∧
    (¬ beyond → inverted →
       availsum (pos s') = availsum (pos s) ∧ delaysum (pos s') = delaysum (pos s) ∧
       samples (pos s') = samples (pos s) ∧
       maxavail (pos s') = maxavail (pos s) ∧ maxdelay (pos s') = maxdelay (pos s) ∧
       minavail (pos s') = minavail (pos s) ∧ mindelay (pos s') = mindelay (pos s)).
Proof.
  intros Hbuf Henv Hquery Hsnap envelope beyond inverted.
  destruct (do_test_position_cases ops fl cfg s avail delay savail sdelay e1 e2
              Hquery Hsnap) as (s' & Hrun & log & Hlog & Hcases).
  pose proof (out_of_range_abs cfg Hbuf Henv) as Habs.
  exists s', log. split; [done|]. split; [done|].
  assert (out_of_range cfg avail || out_of_range cfg delay = true ∨
          out_of_range cfg savail || out_of_range cfg sdelay = true ↔ beyond) as Hbeyond.
  { rewrite !orb_true_iff, !Habs. unfold beyond, envelope. tauto. }
  assert (bool_decide (stream cfg = SND_PCM_STREAM_CAPTURE) && (delay <? avail) = true ∨
          bool_decide (stream cfg = SND_PCM_STREAM_CAPTURE) && (sdelay <? savail) = true
          ↔ inverted) as Hinv.
  { rewrite !andb_true_iff, bool_decide_eq_true, !Z.ltb_lt. unfold inverted. tauto. }
  assert (∀ kind a d p,
            suspicious_log s kind a d log → pos s' = incr_counter p →
            counter p = counter (pos s) →
            existsb is_suspicious log = true ∧
            counter (pos s') = CInt.int64 (counter (pos s) + 1) ∧
            ∃ kind a d tail,
              log = Ev_suspicious kind (counter (pos s')) a d :: tail ∧
              existsb is_suspicious tail = false) as Hline.
  { intros kind a d p (tail & -> & Htail) -> Hp. simpl. rewrite Hp.
    split; [done|]. split; [done|]. by exists kind, a, d, tail. }
  destruct (out_of_range cfg avail || out_of_range cfg delay) eqn:H1.
  { destruct Hcases as [Hsusp Hpos].
    destruct (Hline _ _ _ _ Hsusp Hpos eq_refl) as (Hex & Hcount & Hshow).
    assert beyond as Hb by (apply Hbeyond; by left). rewrite Hpos.
    split; [tauto|]. split; [by rewrite <- Hpos|]. split; [tauto|].
    split; [done|]. tauto. }
  destruct (out_of_range cfg savail || out_of_range cfg sdelay) eqn:H2.
  { destruct Hcases as [Hsusp Hpos].
    destruct (Hline _ _ _ _ Hsusp Hpos eq_refl) as (Hex & Hcount & Hshow).
    assert beyond as Hb by (apply Hbeyond; by right). rewrite Hpos.
    split; [tauto|]. split; [by rewrite <- Hpos|]. split; [tauto|].
    split; [done|]. tauto. }
  assert (¬ beyond) as Hnb.
  { intros Hb. apply Hbeyond in Hb as [?|?]; done. }
  destruct (bool_decide (stream cfg = SND_PCM_STREAM_CAPTURE) && (delay <? avail)) eqn:H3.
  { destruct Hcases as [Hsusp Hpos].
    destruct (Hline _ _ _ _ Hsusp Hpos eq_refl) as (Hex & Hcount & Hshow).
    assert inverted as Hi by (apply Hinv; by left). rewrite Hpos.
    split; [tauto|]. split; [by rewrite <- Hpos|]. split; [tauto|].
    split; [tauto|]. done. }
  destruct (bool_decide (stream cfg = SND_PCM_STREAM_CAPTURE) && (sdelay <? savail)) eqn:H4.
  { destruct Hcases as [Hsusp Hpos].
    destruct (Hline _ _ _ _ Hsusp Hpos eq_refl) as (Hex & Hcount & Hshow).
    assert inverted as Hi by (apply Hinv; by right). rewrite Hpos.
    split; [tauto|]. split; [by rewrite <- Hpos|]. split; [tauto|].
    split; [tauto|]. done. }
  assert (¬ inverted) as Hni.
  { intros Hi. apply Hinv in Hi as [?|?]; done. }
  destruct Hcases as [Hquiet Hcount]. rewrite Hquiet.
  split; [split; [done|tauto]|]. split; [tauto|]. split; [done|]. tauto.
Qed.

(** A capture in a buffer of 1024 frames reads [avail = 5 > delay = 3]. *)
Lemma position_suspicious_iff_witness :
  ∃ s' log,
    do_test_position Script.ops Script.floats (Script.record Script.U8 1 256)
      (Script.initial
         (Script.Env [] [] [] [] [Some (5, 3)] [Some (2, 3)] [] 0 1 x00) ∅ [])
    = Ret tt s' ∧
    st_stderr s' = log ∧
    existsb is_suspicious log = true ∧
    counter (pos s') = 1.
Proof.
  destruct (position_suspicious_iff Script.ops Script.floats
              (Script.record Script.U8 1 256)
              (Script.initial
                 (Script.Env [] [] [] [] [Some (5, 3)] [Some (2, 3)] [] 0 1 x00) ∅ [])
              5 3 2 3
              (Script.Env [] [] [] [] [] [Some (2, 3)] [] 0 1 x00)
              (Script.Env [] [] [] [] [] [] [] 0 1 x00))
    as (s' & log & Hrun & Hlog & Hiff & Hcount & _).
  - by vm_compute.
  - by vm_compute.
  - reflexivity.
  - reflexivity.
  - assert (stream (Script.record Script.U8 1 256) = SND_PCM_STREAM_CAPTURE ∧
            (3 < 5 ∨ 3 < 2)) as Hinverted by (split; [reflexivity|left; lia]).
    exists s', log. split; [exact Hrun|]. split; [exact Hlog|].
    split; [apply Hiff; right; exact Hinverted|].
    apply Hcount. right. exact Hinverted.
Defined.

(** C9 as stated fails where a capture reads [avail = 5 > delay = 3] inside
    the envelope.  [arecord -vv --test-position] polls the position twice:
    the first reading, 2 frames available and a delay of 3, goes into the
    statistics; the second one is logged as suspicious, and the sums, the
    maxima and the minima of the first one stay. *)
Lemma position_inverted_keeps_statistics :
  match
    bind
      (do_test_position Script.ops Script.floats (record_monitored Script.U8 1 256))
      (λ _, do_test_position Script.ops Script.floats (record_monitored Script.U8 1 256))
      (Script.initial
         (Script.Env [] [] [] [] [Some (2, 3); Some (5, 3)] [Some (2, 3); Some (2, 3)]
            [] 0 1 x00) ∅ [])
  with
  | Ret _ s' =>
      st_stderr s' = [Ev_suspicious Susp_avail_gt_delay 1 5 3] ∧
      availsum (pos s') = Script.float_of_long 2 ∧
      delaysum (pos s') = Script.float_of_long 3 ∧
      samples (pos s') = Script.float_of_long 1 ∧
      maxavail (pos s') = 2 ∧ maxdelay (pos s') = 3 ∧
      minavail (pos s') = 2 ∧ mindelay (pos s') = 3
  | _ => False
  end.
Proof. by vm_compute. Qed.

(** ** Capture file names *)

Lemma sprintf_02d_two_digits (n : Z) :
  0 ≤ n ≤ 99 → sprintf_02d n = two_digits n.
Proof.
  intros Hn. assert (∃ k : nat, n = Z.of_nat k ∧ (k ≤ 99)%nat) as (k & -> & Hk).
  { exists (Z.to_nat n). lia. }
  do 100 (destruct k as [|k]; [vm_compute; reflexivity|]). lia.
Qed.

Lemma append_nil_r (s : string) : (s +:+ "")%string = s.
Proof.
  induction s as [|c s IH]; [done|].
  change (String c (s +:+ "") = String c s). by rewrite IH.
Qed.

Lemma append_nil_l (s : string) : ("" +:+ s)%string = s.
Proof. reflexivity. Qed.

Lemma append_assoc (s1 s2 s3 : string) :
  ((s1 +:+ s2) +:+ s3 = s1 +:+ s2 +:+ s3)%string.
Proof.
  induction s1 as [|c s1 IH]; [done|].
  change (String c ((s1 +:+ s2) +:+ s3) = String c (s1 +:+ s2 +:+ s3)).
  by rewrite IH.
Qed.

(** ** Decimal numbers in names *)

Lemma string_length_app (s1 s2 : string) :
  String.length (s1 +:+ s2) = (String.length s1 + String.length s2)%nat.
Proof.
  induction s1 as [|c s1 IH]; [done|].
  change (S (String.length (s1 +:+ s2)) = S (String.length s1 + String.length s2)).
  by rewrite IH.
Qed.

Lemma append_inj_r (s1 s2 t : string) : (s1 +:+ t = s2 +:+ t)%string → s1 = s2.
Proof.
  revert s2. induction s1 as [|c s1 IH]; intros [|c' s2] Heq.
  - done.
  - apply (f_equal String.length) in Heq.
    rewrite !string_length_app in Heq. simpl in Heq. lia.
  - apply (f_equal String.length) in Heq.
    rewrite !string_length_app in Heq. simpl in Heq. lia.
  - change (String c (s1 +:+ t) = String c' (s2 +:+ t)) in Heq.
    injection Heq as -> Heq. f_equal. by apply IH.
Qed.

Lemma substring_all (n : nat) (s : string) :
  (String.length s ≤ n)%nat → String.substring 0 n s = s.
Proof.
  revert n. induction s as [|c s IH]; intros [|n] Hlen; simpl in *; try done; try lia.
  f_equal. apply IH. lia.
Qed.

(** The digits of a positive number below [2^k]: the first one is not a
    zero and there are at most [k] of them, and more than one from 10 on. *)
Lemma pretty_N_go_digits (k : nat) (x : N) (s : string) :
  (0 < x < 2 ^ N.of_nat k)%N →
  ∃ c r, pretty_N_go x s = String c r ∧ c ≠ "0"%char ∧
         (String.length s ≤ String.length r < String.length s + k)%nat ∧
         ((10 ≤ x)%N → (String.length s < String.length r)%nat).
Proof.
  revert x s. induction k as [|k IH]; intros x s Hx.
  { simpl in Hx. lia. }
  rewrite pretty_N_go_step by lia.
  destruct (decide (x `div` 10 = 0)%N) as [Hdiv|Hdiv].
  - rewrite Hdiv, pretty_N_go_0.
    assert (x < 10)%N as Hlt by (apply N.div_small_iff in Hdiv; lia).
    rewrite N.mod_small by done.
    exists (pretty_N_char x), s. split; [done|]. split; [|split; [simpl; lia|intros; lia]].
    assert (∃ n : nat, x = N.of_nat n ∧ (1 ≤ n < 10)%nat) as (n & -> & Hn).
    { exists (N.to_nat x). lia. }
    do 10 (destruct n as [|n]; [try lia; by vm_compute|]). lia.
  - destruct (IH (x `div` 10)%N (String (pretty_N_char (x `mod` 10)) s))
      as (c & r & -> & Hc & Hlen & _).
    { split; [by apply N.neq_0_lt_0|].
      assert (x `div` 10 ≤ x `div` 2)%N as Hle.
      { apply N.div_le_compat_l; lia. }
      assert (x `div` 2 < 2 ^ N.of_nat k)%N; [|lia].
      apply N.Div0.div_lt_upper_bound.
      replace (N.of_nat (S k)) with (N.succ (N.of_nat k)) in Hx by lia.
      rewrite N.pow_succ_r' in Hx. lia. }
    exists c, r. simpl in Hlen. split; [done|]. split; [done|]. split; lia.
Qed.

Lemma pretty_Z_digits (n : Z) :
  0 < n < 2 ^ 31 →
  ∃ c r, pretty n = String c r ∧ c ≠ "0"%char ∧
         (String.length r < 31)%nat ∧ (10 ≤ n → (0 < String.length r)%nat).
Proof.
  intros Hn. destruct n as [|p|p]; try lia.
  destruct (pretty_N_go_digits 31 (N.pos p) "") as (c & r & Hgo & Hc & Hlen & Hten).
  { change (2 ^ N.of_nat 31)%N with 2147483648%N.
    change (2 ^ 31) with 2147483648 in Hn. lia. }
  exists c, r. split; [exact Hgo|]. split; [done|]. simpl in *. split; [lia|].
  intros H10. apply Hten. lia.
Qed.

(** [%02d] of a number that an [int] holds: two digits below 10, else the
    digits of the number, which do not start with a zero. *)
Lemma sprintf_02d_shape (n : Z) :
  0 ≤ n < 2 ^ 31 →
  (n < 10 ∧ ∃ c, sprintf_02d n = String "0" (String c EmptyString) ∧
                 pretty n = String c EmptyString) ∨
  (10 ≤ n ∧ sprintf_02d n = pretty n ∧
   ∃ c r, pretty n = String c r ∧ c ≠ "0"%char ∧ (0 < String.length r < 31)%nat).
Proof.
  intros Hn. unfold sprintf_02d.
  destruct (decide (n = 0)) as [->|Hn0].
  { left. split; [lia|]. by exists "0"%char. }
  destruct (pretty_Z_digits n) as (c & r & Hp & Hc & Hlen & Hten); [lia|].
  rewrite Hp. simpl.
  destruct (Z_lt_le_dec n 10) as [Hlt|Hge].
  - left. split; [done|].
    assert (r = EmptyString) as ->.
    { assert (∃ k : nat, n = Z.of_nat k ∧ (1 ≤ k < 10)%nat) as (k & -> & Hk).
      { exists (Z.to_nat n). lia. }
      do 10 (destruct k as [|k]; [try lia; vm_compute in Hp; by simplify_eq|]). lia. }
    by exists c.
  - right. split; [done|]. specialize (Hten Hge).
    destruct r as [|c' r]; [simpl in Hten; lia|].
    split; [done|]. exists c, (String c' r). split; [done|]. split; [done|].
    simpl in *. lia.
Qed.

Lemma sprintf_02d_length (n : Z) :
  0 ≤ n < 2 ^ 31 → (String.length (sprintf_02d n) ≤ 32)%nat.
Proof.
  intros Hn. destruct (sprintf_02d_shape n Hn)
    as [(_ & c & -> & _)|(_ & -> & c & r & -> & _ & Hlen)]; simpl; lia.
Qed.

Lemma sprintf_02d_inj (a b : Z) :
  0 ≤ a < 2 ^ 31 → 0 ≤ b < 2 ^ 31 → sprintf_02d a = sprintf_02d b → a = b.
Proof.
  intros Ha Hb Heq.
  destruct (sprintf_02d_shape a Ha)
    as [(_ & ca & Hsa & Hpa)|(_ & Hsa & ca & ra & Hpa & Hca & _)];
    destruct (sprintf_02d_shape b Hb)
      as [(_ & cb & Hsb & Hpb)|(_ & Hsb & cb & rb & Hpb & Hcb & _)].
  - apply (inj pretty). rewrite Hpa, Hpb. rewrite Hsa, Hsb in Heq. by simplify_eq.
  - rewrite Hsa, Hsb, Hpb in Heq. by simplify_eq.
  - rewrite Hsa, Hsb, Hpa in Heq. by simplify_eq.
  - apply (inj pretty). by rewrite <- Hsa, <- Hsb.
Qed.

(** ** Names from a template *)

(** The decimal digits of a number of [k + 1] digits. *)
Lemma pretty_N_go_length (k : nat) (x : N) (s : string) :
  (10 ^ N.of_nat k ≤ x < 10 ^ N.of_nat (S k))%N →
  String.length (pretty_N_go x s) = (String.length s + S k)%nat.
Proof.
  revert x s. induction k as [|k IH]; intros x s Hx.
  - change (10 ^ N.of_nat 0)%N with 1%N in Hx. change (10 ^ N.of_nat 1)%N with 10%N in Hx.
    rewrite pretty_N_go_step by lia.
    rewrite N.div_small, pretty_N_go_0 by lia. simpl. lia.
  - rewrite pretty_N_go_step.
    2: { assert (0 < 10 ^ N.of_nat (S k))%N; [|lia]. apply N.neq_0_lt_0.
         by apply N.pow_nonzero. }
    replace (N.of_nat (S (S k))) with (N.succ (N.of_nat (S k))) in Hx by lia.
    replace (N.of_nat (S k)) with (N.succ (N.of_nat k)) in Hx at 1 by lia.
    rewrite !N.pow_succ_r' in Hx.
    rewrite IH; [simpl; lia|]. split.
    + apply N.div_le_lower_bound; lia.
    + apply N.Div0.div_lt_upper_bound. lia.
Qed.

(** The text of an index from 100 on has as many characters as the
    index has digits, three at least. *)
Lemma index_text_length (index : Z) (k : nat) :
  100 ≤ index → 10 ^ Z.of_nat k ≤ index < 10 ^ Z.of_nat (S k) →
  String.length (index_text index) = S k ∧ (2 ≤ k)%nat.
Proof.
  intros H100 Hk. unfold index_text.
  destruct (Z.leb_spec index 99) as [?|_]; [lia|].
  assert (2 ≤ k)%nat as Hk2.
  { destruct k as [|[|k]]; [| |lia].
    - change (10 ^ Z.of_nat 1) with 10 in Hk. lia.
    - change (10 ^ Z.of_nat 2) with 100 in Hk. lia. }
  split; [|done]. destruct index as [|p|p]; try lia.
  change (pretty (Z.pos p)) with (pretty_N_go (N.pos p) "").
  rewrite (pretty_N_go_length k); [done|].
  assert (∀ n : nat, Z.of_N (10 ^ N.of_nat n) = 10 ^ Z.of_nat n) as Hpow.
  { intros n. rewrite N2Z.inj_pow. by rewrite nat_N_Z. }
  rewrite <- !Hpow in Hk. lia.
Qed.

(** [%02d] prints the index as the amended claim says. *)
Lemma sprintf_02d_index_text (index : Z) :
  0 ≤ index < 2 ^ 31 → sprintf_02d index = index_text index.
Proof.
  intros Hindex. unfold index_text.
  destruct (Z.leb_spec index 99) as [Hle|Hgt].
  - apply sprintf_02d_two_digits. lia.
  - destruct (sprintf_02d_shape index Hindex) as [[? _]|(_ & Heq & _)]; [lia|done].
Qed.

Lemma expand_template_upto_99 (template : string) (index : Z) :
  index ≤ 99 → expand_template_02d template index = expand_template template index.
Proof.
  intros Hindex.
  assert (index_text index = two_digits index) as Htext.
  { unfold index_text. by destruct (Z.leb_spec index 99); [|lia]. }
  assert (∀ k template, (String.length template ≤ k)%nat →
            expand_template_02d template index = expand_template template index) as Hk.
  { clear template. induction k as [|k IH]; intros template Hlen.
    - by destruct template; simpl in *; [|lia].
    - destruct template as [|c rest]; [done|].
      destruct (decide (c = "%"%char)) as [->|Hc].
      + destruct rest as [|c' rest']; [done|].
        destruct (decide (c' = "v"%char)) as [->|Hc'].
        * simpl. rewrite IH by (simpl in *; lia). by rewrite Htext.
        * transitivity (String "%" (String c' (expand_template_02d rest' index))).
          { simpl. destruct c' as [[] [] [] [] [] [] [] []]; done. }
          rewrite IH by (simpl in *; lia).
          simpl. destruct c' as [[] [] [] [] [] [] [] []]; done.
      + transitivity (String c (expand_template_02d rest index)).
        { simpl. destruct c as [[] [] [] [] [] [] [] []]; done. }
        rewrite IH by (simpl in *; lia).
        simpl. destruct c as [[] [] [] [] [] [] [] []]; done. }
  by apply (Hk (String.length template)).
Qed.

Lemma mystrftime_format_expand (template format : string) (index : Z) :
  0 ≤ index < 2 ^ 31 →
  mystrftime_format template format index
  = (format +:+ expand_template_02d template index)%string.
Proof.
  intros Hindex.
  assert (∀ k template format, (String.length template ≤ k)%nat →
            mystrftime_format template format index
            = (format +:+ expand_template_02d template index)%string) as Hk.
  { clear template format. induction k as [|k IH]; intros template format Hlen.
    - destruct template; simpl in *; [|lia]. by rewrite append_nil_r.
    - destruct template as [|c rest]; [by rewrite append_nil_r|].
      destruct (decide (c = "%"%char)) as [->|Hc].
      + destruct rest as [|c' rest']; [done|].
        destruct (decide (c' = "v"%char)) as [->|Hc'].
        * simpl. rewrite IH by (simpl in *; lia).
          rewrite sprintf_02d_index_text by done.
          by rewrite append_assoc.
        * transitivity (mystrftime_format rest'
                          (format +:+ String "%" (String c' EmptyString)) index).
          { simpl. destruct c' as [[] [] [] [] [] [] [] []]; done. }
          rewrite IH by (simpl in *; lia).
          rewrite append_assoc. f_equal.
          simpl. destruct c' as [[] [] [] [] [] [] [] []]; done.
      + transitivity (mystrftime_format rest (format +:+ String c EmptyString) index).
        { simpl. destruct c as [[] [] [] [] [] [] [] []]; done. }
        rewrite IH by (simpl in *; lia).
        rewrite append_assoc. f_equal.
        simpl. destruct c as [[] [] [] [] [] [] [] []]; done. }
  by apply (Hk (String.length template)).
Qed.

(** C8, as amended.  With [use_strftime] set, every turn of the capture
    loop, the first one ([filecount = 0]) included and whatever the
    number of the files before it, opens the file whose name [strftime],
    at the time of the call, makes of the base name taken as a template
    in which [%v] is the one-based index of the file as [%02d] prints it
    and every other [%]-token is left to [strftime]; the template with
    the index in it fits [formatstring].  Up to the index 99
    the name is the one of the claim as it was stated, with two digits,
    zero-padded; from 100 on the index has its own digits.  No file is
    renamed or removed but the one opened, which starts empty. *)
Theorem strftime_names_from_template {E F : Type} (ops : env_ops E) (cfg : config)
    (orig_name name : string) (filecount t : Z) (e' : E) (s : state E F) :
  use_strftime cfg = true →
  0 ≤ filecount < 2 ^ 31 - 1 →
  time ops (st_env s) = (t, e') →
  Z.of_nat (String.length (expand_template_02d orig_name (filecount + 1))) < PATH_MAX →
  0 < Z.of_nat (String.length
                  (strftime ops (expand_template_02d orig_name (filecount + 1)) t))
    < PATH_MAX + 2 →
  open_next ops cfg orig_name false name filecount s
  = Ret (strftime ops (expand_template_02d orig_name (filecount + 1)) t, filecount + 1)
      (set_st_fs
         (<[strftime ops (expand_template_02d orig_name (filecount + 1)) t := []]>
            (st_fs s))
         (set_st_env e' s)) ∧
  (filecount + 1 ≤ 99 →
   expand_template_02d orig_name (filecount + 1)
   = expand_template orig_name (filecount + 1)) ∧
  (∀ k : nat, 100 ≤ filecount + 1 →
     10 ^ Z.of_nat k ≤ filecount + 1 < 10 ^ Z.of_nat (S k) →
     String.length (index_text (filecount + 1)) = S k ∧ (2 ≤ k)%nat).
Proof.
  intros Hmode Hcount Htime _ Hlen.
  split; [|split; [apply expand_template_upto_99|intros k; apply index_text_length]].
  unfold open_next, new_capture_file, bind, call, ret. rewrite Hmode, orb_true_r.
  rewrite Htime. simpl. unfold mystrftime.
  assert (2 ^ 31 = 2147483648) as Hpow by done.
  rewrite (int32_small (filecount + 1)) by lia.
  rewrite mystrftime_format_expand by lia. rewrite append_nil_l.
  destruct (Z.ltb_spec
              (Z.of_nat (String.length
                           (strftime ops (expand_template_02d orig_name (filecount + 1)) t)))
              (PATH_MAX + 2)) as [_|?]; [|lia].
  destruct (Z.eqb_spec
              (Z.of_nat (String.length
                           (strftime ops (expand_template_02d orig_name (filecount + 1)) t)))
              0) as [?|_]; [lia|].
  rewrite int32_small by lia.
  unfold open_output, fs_remove, modify, bind. simpl.
  by rewrite insert_delete_eq.
Qed.

(** The first file of a recording named [rec-%v.raw], and the file
    after 1233 others. *)
Lemma strftime_names_from_template_witness :
  open_next Script.ops (record_strftime Script.U8 1 4)
    "rec-%v.raw" false "rec-%v.raw" 0
    (Script.initial (Script.quiet 1 x00) ∅ [])
  = Ret ("rec-01.raw"%string, 1)
      (set_st_fs {[ "rec-01.raw"%string := [] ]}
         (Script.initial (Script.quiet 1 x00) ∅ [])) ∧
  open_next Script.ops (record_strftime Script.U8 1 4)
    "rec-%v.raw" false "rec-1233.raw" 1233
    (Script.initial (Script.quiet 1 x00) ∅ [])
  = Ret ("rec-1234.raw"%string, 1234)
      (set_st_fs {[ "rec-1234.raw"%string := [] ]}
         (Script.initial (Script.quiet 1 x00) ∅ [])).
Proof.
  split.
  - apply (strftime_names_from_template Script.ops _ "rec-%v.raw" "rec-%v.raw" 0 0
             (Script.quiet 1 x00) (Script.initial (Script.quiet 1 x00) ∅ [])).
    + reflexivity.
    + lia.
    + reflexivity.
    + by vm_compute.
    + by vm_compute.
  - apply (strftime_names_from_template Script.ops _ "rec-%v.raw" "rec-1233.raw" 1233 0
             (Script.quiet 1 x00) (Script.initial (Script.quiet 1 x00) ∅ [])).
    + reflexivity.
    + lia.
    + reflexivity.
    + by vm_compute.
    + by vm_compute.
Defined.

(** C8 as stated fails at the hundredth file: its index is printed with
    three digits. *)
Lemma strftime_index_three_digits :
  match
    open_next Script.ops (record_strftime Script.U8 1 4) "%v" false "%v" 99
      (Script.initial (Script.quiet 1 x00) ∅ [])
  with
  | Ret (name, _) _ => name = "100"%string ∧ String.length name ≠ 2%nat
  | _ => False
  end.
Proof. by vm_compute. Qed.

(** ** Counter-based names of [rec.wav] *)

Section CounterNames.
Context {E F : Type} (ops : env_ops E) (cfg : config).
Hypothesis counter_mode : use_strftime cfg = false.

Lemma rec_wav_copy :
  String.substring 0 (Z.to_nat (PATH_MAX - 10 - 1)) "rec.wav" = "rec.wav"%string.
Proof. by vm_compute. Qed.

Lemma rec_wav_split : split_extension "rec.wav" = ("rec", "wav")%string.
Proof. by vm_compute. Qed.

Lemma rec_wav_numbered (n : string) :
  (String.length n ≤ 32)%nat →
  snprintf (PATH_MAX + 2) ("rec" +:+ "-" +:+ n +:+ "." +:+ "wav")
  = ("rec-" +:+ n +:+ ".wav")%string.
Proof.
  intros Hn. unfold snprintf. apply substring_all.
  rewrite !string_length_app. simpl. 
  change (Z.to_nat (PATH_MAX + 2 - 1)) with 4097%nat. lia.
Qed.

(** From the third file on, [new_capture_file] only makes the name. *)
Lemma new_capture_file_later (k : Z) (s : state E F) :
  k ≠ 1 → 0 ≤ k < 2 ^ 31 →
  new_capture_file ops cfg "rec.wav" (PATH_MAX + 2) k s
  = Ret (k, "rec-" +:+ sprintf_02d k +:+ ".wav")%string s.
Proof.
  intros Hk1 Hk. unfold new_capture_file. rewrite counter_mode.
  rewrite rec_wav_copy, rec_wav_split. simpl.
  destruct (Z.eqb_spec k 1) as [?|_]; [done|].
  unfold bind, ret.
  by rewrite rec_wav_numbered by by apply sprintf_02d_length.
Qed.

(** The first rotation: [rec-01.wav] is removed, [rec.wav] takes its
    name, and the next file is [rec-02.wav]. *)
Lemma new_capture_file_first (s : state E F) :
  new_capture_file ops cfg "rec.wav" (PATH_MAX + 2) 1 s
  = Ret (2, "rec-02.wav"%string)
      (match st_fs s !! "rec.wav"%string with
       | Some content =>
           set_st_fs (<["rec-01.wav"%string := content]>
                        (delete "rec.wav"%string
                           (delete "rec-01.wav"%string (st_fs s)))) s
       | None => set_st_fs (delete "rec-01.wav"%string (st_fs s)) s
       end).
Proof.
  unfold new_capture_file. rewrite counter_mode.
  rewrite rec_wav_copy, rec_wav_split. simpl.
  unfold bind, ret, fs_remove, fs_rename, modify. simpl.
  rewrite (rec_wav_numbered "01") by (simpl; lia).
  rewrite (rec_wav_numbered (sprintf_02d 2))
    by (apply sprintf_02d_length; split; [lia|reflexivity]).
  change (sprintf_02d 2) with "02"%string.
  change ("rec-" +:+ "01" +:+ ".wav")%string with "rec-01.wav"%string.
  rewrite lookup_delete_ne by done.
  destruct (st_fs s !! "rec.wav"%string); done.
Qed.

End CounterNames.

Section CounterSession.
Context {E F : Type} (ops : env_ops E) (cfg : config).
Hypothesis counter_mode : use_strftime cfg = false.

Local Abbreviation file k := ("rec-" +:+ sprintf_02d k +:+ ".wav")%string.

Lemma file_inj (a b : Z) :
  0 ≤ a < 2 ^ 31 → 0 ≤ b < 2 ^ 31 → file a = file b → a = b.
Proof.
  intros Ha Hb Heq. apply (inj (String.app "rec-")) in Heq.
  apply append_inj_r in Heq. by apply sprintf_02d_inj.
Qed.

Lemma file_not_rec_wav (k : Z) : file k ≠ "rec.wav"%string.
Proof. intros Heq. discriminate Heq. Qed.

(** The first file keeps the name it was given. *)
Lemma open_next_first (name : string) (s : state E F) :
  open_next ops cfg "rec.wav" false name 0 s
  = Ret (name, 1) (set_st_fs (<[name := []]> (st_fs s)) s).
Proof.
  unfold open_next. rewrite counter_mode. simpl.
  unfold bind, ret, open_output, fs_remove, modify. simpl.
  by rewrite insert_delete_eq.
Qed.

Lemma open_next_second (name : string) (content : list byte) (s : state E F) :
  st_fs s !! "rec.wav"%string = Some content →
  open_next ops cfg "rec.wav" false name 1 s
  = Ret ("rec-02.wav"%string, 3)
      (set_st_fs
         (<["rec-02.wav"%string := []]>
            (<["rec-01.wav"%string := content]>
               (delete "rec.wav"%string (delete "rec-01.wav"%string (st_fs s))))) s).
Proof.
  intros Hrec. unfold open_next. rewrite counter_mode. simpl.
  unfold bind. rewrite new_capture_file_first by done. rewrite Hrec.
  unfold ret, open_output, fs_remove, modify, bind. simpl.
  by rewrite insert_delete_eq.
Qed.

Lemma open_next_later (name : string) (k : Z) (s : state E F) :
  2 ≤ k < 2 ^ 31 - 1 →
  open_next ops cfg "rec.wav" false name k s
  = Ret (file k, k + 1) (set_st_fs (<[file k := []]> (st_fs s)) s).
Proof.
  intros Hk. unfold open_next. rewrite counter_mode.
  destruct (Z.eqb_spec k 0) as [?|_]; [lia|]. simpl.
  unfold bind. rewrite new_capture_file_later by (done || lia).
  unfold ret, open_output, fs_remove, modify, bind. simpl.
  rewrite insert_delete_eq, int32_small; [done|].
  change (2 ^ 31) with 2147483648 in Hk. lia.
Qed.

End CounterSession.

(** ** What [pcm_read] returns *)

(** Whatever the device did, [pcm_read] returns the count it was asked
    for. *)
Lemma pcm_read_returns_rcount {E F : Type} (ops : env_ops E) (fl : float_ops F)
    (cfg : config) (fuel : nat) (data rcount v : Z) (s s' : state E F) :
  pcm_read ops fl cfg fuel data rcount s = Ret v s' → v = rcount.
Proof.
  unfold pcm_read, bind, ret.
  destruct (pcm_read_loop ops fl cfg fuel data _ 0 s); intros; by simplify_eq.
Qed.

(** C2 fails in the code.  A capture of chunks of 4 frames asks for 4
    frames; the device hands over 2 and [SIGINT] arrives during the call.
    The loop is left at [goto abort] with 2 frames read, and [pcm_read]
    returns 4. *)
Theorem pcm_read_returns_request_after_abort :
  ∃ s',
    pcm_read Script.ops Script.floats (Script.record Script.U8 1 4) 10 0 4
      (Script.initial
         (Script.Env [] [] [] [2] [] [] [[SIGINT]] 0 1 x2a) ∅ [])
    = Ret 4 s' ∧
    in_aborting s' = true ∧ st_frames s' = 2.
Proof. eexists. split; [by vm_compute|]. by vm_compute. Qed.

(** ** The size of capture files *)

(** C3 fails in the code.  Recording 20000 samples of 8-bit mono at
    8000 Hz (2.5 seconds) with [max_file_time = 1]: [max_file_size] is
    computed as 8000 and never looked at, and the recording is one file of
    20000 bytes. *)
Theorem capture_ignores_max_file_size :
  match
    main Script.ops Script.floats
      {| stream := SND_PCM_STREAM_CAPTURE; format := Script.U8; channels := 1;
         rate := 8000; timelimit := 0; sampleslimit := 20000; quiet_mode := false;
         interleaved := true; verbose := 0; vumeter_opt := VUMETER_NONE;
         test_position := false; test_coef := 8; test_nowait := false;
         max_file_time := 1; use_strftime := false; pidfile_name := None;
         period_size := 1000; buffer_size := 4000 |}
      100 ["rec.wav"%string]
      (Script.initial (Script.quiet 1 x2a) ∅ [])
  with
  | Exit code s =>
      code = EXIT_SUCCESS ∧ max_file_size s = 8000 ∧
      (λ file, (file.1, Z.of_nat (length file.2))) <$> map_to_list (st_fs s)
      = [("rec.wav"%string, 20000)]
  | _ => False
  end.
Proof. by vm_compute. Qed.

(** ** The exit status after an abort *)

(** C5 fails in the code for playback.  [SIGINT] arrives while the second
    chunk is written: [in_aborting] ends the loops of [playback_go],
    [main] closes the device and calls [prg_exit(EXIT_SUCCESS)], which
    removes the pid file: the exit status is 0. *)
Theorem playback_abort_exits_with_success :
  match
    main Script.ops Script.floats
      {| stream := SND_PCM_STREAM_PLAYBACK; format := Script.U8; channels := 1;
         rate := 8000; timelimit := 0; sampleslimit := 0; quiet_mode := false;
         interleaved := true; verbose := 0; vumeter_opt := VUMETER_NONE;
         test_position := false; test_coef := 8; test_nowait := false;
         max_file_time := 0; use_strftime := false;
         pidfile_name := Some "fplay.pid"%string;
         period_size := 4; buffer_size := 16 |}
      100 ["a.raw"%string]
      (Script.initial
         (Script.Env [] [] [] [] [] [] [[]; []; []; [SIGINT]] 0 1 x2a)
         {[ "a.raw"%string := replicate 40 x01 ]} [])
  with
  | Exit code s =>
      code = EXIT_SUCCESS ∧ in_aborting s = true ∧
      st_stderr s = [Ev_header "a.raw"; Ev_aborted SIGINT] ∧
      pcm_log s = [Pcm_abort; Pcm_close] ∧
      st_fs s !! "fplay.pid"%string = None ∧
      length (delivered s) = 8%nat
  | _ => False
  end.
Proof. by vm_compute. Qed.

(** The same signal in a capture ends in [prg_exit(EXIT_FAILURE)]. *)
Lemma capture_abort_exits_with_failure :
  match
    main Script.ops Script.floats
      {| stream := SND_PCM_STREAM_CAPTURE; format := Script.U8; channels := 1;
         rate := 8000; timelimit := 0; sampleslimit := 0; quiet_mode := false;
         interleaved := true; verbose := 0; vumeter_opt := VUMETER_NONE;
         test_position := false; test_coef := 8; test_nowait := false;
         max_file_time := 0; use_strftime := false;
         pidfile_name := Some "fplay.pid"%string;
         period_size := 4; buffer_size := 16 |}
      100 ["rec.wav"%string]
      (Script.initial
         (Script.Env [] [] [] [] [] [] [[]; []; []; [SIGINT]] 0 1 x2a) ∅ [])
  with
  | Exit code s =>
      code = EXIT_FAILURE ∧ in_aborting s = true ∧
      pcm_log s = [Pcm_abort; Pcm_close] ∧
      st_fs s !! "fplay.pid"%string = None
  | _ => False
  end.
Proof. by vm_compute. Qed.

(** ** The diagnostics leave the transfer alone *)

Section Diagnostics.
Context {E F : Type} (ops : env_ops E) (fl : float_ops F) (cfg : config).

(** [do_test_position] always returns, and changes nothing a transfer
    looks at. *)
Lemma do_test_position_view (s : state E F) :
  ∃ s', do_test_position ops fl cfg s = Ret tt s' ∧
        transfer_view s' = transfer_view s.
Proof.
  cbv [do_test_position suspicious bind call get modify when ret fprintf_stderr].
  destruct (avail_delay ops (st_env s)) as [[[avail delay]|] e1]; simpl;
    [|eexists; split; reflexivity].
  destruct (status ops e1) as [[[savail sdelay]|] e2]; simpl;
    [|eexists; split; reflexivity].
  repeat (case_match; simpl; simplify_eq); eexists; split; reflexivity.
Qed.

(** So does [compute_max_peak], which returns when the buffer holds the
    samples it is asked to look at. *)
Lemma compute_max_peak_view (data : list byte) (nsamples : Z) (s : state E F) :
  0 ≤ physical_width (format cfg) / 8 →
  Z.of_nat (Z.to_nat nsamples) * (physical_width (format cfg) / 8)
    ≤ Z.of_nat (length data) →
  ∃ s', compute_max_peak ops cfg data nsamples s = Ret tt s' ∧
        transfer_view s' = transfer_view s.
Proof.
  intros Hbytes Hlen. unfold compute_max_peak.
  destruct (Peak.decoder (format cfg)) as [sample|] eqn:Hdec.
  - destruct (scan_total (format cfg) sample
                (bool_decide (vumeter cfg = VUMETER_STEREO))
                (Z.to_nat nsamples) data false (0, 0) Hdec Hbytes Hlen)
      as (raw & -> & _); [simpl; unfold CInt.INT_MAX; lia..|].
    cbv [bind call get modify when ret fprintf_stderr].
    repeat (case_match; simpl; simplify_eq); eexists; split; reflexivity.
  - cbv [bind call get modify when ret fprintf_stderr].
    repeat (case_match; simpl; simplify_eq); eexists; split; reflexivity.
Qed.

End Diagnostics.

(** ** Padding with silence *)

Lemma store_window (buf src : list byte) (data off n : nat) :
  (data ≤ off)%nat → (off + length src ≤ length buf)%nat →
  n = (off - data + length src)%nat →
  take n (drop data (store buf off src)) = take (off - data) (drop data buf) ++ src.
Proof.
  intros Hdata Hfit ->. unfold store.
  rewrite (take_ge (take off buf ++ _)).
  2:{ rewrite !length_app, length_take, length_drop. lia. }
  rewrite drop_app_le by (rewrite length_take; lia).
  rewrite (assoc_L (++)).
  rewrite take_app_length'.
  2:{ rewrite length_app, length_drop, length_take. lia. }
  f_equal. rewrite take_drop_commute. f_equal. f_equal. lia.
Qed.

Lemma length_store (buf src : list byte) (off : nat) :
  length (store buf off src) = length buf.
Proof.
  unfold store. rewrite length_take, !length_app, length_take, length_drop. lia.
Qed.

Lemma length_silence_sample (f : pcm_format) :
  length (silence_sample f) = Z.to_nat (physical_width f / 8).
Proof. unfold silence_sample. by rewrite length_map, length_seq. Qed.

Lemma length_concat_replicate {A : Type} (k : nat) (l : list A) :
  length (concat (replicate k l)) = (k * length l)%nat.
Proof. induction k as [|k IH]; simpl; [done|]. rewrite length_app, IH. lia. Qed.

(** ** [pcm_write] with a device that takes what it is given *)

Section PcmWrite.
Context {E F : Type} (ops : env_ops E) (fl : float_ops F) (cfg : config).

(** Samples are whole bytes: [sample_bytes] of them. *)
Variable sample_bytes : Z.
Hypothesis whole_bytes : physical_width (format cfg) = 8 * sample_bytes.
Hypothesis sample_bytes_pos : 0 < sample_bytes.
Hypothesis channels_pos : 0 < channels cfg.

(** No fault: the device takes at least one frame and at most what it
    is given.  No abort: no signal arrives. *)
Hypothesis no_fault : ∀ e buf n, 0 < n → 0 < (writei ops e buf n).1 ≤ n.
Hypothesis no_signal : ∀ e, (signals ops e).1 = [].

Lemma frame_bytes_whole (n : Z) :
  frame_bytes cfg n = n * (channels cfg * sample_bytes).
Proof.
  unfold frame_bytes, bits_per_frame, bits_per_sample. rewrite whole_bytes.
  replace (n * (8 * sample_bytes * channels cfg))
    with (n * (channels cfg * sample_bytes) * 8) by lia.
  by rewrite Z.div_mul.
Qed.

Lemma when_test_position_view (s : state E F) :
  ∃ s', when (test_position cfg) (do_test_position ops fl cfg) s = Ret tt s' ∧
        transfer_view s' = transfer_view s.
Proof.
  unfold when. destruct (test_position cfg).
  - apply do_test_position_view.
  - by exists s.
Qed.

Lemma when_vumeter_view (data : list byte) (r : Z) (s : state E F) :
  0 ≤ r → frame_bytes cfg r ≤ Z.of_nat (length data) →
  ∃ s', when (negb (bool_decide (vumeter cfg = VUMETER_NONE)))
          (compute_max_peak ops cfg data (r * channels cfg)) s = Ret tt s' ∧
        transfer_view s' = transfer_view s.
Proof.
  intros Hr Hlen. unfold when.
  destruct (negb (bool_decide (vumeter cfg = VUMETER_NONE))); [|by exists s].
  rewrite frame_bytes_whole in Hlen.
  apply compute_max_peak_view.
  - rewrite whole_bytes. apply Z.div_pos; lia.
  - rewrite whole_bytes.
    replace (8 * sample_bytes) with (sample_bytes * 8) by lia.
    rewrite Z.div_mul by lia. nia.
Qed.

Lemma after_transfer_view (what : string) (r count : Z) (s : state E F) :
  0 < r ≤ count →
  ∃ s', after_transfer ops cfg what r count s = Ret tt s' ∧
        transfer_view s' = transfer_view s.
Proof.
  intros Hr. unfold after_transfer.
  destruct (Z.eqb_spec r (- EAGAIN)) as [?|_]; [unfold EAGAIN in *; lia|].
  destruct (Z.leb_spec 0 r) as [_|?]; [|lia]. simpl.
  destruct (Z.ltb_spec r count) as [Hlt|Hge].
  - unfold when, snd_pcm_wait, modify, ret.
    destruct (negb (test_nowait cfg)); eexists; split; reflexivity.
  - destruct (Z.eqb_spec r (- EPIPE)) as [?|_]; [unfold EPIPE in *; lia|].
    destruct (Z.eqb_spec r (- ESTRPIPE)) as [?|_]; [unfold ESTRPIPE in *; lia|].
    destruct (Z.ltb_spec r 0) as [?|_]; [lia|].
    by exists s.
Qed.

Lemma call_writei_delivers (data count : Z) (s : state E F) :
  0 < count →
  ∃ r s', call_writei ops cfg data count s = Ret r s' ∧
          0 < r ≤ count ∧
          in_aborting s' = in_aborting s ∧ audiobuf s' = audiobuf s ∧
          st_input s' = st_input s ∧
          delivered s' = delivered s ++
                         take (Z.to_nat (frame_bytes cfg r))
                              (drop (Z.to_nat data) (audiobuf s)).
Proof.
  intros Hcount. unfold call_writei, blocking.
  cbv [bind call get modify when ret].
  pose proof (no_fault (st_env s) (drop (Z.to_nat data) (audiobuf s)) count Hcount)
    as Hr.
  destruct (writei ops (st_env s) (drop (Z.to_nat data) (audiobuf s)) count)
    as [r e1]. simpl in *.
  pose proof (no_signal e1) as Hsig.
  destruct (signals ops e1) as [sigs e2]. simpl in Hsig. subst sigs. simpl.
  destruct (Z.ltb_spec 0 r) as [_|?]; [|lia].
  exists r. eexists. split; [reflexivity|]. simpl. done.
Qed.

(** The loop, from a state without abort: it returns after at most
    [count] turns, having delivered the [count] frames at [data]. *)
Lemma pcm_write_loop_delivers (fuel : nat) (data count result : Z)
    (s : state E F) :
  in_aborting s = false →
  0 ≤ count ≤ Z.of_nat fuel → count < 2 ^ 64 →
  0 ≤ data →
  data + frame_bytes cfg count ≤ Z.of_nat (length (audiobuf s)) →
  ∃ s', pcm_write_loop ops fl cfg fuel data count result s
        = Ret (result + count) s' ∧
        in_aborting s' = false ∧ audiobuf s' = audiobuf s ∧
        st_input s' = st_input s ∧
        delivered s' = delivered s ++
                       take (Z.to_nat (frame_bytes cfg count))
                            (drop (Z.to_nat data) (audiobuf s)).
Proof.
  revert data count result s.
  induction fuel as [|fuel IH]; intros data count result s Habort Hcount Hmax Hdata Hlen.
  - assert (count = 0) as -> by lia. cbn [pcm_write_loop].
    unfold bind, get, ret. simpl.
    exists s. rewrite Z.add_0_r, frame_bytes_whole. simpl.
    by rewrite app_nil_r.
  - destruct (decide (count = 0)) as [->|Hpos].
    { cbn [pcm_write_loop]. unfold bind, get, ret. simpl.
      exists s. rewrite Z.add_0_r, frame_bytes_whole. simpl.
      by rewrite app_nil_r. }
    cbn [pcm_write_loop].
    erewrite bind_Ret by reflexivity. rewrite Habort.
    destruct (Z.ltb_spec 0 count) as [_|?]; [|lia]. cbn [andb negb].
    destruct (when_test_position_view s) as (s1 & Hs1 & Hv1).
    erewrite bind_Ret by exact Hs1.
    erewrite bind_Ret by reflexivity.
    destruct (call_writei_delivers data count s1)
      as (r & s2 & Hs2 & Hr & Ha2 & Hb2 & Hi2 & Hd2); [lia|].
    erewrite bind_Ret by exact Hs2.
    destruct (when_test_position_view s2) as (s3 & Hs3 & Hv3).
    erewrite bind_Ret by exact Hs3.
    destruct (after_transfer_view "write error" r count s3 Hr) as (s4 & Hs4 & Hv4).
    erewrite bind_Ret by exact Hs4.
    destruct (Z.ltb_spec 0 r) as [_|?]; [|lia].
    erewrite bind_Ret by reflexivity.
    unfold transfer_view in *. simplify_eq.
    assert (frame_bytes cfg count
            = frame_bytes cfg r + frame_bytes cfg (count - r)) as Hsplit.
    { rewrite !frame_bytes_whole. lia. }
    assert (0 ≤ frame_bytes cfg r ∧ 0 ≤ frame_bytes cfg (count - r)) as [Hfr Hfc].
    { rewrite !frame_bytes_whole. split; nia. }
    destruct (when_vumeter_view (drop (Z.to_nat data) (audiobuf s4)) r s4)
      as (s5 & Hs5 & Hv5); [lia| |].
    { rewrite length_drop. 
      replace (audiobuf s4) with (audiobuf s) by congruence. lia. }
    erewrite bind_Ret by exact Hs5.
    unfold transfer_view in *. simplify_eq.
    rewrite size_t_small by lia.
    destruct (IH (data + frame_bytes cfg r) (count - r) (result + r) s5)
      as (s' & Hrun & Ha' & Hb' & Hi' & Hd'); [congruence|lia|lia|lia| |].
    { replace (audiobuf s5) with (audiobuf s) by congruence. lia. }
    exists s'. split; [rewrite Hrun; f_equal; lia|].
    split; [done|]. split; [congruence|]. split; [congruence|].
    rewrite Hd'.
    replace (delivered s5) with (delivered s2) by congruence.
    rewrite Hd2.
    replace (audiobuf s5) with (audiobuf s) by congruence.
    replace (audiobuf s1) with (audiobuf s) by congruence.
    replace (delivered s1) with (delivered s) by congruence.
    rewrite <- (assoc_L (++)). f_equal.
    rewrite Hsplit.
    replace (Z.to_nat (data + frame_bytes cfg r))
      with (Z.to_nat data + Z.to_nat (frame_bytes cfg r))%nat by lia.
    rewrite <- drop_drop, take_take_drop. f_equal. lia.
Qed.

(** [pcm_write] of at most a chunk: the value is [chunk_size], and the
    device gets the [count] frames at [data] and silence for the frames
    that are missing to a chunk. *)
Lemma pcm_write_chunk (fuel : nat) (data count : Z) (s : state E F) :
  in_aborting s = false →
  0 ≤ count ≤ chunk_size cfg →
  chunk_size cfg * channels cfg < 2 ^ 32 →
  chunk_size cfg ≤ Z.of_nat fuel →
  0 ≤ data → data + chunk_bytes cfg ≤ Z.of_nat (length (audiobuf s)) →
  ∃ s',
    pcm_write ops fl cfg fuel data count s = Ret (chunk_size cfg) s' ∧
    in_aborting s' = false ∧ st_input s' = st_input s ∧
    length (audiobuf s') = length (audiobuf s) ∧
    delivered s' =
      delivered s ++
      take (Z.to_nat (frame_bytes cfg count)) (drop (Z.to_nat data) (audiobuf s)) ++
      concat (replicate (Z.to_nat ((chunk_size cfg - count) * channels cfg))
                (silence_sample (format cfg))).
Proof.
  intros Habort Hcount Hmax Hfuel Hdata Hroom.
  pose proof frame_bytes_whole as Hfb.
  assert (chunk_bytes cfg = frame_bytes cfg (chunk_size cfg)) as Hcb by done.
  rewrite Hcb in *. rewrite !Hfb in *.
  set (frame := channels cfg * sample_bytes) in *.
  assert (0 < frame) as Hframe by (unfold frame; nia).
  unfold pcm_write.
  destruct (Z.ltb_spec count (chunk_size cfg)) as [Hlt|Hge].
  - assert (Z.to_nat (CInt.unsigned 32 ((chunk_size cfg - count) * channels cfg))
            = Z.to_nat ((chunk_size cfg - count) * channels cfg)) as Hpad.
    { unfold CInt.unsigned. rewrite Z.mod_small; [done|]. nia. }
    set (pad := concat (replicate (Z.to_nat ((chunk_size cfg - count) * channels cfg))
                          (silence_sample (format cfg)))).
    assert (Z.of_nat (length pad) = (chunk_size cfg - count) * frame) as Hpadlen.
    { unfold pad. rewrite length_concat_replicate, length_silence_sample, whole_bytes.
      replace (8 * sample_bytes) with (sample_bytes * 8) by lia.
      rewrite Z.div_mul by lia. unfold frame. nia. }
    erewrite bind_Ret; cycle 1.
    { erewrite bind_Ret by reflexivity. reflexivity. }
    rewrite Hfb, Hpad. fold pad.
    match goal with
    | |- ∃ s', pcm_write_loop _ _ _ _ _ _ _ ?s0 = _ ∧ _ => set (s0' := s0)
    end.
    destruct (pcm_write_loop_delivers fuel data (chunk_size cfg) 0 s0')
      as (s' & Hrun & Ha & Hb & Hi & Hdel); [done|lia|nia|lia|..].
    { subst s0'. simpl. unfold snd_pcm_format_set_silence.
      rewrite length_store, Hfb. lia. }
    exists s'. split; [by rewrite Hrun|]. split; [done|]. split; [by rewrite Hi|].
    split.
    { rewrite Hb. subst s0'. simpl. unfold snd_pcm_format_set_silence.
      by rewrite length_store. }
    rewrite Hdel. subst s0'. simpl. f_equal.
    unfold snd_pcm_format_set_silence. rewrite Hfb. fold pad.
    assert (0 ≤ count * frame) by nia.
    assert (count * frame ≤ chunk_size cfg * frame) by nia.
    rewrite (store_window _ _ _ _ (Z.to_nat (chunk_size cfg * frame))); [|lia..].
    f_equal. f_equal. lia.
  - assert (count = chunk_size cfg) as -> by lia.
    erewrite bind_Ret by reflexivity.
    destruct (pcm_write_loop_delivers fuel data (chunk_size cfg) 0 s)
      as (s' & Hrun & Ha & Hb & Hi & Hdel); [done|lia|nia|lia|..].
    { rewrite Hfb. lia. }
    exists s'. split; [by rewrite Hrun|]. split; [done|]. split; [done|].
    split; [by rewrite Hb|].
    rewrite Hdel, Hfb, Z.sub_diag. simpl. by rewrite app_nil_r.
Qed.

End PcmWrite.

(** C1, as amended.  With whole bytes to a sample, a device that takes at
    least one frame and never more than it is given, no signal, no abort
    pending and a chunk of room in the buffer at [data], a request of
    [count < chunk_size] frames returns [chunk_size]: the device gets the
    [count] frames at [data] followed by the silence pattern for every
    channel of the other [chunk_size - count] frames, one whole chunk in
    all.  For [0 < count] this is the length of the input rounded up to a
    whole chunk; for [count = 0] it is a whole chunk of silence. *)
Theorem pcm_write_pads_to_whole_chunk {E F : Type} (ops : env_ops E)
    (fl : float_ops F) (cfg : config) (sample_bytes : Z) (fuel : nat)
    (data count : Z) (s : state E F) :
  physical_width (format cfg) = 8 * sample_bytes → 0 < sample_bytes →
  0 < channels cfg →
  (∀ e buf n, 0 < n → 0 < (writei ops e buf n).1 ≤ n) →
  (∀ e, (signals ops e).1 = []) →
  in_aborting s = false →
  0 ≤ count < chunk_size cfg →
  chunk_size cfg * channels cfg < 2 ^ 32 →
  chunk_size cfg ≤ Z.of_nat fuel →
  0 ≤ data → data + chunk_bytes cfg ≤ Z.of_nat (length (audiobuf s)) →
  ∃ s',
    pcm_write ops fl cfg fuel data count s = Ret (chunk_size cfg) s' ∧
    delivered s' =
      delivered s ++
      take (Z.to_nat (frame_bytes cfg count)) (drop (Z.to_nat data) (audiobuf s)) ++
      concat (replicate (Z.to_nat ((chunk_size cfg - count) * channels cfg))
                (silence_sample (format cfg))) ∧
    Z.of_nat (length (delivered s')) = Z.of_nat (length (delivered s)) + chunk_bytes cfg ∧
    (0 < count →
     (frame_bytes cfg count + chunk_bytes cfg - 1) / chunk_bytes cfg * chunk_bytes cfg
     = chunk_bytes cfg).
Proof.
  intros Hwhole Hsb Hch Hfault Hsig Habort Hcount Hmax Hfuel Hdata Hroom.
  destruct (pcm_write_chunk ops fl cfg sample_bytes Hwhole Hsb Hch Hfault Hsig
              fuel data count s) as (s' & Hrun & _ & _ & _ & Hdel); [done|lia|done..|].
  exists s'. split; [done|]. split; [done|].
  pose proof (frame_bytes_whole cfg sample_bytes Hwhole) as Hfb.
  assert (chunk_bytes cfg = frame_bytes cfg (chunk_size cfg)) as Hcb by done.
  rewrite Hcb in *. rewrite !Hfb in *.
  set (frame := channels cfg * sample_bytes) in *.
  assert (0 < frame) as Hframe by (unfold frame; nia).
  split.
  - rewrite Hdel, !length_app, length_take, length_drop, length_concat_replicate,
      length_silence_sample, Hwhole.
    replace (8 * sample_bytes) with (sample_bytes * 8) by lia.
    rewrite Z.div_mul by lia.
    assert (0 ≤ count * frame) by nia.
    assert (count * frame ≤ chunk_size cfg * frame) by nia.
    assert (Z.of_nat (Z.to_nat ((chunk_size cfg - count) * channels cfg)
                      * Z.to_nat sample_bytes)
            = (chunk_size cfg - count) * frame) as Hpadlen by (unfold frame; nia).
    lia.
  - intros Hpos.
    replace (count * frame + chunk_size cfg * frame - 1)
      with (1 * (chunk_size cfg * frame) + (count * frame - 1)) by lia.
    rewrite Z.div_add_l by nia.
    rewrite (Z.div_small (count * frame - 1)) by nia. lia.
Qed.

(** Two frames of 8-bit mono in chunks of four, on a device that takes
    three frames at a time. *)
Lemma pcm_write_pads_to_whole_chunk_witness :
  ∃ s',
    pcm_write Steady.ops Script.floats (Script.play Script.U8 1 4) 4 0 2
      (Steady.initial (Steady.Env 3 1) [x01; x02; x03; x04])
    = Ret 4 s' ∧
    delivered s' = [x01; x02; x80; x80].
Proof.
  destruct (pcm_write_pads_to_whole_chunk Steady.ops Script.floats
              (Script.play Script.U8 1 4) 1 4 0 2
              (Steady.initial (Steady.Env 3 1) [x01; x02; x03; x04]))
    as (s' & Hrun & Hdelivered & _).
  - reflexivity.
  - lia.
  - simpl; lia.
  - intros e buf n Hn. simpl. lia.
  - reflexivity.
  - reflexivity.
  - simpl. unfold chunk_size. simpl. lia.
  - by vm_compute.
  - by vm_compute.
  - lia.
  - by vm_compute.
  - exists s'. split; [exact Hrun|exact Hdelivered].
Defined.

(** C1 as stated fails on an input of two whole chunks: after its eight
    bytes the end of the input makes a request of no frame, which is
    padded to a chunk like any other, and the device gets twelve bytes,
    the last four of them silence. *)
Lemma playback_of_whole_chunks_adds_a_chunk :
  match
    main Script.ops Script.floats (Script.play Script.U8 1 4) 100 ["a.raw"%string]
      (Script.initial (Script.quiet 1 x00)
         {[ "a.raw"%string := [x01; x02; x03; x04; x05; x06; x07; x08] ]} [])
  with
  | Exit code s =>
      code = EXIT_SUCCESS ∧
      delivered s = [x01; x02; x03; x04; x05; x06; x07; x08; x80; x80; x80; x80] ∧
      (8 + chunk_bytes (Script.play Script.U8 1 4) - 1)
        / chunk_bytes (Script.play Script.U8 1 4)
        * chunk_bytes (Script.play Script.U8 1 4) = 8 ∧
      Z.of_nat (length (delivered s)) ≠ 8
  | _ => False
  end.
Proof. by vm_compute. Qed.

(** The request that does it: no frame, one chunk of silence. *)
Lemma pcm_write_of_no_frame_delivers_a_chunk :
  ∃ s',
    pcm_write Steady.ops Script.floats (Script.play Script.U8 1 4) 4 0 0
      (Steady.initial (Steady.Env 3 1) [x01; x02; x03; x04])
    = Ret 4 s' ∧
    delivered s' = [x80; x80; x80; x80].
Proof. eexists. split; by vm_compute. Qed.

(** ** A recording rotated by [SIGUSR1] *)

(** The whole program on [rec.wav] in chunks of four bytes: [SIGUSR1]
    arrives twice and [SIGINT] ends the recording. *)
Lemma recording_rotated_by_signal :
  match
    main Script.ops Script.floats (Script.record Script.U8 1 4) 100 ["rec.wav"%string]
      (Script.initial
         (Script.Env [] [] [] [] [] []
            [[]; []; [SIGUSR1]; []; []; [SIGUSR1]; []; []; []; [SIGINT]] 0 1 x2a)
         ∅ [])
  with
  | Exit code s =>
      code = EXIT_FAILURE ∧
      st_fs s = {[ "rec-01.wav"%string := replicate 8 x2a;
                   "rec-02.wav"%string := replicate 4 x2a;
                   "rec-03.wav"%string := replicate 8 x2a ]}
  | _ => False
  end.
Proof. by vm_compute. Qed.

(** ** Playback of a whole input *)

Lemma store_fits (buf : list byte) (off : nat) (src : list byte) :
  (off + length src ≤ length buf)%nat →
  store buf off src = take off buf ++ src ++ drop (off + length src) buf.
Proof.
  intros Hfit. unfold store. apply take_ge.
  rewrite !length_app, length_take, length_drop. lia.
Qed.

Lemma store_nil (buf : list byte) (off : nat) :
  (off ≤ length buf)%nat → store buf off [] = buf.
Proof.
  intros Hoff. rewrite store_fits by (simpl; lia). simpl.
  rewrite Nat.add_0_r. apply take_drop.
Qed.

Lemma store_app (buf a b : list byte) (off : nat) :
  (off + length a + length b ≤ length buf)%nat →
  store (store buf off a) (off + length a) b = store buf off (a ++ b).
Proof.
  intros Hfit.
  rewrite (store_fits (store buf off a)) by (rewrite length_store; lia).
  rewrite (store_fits buf off a) by lia.
  rewrite (store_fits buf off (a ++ b)) by (rewrite length_app; lia).
  rewrite (assoc_L (++) (take off buf) a).
  rewrite take_app_length' by (rewrite length_app, length_take; lia).
  rewrite drop_app_ge by (rewrite length_app, length_take; lia).
  rewrite length_app, length_take, drop_drop, length_app.
  rewrite <- !(assoc_L (++)). do 3 f_equal. f_equal. lia.
Qed.

Lemma take_store (buf src : list byte) (n : nat) :
  (n ≤ length src)%nat → (length src ≤ length buf)%nat →
  take n (store buf 0 src) = take n src.
Proof.
  intros Hn Hfit. rewrite store_fits by (simpl; lia). simpl.
  by rewrite take_app_le.
Qed.

Section Playback.
Context {E F : Type} (ops : env_ops E) (fl : float_ops F) (cfg : config).

(** Samples are whole bytes, and a chunk is small enough for the [int]
    that counts its bits. *)
Variable sample_bytes : Z.
Hypothesis whole_bytes : physical_width (format cfg) = 8 * sample_bytes.
Hypothesis sample_bytes_pos : 0 < sample_bytes.
Hypothesis channels_pos : 0 < channels cfg.
Hypothesis chunk_size_pos : 0 < chunk_size cfg.
Hypothesis chunk_bits : chunk_bytes cfg * 8 < 2 ^ 31.

(** No fault, no abort, and an input that is read without error: [read]
    gives at least one byte while there is one, never more than is asked
    for or left, and 0 at the end. *)
Hypothesis no_fault : ∀ e buf n, 0 < n → 0 < (writei ops e buf n).1 ≤ n.
Hypothesis no_signal : ∀ e, (signals ops e).1 = [].
Hypothesis read_some :
  ∀ e n avail, 0 < n → 0 < avail → 0 < (sys_read ops e n avail).1 ≤ Z.min n avail.
Hypothesis read_eof : ∀ e n, 0 < n → (sys_read ops e n 0).1 = 0.

Lemma safe_read_loop_reads (fuel : nat) (buf count result : Z) (s : state E F) :
  in_aborting s = false →
  0 ≤ count ≤ Z.of_nat fuel → count < 2 ^ 64 →
  0 ≤ buf → buf + count ≤ Z.of_nat (length (audiobuf s)) →
  ∃ s',
    let k := Z.to_nat (Z.min count (Z.of_nat (length (st_input s)))) in
    safe_read_loop ops cfg fuel buf count result s = Ret (result + Z.of_nat k) s' ∧
    in_aborting s' = false ∧ delivered s' = delivered s ∧
    st_input s' = drop k (st_input s) ∧
    audiobuf s' = store (audiobuf s) (Z.to_nat buf) (take k (st_input s)).
Proof.
  revert buf count result s.
  induction fuel as [|fuel IH]; intros buf count result s Habort Hcount Hmax Hbuf Hlen.
  - assert (count = 0) as -> by lia. cbn [safe_read_loop].
    unfold bind, get, ret. simpl.
    exists s. rewrite Z.min_l by lia. simpl. rewrite Z.add_0_r, store_nil by lia.
    by rewrite drop_0.
  - destruct (decide (count = 0)) as [->|Hpos].
    { cbn [safe_read_loop]. unfold bind, get, ret. simpl.
      exists s. rewrite Z.min_l by lia. simpl. rewrite Z.add_0_r, store_nil by lia.
      by rewrite drop_0. }
    cbn [safe_read_loop].
    erewrite bind_Ret by reflexivity. rewrite Habort.
    destruct (Z.ltb_spec 0 count) as [_|?]; [|lia]. cbn [andb negb].
    unfold blocking. cbv [bind call get modify when ret].
    destruct (sys_read ops (st_env s) count (Z.of_nat (length (st_input s))))
      as [res e1] eqn:Hread.
    simpl.
    pose proof (no_signal e1) as Hsig.
    destruct (signals ops e1) as [sigs e2]. simpl in Hsig. subst sigs. simpl.
    destruct (st_input s) as [|b input] eqn:Hinput.
    + pose proof (read_eof (st_env s) count ltac:(lia)) as Heof.
      change (Z.of_nat (length [])) with 0 in Hread. rewrite Hread in Heof. simpl in Heof. subst res. simpl.
      eexists. cbn zeta. change (Z.of_nat (length [])) with 0.
      rewrite Z.min_r by lia. change (Z.to_nat 0) with 0%nat.
      rewrite Z.add_0_r. split; [reflexivity|]. simpl.
      rewrite Hinput, store_nil by lia. done.
    + pose proof (read_some (st_env s) count (Z.of_nat (length (b :: input)))) as Hsome.
      rewrite Hread in Hsome. simpl fst in Hsome.
      destruct Hsome as [Hres1 Hres2]; [lia|simpl; lia|].
      destruct (Z.eqb_spec res 0) as [?|_]; [lia|].
      destruct (Z.ltb_spec res 0) as [?|_]; [lia|].
      set (s1 := set_audiobuf _ _).
      assert (Z.of_nat (length (b :: input)) = Z.of_nat (length (st_input s)))
        as Hlen' by (by rewrite Hinput).
      rewrite size_t_small by lia.
      destruct (IH (buf + res) (count - res) (result + res) s1)
        as (s' & Hrun & Ha' & Hd' & Hi' & Hb'); [done|lia|lia|lia|..].
      { subst s1. simpl. rewrite length_store. lia. }
      exists s'. cbn zeta in Hrun |- *.
      set (r := Z.to_nat res) in *.
      assert (st_input s1 = drop r (b :: input)) as Hi1
        by (subst s1; simpl; by rewrite Hinput).
      assert (audiobuf s1 = store (audiobuf s) (Z.to_nat buf) (take r (b :: input)))
        as Hb1 by (subst s1; simpl; by rewrite Hinput).
      assert (delivered s1 = delivered s) as Hd1 by done.
      rewrite Hi1 in Hrun, Hi', Hb'. rewrite Hb1 in Hb'. rewrite Hd1 in Hd'.
      clearbody s1.
      set (k := Z.to_nat (Z.min count (Z.of_nat (length (b :: input))))).
      rewrite length_drop in Hrun, Hi', Hb'.
      set (k' := Z.to_nat (Z.min (count - res) (Z.of_nat (length (b :: input) - r))))
        in *.
      assert (k = (r + k')%nat) as Hk by (subst k k' r; lia).
      split; [rewrite Hrun; f_equal; lia|].
      split; [done|]. split; [done|].
      split; [by rewrite Hi', drop_drop, Hk|].
      rewrite Hb', Hk.
      assert (length (take r (b :: input)) = r) as Hr.
      { rewrite length_take. subst r. lia. }
      replace (Z.to_nat (buf + res)) with (Z.to_nat buf + length (take r (b :: input)))%nat
        by (rewrite Hr; subst r; lia).
      rewrite store_app.
      2:{ rewrite Hr, length_take, length_drop. subst r k'. lia. }
      by rewrite take_take_drop.
Qed.

Local Abbreviation frame := (channels cfg * sample_bytes).

Lemma chunk_bytes_whole : chunk_bytes cfg = chunk_size cfg * frame.
Proof. apply (frame_bytes_whole cfg sample_bytes whole_bytes). Qed.

Lemma frame_pos : 0 < frame.
Proof. nia. Qed.

Lemma chunk_size_le_bytes : 0 < chunk_size cfg ≤ chunk_bytes cfg.
Proof.
  rewrite chunk_bytes_whole. pose proof frame_pos as Hframe. revert Hframe.
  generalize frame. intros f Hf. nia.
Qed.

(** [playback_fill] at the end of the input: nothing is read, and what
    the buffer holds is kept. *)
Lemma playback_fill_at_end (fuel : nat) (name : string) (l written count : Z)
    (s : state E F) :
  in_aborting s = false → st_input s = [] →
  0 ≤ l ≤ chunk_bytes cfg → chunk_bytes cfg ≤ count - written →
  chunk_bytes cfg < Z.of_nat fuel →
  Z.of_nat (length (audiobuf s)) = chunk_bytes cfg →
  ∃ s', playback_fill ops cfg fuel name l written count s = Ret l s' ∧
        transfer_view s' = transfer_view s.
Proof.
  intros Habort Hinput Hl Hcount Hfuel Hlen.
  destruct fuel as [|fuel]; [lia|].
  cbn [playback_fill]. cbn zeta.
  set (c := if chunk_bytes cfg <? count - written then chunk_bytes cfg
            else count - written).
  assert (c = chunk_bytes cfg) as -> by (subst c; case_match; lia).
  destruct (Z.ltb_spec (chunk_bytes cfg) l) as [?|_]; [lia|].
  destruct (Z.eqb_spec (chunk_bytes cfg - l) 0) as [?|Hroom]; [by exists s|].
  unfold safe_read.
  destruct (safe_read_loop_reads (S fuel) l (chunk_bytes cfg - l) 0 s)
    as (s1 & Hs1 & Ha1 & Hd1 & Hi1 & Hb1); [done|lia|lia|lia|lia|].
  cbn zeta in Hs1. rewrite Hinput in Hs1, Hi1, Hb1.
  change (Z.of_nat (length [])) with 0 in Hs1, Hi1, Hb1.
  rewrite Z.min_r in Hs1, Hi1, Hb1 by lia.
  change (Z.to_nat 0) with 0%nat in Hs1, Hi1, Hb1.
  simpl in Hs1, Hi1, Hb1. rewrite store_nil in Hb1 by lia.
  erewrite bind_Ret by exact Hs1.
  change (CInt.int32 0) with 0. simpl.
  eexists. split; [reflexivity|].
  unfold transfer_view. simpl. congruence.
Qed.

(** [playback_fill] on an empty buffer: it reads a chunk, or what is left
    of the input, to the start of [audiobuf]. *)
Lemma playback_fill_reads (fuel : nat) (name : string) (written count : Z)
    (s : state E F) :
  in_aborting s = false →
  chunk_bytes cfg ≤ count - written →
  chunk_bytes cfg + 1 < Z.of_nat fuel →
  Z.of_nat (length (audiobuf s)) = chunk_bytes cfg →
  ∃ s',
    let k := Z.to_nat (Z.min (chunk_bytes cfg) (Z.of_nat (length (st_input s)))) in
    playback_fill ops cfg fuel name 0 written count s = Ret (Z.of_nat k) s' ∧
    in_aborting s' = false ∧ delivered s' = delivered s ∧
    st_input s' = drop k (st_input s) ∧
    audiobuf s' = store (audiobuf s) 0 (take k (st_input s)).
Proof.
  intros Habort Hcount Hfuel Hlen.
  pose proof chunk_size_le_bytes as Hcb.
  destruct fuel as [|fuel]; [lia|].
  cbn [playback_fill]. cbn zeta.
  set (c := if chunk_bytes cfg <? count - written then chunk_bytes cfg
            else count - written).
  assert (c = chunk_bytes cfg) as -> by (subst c; case_match; lia).
  destruct (Z.ltb_spec (chunk_bytes cfg) 0) as [?|_]; [lia|].
  rewrite Z.sub_0_r.
  destruct (Z.eqb_spec (chunk_bytes cfg) 0) as [?|_]; [lia|].
  unfold safe_read.
  destruct (safe_read_loop_reads (S fuel) 0 (chunk_bytes cfg) 0 s)
    as (s1 & Hs1 & Ha1 & Hd1 & Hi1 & Hb1); [done|lia|lia|lia|lia|].
  cbn zeta in Hs1.
  set (k := Z.to_nat (Z.min (chunk_bytes cfg) (Z.of_nat (length (st_input s))))) in *.
  rewrite Z.add_0_l in Hs1. change (Z.to_nat 0) with 0%nat in Hb1.
  erewrite bind_Ret by exact Hs1.
  rewrite !int32_small by lia.
  destruct (Z.ltb_spec (Z.of_nat k) 0) as [?|_]; [lia|].
  erewrite bind_Ret by reflexivity.
  destruct (Z.eqb_spec (Z.of_nat k) 0) as [Hk|Hk].
  { eexists. split; [unfold ret; by rewrite Hk|]. simpl. done. }
  rewrite ?Z.add_0_l, ?int32_small by lia. rewrite size_t_small by lia.
  destruct (Z.ltb_spec (Z.of_nat k) (chunk_bytes cfg)) as [Hshort|_].
  - set (s2 := set_fdcount _ s1).
    destruct (playback_fill_at_end fuel name (Z.of_nat k) written count s2)
      as (s' & Hs' & Hv'); [done| |lia|lia|lia|subst s2; simpl; by rewrite Hb1, length_store|].
    { subst s2. simpl. rewrite Hi1. apply drop_ge. lia. }
    exists s'. cbn zeta. split; [done|].
    unfold transfer_view in Hv'. subst s2. simpl in Hv'. simplify_eq.
    repeat split; congruence.
  - eexists. split; [reflexivity|]. simpl. done.
Qed.

Lemma frames_of_bytes (l : Z) :
  0 ≤ l ≤ chunk_bytes cfg →
  CInt.int32 (CInt.size_t (CInt.int32 (l * 8)) / bits_per_frame cfg) = l / frame.
Proof.
  intros Hl. rewrite (int32_small (l * 8)), size_t_small by lia.
  unfold bits_per_frame, bits_per_sample. rewrite whole_bytes.
  replace (8 * sample_bytes * channels cfg) with (frame * 8) by lia.
  rewrite Z.div_mul_cancel_r by nia.
  assert (0 ≤ l / frame ≤ l); [|by rewrite int32_small by lia].
  assert (0 < frame) as Hframe by nia. revert Hframe.
  generalize frame. intros f Hf.
  split; [apply Z.div_pos; lia|]. apply Z.div_le_upper_bound; nia.
Qed.

Lemma bytes_of_frames :
  CInt.int32 (CInt.size_t (CInt.int32 (chunk_size cfg)) * bits_per_frame cfg / 8)
  = chunk_bytes cfg.
Proof.
  pose proof chunk_size_le_bytes.
  rewrite (int32_small (chunk_size cfg)), size_t_small by lia.
  fold (chunk_bytes cfg). apply int32_small. lia.
Qed.

(** The second loop of [playback_go] on an empty buffer: the device gets
    the input in whole chunks, the last one made whole with silence.  The
    bytes of a last incomplete frame are not played. *)
Lemma playback_chunks_delivers (n fuel : nat) (name : string) (written count : Z)
    (s : state E F) :
  in_aborting s = false →
  Z.of_nat (length (audiobuf s)) = chunk_bytes cfg →
  Z.of_nat (length (st_input s)) / chunk_bytes cfg = Z.of_nat n →
  0 ≤ written →
  written + Z.of_nat (length (st_input s)) + chunk_bytes cfg ≤ count →
  Z.of_nat n + chunk_bytes cfg + 2 < Z.of_nat fuel →
  ∃ s',
    let L := Z.of_nat (length (st_input s)) in
    playback_chunks ops fl cfg fuel name 0 written count s = Ret tt s' ∧
    in_aborting s' = false ∧
    delivered s' =
      delivered s ++ take (Z.to_nat (L / frame * frame)) (st_input s) ++
      concat (replicate
                (Z.to_nat ((chunk_size cfg - L mod chunk_bytes cfg / frame)
                           * channels cfg))
                (silence_sample (format cfg))).
Proof.
  pose proof frame_pos as Hframe.
  pose proof chunk_bytes_whole as Hcb.
  pose proof chunk_size_le_bytes as [_ Hsize].
  assert (0 < chunk_bytes cfg) as Hcbpos by lia.
  assert (chunk_size cfg * channels cfg < 2 ^ 32) as Hmax.
  { assert (chunk_size cfg * channels cfg ≤ chunk_bytes cfg); [|lia].
    rewrite Hcb, (Z.mul_assoc (chunk_size cfg)).
    assert (0 < chunk_size cfg * channels cfg) as Hpos by nia. revert Hpos.
    generalize (chunk_size cfg * channels cfg). intros x Hx. nia. }
  revert fuel written s.
  induction n as [|n IH]; intros fuel written s Habort Hlen Hn Hwritten Hcount Hfuel;
    (destruct fuel as [|fuel]; [lia|]);
    cbn zeta; cbn [playback_chunks];
    (erewrite bind_Ret by reflexivity); rewrite Habort;
    (destruct (Z.ltb_spec written count) as [_|?]; [|lia]); cbn [andb negb];
    (destruct (playback_fill_reads (S fuel) name written count s)
       as (s1 & Hs1 & Ha1 & Hd1 & Hi1 & Hb1); [done|lia|lia|done|]);
    cbn zeta in Hs1;
    set (L := Z.of_nat (length (st_input s))) in *;
    set (k := Z.to_nat (Z.min (chunk_bytes cfg) L)) in *;
    (erewrite bind_Ret by exact Hs1);
    (rewrite frames_of_bytes by lia).
  - (* the last chunk *)
    assert (0 ≤ L < chunk_bytes cfg) as HL.
    { split; [lia|]. apply Z.div_small_iff in Hn; lia. }
    assert (Z.of_nat k = L) as Hk by lia.
    rewrite Hk.
    assert (0 ≤ L / frame < chunk_size cfg) as Hframes.
    { split; [apply Z.div_pos; lia|]. apply Z.div_lt_upper_bound; lia. }
    rewrite size_t_small by lia.
    destruct (pcm_write_chunk ops fl cfg sample_bytes whole_bytes sample_bytes_pos
                channels_pos no_fault no_signal (S fuel) 0 (L / frame) s1)
      as (s2 & Hs2 & Ha2 & _ & _ & Hd2); [done|lia|done|lia|lia| |].
    { rewrite Hb1, length_store. lia. }
    erewrite bind_Ret by exact Hs2.
    rewrite int32_small by lia.
    destruct (Z.eqb_spec (chunk_size cfg) (L / frame)) as [?|_]; [lia|].
    exists s2. split; [done|]. split; [done|].
    rewrite Hd2, Hd1. f_equal.
    rewrite Z.mod_small by lia. f_equal.
    rewrite (frame_bytes_whole cfg sample_bytes whole_bytes).
    rewrite Hb1, drop_0.
    assert (L / frame * frame ≤ L) by (rewrite Z.mul_comm; apply Z.mul_div_le; lia).
    rewrite take_store; [|rewrite length_take; lia..].
    rewrite take_take. f_equal. lia.
  - (* a whole chunk, and the rest *)
    assert (chunk_bytes cfg ≤ L) as HL.
    { destruct (Z.lt_ge_cases L (chunk_bytes cfg)) as [Hlt|]; [|done].
      rewrite Z.div_small in Hn by lia. lia. }
    assert (Z.of_nat k = chunk_bytes cfg) as Hk by lia.
    rewrite Hk.
    assert (chunk_bytes cfg / frame = chunk_size cfg) as Hframes.
    { rewrite Hcb. apply Z.div_mul. lia. }
    rewrite Hframes, size_t_small by lia.
    destruct (pcm_write_chunk ops fl cfg sample_bytes whole_bytes sample_bytes_pos
                channels_pos no_fault no_signal (S fuel) 0 (chunk_size cfg) s1)
      as (s2 & Hs2 & Ha2 & Hi2 & Hb2 & Hd2); [done|lia|done|lia|lia| |].
    { rewrite Hb1, length_store. lia. }
    erewrite bind_Ret by exact Hs2.
    rewrite bytes_of_frames, (int32_small (chunk_size cfg)) by lia.
    rewrite Z.eqb_refl. cbn [negb].
    assert (Z.of_nat (length (st_input s2)) = L - chunk_bytes cfg) as HL2.
    { rewrite Hi2, Hi1, length_drop. lia. }
    destruct (IH fuel (written + chunk_bytes cfg) s2)
      as (s' & Hs' & Ha' & Hd'); [done| | |lia|lia|lia|].
    { rewrite Hb2, Hb1, length_store. lia. }
    { rewrite HL2.
      replace (L - chunk_bytes cfg) with (L + (-1) * chunk_bytes cfg) by lia.
      rewrite Z.div_add by lia. lia. }
    cbn zeta in Hs', Hd'. rewrite HL2 in Hd'.
    exists s'. split; [done|]. split; [done|].
    rewrite Hd', Hd2, Hd1, Z.sub_diag. simpl.
    rewrite app_nil_r, <- !(assoc_L (++)). f_equal.
    rewrite (assoc_L (++)). f_equal.
    + rewrite (frame_bytes_whole cfg sample_bytes whole_bytes), <- Hcb.
      rewrite Hb1, drop_0.
      rewrite take_store; [|rewrite length_take; lia..].
      rewrite take_take, Hi2, Hi1.
      replace (Z.to_nat (chunk_bytes cfg) `min` k)%nat with k by lia.
      rewrite take_take_drop. f_equal.
      replace L with ((L - chunk_bytes cfg) + chunk_size cfg * frame) at 2 by lia.
      rewrite Z.div_add by lia.
      assert (0 ≤ (L - chunk_bytes cfg) / frame) by (apply Z.div_pos; lia).
      nia.
    + do 4 f_equal.
      replace L with ((L - chunk_bytes cfg) + 1 * chunk_bytes cfg) at 2 by lia.
      by rewrite Z.mod_add by lia.
Qed.

(** [playback_go] with nothing loaded: the device gets the whole frames
    of the input, then silence up to the end of a chunk, and a whole chunk
    of silence when the input ends with a chunk. *)
Lemma playback_go_delivers (fuel : nat) (name : string) (count : Z) (s : state E F) :
  chunk_size cfg ≠ buffer_size cfg →
  in_aborting s = false →
  Z.of_nat (length (st_input s)) + chunk_bytes cfg ≤ count →
  Z.of_nat (length (st_input s)) / chunk_bytes cfg + chunk_bytes cfg + 2
    < Z.of_nat fuel →
  ∃ s',
    let L := Z.of_nat (length (st_input s)) in
    playback_go ops fl cfg fuel 0 count name s = Ret tt s' ∧
    delivered s' =
      delivered s ++ take (Z.to_nat (L / frame * frame)) (st_input s) ++
      concat (replicate
                (Z.to_nat ((chunk_size cfg - L mod chunk_bytes cfg / frame)
                           * channels cfg))
                (silence_sample (format cfg))).
Proof.
  intros Hperiod Habort Hcount Hfuel.
  pose proof chunk_size_le_bytes as [_ Hsize].
  set (L := Z.of_nat (length (st_input s))) in *.
  assert (0 ≤ L / chunk_bytes cfg) as Hn by (apply Z.div_pos; lia).
  unfold playback_go.
  assert (∃ s1, header cfg name s = Ret tt s1 ∧
                transfer_view s1 = transfer_view s) as (s1 & Hs1 & Hv1).
  { unfold header, when. destruct (negb (quiet_mode cfg)); eexists; by split. }
  erewrite bind_Ret by exact Hs1.
  unfold transfer_view in Hv1. simplify_eq.
  unfold set_params.
  destruct (Z.eqb_spec (chunk_size cfg) (buffer_size cfg)) as [?|_]; [done|].
  erewrite bind_Ret by reflexivity.
  set (s2 := set_audiobuf _ s1).
  destruct fuel as [|fuel]; [lia|].
  erewrite bind_Ret; cycle 1.
  { cbn [playback_loaded]. erewrite bind_Ret by reflexivity.
    destruct (Z.ltb_spec (chunk_bytes cfg) 0) as [?|_]; [lia|]. reflexivity. }
  cbn beta iota. rewrite Z.ltb_irrefl. cbn [andb when].
  erewrite bind_Ret by reflexivity.
  change (CInt.int32 0) with 0.
  destruct (playback_chunks_delivers (Z.to_nat (L / chunk_bytes cfg)) (S fuel)
              name 0 count s2)
    as (s' & Hs' & Ha' & Hd').
  { subst s2. simpl. congruence. }
  { subst s2. simpl. rewrite length_resize. lia. }
  { subst s2. simpl. replace (st_input s1) with (st_input s) by done.
    fold L. lia. }
  { lia. }
  { subst s2. simpl. replace (st_input s1) with (st_input s) by done.
    fold L. lia. }
  { lia. }
  cbn zeta in Hs', Hd'.
  assert (st_input s2 = st_input s) as Hi2 by (subst s2; simpl; done).
  assert (delivered s2 = delivered s) as Hd2 by (subst s2; simpl; done).
  rewrite Hi2 in Hd'. rewrite Hd2 in Hd'. fold L in Hd'.
  erewrite bind_Ret by exact Hs'.
  erewrite bind_Ret by reflexivity.
  rewrite Ha'. eexists. split; [reflexivity|]. exact Hd'.
Qed.

(** Playback of the standard input without a limit of time or of
    samples: that is one chunk more than the whole chunks of the input. *)
Lemma playback_delivers_input_then_silence (fuel : nat) (s : state E F) :
  timelimit cfg = 0 → sampleslimit cfg = 0 →
  chunk_size cfg ≠ buffer_size cfg →
  in_aborting s = false →
  Z.of_nat (length (st_input s)) + chunk_bytes cfg ≤ CInt.LLONG_MAX →
  Z.of_nat (length (st_input s)) / chunk_bytes cfg + chunk_bytes cfg + 2
    < Z.of_nat fuel →
  ∃ s',
    let L := Z.of_nat (length (st_input s)) in
    playback ops fl cfg fuel None s = Ret tt s' ∧
    delivered s' =
      delivered s ++ take (Z.to_nat (L / frame * frame)) (st_input s) ++
      concat (replicate
                (Z.to_nat ((chunk_size cfg - L mod chunk_bytes cfg / frame)
                           * channels cfg))
                (silence_sample (format cfg))) ∧
    Z.of_nat (length (delivered s')) =
      Z.of_nat (length (delivered s)) + (L / chunk_bytes cfg + 1) * chunk_bytes cfg.
Proof.
  intros Htime Hsamples Hperiod Habort Hcount Hfuel.
  pose proof frame_pos as Hframe.
  pose proof chunk_bytes_whole as Hcb.
  pose proof chunk_size_le_bytes as [_ Hsize].
  unfold playback, playback_raw, calc_count.
  rewrite Htime, Hsamples.
  cbv [bind get modify ret]. cbn [Z.eqb].
  cbn [pbrec_count set_fdcount set_pbrec_count]. rewrite Z.ltb_irrefl.
  match goal with
  | |- ∃ s', match match playback_go _ _ _ _ _ _ _ ?s0 with _ => _ end with _ => _ end
             = _ ∧ _ =>
      set (s1 := s0)
  end.
  destruct (playback_go_delivers fuel "stdin" CInt.LLONG_MAX s1)
    as (s' & Hs' & Hd'); [done|done|done|done|].
  cbn zeta in Hs', Hd'.
  change (st_input s1) with (st_input s) in Hs', Hd'.
  change (delivered s1) with (delivered s) in Hd'.
  set (L := Z.of_nat (length (st_input s))) in *.
  rewrite Hs'.
  eexists. split; [reflexivity|]. split; [exact Hd'|].
  rewrite Hd', !length_app, length_take, length_concat_replicate,
    length_silence_sample, whole_bytes.
  replace (8 * sample_bytes) with (sample_bytes * 8) by lia.
  rewrite Z.div_mul by lia. fold L.
  assert (0 ≤ L / frame * frame ≤ L) as Hwhole.
  { split; [apply Z.mul_nonneg_nonneg; [apply Z.div_pos|]; lia|].
    rewrite Z.mul_comm. apply Z.mul_div_le. lia. }
  pose proof (Z.mod_pos_bound L (chunk_bytes cfg) ltac:(lia)) as Hm.
  assert (0 ≤ L mod chunk_bytes cfg / frame < chunk_size cfg) as Hlast.
  { split; [apply Z.div_pos; lia|]. apply Z.div_lt_upper_bound; lia. }
  assert (L / frame
          = L / chunk_bytes cfg * chunk_size cfg + L mod chunk_bytes cfg / frame)
    as Hsplit.
  { rewrite (Z.div_mod L (chunk_bytes cfg)) at 1 by lia.
    rewrite Hcb at 1.
    replace (chunk_size cfg * frame * (L / chunk_bytes cfg))
      with (L / chunk_bytes cfg * chunk_size cfg * frame) by lia.
    rewrite Z.div_add_l by lia. done. }
  nia.
Qed.

End Playback.

(** Six bytes of 8-bit mono in chunks of four, from an input that gives
    at most three bytes to a [read]. *)
Lemma playback_delivers_input_then_silence_example :
  ∃ s',
    playback Steady.ops Script.floats (Script.play Script.U8 1 4) 20 None
      (set_st_input [x01; x02; x03; x04; x05; x06] (Steady.initial (Steady.Env 3 1) []))
    = Ret tt s' ∧
    delivered s' = [x01; x02; x03; x04; x05; x06; x80; x80].
Proof.
  destruct (playback_delivers_input_then_silence Steady.ops Script.floats
              (Script.play Script.U8 1 4) 1) with
    (fuel := 20%nat)
    (s := set_st_input [x01; x02; x03; x04; x05; x06]
            (Steady.initial (Steady.Env 3 1) []))
    as (s' & Hrun & Hdelivered & _).
  - reflexivity.
  - lia.
  - simpl; lia.
  - by vm_compute.
  - by vm_compute.
  - intros e buf n Hn. simpl. lia.
  - reflexivity.
  - intros e n avail Hn Havail. simpl. lia.
  - intros e n Hn. simpl. lia.
  - reflexivity.
  - reflexivity.
  - by vm_compute.
  - reflexivity.
  - by vm_compute.
  - by vm_compute.
  - exists s'. split; [exact Hrun|exact Hdelivered].
Defined.

(** ** Invariants of every run *)

Section WpRules.
Context {E F : Type}.
Implicit Types (s : state E F) (Q : Z → state E F → Prop)
  (K : signal → state E F → Prop).

Lemma wp_ret {A} (a : A) (Φ : A → state E F → Prop) Q K s :
  Φ a s → wp (ret a) Φ Q K s.
Proof. done. Qed.

Lemma wp_bind {A B} (m : M E F A) (k : A → M E F B)
    (Φ : B → state E F → Prop) Q K s :
  wp m (λ a s', wp (k a) Φ Q K s') Q K s → wp (bind m k) Φ Q K s.
Proof. unfold wp, bind. by destruct (m s). Qed.

Lemma wp_mono {A} (m : M E F A) (Φ Ψ : A → state E F → Prop) Q K s :
  wp m Φ Q K s → (∀ a s', Φ a s' → Ψ a s') → wp m Ψ Q K s.
Proof. unfold wp. destruct (m s); auto. Qed.

Lemma wp_get (Φ : state E F → state E F → Prop) Q K s :
  Φ s s → wp get Φ Q K s.
Proof. done. Qed.

Lemma wp_modify (f : state E F → state E F) (Φ : () → state E F → Prop) Q K s :
  Φ () (f s) → wp (modify f) Φ Q K s.
Proof. done. Qed.

Lemma wp_call {A} (op : E → A * E) (Φ : A → state E F → Prop) Q K s :
  (∀ a e, Φ a (set_st_env e s)) → wp (call op) Φ Q K s.
Proof. intros H. unfold wp, call. destruct (op (st_env s)). apply H. Qed.

Lemma wp_stuck {A} (Φ : A → state E F → Prop) Q K s : wp stuck Φ Q K s.
Proof. done. Qed.

Lemma wp_bind_assoc {A B C} (m : M E F A) (f : A → M E F B) (k : B → M E F C)
    (Φ : C → state E F → Prop) Q K s :
  wp (bind (bind m f) k) Φ Q K s → wp (bind m (λ a, bind (f a) k)) Φ Q K s.
Proof. unfold wp, bind. by destruct (m s). Qed.

End WpRules.

(** The steps of the rules, for a goal [wp m Φ Q K s]. *)
Ltac wp_step :=
  lazymatch goal with
  | |- wp (bind _ _) _ _ _ _ => apply wp_bind
  | |- wp (ret _) _ _ _ _ => apply wp_ret
  | |- wp get _ _ _ _ => apply wp_get
  | |- wp (modify _) _ _ _ _ => apply wp_modify
  | |- wp (call _) _ _ _ _ => apply wp_call; intros ? ?
  | |- wp stuck _ _ _ _ => apply wp_stuck
  | |- wp (when ?b _) _ _ _ _ => unfold when at 1
  | |- wp (fprintf_stderr _) _ _ _ _ => unfold fprintf_stderr
  | |- wp (putchar _) _ _ _ _ => unfold putchar
  | |- wp (pcm _) _ _ _ _ => unfold pcm
  | |- wp (if ?b then _ else _) _ _ _ _ => destruct b eqn:?
  | |- wp (match ?x with _ => _ end) _ _ _ _ => destruct x eqn:?
  | |- wp (let '(_, _) := ?x in _) _ _ _ _ => destruct x eqn:?
  | |- wp (let _ := _ in _) _ _ _ _ => cbv zeta
  end.

Section Invariant.
Context {E F : Type} (ops : env_ops E) (fl : float_ops F) (cfg : config).

(** [I] holds along the run, [Q] at an [exit] and [K] when a signal ends
    the process. *)
Variable I : state E F → Prop.
Variable Q : Z → state E F → Prop.
Variable K : signal → state E F → Prop.

(** What [I] has to stand: the steps that the program is made of. *)
Hypothesis I_env : ∀ e s, I s → I (set_st_env e s).
Hypothesis I_stderr : ∀ v s, I s → I (set_st_stderr v s).
Hypothesis I_stdout : ∀ v s, I s → I (set_st_stdout v s).
Hypothesis I_meter : ∀ v s, I s → I (set_meter v s).
Hypothesis I_pos : ∀ v s, I s → I (set_pos v s).
Hypothesis I_audiobuf : ∀ v s, I s → I (set_audiobuf v s).
Hypothesis I_frames : ∀ v s, I s → I (set_st_frames v s).
Hypothesis I_input : ∀ v s, I s → I (set_st_input v s).
Hypothesis I_fdcount : ∀ v s, I s → I (set_fdcount v s).
Hypothesis I_pbrec_count : ∀ v s, I s → I (set_pbrec_count v s).
Hypothesis I_max_file_size : ∀ v s, I s → I (set_max_file_size v s).
Hypothesis I_recycle : ∀ v s, I s → I (set_recycle_capture_file v s).
Hypothesis I_delivered : ∀ bytes s, I s → I (set_delivered (delivered s ++ bytes) s).
Hypothesis I_fs : ∀ fs s, I s → I (set_st_fs fs s).
Hypothesis I_abort : ∀ s, I s → I (set_in_aborting true s).
Hypothesis I_drain :
  ∀ s, I s → in_aborting s = false → I (set_pcm_log (pcm_log s ++ [Pcm_drain]) s).
(** The handlers of the signals that came in during a call. *)
Hypothesis I_signals :
  ∀ s, I s → wp (bind (call (signals ops)) (deliver_all cfg)) (λ _ s', I s') Q K s.
Hypothesis I_exit :
  ∀ (A : Type) (Φ : A → state E F → Prop) s,
    I s → wp (prg_exit cfg EXIT_FAILURE) Φ Q K s.

Local Abbreviation inv m :=
  (∀ Φ s, I s → (∀ a s', I s' → Φ a s') → wp m Φ Q K s) (only parsing).

Ltac wp_leaf :=
  cbv beta;
  solve [eauto 8 using I_env, I_stderr, I_stdout, I_meter, I_pos, I_audiobuf,
           I_frames, I_input, I_fdcount, I_pbrec_count, I_max_file_size,
           I_recycle, I_delivered, I_fs, I_abort].

Ltac wp_go_with known := repeat first [known | wp_step | wp_leaf].

Lemma inv_signals {A} (k : () → M E F A) :
  (∀ u, inv (k u)) →
  inv (bind (call (signals ops)) (λ sigs, bind (deliver_all cfg sigs) k)).
Proof.
  intros Hk Φ s Hs HΦ. apply wp_bind_assoc, wp_bind.
  eapply wp_mono; [by apply I_signals|].
  intros u s' Hs'. by apply Hk.
Qed.

Lemma inv_prg_exit {A} : inv (prg_exit (A:=A) cfg EXIT_FAILURE).
Proof. intros Φ s Hs _. by apply I_exit. Qed.

Ltac wp_known0 :=
  idtac;
  lazymatch goal with
  | |- wp (prg_exit _ _) _ _ _ _ => apply inv_prg_exit; [|intros ? ? ?]
  | |- wp (bind (call (signals _)) _) _ _ _ _ =>
      apply inv_signals; [intros ? ? ? ? ?| |intros ? ? ?]
  | |- wp check_stdin _ _ _ _ => unfold check_stdin
  | |- wp (fs_remove _) _ _ _ _ => unfold fs_remove
  | |- wp (open_output _) _ _ _ _ => unfold open_output
  end.

Lemma inv_blocking {A} (op : E → A * E) : inv (blocking ops cfg op).
Proof. intros Φ s Hs HΦ. unfold blocking. wp_go_with wp_known0. Qed.

Lemma inv_compute_max_peak (data : list byte) (nsamples : Z) :
  inv (compute_max_peak ops cfg data nsamples).
Proof. intros Φ s Hs HΦ. unfold compute_max_peak. wp_go_with wp_known0. Qed.

Lemma inv_suspicious (kind : suspicious_kind) (avail delay : Z) :
  inv (suspicious kind avail delay).
Proof. intros Φ s Hs HΦ. unfold suspicious. wp_go_with wp_known0. Qed.

Lemma inv_xrun : inv (xrun ops cfg).
Proof. intros Φ s Hs HΦ. unfold xrun. wp_go_with wp_known0. Qed.

Lemma inv_suspend : inv (suspend ops cfg).
Proof. intros Φ s Hs HΦ. unfold suspend. wp_go_with wp_known0. Qed.

Lemma inv_snd_pcm_wait : inv (snd_pcm_wait ops).
Proof. intros Φ s Hs HΦ. unfold snd_pcm_wait. wp_go_with wp_known0. Qed.

Lemma inv_header (name : string) : inv (header cfg name).
Proof. intros Φ s Hs HΦ. unfold header. wp_go_with wp_known0. Qed.

Lemma inv_set_params : inv (set_params cfg).
Proof. intros Φ s Hs HΦ. unfold set_params. wp_go_with wp_known0. Qed.

Lemma inv_calc_count : inv (calc_count cfg).
Proof. intros Φ s Hs HΦ. unfold calc_count. wp_go_with wp_known0. Qed.

Ltac wp_known1 :=
  idtac;
  first
    [ wp_known0
    | lazymatch goal with
      | |- wp (blocking _ _ _) _ _ _ _ => apply inv_blocking; [|intros ? ? ?]
      | |- wp (compute_max_peak _ _ _ _) _ _ _ _ => apply inv_compute_max_peak; [|intros ? ? ?]
      | |- wp (suspicious _ _ _) _ _ _ _ => apply inv_suspicious; [|intros ? ? ?]
      | |- wp (xrun _ _) _ _ _ _ => apply inv_xrun; [|intros ? ? ?]
      | |- wp (suspend _ _) _ _ _ _ => apply inv_suspend; [|intros ? ? ?]
      | |- wp (snd_pcm_wait _) _ _ _ _ => apply inv_snd_pcm_wait; [|intros ? ? ?]
      | |- wp (header _ _) _ _ _ _ => apply inv_header; [|intros ? ? ?]
      | |- wp (set_params _) _ _ _ _ => apply inv_set_params; [|intros ? ? ?]
      | |- wp (calc_count _) _ _ _ _ => apply inv_calc_count; [|intros ? ? ?]
      end ].

Lemma inv_do_test_position : inv (do_test_position ops fl cfg).
Proof. intros Φ s Hs HΦ. unfold do_test_position. wp_go_with wp_known1. Qed.

Lemma inv_after_transfer (what : string) (r count : Z) :
  inv (after_transfer ops cfg what r count).
Proof. intros Φ s Hs HΦ. unfold after_transfer. wp_go_with wp_known1. Qed.

Lemma inv_call_writei (data count : Z) : inv (call_writei ops cfg data count).
Proof. intros Φ s Hs HΦ. unfold call_writei. wp_go_with wp_known1. Qed.

Lemma inv_call_readi (data count : Z) : inv (call_readi ops cfg data count).
Proof. intros Φ s Hs HΦ. unfold call_readi. wp_go_with wp_known1. Qed.

Lemma inv_safe_read_loop (fuel : nat) (buf count result : Z) :
  inv (safe_read_loop ops cfg fuel buf count result).
Proof.
  revert buf count result.
  induction fuel as [|fuel IH]; intros buf count result Φ s Hs HΦ;
    cbn [safe_read_loop]; wp_go_with wp_known1.
Qed.

Lemma inv_fs_rename (old new : string) : inv (fs_rename old new).
Proof.
  intros Φ s Hs HΦ. unfold fs_rename. apply wp_modify.
  destruct (st_fs s !! old); wp_leaf.
Qed.

Lemma inv_xwrite_fd (tostdout : bool) (name : string) (save : Z) :
  inv (xwrite_fd ops cfg tostdout name save).
Proof.
  intros Φ s Hs HΦ. unfold xwrite_fd. wp_go_with wp_known1.
  all: unfold set_output; destruct tostdout; wp_go_with wp_known1.
Qed.

Ltac wp_known2 :=
  idtac;
  first
    [ wp_known1
    | lazymatch goal with
      | |- wp (do_test_position _ _ _) _ _ _ _ => apply inv_do_test_position; [|intros ? ? ?]
      | |- wp (after_transfer _ _ _ _ _) _ _ _ _ => apply inv_after_transfer; [|intros ? ? ?]
      | |- wp (call_writei _ _ _ _) _ _ _ _ => apply inv_call_writei; [|intros ? ? ?]
      | |- wp (call_readi _ _ _ _) _ _ _ _ => apply inv_call_readi; [|intros ? ? ?]
      | |- wp (safe_read_loop _ _ _ _ _ _) _ _ _ _ => apply inv_safe_read_loop; [|intros ? ? ?]
      | |- wp (fs_rename _ _) _ _ _ _ => apply inv_fs_rename; [|intros ? ? ?]
      | |- wp (xwrite_fd _ _ _ _ _) _ _ _ _ => apply inv_xwrite_fd; [|intros ? ? ?]
      end ].

Lemma inv_pcm_write_loop (fuel : nat) (data count result : Z) :
  inv (pcm_write_loop ops fl cfg fuel data count result).
Proof.
  revert data count result.
  induction fuel as [|fuel IH]; intros data count result Φ s Hs HΦ;
    cbn [pcm_write_loop]; wp_go_with wp_known2.
Qed.

Lemma inv_pcm_read_loop (fuel : nat) (data count result : Z) :
  inv (pcm_read_loop ops fl cfg fuel data count result).
Proof.
  revert data count result.
  induction fuel as [|fuel IH]; intros data count result Φ s Hs HΦ;
    cbn [pcm_read_loop]; wp_go_with wp_known2.
Qed.

Lemma inv_safe_read (fuel : nat) (buf count : Z) :
  inv (safe_read ops cfg fuel buf count).
Proof. intros Φ s Hs HΦ. unfold safe_read. wp_go_with wp_known2. Qed.

Lemma inv_new_capture_file (name : string) (namelen filecount : Z) :
  inv (new_capture_file ops cfg name namelen filecount).
Proof. intros Φ s Hs HΦ. unfold new_capture_file. wp_go_with wp_known2. Qed.

Ltac wp_known3 :=
  idtac;
  first
    [ wp_known2
    | lazymatch goal with
      | |- wp (pcm_write_loop _ _ _ _ _ _ _) _ _ _ _ => apply inv_pcm_write_loop; [|intros ? ? ?]
      | |- wp (pcm_read_loop _ _ _ _ _ _ _) _ _ _ _ => apply inv_pcm_read_loop; [|intros ? ? ?]
      | |- wp (safe_read _ _ _ _ _) _ _ _ _ => apply inv_safe_read; [|intros ? ? ?]
      | |- wp (new_capture_file _ _ _ _ _) _ _ _ _ => apply inv_new_capture_file; [|intros ? ? ?]
      end ].

Lemma inv_pcm_write (fuel : nat) (data count : Z) :
  inv (pcm_write ops fl cfg fuel data count).
Proof. intros Φ s Hs HΦ. unfold pcm_write. wp_go_with wp_known3. Qed.

Lemma inv_pcm_read (fuel : nat) (data rcount : Z) :
  inv (pcm_read ops fl cfg fuel data rcount).
Proof. intros Φ s Hs HΦ. unfold pcm_read. wp_go_with wp_known3. Qed.

Lemma inv_playback_fill (fuel : nat) (name : string) (l written count : Z) :
  inv (playback_fill ops cfg fuel name l written count).
Proof.
  revert l.
  induction fuel as [|fuel IH]; intros l Φ s Hs HΦ;
    cbn [playback_fill]; wp_go_with wp_known3.
Qed.

Lemma inv_open_next (orig_name : string) (tostdout : bool) (name : string) (filecount : Z) :
  inv (open_next ops cfg orig_name tostdout name filecount).
Proof. intros Φ s Hs HΦ. unfold open_next. wp_go_with wp_known3. Qed.

Ltac wp_known4 :=
  idtac;
  first
    [ wp_known3
    | lazymatch goal with
      | |- wp (pcm_write _ _ _ _ _ _) _ _ _ _ => apply inv_pcm_write; [|intros ? ? ?]
      | |- wp (pcm_read _ _ _ _ _ _) _ _ _ _ => apply inv_pcm_read; [|intros ? ? ?]
      | |- wp (playback_fill _ _ _ _ _ _ _) _ _ _ _ => apply inv_playback_fill; [|intros ? ? ?]
      | |- wp (open_next _ _ _ _ _ _) _ _ _ _ => apply inv_open_next; [|intros ? ? ?]
      end ].

Lemma inv_playback_loaded (fuel : nat) (loaded written count : Z) :
  inv (playback_loaded ops fl cfg fuel loaded written count).
Proof.
  revert loaded written count.
  induction fuel as [|fuel IH]; intros loaded written count Φ s Hs HΦ;
    cbn [playback_loaded]; wp_go_with wp_known4.
Qed.

Lemma inv_playback_chunks (fuel : nat) (name : string) (l written count : Z) :
  inv (playback_chunks ops fl cfg fuel name l written count).
Proof.
  revert l written.
  induction fuel as [|fuel IH]; intros l written Φ s Hs HΦ;
    cbn [playback_chunks]; wp_go_with wp_known4.
Qed.

Lemma inv_capture_chunks (fuel : nat) (tostdout : bool) (name : string) (count rest : Z) :
  inv (capture_chunks ops fl cfg fuel tostdout name count rest).
Proof.
  revert count rest.
  induction fuel as [|fuel IH]; intros count rest Φ s Hs HΦ;
    cbn [capture_chunks]; wp_go_with wp_known4.
Qed.

Ltac wp_known5 :=
  idtac;
  first
    [ wp_known4
    | lazymatch goal with
      | |- wp (playback_loaded _ _ _ _ _ _ _) _ _ _ _ => apply inv_playback_loaded; [|intros ? ? ?]
      | |- wp (playback_chunks _ _ _ _ _ _ _ _) _ _ _ _ => apply inv_playback_chunks; [|intros ? ? ?]
      | |- wp (capture_chunks _ _ _ _ _ _ _ _) _ _ _ _ => apply inv_capture_chunks; [|intros ? ? ?]
      end ].

(** The only call of [snd_pcm_drain] is made when no abort is pending. *)
Lemma inv_playback_go (fuel : nat) (loaded count : Z) (name : string) :
  inv (playback_go ops fl cfg fuel loaded count name).
Proof.
  intros Φ s Hs HΦ. unfold playback_go. wp_go_with wp_known5.
  all: apply HΦ, I_drain; [done|]; by destruct (in_aborting _).
Qed.

Lemma inv_capture_files (fuel : nat) (orig_name : string) (tostdout : bool) (name : string) (filecount count : Z) :
  inv (capture_files ops fl cfg fuel orig_name tostdout name filecount count).
Proof.
  revert name filecount count.
  induction fuel as [|fuel IH]; intros name filecount count Φ s Hs HΦ;
    cbn [capture_files]; wp_go_with wp_known5.
Qed.

Ltac wp_known6 :=
  idtac;
  first
    [ wp_known5
    | lazymatch goal with
      | |- wp (playback_go _ _ _ _ _ _ _) _ _ _ _ => apply inv_playback_go; [|intros ? ? ?]
      | |- wp (capture_files _ _ _ _ _ _ _ _ _) _ _ _ _ => apply inv_capture_files; [|intros ? ? ?]
      end ].

Lemma inv_playback_raw (fuel : nat) (name : string) (loaded : Z) :
  inv (playback_raw ops fl cfg fuel name loaded).
Proof. intros Φ s Hs HΦ. unfold playback_raw. wp_go_with wp_known6. Qed.

Lemma inv_capture (fuel : nat) (orig_name : option string) :
  inv (capture ops fl cfg fuel orig_name).
Proof. intros Φ s Hs HΦ. unfold capture. wp_go_with wp_known6. Qed.

Ltac wp_known7 :=
  idtac;
  first
    [ wp_known6
    | lazymatch goal with
      | |- wp (playback_raw _ _ _ _ _ _) _ _ _ _ => apply inv_playback_raw; [|intros ? ? ?]
      | |- wp (capture _ _ _ _ _) _ _ _ _ => apply inv_capture; [|intros ? ? ?]
      end ].

Lemma inv_playback (fuel : nat) (name : option string) :
  inv (playback ops fl cfg fuel name).
Proof. intros Φ s Hs HΦ. unfold playback. wp_go_with wp_known7. Qed.

Ltac wp_known8 :=
  idtac;
  first
    [ wp_known7
    | lazymatch goal with
      | |- wp (playback _ _ _ _ _) _ _ _ _ => apply inv_playback; [|intros ? ? ?]
      end ].

Lemma inv_each_file (fuel : nat) (names : list string) :
  inv (each_file ops fl cfg fuel names).
Proof.
  induction names as [|name names IH]; intros Φ s Hs HΦ; cbn [each_file];
    wp_go_with wp_known8.
Qed.

Ltac wp_known9 :=
  idtac;
  first
    [ wp_known8
    | lazymatch goal with
      | |- wp (each_file _ _ _ _ _) _ _ _ _ => apply inv_each_file; [|intros ? ? ?]
      end ].

(** The files of a run of [main], between what [main] does first and
    what it does last. *)
Lemma inv_main_files (fuel : nat) (names : list string) :
  inv (if interleaved cfg then
         match names with
         | [] =>
             if decide (stream cfg = SND_PCM_STREAM_PLAYBACK)
             then playback ops fl cfg fuel None else capture ops fl cfg fuel None
         | _ => each_file ops fl cfg fuel names
         end
       else stuck).
Proof. intros Φ s Hs HΦ. wp_go_with wp_known9. Qed.

(** The same when every file is played, and when every file is recorded. *)
Lemma inv_each_file_playback (fuel : nat) (names : list string) :
  stream cfg = SND_PCM_STREAM_PLAYBACK → inv (each_file ops fl cfg fuel names).
Proof.
  intros Hstream.
  induction names as [|name names IH]; intros Φ s Hs HΦ; cbn [each_file].
  - wp_go_with wp_known8.
  - destruct (decide (stream cfg = SND_PCM_STREAM_PLAYBACK)); [|done].
    wp_go_with wp_known8.
Qed.

Lemma inv_main_files_playback (fuel : nat) (names : list string) :
  stream cfg = SND_PCM_STREAM_PLAYBACK →
  inv (if interleaved cfg then
         match names with
         | [] =>
             if decide (stream cfg = SND_PCM_STREAM_PLAYBACK)
             then playback ops fl cfg fuel None else capture ops fl cfg fuel None
         | _ => each_file ops fl cfg fuel names
         end
       else stuck).
Proof.
  intros Hstream Φ s Hs HΦ.
  destruct (decide (stream cfg = SND_PCM_STREAM_PLAYBACK)); [|done].
  destruct (interleaved cfg); [|wp_go_with wp_known8].
  destruct names as [|name names]; [wp_go_with wp_known8|].
  apply inv_each_file_playback; [done|done|]. intros ? ? ?. wp_go_with wp_known8.
Qed.

Lemma inv_each_file_capture (fuel : nat) (names : list string) :
  stream cfg = SND_PCM_STREAM_CAPTURE → inv (each_file ops fl cfg fuel names).
Proof.
  intros Hstream.
  induction names as [|name names IH]; intros Φ s Hs HΦ; cbn [each_file].
  - wp_go_with wp_known8.
  - destruct (decide (stream cfg = SND_PCM_STREAM_PLAYBACK)); [congruence|].
    wp_go_with wp_known8.
Qed.

Lemma inv_main_files_capture (fuel : nat) (names : list string) :
  stream cfg = SND_PCM_STREAM_CAPTURE →
  inv (if interleaved cfg then
         match names with
         | [] =>
             if decide (stream cfg = SND_PCM_STREAM_PLAYBACK)
             then playback ops fl cfg fuel None else capture ops fl cfg fuel None
         | _ => each_file ops fl cfg fuel names
         end
       else stuck).
Proof.
  intros Hstream Φ s Hs HΦ.
  destruct (decide (stream cfg = SND_PCM_STREAM_PLAYBACK)); [congruence|].
  destruct (interleaved cfg); [|wp_go_with wp_known8].
  destruct names as [|name names]; [wp_go_with wp_known8|].
  apply inv_each_file_capture; [done|done|]. intros ? ? ?. wp_go_with wp_known8.
Qed.

End Invariant.

(** The handlers keep [I] when the handler of each signal does, and when
    no signal arrives. *)
Lemma signals_by_handler {E F : Type} (ops : env_ops E) (cfg : config)
    (I : state E F → Prop) (Q : Z → state E F → Prop)
    (K : signal → state E F → Prop) :
  (∀ e s, I s → I (set_st_env e s)) →
  (∀ sig s, I s → wp (deliver cfg sig) (λ _ s', I s') Q K s) →
  ∀ s, I s → wp (bind (call (signals ops)) (deliver_all cfg)) (λ _ s', I s') Q K s.
Proof.
  intros Henv Hsig s Hs. apply wp_bind, wp_call. intros sigs e.
  assert (I (set_st_env e s)) as Hs' by auto. revert Hs'.
  generalize (set_st_env e s). clear s Hs.
  induction sigs as [|sig sigs IH]; intros s Hs; cbn [deliver_all].
  - by apply wp_ret.
  - apply wp_bind. eapply wp_mono; [by apply Hsig|].
    intros ? s' Hs'. by apply IH.
Qed.

Lemma signals_without_signal {E F : Type} (ops : env_ops E) (cfg : config)
    (I : state E F → Prop) (Q : Z → state E F → Prop)
    (K : signal → state E F → Prop) :
  (∀ e, (signals ops e).1 = []) →
  (∀ e s, I s → I (set_st_env e s)) →
  ∀ s, I s → wp (bind (call (signals ops)) (deliver_all cfg)) (λ _ s', I s') Q K s.
Proof.
  intros Hnone Henv s Hs. unfold wp, bind, call.
  pose proof (Hnone (st_env s)) as Hsigs.
  destruct (signals ops (st_env s)) as [sigs e]. simpl in Hsigs. subst sigs.
  simpl. by apply Henv.
Qed.

(** A signal handler or a [prg_exit], run to its end. *)
Ltac wp_run :=
  cbv [wp deliver signal_handler signal_handler_recycle prg_exit
       bind get modify when ret putchar fprintf_stderr pcm];
  repeat (case_match; simpl; simplify_eq).

(** X6. Without [-I] and without a channel map, once [main] has written
    the file of [--process-id-file], every [exit] of the program, the one
    at the end of [main], the one of the handler of [SIGABRT] and the ones
    after an error, has the status 0 or 1 and leaves no file of that
    name behind.  (A run that a signal ends by its default action does
    not come to an [exit], and keeps the file.) *)
Theorem main_exits_without_pid_file {E F : Type} (ops : env_ops E)
    (fl : float_ops F) (cfg : config) (fuel : nat) (names : list string)
    (s : state E F) :
  interleaved cfg = true →
  match main ops fl cfg fuel names s with
  | Exit code s' =>
      (code = EXIT_SUCCESS ∨ code = EXIT_FAILURE) ∧
      ∀ name, pidfile_name cfg = Some name → st_fs s' !! name = None
  | _ => True
  end.
Proof.
  intros _.
  set (I := λ s : state E F, is_Some (pidfile_name cfg) → pidfile_written s = true).
  set (Q := λ (code : Z) (s' : state E F),
         (code = EXIT_SUCCESS ∨ code = EXIT_FAILURE) ∧
         ∀ name, pidfile_name cfg = Some name → st_fs s' !! name = None).
  set (K := λ (_ : signal) (_ : state E F), True).
  assert (∀ (code : Z) (A : Type) (Φ : A → state E F → Prop) s,
            code = EXIT_SUCCESS ∨ code = EXIT_FAILURE →
            I s → wp (prg_exit cfg code) Φ Q K s) as Hexit.
  { intros code A Φ s0 Hcode Hs0. unfold wp, prg_exit, Q, I in *.
    cbv zeta. split; [done|]. intros name Hname.
    rewrite Hname in *.
    destruct (handle s0); simpl; rewrite Hs0 by done; simpl;
      apply lookup_delete_eq. }
  enough (wp (main ops fl cfg fuel names) (λ _ _, False) Q K s) as Hwp.
  { unfold wp in Hwp. by destruct (main ops fl cfg fuel names s). }
  unfold main. apply wp_bind.
  apply (wp_mono _ (λ _ s', I s')).
  { destruct (pidfile_name cfg) as [name|] eqn:Hname; [by apply wp_modify|].
    apply wp_ret. by intros [? ?]. }
  intros _ s1 Hs1. apply wp_bind, wp_modify, wp_bind.
  eapply (inv_main_files ops fl cfg I Q K); try done.
  - apply signals_by_handler; [intros ? ? H; exact H|].
    intros sig s0 Hs0. revert Hs0. unfold I, Q, K. wp_run; try done.
    all: intros Hs0; split; [by right|]; intros name Hname.
    all: assert (pidfile_written s0 = true) as Hw by (apply Hs0; by rewrite Hname).
    all: simpl in *; try congruence; simplify_eq; apply lookup_delete_eq.
  - intros A Φ s0 Hs0. apply Hexit; [by right|done].
  - intros _ s2 Hs2. repeat wp_step.
    all: apply (Hexit EXIT_SUCCESS); [by left|done].
Qed.

(** [aplay --process-id-file fplay.pid a.raw], once to the end of the
    file and once with [SIGABRT] during the first chunk. *)
Lemma main_exits_without_pid_file_witness :
  match
    main Script.ops Script.floats (play_with_pid_file Script.U8 1 4) 100
      ["a.raw"%string]
      (Script.initial (Script.quiet 1 x00)
         {[ "a.raw"%string := [x01; x02; x03; x04; x05] ]} [])
  with
  | Exit code s' =>
      (code = EXIT_SUCCESS ∨ code = EXIT_FAILURE) ∧
      ∀ name, pidfile_name (play_with_pid_file Script.U8 1 4) = Some name →
              st_fs s' !! name = None
  | _ => True
  end ∧
  match
    main Script.ops Script.floats (play_with_pid_file Script.U8 1 4) 100
      ["a.raw"%string]
      (Script.initial (Script.Env [] [] [] [] [] [] [[]; [SIGABRT]] 0 1 x00)
         {[ "a.raw"%string := [x01; x02; x03; x04; x05] ]} [])
  with
  | Exit code s' =>
      (code = EXIT_SUCCESS ∨ code = EXIT_FAILURE) ∧
      ∀ name, pidfile_name (play_with_pid_file Script.U8 1 4) = Some name →
              st_fs s' !! name = None
  | _ => True
  end.
Proof.
  split.
  - apply (main_exits_without_pid_file Script.ops Script.floats
             (play_with_pid_file Script.U8 1 4) 100 ["a.raw"%string]
             (Script.initial (Script.quiet 1 x00)
                {[ "a.raw"%string := [x01; x02; x03; x04; x05] ]} [])).
    reflexivity.
  - apply (main_exits_without_pid_file Script.ops Script.floats
             (play_with_pid_file Script.U8 1 4) 100 ["a.raw"%string]
             (Script.initial (Script.Env [] [] [] [] [] [] [[]; [SIGABRT]] 0 1 x00)
                {[ "a.raw"%string := [x01; x02; x03; x04; x05] ]} [])).
    reflexivity.
Defined.

(** The two runs: the first ends with the status 0 and the second with
    the status 1, and [a.raw] is the only file left each time. *)
Lemma runs_with_pid_file :
  match
    main Script.ops Script.floats (play_with_pid_file Script.U8 1 4) 100
      ["a.raw"%string]
      (Script.initial (Script.quiet 1 x00)
         {[ "a.raw"%string := [x01; x02; x03; x04; x05] ]} [])
  with
  | Exit code s' =>
      code = EXIT_SUCCESS ∧ st_fs s' = {[ "a.raw"%string := [x01; x02; x03; x04; x05] ]}
  | _ => False
  end ∧
  match
    main Script.ops Script.floats (play_with_pid_file Script.U8 1 4) 100
      ["a.raw"%string]
      (Script.initial (Script.Env [] [] [] [] [] [] [[]; [SIGABRT]] 0 1 x00)
         {[ "a.raw"%string := [x01; x02; x03; x04; x05] ]} [])
  with
  | Exit code s' =>
      code = EXIT_FAILURE ∧ st_fs s' = {[ "a.raw"%string := [x01; x02; x03; x04; x05] ]}
  | _ => False
  end.
Proof. split; by vm_compute. Qed.

(** X9. In playback without [-I] the program writes no file: whatever
    the input and the device do and whichever signals arrive, every file
    but the one of [--process-id-file] is at the end of the run as it
    was at the start. *)
Theorem playback_leaves_files_alone {E F : Type} (ops : env_ops E)
    (fl : float_ops F) (cfg : config) (fuel : nat) (names : list string)
    (s : state E F) :
  stream cfg = SND_PCM_STREAM_PLAYBACK → interleaved cfg = true →
  match main ops fl cfg fuel names s with
  | Ret _ s' | Exit _ s' | Killed _ s' =>
      ∀ name, pidfile_name cfg ≠ Some name → st_fs s' !! name = st_fs s !! name
  | Stuck => True
  end.
Proof.
  intros Hstream _.
  set (I := λ s' : state E F,
         ∀ name, pidfile_name cfg ≠ Some name → st_fs s' !! name = st_fs s !! name).
  set (Q := λ (_ : Z) (s' : state E F), I s').
  set (K := λ (_ : signal) (s' : state E F), I s').
  assert (∀ (code : Z) (A : Type) (Φ : A → state E F → Prop) s0,
            I s0 → wp (prg_exit cfg code) Φ Q K s0) as Hexit.
  { intros code A Φ s0 Hs0. unfold Q, I. wp_run; try done.
    all: intros name Hname; simpl.
    all: first [by apply Hs0 | rewrite lookup_delete_ne by congruence; by apply Hs0]. }
  enough (wp (main ops fl cfg fuel names) (λ _ s', I s') Q K s) as Hwp.
  { unfold wp in Hwp. by destruct (main ops fl cfg fuel names s). }
  unfold main. apply wp_bind.
  apply (wp_mono _ (λ _ s', I s')).
  { destruct (pidfile_name cfg) as [pidfile|] eqn:Hpid; [|by apply wp_ret].
    apply wp_modify. intros name Hname. simpl.
    rewrite lookup_insert_ne by congruence. done. }
  intros _ s1 Hs1. apply wp_bind, wp_modify, wp_bind.
  eapply (inv_main_files_playback ops fl cfg I Q K); try (intros; assumption).
  - apply signals_by_handler; [intros ? ? H; exact H|].
    intros sig s0 Hs0. unfold I, Q, K. wp_run; try done.
    all: intros name Hname; simpl.
    all: first [by apply Hs0 | rewrite lookup_delete_ne by congruence; by apply Hs0].
  - intros A Φ s0 Hs0. by apply Hexit.
  - intros _ s2 Hs2. repeat wp_step; by apply Hexit.
Qed.

(** The files [a.raw] and [b.raw] played in turn. *)
Lemma playback_leaves_files_alone_witness :
  match
    main Script.ops Script.floats (Script.play Script.U8 1 4) 100
      ["a.raw"%string; "b.raw"%string]
      (Script.initial (Script.quiet 1 x00)
         {[ "a.raw"%string := [x01; x02; x03]; "b.raw"%string := [x04] ]} [])
  with
  | Ret _ s' | Exit _ s' | Killed _ s' =>
      ∀ name, pidfile_name (Script.play Script.U8 1 4) ≠ Some name →
        st_fs s' !! name
        = st_fs (Script.initial (Script.quiet 1 x00)
                   {[ "a.raw"%string := [x01; x02; x03]; "b.raw"%string := [x04] ]} [])
            !! name
  | Stuck => True
  end.
Proof.
  apply (playback_leaves_files_alone Script.ops Script.floats
           (Script.play Script.U8 1 4) 100 ["a.raw"%string; "b.raw"%string]
           (Script.initial (Script.quiet 1 x00)
              {[ "a.raw"%string := [x01; x02; x03]; "b.raw"%string := [x04] ]} [])).
  - reflexivity.
  - reflexivity.
Defined.

(** ** Playback up to a limit *)

Section PlaybackLimit.
Context {E F : Type} (ops : env_ops E) (fl : float_ops F) (cfg : config).

Variable sample_bytes : Z.
Hypothesis whole_bytes : physical_width (format cfg) = 8 * sample_bytes.
Hypothesis sample_bytes_pos : 0 < sample_bytes.
Hypothesis channels_pos : 0 < channels cfg.
Hypothesis chunk_size_pos : 0 < chunk_size cfg.
Hypothesis chunk_bits : chunk_bytes cfg * 8 < 2 ^ 31.
Hypothesis no_fault : ∀ e buf n, 0 < n → 0 < (writei ops e buf n).1 ≤ n.
Hypothesis no_signal : ∀ e, (signals ops e).1 = [].
Hypothesis read_some :
  ∀ e n avail, 0 < n → 0 < avail → 0 < (sys_read ops e n avail).1 ≤ Z.min n avail.
Hypothesis read_eof : ∀ e n, 0 < n → (sys_read ops e n 0).1 = 0.

Local Abbreviation frame := (channels cfg * sample_bytes).

(** [playback_fill] on an empty buffer with enough input left: it reads
    a chunk, or what the limit [count] leaves to play. *)
Lemma playback_fill_limited (fuel : nat) (name : string) (written count : Z)
    (s : state E F) :
  in_aborting s = false →
  0 < count - written →
  Z.min (chunk_bytes cfg) (count - written) ≤ Z.of_nat (length (st_input s)) →
  chunk_bytes cfg + 1 < Z.of_nat fuel →
  Z.of_nat (length (audiobuf s)) = chunk_bytes cfg →
  ∃ s',
    let c := Z.min (chunk_bytes cfg) (count - written) in
    playback_fill ops cfg fuel name 0 written count s = Ret c s' ∧
    in_aborting s' = false ∧ delivered s' = delivered s ∧
    st_input s' = drop (Z.to_nat c) (st_input s) ∧
    audiobuf s' = store (audiobuf s) 0 (take (Z.to_nat c) (st_input s)).
Proof.
  intros Habort Hroom Hinput Hfuel Hlen.
  pose proof (chunk_size_le_bytes cfg sample_bytes whole_bytes sample_bytes_pos
                channels_pos chunk_size_pos) as Hcb.
  destruct fuel as [|fuel]; [lia|].
  cbn [playback_fill]. cbn zeta.
  set (c := Z.min (chunk_bytes cfg) (count - written)) in *.
  replace (if chunk_bytes cfg <? count - written then chunk_bytes cfg
           else count - written) with c by (subst c; case_match; lia).
  assert (0 < c ≤ chunk_bytes cfg) as Hc by (subst c; lia).
  destruct (Z.ltb_spec c 0) as [?|_]; [lia|].
  rewrite Z.sub_0_r.
  destruct (Z.eqb_spec c 0) as [?|_]; [lia|].
  unfold safe_read.
  destruct (safe_read_loop_reads ops cfg no_signal read_some read_eof
              (S fuel) 0 c 0 s)
    as (s1 & Hs1 & Ha1 & Hd1 & Hi1 & Hb1); [done|lia|lia|lia|lia|].
  cbn zeta in Hs1.
  rewrite Z.min_l, Z2Nat.id in Hs1 by lia. rewrite Z.min_l in Hi1, Hb1 by lia.
  rewrite Z.add_0_l in Hs1. change (Z.to_nat 0) with 0%nat in Hb1.
  erewrite bind_Ret by exact Hs1.
  rewrite !int32_small by lia.
  destruct (Z.ltb_spec c 0) as [?|_]; [lia|].
  erewrite bind_Ret by reflexivity.
  destruct (Z.eqb_spec c 0) as [?|_]; [lia|].
  rewrite ?Z.add_0_l, ?int32_small by lia. rewrite size_t_small by lia.
  destruct (Z.ltb_spec c (chunk_bytes cfg)) as [Hshort|_].
  - destruct fuel as [|fuel]; [lia|].
    cbn [playback_fill]. cbn zeta.
    replace (if chunk_bytes cfg <? count - written then chunk_bytes cfg
             else count - written) with c by (subst c; case_match; lia).
    rewrite Z.ltb_irrefl, Z.sub_diag. simpl.
    eexists. split; [reflexivity|]. simpl. done.
  - eexists. split; [reflexivity|]. simpl. done.
Qed.

(** The second loop of [playback_go] with enough input for the limit:
    it plays what is left of [count], and makes the last chunk whole
    with silence when [count] does not end with a chunk. *)
Lemma playback_chunks_limited (q fuel : nat) (name : string) (written count : Z)
    (s : state E F) :
  in_aborting s = false →
  Z.of_nat (length (audiobuf s)) = chunk_bytes cfg →
  0 ≤ written ≤ count →
  (count - written) / chunk_bytes cfg = Z.of_nat q →
  count - written ≤ Z.of_nat (length (st_input s)) →
  Z.of_nat q + chunk_bytes cfg + 2 < Z.of_nat fuel →
  ∃ s',
    let R := count - written in
    playback_chunks ops fl cfg fuel name 0 written count s = Ret tt s' ∧
    in_aborting s' = false ∧
    delivered s' =
      delivered s ++ take (Z.to_nat (R / frame * frame)) (st_input s) ++
      (if R mod chunk_bytes cfg =? 0 then []
       else concat (replicate
                      (Z.to_nat ((chunk_size cfg - R mod chunk_bytes cfg / frame)
                                 * channels cfg))
                      (silence_sample (format cfg)))).
Proof.
  pose proof (frame_pos cfg sample_bytes sample_bytes_pos channels_pos) as Hframe.
  pose proof (chunk_bytes_whole cfg sample_bytes whole_bytes) as Hcb.
  pose proof (chunk_size_le_bytes cfg sample_bytes whole_bytes sample_bytes_pos
                channels_pos chunk_size_pos) as [_ Hsize].
  assert (0 < chunk_bytes cfg) as Hcbpos by lia.
  assert (chunk_size cfg * channels cfg < 2 ^ 32) as Hmax.
  { assert (chunk_size cfg * channels cfg ≤ chunk_bytes cfg); [|lia].
    rewrite Hcb, (Z.mul_assoc (chunk_size cfg)).
    assert (0 < chunk_size cfg * channels cfg) as Hpos by nia. revert Hpos.
    generalize (chunk_size cfg * channels cfg). intros x Hx. nia. }
  revert fuel written s.
  induction q as [|q IH]; intros fuel written s Habort Hlen Hwritten Hq Hinput Hfuel;
    (destruct fuel as [|fuel]; [lia|]);
    cbn zeta; cbn [playback_chunks];
    (erewrite bind_Ret by reflexivity); rewrite Habort;
    set (R := count - written) in *.
  - (* less than a chunk is left *)
    assert (0 ≤ R < chunk_bytes cfg) as HR.
    { split; [lia|]. apply Z.div_small_iff in Hq; lia. }
    rewrite (Z.mod_small R) by lia.
    destruct (Z.ltb_spec written count) as [Hlt|Hge]; cbn [andb negb].
    2:{ assert (R = 0) as HR0 by lia. exists s. rewrite HR0.
        rewrite Z.eqb_refl, Z.div_0_l by lia. simpl.
        by rewrite !app_nil_r. }
    destruct (playback_fill_limited (S fuel) name written count s)
      as (s1 & Hs1 & Ha1 & Hd1 & Hi1 & Hb1); [done|lia|lia|lia|done|].
    cbn zeta in Hs1. fold R in Hs1, Hi1, Hb1.
    rewrite Z.min_r in Hs1, Hi1, Hb1 by lia.
    erewrite bind_Ret by exact Hs1.
    rewrite (frames_of_bytes cfg sample_bytes) by (done || lia).
    assert (0 ≤ R / frame < chunk_size cfg) as Hframes.
    { split; [apply Z.div_pos; lia|]. apply Z.div_lt_upper_bound; lia. }
    rewrite size_t_small by lia.
    destruct (pcm_write_chunk ops fl cfg sample_bytes whole_bytes sample_bytes_pos
                channels_pos no_fault no_signal (S fuel) 0 (R / frame) s1)
      as (s2 & Hs2 & Ha2 & _ & _ & Hd2); [done|lia|done|lia|lia| |].
    { rewrite Hb1, length_store. lia. }
    erewrite bind_Ret by exact Hs2.
    rewrite int32_small by lia.
    destruct (Z.eqb_spec (chunk_size cfg) (R / frame)) as [?|_]; [lia|].
    exists s2. split; [done|]. split; [done|].
    destruct (Z.eqb_spec R 0) as [?|_]; [lia|].
    rewrite Hd2, Hd1. f_equal. f_equal.
    rewrite (frame_bytes_whole cfg sample_bytes whole_bytes).
    rewrite Hb1, drop_0.
    assert (L := Z.mul_div_le R frame Hframe).
    rewrite take_store; [|rewrite length_take; lia..].
    rewrite take_take. f_equal. lia.
  - (* a whole chunk, and the rest *)
    assert (chunk_bytes cfg ≤ R) as HR.
    { destruct (Z.lt_ge_cases R (chunk_bytes cfg)) as [Hlt|]; [|done].
      rewrite Z.div_small in Hq by lia. lia. }
    destruct (Z.ltb_spec written count) as [_|?]; [|lia]. cbn [andb negb].
    destruct (playback_fill_limited (S fuel) name written count s)
      as (s1 & Hs1 & Ha1 & Hd1 & Hi1 & Hb1); [done|lia|lia|lia|done|].
    cbn zeta in Hs1. fold R in Hs1, Hi1, Hb1.
    rewrite Z.min_l in Hs1, Hi1, Hb1 by lia.
    erewrite bind_Ret by exact Hs1.
    rewrite (frames_of_bytes cfg sample_bytes) by (done || lia).
    assert (chunk_bytes cfg / frame = chunk_size cfg) as Hframes.
    { rewrite Hcb. apply Z.div_mul. lia. }
    rewrite Hframes, size_t_small by lia.
    destruct (pcm_write_chunk ops fl cfg sample_bytes whole_bytes sample_bytes_pos
                channels_pos no_fault no_signal (S fuel) 0 (chunk_size cfg) s1)
      as (s2 & Hs2 & Ha2 & Hi2 & Hb2 & Hd2); [done|lia|done|lia|lia| |].
    { rewrite Hb1, length_store. lia. }
    erewrite bind_Ret by exact Hs2.
    rewrite (bytes_of_frames cfg sample_bytes), (int32_small (chunk_size cfg))
      by (done || lia).
    rewrite Z.eqb_refl. cbn [negb].
    assert (Z.of_nat (length (st_input s2)) = Z.of_nat (length (st_input s))
                                               - chunk_bytes cfg) as HL2.
    { rewrite Hi2, Hi1, length_drop. lia. }
    destruct (IH fuel (written + chunk_bytes cfg) s2)
      as (s' & Hs' & Ha' & Hd'); [done| |lia| |lia|lia|].
    { rewrite Hb2, Hb1, length_store. lia. }
    { replace (count - (written + chunk_bytes cfg))
        with (R + (-1) * chunk_bytes cfg) by lia.
      rewrite Z.div_add by lia. lia. }
    cbn zeta in Hs', Hd'.
    replace (count - (written + chunk_bytes cfg)) with (R - chunk_bytes cfg)
      in Hd' by lia.
    exists s'. split; [done|]. split; [done|].
    rewrite Hd', Hd2, Hd1, Z.sub_diag. simpl.
    rewrite app_nil_r, <- !(assoc_L (++)). f_equal.
    rewrite (assoc_L (++)).
    assert ((R - chunk_bytes cfg) mod chunk_bytes cfg = R mod chunk_bytes cfg)
      as ->.
    { replace R with ((R - chunk_bytes cfg) + 1 * chunk_bytes cfg) at 2 by lia.
      by rewrite Z.mod_add by lia. }
    f_equal.
    rewrite (frame_bytes_whole cfg sample_bytes whole_bytes), <- Hcb.
    rewrite Hb1, drop_0.
    rewrite take_store; [|rewrite length_take; lia..].
    rewrite take_take, Hi2, Hi1, Nat.min_id.
    rewrite take_take_drop. f_equal.
    replace R with ((R - chunk_bytes cfg) + chunk_size cfg * frame) at 2 by lia.
    rewrite Z.div_add by lia.
    assert (0 ≤ (R - chunk_bytes cfg) / frame) by (apply Z.div_pos; lia).
    nia.
Qed.

Lemma playback_go_limited (fuel : nat) (name : string) (count : Z) (s : state E F) :
  chunk_size cfg ≠ buffer_size cfg →
  in_aborting s = false →
  0 ≤ count ≤ Z.of_nat (length (st_input s)) →
  count / chunk_bytes cfg + chunk_bytes cfg + 2 < Z.of_nat fuel →
  ∃ s',
    playback_go ops fl cfg fuel 0 count name s = Ret tt s' ∧
    delivered s' =
      delivered s ++ take (Z.to_nat (count / frame * frame)) (st_input s) ++
      (if count mod chunk_bytes cfg =? 0 then []
       else concat (replicate
                      (Z.to_nat ((chunk_size cfg - count mod chunk_bytes cfg / frame)
                                 * channels cfg))
                      (silence_sample (format cfg)))).
Proof.
  intros Hperiod Habort Hcount Hfuel.
  pose proof (chunk_size_le_bytes cfg sample_bytes whole_bytes sample_bytes_pos
                channels_pos chunk_size_pos) as [_ Hsize].
  assert (0 ≤ count / chunk_bytes cfg) as Hn by (apply Z.div_pos; lia).
  unfold playback_go.
  assert (∃ s1, header cfg name s = Ret tt s1 ∧
                transfer_view s1 = transfer_view s) as (s1 & Hs1 & Hv1).
  { unfold header, when. destruct (negb (quiet_mode cfg)); eexists; by split. }
  erewrite bind_Ret by exact Hs1.
  unfold transfer_view in Hv1. simplify_eq.
  unfold set_params.
  destruct (Z.eqb_spec (chunk_size cfg) (buffer_size cfg)) as [?|_]; [done|].
  erewrite bind_Ret by reflexivity.
  set (s2 := set_audiobuf _ s1).
  destruct fuel as [|fuel]; [lia|].
  erewrite bind_Ret; cycle 1.
  { cbn [playback_loaded]. erewrite bind_Ret by reflexivity.
    destruct (Z.ltb_spec (chunk_bytes cfg) 0) as [?|_]; [lia|]. reflexivity. }
  cbn beta iota. rewrite Z.ltb_irrefl. cbn [andb when].
  erewrite bind_Ret by reflexivity.
  change (CInt.int32 0) with 0.
  assert (st_input s2 = st_input s) as Hi2 by (subst s2; simpl; done).
  assert (delivered s2 = delivered s) as Hd2 by (subst s2; simpl; done).
  destruct (playback_chunks_limited (Z.to_nat (count / chunk_bytes cfg)) (S fuel)
              name 0 count s2)
    as (s' & Hs' & Ha' & Hd').
  { subst s2. simpl. congruence. }
  { subst s2. simpl. rewrite length_resize. lia. }
  { lia. }
  { rewrite Z.sub_0_r. lia. }
  { rewrite Hi2. lia. }
  { lia. }
  cbn zeta in Hs', Hd'. rewrite Z.sub_0_r, Hi2, Hd2 in Hd'.
  erewrite bind_Ret by exact Hs'.
  erewrite bind_Ret by reflexivity.
  rewrite Ha'. eexists. split; [reflexivity|]. exact Hd'.
Qed.

(** [playback] of the standard input with [--samples]: the byte count
    that [calc_count] makes of the limit is played. *)
Lemma playback_samples_limited (fuel : nat) (s : state E F) :
  timelimit cfg = 0 →
  0 < sampleslimit cfg → sampleslimit cfg * channels cfg < 2 ^ 32 →
  chunk_size cfg ≠ buffer_size cfg →
  in_aborting s = false →
  sampleslimit cfg * frame ≤ Z.of_nat (length (st_input s)) →
  sampleslimit cfg / chunk_size cfg + chunk_bytes cfg + 2 < Z.of_nat fuel →
  ∃ s',
    playback ops fl cfg fuel None s = Ret tt s' ∧
    delivered s' =
      delivered s ++ take (Z.to_nat (sampleslimit cfg * frame)) (st_input s) ++
      (if sampleslimit cfg mod chunk_size cfg =? 0 then []
       else concat (replicate
                      (Z.to_nat ((chunk_size cfg - sampleslimit cfg mod chunk_size cfg)
                                 * channels cfg))
                      (silence_sample (format cfg)))).
Proof.
  intros Htime Hn Hmax Hperiod Habort Hinput Hfuel.
  pose proof (frame_pos cfg sample_bytes sample_bytes_pos channels_pos) as Hframe.
  pose proof (chunk_bytes_whole cfg sample_bytes whole_bytes) as Hcb.
  pose proof (chunk_size_le_bytes cfg sample_bytes whole_bytes sample_bytes_pos
                channels_pos chunk_size_pos) as [_ Hsize].
  set (n := sampleslimit cfg) in *.
  assert (snd_pcm_format_size (format cfg) (CInt.unsigned 32 (n * channels cfg))
          = n * frame) as Hsize_n.
  { unfold snd_pcm_format_size, CInt.unsigned. rewrite Z.mod_small by nia.
    rewrite whole_bytes.
    replace (n * channels cfg * (8 * sample_bytes)) with (n * frame * 8) by lia.
    rewrite Z.div_mul by lia. apply ssize_t_small.
    unfold CInt.SSIZE_MAX. split; [nia|].
    assert (sample_bytes < 2 ^ 28) by nia.
    assert (0 < n * channels cfg) by nia.
    nia. }
  assert (n * frame < CInt.LLONG_MAX) as Hlt.
  { unfold CInt.LLONG_MAX. assert (sample_bytes < 2 ^ 28) by nia.
    assert (0 < n * channels cfg) by nia. nia. }
  unfold playback, playback_raw, calc_count.
  rewrite Htime. fold n.
  destruct (Z.eqb_spec n 0) as [?|_]; [lia|].
  rewrite Hsize_n.
  cbv [bind get modify ret]. cbn [Z.eqb].
  cbn [pbrec_count set_fdcount set_pbrec_count].
  destruct (Z.ltb_spec (n * frame) CInt.LLONG_MAX) as [_|?]; [|lia].
  match goal with
  | |- ∃ s', match match playback_go _ _ _ _ _ _ _ ?s0 with _ => _ end with _ => _ end
             = _ ∧ _ =>
      set (s1 := s0)
  end.
  assert (n * frame / chunk_bytes cfg = n / chunk_size cfg) as Hdiv.
  { rewrite Hcb. apply Z.div_mul_cancel_r; lia. }
  assert (n * frame mod chunk_bytes cfg = n mod chunk_size cfg * frame) as Hmod.
  { rewrite Hcb. apply Z.mul_mod_distr_r; lia. }
  destruct (playback_go_limited fuel "stdin" (n * frame) s1)
    as (s' & Hs' & Hd'); [done|done| |lia|].
  { change (st_input s1) with (st_input s). nia. }
  change (st_input s1) with (st_input s) in Hd'.
  change (delivered s1) with (delivered s) in Hd'.
  rewrite Hs'. eexists. split; [reflexivity|].
  rewrite Hd', Hmod, !Z.div_mul by lia. do 2 f_equal.
  pose proof (Z.mod_pos_bound n (chunk_size cfg) chunk_size_pos).
  destruct (Z.eqb_spec (n mod chunk_size cfg) 0) as [->|?]; [done|].
  destruct (Z.eqb_spec (n mod chunk_size cfg * frame) 0) as [?|_]; [nia|done].
Qed.

End PlaybackLimit.

(** X2. With [--samples=n] and an input that holds the [n] frames, playback
    of the standard input gives the device the first [n] frames of the
    input and then silence up to the end of the chunk, or nothing more
    when [n] is a whole number of chunks: the bytes of the [n] frames
    rounded up to whole chunks.  The device reports no fault, no signal
    arrives and no [read] fails. *)
Theorem playback_stops_at_sample_limit {E F : Type} (ops : env_ops E)
    (fl : float_ops F) (cfg : config) (sample_bytes : Z) (fuel : nat)
    (s : state E F) :
  physical_width (format cfg) = 8 * sample_bytes → 0 < sample_bytes →
  0 < channels cfg → 0 < chunk_size cfg → chunk_bytes cfg * 8 < 2 ^ 31 →
  (∀ e buf n, 0 < n → 0 < (writei ops e buf n).1 ≤ n) →
  (∀ e, (signals ops e).1 = []) →
  (∀ e n avail, 0 < n → 0 < avail → 0 < (sys_read ops e n avail).1 ≤ Z.min n avail) →
  (∀ e n, 0 < n → (sys_read ops e n 0).1 = 0) →
  timelimit cfg = 0 →
  0 < sampleslimit cfg → sampleslimit cfg * channels cfg < 2 ^ 32 →
  chunk_size cfg ≠ buffer_size cfg →
  in_aborting s = false →
  sampleslimit cfg * (channels cfg * sample_bytes) ≤ Z.of_nat (length (st_input s)) →
  sampleslimit cfg / chunk_size cfg + chunk_bytes cfg + 2 < Z.of_nat fuel →
  ∃ s',
    playback ops fl cfg fuel None s = Ret tt s' ∧
    delivered s' =
      delivered s ++
      take (Z.to_nat (sampleslimit cfg * (channels cfg * sample_bytes))) (st_input s) ++
      (if sampleslimit cfg mod chunk_size cfg =? 0 then []
       else concat (replicate
                      (Z.to_nat ((chunk_size cfg - sampleslimit cfg mod chunk_size cfg)
                                 * channels cfg))
                      (silence_sample (format cfg)))) ∧
    Z.of_nat (length (delivered s')) =
      Z.of_nat (length (delivered s))
      + (sampleslimit cfg + chunk_size cfg - 1) / chunk_size cfg * chunk_bytes cfg.
Proof.
  intros Hwhole Hsb Hch Hcs Hbits Hfault Hsig Hread Heof Htime Hn Hmax Hperiod
    Habort Hinput Hfuel.
  destruct (playback_samples_limited ops fl cfg sample_bytes Hwhole Hsb Hch Hcs
              Hbits Hfault Hsig Hread Heof fuel s) as (s' & Hrun & Hd); try done.
  exists s'. split; [done|]. split; [done|].
  pose proof (frame_pos cfg sample_bytes Hsb Hch) as Hframe.
  pose proof (chunk_bytes_whole cfg sample_bytes Hwhole) as Hcb.
  set (n := sampleslimit cfg) in *.
  set (frame := channels cfg * sample_bytes) in *.
  pose proof (Z.mod_pos_bound n (chunk_size cfg) Hcs) as Hm.
  pose proof (Z.div_mod n (chunk_size cfg) ltac:(lia)) as Hdm.
  rewrite Hd, !length_app, length_take.
  assert (0 ≤ n / chunk_size cfg) by (apply Z.div_pos; lia).
  destruct (Z.eqb_spec (n mod chunk_size cfg) 0) as [H0|H0].
  - assert ((n + chunk_size cfg - 1) / chunk_size cfg = n / chunk_size cfg) as ->.
    { replace (n + chunk_size cfg - 1)
        with (n / chunk_size cfg * chunk_size cfg + (chunk_size cfg - 1)) by lia.
      rewrite Z.div_add_l by lia. rewrite (Z.div_small (chunk_size cfg - 1)); lia. }
    simpl. nia.
  - assert ((n + chunk_size cfg - 1) / chunk_size cfg = n / chunk_size cfg + 1) as ->.
    { replace (n + chunk_size cfg - 1)
        with ((n / chunk_size cfg + 1) * chunk_size cfg
              + (n mod chunk_size cfg - 1)) by lia.
      rewrite Z.div_add_l by lia.
      rewrite (Z.div_small (n mod chunk_size cfg - 1)); lia. }
    rewrite length_concat_replicate, length_silence_sample, Hwhole.
    replace (8 * sample_bytes) with (sample_bytes * 8) by lia.
    rewrite Z.div_mul by lia.
    assert (Z.of_nat (Z.to_nat ((chunk_size cfg - n mod chunk_size cfg) * channels cfg)
                      * Z.to_nat sample_bytes)
            = (chunk_size cfg - n mod chunk_size cfg) * frame) as Hpad
      by (unfold frame; nia).
    nia.
Qed.

(** Six frames of 8-bit mono out of eight, in chunks of four. *)
Lemma playback_stops_at_sample_limit_witness :
  ∃ s',
    playback Steady.ops Script.floats (play_samples Script.U8 1 4 6) 20 None
      (set_st_input [x01; x02; x03; x04; x05; x06; x07; x08]
         (Steady.initial (Steady.Env 3 1) []))
    = Ret tt s' ∧
    delivered s' = [x01; x02; x03; x04; x05; x06; x80; x80].
Proof.
  destruct (playback_stops_at_sample_limit Steady.ops Script.floats
              (play_samples Script.U8 1 4 6) 1 20
              (set_st_input [x01; x02; x03; x04; x05; x06; x07; x08]
                 (Steady.initial (Steady.Env 3 1) [])))
    as (s' & Hrun & Hdelivered & _).
  - reflexivity.
  - lia.
  - simpl; lia.
  - by vm_compute.
  - by vm_compute.
  - intros e buf n Hn. simpl. lia.
  - reflexivity.
  - intros e n avail Hn Havail. simpl. lia.
  - intros e n Hn. simpl. lia.
  - reflexivity.
  - by vm_compute.
  - by vm_compute.
  - by vm_compute.
  - reflexivity.
  - by vm_compute.
  - by vm_compute.
  - exists s'. split; [exact Hrun|exact Hdelivered].
Defined.

(** ** [safe_read] and [pcm_write] in full *)

(** X4. [safe_read] makes up for short reads: when no [read] fails and no
    signal arrives, it returns the smaller of [count] and the number of
    bytes the input still holds, having taken that many bytes from the
    input and put them, in order, at [buf]. *)
Theorem safe_read_reads_count_or_rest {E F : Type} (ops : env_ops E)
    (cfg : config) (fuel : nat) (buf count : Z) (s : state E F) :
  (∀ e, (signals ops e).1 = []) →
  (∀ e n avail, 0 < n → 0 < avail → 0 < (sys_read ops e n avail).1 ≤ Z.min n avail) →
  (∀ e n, 0 < n → (sys_read ops e n 0).1 = 0) →
  in_aborting s = false →
  0 ≤ count ≤ Z.of_nat fuel → count < 2 ^ 64 →
  0 ≤ buf → buf + count ≤ Z.of_nat (length (audiobuf s)) →
  ∃ s',
    safe_read ops cfg fuel buf count s
      = Ret (Z.min count (Z.of_nat (length (st_input s)))) s' ∧
    st_input s'
      = drop (Z.to_nat (Z.min count (Z.of_nat (length (st_input s))))) (st_input s) ∧
    audiobuf s'
      = store (audiobuf s) (Z.to_nat buf)
          (take (Z.to_nat (Z.min count (Z.of_nat (length (st_input s))))) (st_input s)).
Proof.
  intros Hsig Hread Heof Habort Hcount Hmax Hbuf Hlen.
  destruct (safe_read_loop_reads ops cfg Hsig Hread Heof fuel buf count 0 s)
    as (s' & Hrun & _ & _ & Hinput & Hstore); [done..|].
  cbn zeta in Hrun. rewrite Z.add_0_l, Z2Nat.id in Hrun by lia.
  by exists s'.
Qed.

(** Five bytes asked of an input that gives three bytes to a [read] and
    holds four. *)
Lemma safe_read_reads_count_or_rest_witness :
  ∃ s',
    safe_read Steady.ops (Script.play Script.U8 1 4) 8 1 5
      (set_st_input [x01; x02; x03; x04]
         (Steady.initial (Steady.Env 3 1) (replicate 8 x00)))
    = Ret 4 s' ∧
    st_input s' = [] ∧
    audiobuf s' = [x00; x01; x02; x03; x04; x00; x00; x00].
Proof.
  destruct (safe_read_reads_count_or_rest Steady.ops (Script.play Script.U8 1 4)
              8 1 5
              (set_st_input [x01; x02; x03; x04]
                 (Steady.initial (Steady.Env 3 1) (replicate 8 x00))))
    as (s' & Hrun & Hinput & Hbuf).
  - reflexivity.
  - intros e n avail Hn Havail. simpl. lia.
  - intros e n Hn. simpl. lia.
  - reflexivity.
  - lia.
  - lia.
  - lia.
  - simpl. lia.
  - exists s'. split; [exact Hrun|]. split; [exact Hinput|exact Hbuf].
Defined.

(** X5. [pcm_write] of a whole chunk on a device that reports no fault: the
    device gets the [chunk_bytes] bytes at [data], in order and without
    padding, in however many pieces it takes them; the value is
    [chunk_size] and the buffer is left as it was. *)
Theorem pcm_write_of_whole_chunk {E F : Type} (ops : env_ops E)
    (fl : float_ops F) (cfg : config) (sample_bytes : Z) (fuel : nat)
    (data : Z) (s : state E F) :
  physical_width (format cfg) = 8 * sample_bytes → 0 < sample_bytes →
  0 < channels cfg →
  (∀ e buf n, 0 < n → 0 < (writei ops e buf n).1 ≤ n) →
  (∀ e, (signals ops e).1 = []) →
  in_aborting s = false →
  0 ≤ chunk_size cfg ≤ Z.of_nat fuel → chunk_size cfg < 2 ^ 64 →
  0 ≤ data → data + chunk_bytes cfg ≤ Z.of_nat (length (audiobuf s)) →
  ∃ s',
    pcm_write ops fl cfg fuel data (chunk_size cfg) s = Ret (chunk_size cfg) s' ∧
    audiobuf s' = audiobuf s ∧
    delivered s' =
      delivered s ++
      take (Z.to_nat (chunk_bytes cfg)) (drop (Z.to_nat data) (audiobuf s)).
Proof.
  intros Hwhole Hsb Hch Hfault Hsig Habort Hsize Hmax Hdata Hroom.
  unfold pcm_write. rewrite Z.ltb_irrefl.
  erewrite bind_Ret by reflexivity.
  destruct (pcm_write_loop_delivers ops fl cfg sample_bytes Hwhole Hsb Hch Hfault
              Hsig fuel data (chunk_size cfg) 0 s)
    as (s' & Hrun & _ & Hbuf & _ & Hdel); [done..|].
  exists s'. by rewrite Hrun.
Qed.

(** A chunk of four frames on a device that takes three frames at a
    time. *)
Lemma pcm_write_of_whole_chunk_witness :
  ∃ s',
    pcm_write Steady.ops Script.floats (Script.play Script.U8 1 4) 4 0 4
      (Steady.initial (Steady.Env 3 1) [x01; x02; x03; x04])
    = Ret 4 s' ∧
    audiobuf s' = [x01; x02; x03; x04] ∧
    delivered s' = [x01; x02; x03; x04].
Proof.
  destruct (pcm_write_of_whole_chunk Steady.ops Script.floats
              (Script.play Script.U8 1 4) 1 4 0
              (Steady.initial (Steady.Env 3 1) [x01; x02; x03; x04]))
    as (s' & Hrun & Hbuf & Hdelivered).
  - reflexivity.
  - lia.
  - simpl; lia.
  - intros e buf n Hn. simpl. lia.
  - reflexivity.
  - reflexivity.
  - by vm_compute.
  - by vm_compute.
  - lia.
  - by vm_compute.
  - exists s'. split; [exact Hrun|]. split; [exact Hbuf|exact Hdelivered].
Defined.

(** ** A whole run *)

(** X1. Playing the standard input to its end.  Without a limit, without a
    signal or a fault of the device, and with an input that is read
    without error, [main] gives the device the whole frames of the input
    and then silence up to the end of a chunk (a whole chunk of silence
    when the input ends with a chunk), closes the device and ends with
    the exit status 0. *)
Theorem main_plays_standard_input {E F : Type} (ops : env_ops E)
    (fl : float_ops F) (cfg : config) (sample_bytes : Z) (fuel : nat)
    (s : state E F) :
  physical_width (format cfg) = 8 * sample_bytes → 0 < sample_bytes →
  0 < channels cfg → 0 < chunk_size cfg → chunk_bytes cfg * 8 < 2 ^ 31 →
  (∀ e buf n, 0 < n → 0 < (writei ops e buf n).1 ≤ n) →
  (∀ e, (signals ops e).1 = []) →
  (∀ e n avail, 0 < n → 0 < avail → 0 < (sys_read ops e n avail).1 ≤ Z.min n avail) →
  (∀ e n, 0 < n → (sys_read ops e n 0).1 = 0) →
  stream cfg = SND_PCM_STREAM_PLAYBACK → interleaved cfg = true →
  timelimit cfg = 0 → sampleslimit cfg = 0 →
  chunk_size cfg ≠ buffer_size cfg →
  in_aborting s = false →
  Z.of_nat (length (st_input s)) + chunk_bytes cfg ≤ CInt.LLONG_MAX →
  Z.of_nat (length (st_input s)) / chunk_bytes cfg + chunk_bytes cfg + 2
    < Z.of_nat fuel →
  ∃ s' calls,
    let L := Z.of_nat (length (st_input s)) in
    let frame := channels cfg * sample_bytes in
    main ops fl cfg fuel [] s = Exit EXIT_SUCCESS s' ∧
    delivered s' =
      delivered s ++ take (Z.to_nat (L / frame * frame)) (st_input s) ++
      concat (replicate
                (Z.to_nat ((chunk_size cfg - L mod chunk_bytes cfg / frame)
                           * channels cfg))
                (silence_sample (format cfg))) ∧
    pcm_log s' = calls ++ [Pcm_close].
Proof.
  intros Hwhole Hsb Hch Hcs Hbits Hfault Hsig Hread Heof Hstream Hinter Htime Hsamples
    Hperiod Habort Hcount Hfuel.
  unfold main. rewrite Hinter.
  destruct (decide (stream cfg = SND_PCM_STREAM_PLAYBACK)) as [_|?]; [|done].
  set (s0 := match pidfile_name cfg with
             | Some name => set_pidfile_written true
                              (set_st_fs (<[name := []]> (st_fs s)) s)
             | None => s
             end).
  assert ((match pidfile_name cfg with
           | Some name =>
               modify (λ s, set_pidfile_written true
                              (set_st_fs (<[name := []]> (st_fs s)) s))
           | None => ret tt
           end) s = Ret tt s0) as Hpid.
  { unfold s0. by destruct (pidfile_name cfg). }
  assert (in_aborting s0 = false ∧ st_input s0 = st_input s ∧
          delivered s0 = delivered s) as (Ha0 & Hi0 & Hd0).
  { unfold s0. destruct (pidfile_name cfg); simpl; done. }
  erewrite bind_Ret by exact Hpid.
  erewrite bind_Ret by reflexivity.
  set (s1 := set_sig_dfl [] s0).
  destruct (playback_delivers_input_then_silence ops fl cfg sample_bytes Hwhole Hsb Hch
              Hcs Hbits Hfault Hsig Hread Heof fuel s1)
    as (s2 & Hrun & Hdelivered & _); try done.
  { subst s1. simpl. by rewrite Hi0. }
  { subst s1. simpl. by rewrite Hi0. }
  cbv zeta in Hrun, Hdelivered.
  erewrite bind_Ret by exact Hrun.
  assert (delivered s2
          = delivered s ++
            take (Z.to_nat (Z.of_nat (length (st_input s))
                            / (channels cfg * sample_bytes)
                            * (channels cfg * sample_bytes))) (st_input s) ++
            concat (replicate
                      (Z.to_nat ((chunk_size cfg
                                  - Z.of_nat (length (st_input s)) mod chunk_bytes cfg
                                    / (channels cfg * sample_bytes))
                                 * channels cfg))
                      (silence_sample (format cfg)))) as Hd2.
  { rewrite Hdelivered. subst s1. simpl. by rewrite Hi0, Hd0. }
  unfold when, putchar, pcm, prg_exit.
  cbv [bind modify ret].
  destruct (verbose cfg =? 2), (pidfile_written s2), (pidfile_name cfg); simpl.
  all: eexists _, (pcm_log s2); split; [reflexivity|]; simpl.
  all: destruct (pidfile_written s2); simpl; by split.
Qed.

(** An example: six bytes of 8-bit mono in chunks of four. *)
Lemma main_plays_standard_input_witness :
  ∃ s' calls,
    main Steady.ops Script.floats (Script.play Script.U8 1 4) 20 []
      (set_st_input [x01; x02; x03; x04; x05; x06] (Steady.initial (Steady.Env 3 1) []))
    = Exit EXIT_SUCCESS s' ∧
    delivered s' = [x01; x02; x03; x04; x05; x06; x80; x80] ∧
    pcm_log s' = calls ++ [Pcm_close].
Proof.
  destruct (main_plays_standard_input Steady.ops Script.floats
              (Script.play Script.U8 1 4) 1 20
              (set_st_input [x01; x02; x03; x04; x05; x06]
                 (Steady.initial (Steady.Env 3 1) [])))
    as (s' & calls & Hrun & Hdelivered & Hlog).
  - reflexivity.
  - lia.
  - simpl; lia.
  - simpl; lia.
  - by vm_compute.
  - intros e buf n Hn. simpl. lia.
  - reflexivity.
  - intros e n avail Hn Havail. simpl. lia.
  - intros e n Hn. simpl. lia.
  - reflexivity.
  - reflexivity.
  - reflexivity.
  - reflexivity.
  - by vm_compute.
  - reflexivity.
  - by vm_compute.
  - by vm_compute.
  - exists s', calls. split; [exact Hrun|]. split; [exact Hdelivered|exact Hlog].
Defined.

(** ** The extension of a file name *)

Lemma get_app_l (s1 s2 : string) (i : nat) :
  (i < String.length s1)%nat → String.get i (s1 +:+ s2) = String.get i s1.
Proof.
  revert i. induction s1 as [|c s1 IH]; intros i Hi; [simpl in Hi; lia|].
  change (String c s1 +:+ s2)%string with (String c (s1 +:+ s2)).
  destruct i as [|i]; [done|]. simpl. apply IH. simpl in Hi. lia.
Qed.

Lemma get_app_r (s1 s2 : string) (i : nat) :
  String.get (String.length s1 + i) (s1 +:+ s2) = String.get i s2.
Proof.
  induction s1 as [|c s1 IH]; [done|].
  change (String c s1 +:+ s2)%string with (String c (s1 +:+ s2)). simpl. apply IH.
Qed.

Lemma get_beyond (s : string) (i : nat) :
  (String.length s ≤ i)%nat → String.get i s = None.
Proof.
  revert i. induction s as [|c s IH]; intros i Hi; [by destruct i|].
  destruct i as [|i]; simpl in *; [lia|]. apply IH. lia.
Qed.

Lemma get_plain (s : string) (i : nat) (c : ascii) :
  plain s = true → String.get i s = Some c → plain_char c = true.
Proof.
  revert i. induction s as [|c' s IH]; intros i Hs Hget; [by destruct i|].
  simpl in Hs. apply andb_true_iff in Hs as [Hc Hs].
  destruct i as [|i]; simpl in Hget; [by simplify_eq|]. by eapply IH.
Qed.

Lemma substring_app_l (s1 s2 : string) :
  String.substring 0 (String.length s1) (s1 +:+ s2) = s1.
Proof.
  induction s1 as [|c s1 IH]; [by destruct s2|].
  change (String c s1 +:+ s2)%string with (String c (s1 +:+ s2)). simpl. by rewrite IH.
Qed.

Lemma substring_app_r (s1 s2 : string) (i m : nat) :
  String.substring (String.length s1 + i) m (s1 +:+ s2) = String.substring i m s2.
Proof.
  induction s1 as [|c s1 IH]; [done|].
  change (String c s1 +:+ s2)%string with (String c (s1 +:+ s2)). simpl. apply IH.
Qed.

(** One step of the backward scan. *)
Lemma scan_extension_pass (buf : string) (j : nat) :
  (∀ c, String.get (S j) buf = Some c → plain_char c = true) →
  scan_extension buf (S j) = scan_extension buf j.
Proof.
  intros Hplain. cbn [scan_extension].
  destruct (String.get (S j) buf) as [c|]; [|done].
  specialize (Hplain c eq_refl).
  destruct c as [[] [] [] [] [] [] [] []]; try done.
Qed.

Lemma scan_extension_stop (buf : string) (i : nat) (c : ascii) :
  String.get i buf = Some c → plain_char c = false → scan_extension buf i = i.
Proof.
  intros Hget Hc. destruct i as [|j]; [done|]. cbn [scan_extension].
  rewrite Hget.
  destruct c as [[] [] [] [] [] [] [] []]; try done.
Qed.

(** The scan passes over a text without dot and slash at the end of the
    name. *)
Lemma scan_extension_suffix (pre suf : string) (k : nat) :
  plain suf = true → (k ≤ String.length suf)%nat →
  scan_extension (pre +:+ suf) (String.length pre + k)
  = scan_extension (pre +:+ suf) (String.length pre - 1).
Proof.
  intros Hsuf. induction k as [|k IH]; intros Hk.
  - rewrite Nat.add_0_r. destruct (String.length pre) as [|m] eqn:Hm; [done|].
    rewrite scan_extension_pass; [f_equal; lia|].
    intros c Hget. rewrite <- Hm, <- (Nat.add_0_r (String.length pre)) in Hget.
    rewrite get_app_r in Hget. by eapply get_plain.
  - rewrite Nat.add_succ_r, scan_extension_pass; [apply IH; lia|].
    intros c Hget. rewrite <- Nat.add_succ_r, get_app_r in Hget.
    by eapply get_plain.
Qed.

Lemma scan_extension_plain (name : string) (k : nat) :
  plain name = true → (k ≤ String.length name)%nat → scan_extension name k = 0%nat.
Proof.
  intros Hname. induction k as [|k IH]; intros Hk; [done|].
  rewrite scan_extension_pass; [apply IH; lia|].
  intros c Hget. by eapply get_plain.
Qed.

Lemma scan_extension_mark (base ext : string) (c : ascii) :
  plain ext = true → plain_char c = false →
  scan_extension (base +:+ String c ext) (String.length (base +:+ String c ext))
  = String.length base.
Proof.
  intros Hext Hc.
  assert (base +:+ String c ext = (base +:+ String c "") +:+ ext)%string as Heq.
  { by rewrite append_assoc. }
  rewrite Heq at 1. rewrite Heq at 1.
  rewrite (string_length_app (base +:+ String c "")).
  rewrite scan_extension_suffix by (done || lia).
  rewrite string_length_app. simpl.
  replace (String.length base + 1 - 1)%nat with (String.length base) by lia.
  rewrite <- Heq.
  apply (scan_extension_stop _ _ c); [|done].
  by rewrite <- (Nat.add_0_r (String.length base)), get_app_r.
Qed.

Lemma split_extension_dot (base ext : string) :
  plain ext = true → split_extension (base +:+ "." +:+ ext) = (base, ext).
Proof.
  intros Hext. unfold split_extension.
  change ("." +:+ ext)%string with (String "." ext).
  rewrite scan_extension_mark by done.
  rewrite <- (Nat.add_0_r (String.length base)) at 1.
  rewrite get_app_r. simpl.
  rewrite substring_app_l. f_equal.
  replace (S (String.length base)) with (String.length base + 1)%nat by lia.
  rewrite substring_app_r. simpl.
  rewrite string_length_app. simpl. apply substring_all. lia.
Qed.

Lemma split_extension_slash (base ext : string) :
  plain ext = true →
  split_extension (base +:+ "/" +:+ ext) = ((base +:+ "/" +:+ ext)%string, EmptyString).
Proof.
  intros Hext. unfold split_extension.
  change ("/" +:+ ext)%string with (String "/" ext).
  rewrite scan_extension_mark by done.
  rewrite <- (Nat.add_0_r (String.length base)) at 1.
  by rewrite get_app_r.
Qed.

Lemma split_extension_plain (name : string) :
  plain name = true → split_extension name = (name, name).
Proof.
  intros Hname. unfold split_extension.
  rewrite scan_extension_plain by (done || lia).
  rewrite Nat.sub_0_r, substring_all by lia.
  destruct name as [|c name]; [done|]. simpl in Hname |- *.
  apply andb_true_iff in Hname as [Hc _].
  destruct c as [[] [] [] [] [] [] [] []]; try done.
Qed.

(** X12. The extension that [new_capture_file] finds in a name.  In
    [base.ext], where [ext] has no dot and no slash, it is [ext]; after a
    directory, a file name without a dot has none; and a name without any
    dot or slash is taken whole as its own extension. *)
Theorem split_extension_cases (base ext : string) :
  plain ext = true →
  split_extension (base +:+ "." +:+ ext) = (base, ext) ∧
  split_extension (base +:+ "/" +:+ ext) = ((base +:+ "/" +:+ ext)%string, EmptyString) ∧
  split_extension ext = (ext, ext).
Proof.
  intros Hext. split; [|split].
  - by apply split_extension_dot.
  - by apply split_extension_slash.
  - by apply split_extension_plain.
Qed.

(** An example: [take.1.raw], [out/take] and [take]. *)
Lemma split_extension_cases_witness :
  split_extension "take.1.raw" = ("take.1", "raw")%string ∧
  split_extension "out/take" = ("out/take", "")%string ∧
  split_extension "take" = ("take", "take")%string.
Proof.
  destruct (split_extension_cases "take.1" "raw" eq_refl) as (H1 & _ & _).
  destruct (split_extension_cases "out" "take" eq_refl) as (_ & H2 & H3).
  split; [exact H1|]. split; [exact H2|exact H3].
Defined.

(** ** Numbered capture files *)

Section CounterNamesOfAnyFile.
Context {E F : Type} (ops : env_ops E) (cfg : config).
Hypothesis counter_mode : use_strftime cfg = false.

Lemma name_copy (name : string) :
  (String.length name ≤ 4085)%nat →
  String.substring 0 (Z.to_nat (PATH_MAX - 10 - 1)) name = name.
Proof. intros Hlen. apply substring_all. change (Z.to_nat (PATH_MAX - 10 - 1)) with 4085%nat. lia. Qed.

Lemma snprintf_fits (text : string) :
  (String.length text ≤ 4097)%nat → snprintf (PATH_MAX + 2) text = text.
Proof.
  intros Hlen. apply substring_all.
  change (Z.to_nat (PATH_MAX + 2 - 1)) with 4097%nat. lia.
Qed.

(** What [new_capture_file] does with the two parts of the name, when
    the second is not empty and both are short enough. *)
Lemma new_capture_file_parts (name b e : string) (k : Z) (s : state E F) :
  (String.length name ≤ 4085)%nat →
  split_extension name = (b, e) → e ≠ EmptyString →
  (String.length b + String.length e ≤ 4063)%nat →
  (String.length name ≤ String.length b + String.length e + 1)%nat →
  0 ≤ k < 2 ^ 31 →
  new_capture_file ops cfg name (PATH_MAX + 2) k s
  = if k =? 1 then
      Ret (2, b +:+ "-" +:+ "02" +:+ "." +:+ e)%string
        (match st_fs s !! name with
         | Some content =>
             set_st_fs (<[(b +:+ "-" +:+ "01" +:+ "." +:+ e)%string := content]>
                          (delete name
                             (delete (b +:+ "-" +:+ "01" +:+ "." +:+ e)%string (st_fs s)))) s
         | None => set_st_fs (delete (b +:+ "-" +:+ "01" +:+ "." +:+ e)%string (st_fs s)) s
         end)
    else Ret (k, b +:+ "-" +:+ sprintf_02d k +:+ "." +:+ e)%string s.
Proof.
  intros Hname Hsplit He Hlen Hshort Hk. unfold new_capture_file.
  rewrite counter_mode, name_copy, Hsplit by done.
  assert (String.eqb e EmptyString = false) as ->.
  { by apply String.eqb_neq. }
  assert (∀ n, (String.length n ≤ 32)%nat →
    snprintf (PATH_MAX + 2) (b +:+ "-" +:+ n +:+ "." +:+ e)
    = (b +:+ "-" +:+ n +:+ "." +:+ e)%string) as Hfit.
  { intros n Hn. apply snprintf_fits. rewrite !string_length_app. simpl. lia. }
  destruct (Z.eqb_spec k 1) as [->|Hk1].
  - unfold bind, ret, fs_remove, fs_rename, modify. cbn [st_fs set_st_fs].
    rewrite (Hfit "01"%string) by (simpl; lia).
    rewrite (Hfit (sprintf_02d 2))
      by (apply sprintf_02d_length; split; [lia|reflexivity]).
    change (sprintf_02d 2) with "02"%string.
    destruct (decide ((b +:+ "-" +:+ "01" +:+ "." +:+ e)%string = name)) as [Heq|Hne].
    + exfalso. apply (f_equal String.length) in Heq.
      rewrite !string_length_app in Heq. simpl in Heq. lia.
    + rewrite lookup_delete_ne by done.
      by destruct (st_fs s !! name).
  - unfold bind, ret. by rewrite Hfit by by apply sprintf_02d_length.
Qed.

(** X13. Recording to [base.ext] without a time format in the name: the first rotation removes [base-01.ext], gives
    that name to the file [base.ext] written so far, and goes on in
    [base-02.ext]; every later rotation only names the next file,
    [base-NN.ext] with the count in two digits or more, and leaves the
    files alone. *)
Theorem new_capture_file_numbers_the_name (base ext : string) (k : Z) (s : state E F) :
  plain ext = true → ext ≠ EmptyString →
  (String.length base + String.length ext ≤ 4063)%nat →
  0 ≤ k < 2 ^ 31 →
  new_capture_file ops cfg (base +:+ "." +:+ ext) (PATH_MAX + 2) k s
  = if k =? 1 then
      Ret (2, base +:+ "-02." +:+ ext)%string
        (match st_fs s !! (base +:+ "." +:+ ext)%string with
         | Some content =>
             set_st_fs (<[(base +:+ "-01." +:+ ext)%string := content]>
                          (delete (base +:+ "." +:+ ext)%string
                             (delete (base +:+ "-01." +:+ ext)%string (st_fs s)))) s
         | None => set_st_fs (delete (base +:+ "-01." +:+ ext)%string (st_fs s)) s
         end)
    else Ret (k, base +:+ "-" +:+ sprintf_02d k +:+ "." +:+ ext)%string s.
Proof.
  intros Hext He Hlen Hk.
  rewrite (new_capture_file_parts _ base ext k s); try done.
  - rewrite !string_length_app. simpl. lia.
  - by apply split_extension_dot.
  - rewrite !string_length_app. simpl. lia.
Qed.



End CounterNamesOfAnyFile.

(** An example: the seventh file of [take.1.raw], and the first rotation
    of a recording that has written one byte. *)
Lemma new_capture_file_numbers_the_name_witness :
  new_capture_file Script.ops (Script.record Script.U8 1 4) "take.1.raw" (PATH_MAX + 2) 7
    (Script.initial (Script.quiet 1 x00) ∅ [])
  = Ret (7, "take.1-07.raw"%string) (Script.initial (Script.quiet 1 x00) ∅ []) ∧
  new_capture_file Script.ops (Script.record Script.U8 1 4) "take.1.raw" (PATH_MAX + 2) 1
    (Script.initial (Script.quiet 1 x00) {[ "take.1.raw"%string := [x01] ]} [])
  = Ret (2, "take.1-02.raw"%string)
      (set_st_fs
         (<["take.1-01.raw"%string := [x01]]>
            (delete "take.1.raw"%string
               (delete "take.1-01.raw"%string {[ "take.1.raw"%string := [x01] ]})))
         (Script.initial (Script.quiet 1 x00) {[ "take.1.raw"%string := [x01] ]} [])).
Proof.
  split.
  - apply (new_capture_file_numbers_the_name Script.ops (Script.record Script.U8 1 4)
             eq_refl "take.1" "raw" 7 (Script.initial (Script.quiet 1 x00) ∅ []));
      [reflexivity|discriminate|simpl; lia|split; [lia|reflexivity]].
  - etrans.
    + apply (new_capture_file_numbers_the_name Script.ops (Script.record Script.U8 1 4)
               eq_refl "take.1" "raw" 1
               (Script.initial (Script.quiet 1 x00) {[ "take.1.raw"%string := [x01] ]} []));
        [reflexivity|discriminate|simpl; lia|split; [lia|reflexivity]].
    + reflexivity.
Defined.



(** ** Silence under the peak meter *)

Lemma byte_val_of_Z (z : Z) : byte_val (byte_of_Z z) = z mod 256.
Proof.
  unfold byte_val, byte_of_Z.
  pose proof (Z.mod_pos_bound z 256 ltac:(lia)) as Hz.
  destruct (Byte.of_N (Z.to_N (z mod 256))) as [b|] eqn:Hb.
  - apply Byte.to_of_N in Hb. simpl. rewrite Hb. lia.
  - apply Byte.of_N_None_iff in Hb. lia.
Qed.

Lemma lxor_signed_same (w x : Z) : Z.lxor (CInt.signed w x) (CInt.signed w x) = 0.
Proof. apply Z.lxor_nilpotent. Qed.

Lemma low_bytes_2 (x : Z) :
  x mod 256 + 256 * (Z.shiftr x 8 mod 256) = x mod 65536.
Proof.
  rewrite Z.shiftr_div_pow2 by lia. change (2 ^ 8) with 256.
  pose proof (Z.div_mod x 256 ltac:(lia)).
  pose proof (Z.div_mod (x / 256) 256 ltac:(lia)).
  pose proof (Z.mod_pos_bound x 256 ltac:(lia)).
  pose proof (Z.mod_pos_bound (x / 256) 256 ltac:(lia)).
  apply (Z.mod_unique_pos _ _ (x / 256 / 256)); lia.
Qed.

Lemma low_bytes_3 (x : Z) :
  x mod 256 + 256 * (Z.shiftr x 8 mod 256) + 65536 * (Z.shiftr x 16 mod 256)
  = x mod 16777216.
Proof.
  rewrite !Z.shiftr_div_pow2 by lia. change (2 ^ 8) with 256. change (2 ^ 16) with 65536.
  replace (x / 65536) with (x / 256 / 256) by (rewrite Z.div_div by lia; done).
  pose proof (Z.div_mod x 256 ltac:(lia)).
  pose proof (Z.div_mod (x / 256) 256 ltac:(lia)).
  pose proof (Z.div_mod (x / 256 / 256) 256 ltac:(lia)).
  pose proof (Z.mod_pos_bound x 256 ltac:(lia)).
  pose proof (Z.mod_pos_bound (x / 256) 256 ltac:(lia)).
  pose proof (Z.mod_pos_bound (x / 256 / 256) 256 ltac:(lia)).
  apply (Z.mod_unique_pos _ _ (x / 256 / 256 / 256)); lia.
Qed.

Lemma low_bytes_4 (x : Z) :
  x mod 256 + 256 * (Z.shiftr x 8 mod 256) + 65536 * (Z.shiftr x 16 mod 256)
  + 16777216 * (Z.shiftr x 24 mod 256)
  = x mod 4294967296.
Proof.
  rewrite !Z.shiftr_div_pow2 by lia. change (2 ^ 8) with 256. change (2 ^ 16) with 65536.
  change (2 ^ 24) with 16777216.
  replace (x / 65536) with (x / 256 / 256) by (rewrite Z.div_div by lia; done).
  replace (x / 16777216) with (x / 256 / 256 / 256) by (rewrite !Z.div_div by lia; done).
  pose proof (Z.div_mod x 256 ltac:(lia)).
  pose proof (Z.div_mod (x / 256) 256 ltac:(lia)).
  pose proof (Z.div_mod (x / 256 / 256) 256 ltac:(lia)).
  pose proof (Z.div_mod (x / 256 / 256 / 256) 256 ltac:(lia)).
  pose proof (Z.mod_pos_bound x 256 ltac:(lia)).
  pose proof (Z.mod_pos_bound (x / 256) 256 ltac:(lia)).
  pose proof (Z.mod_pos_bound (x / 256 / 256) 256 ltac:(lia)).
  pose proof (Z.mod_pos_bound (x / 256 / 256 / 256) 256 ltac:(lia)).
  apply (Z.mod_unique_pos _ _ (x / 256 / 256 / 256 / 256)); lia.
Qed.

(** Bytes put side by side with [|] and [<<] add up. *)
Lemma lor_shiftl_add (a b k : Z) :
  0 ≤ k → 0 ≤ a < 2 ^ k → Z.lor a (Z.shiftl b k) = a + 2 ^ k * b.
Proof.
  intros Hk Ha.
  assert (Z.land a (Z.shiftl b k) = 0) as Hland.
  { apply Z.bits_inj'. intros n Hn. rewrite Z.land_spec, Z.bits_0.
    destruct (Z.lt_ge_cases n k) as [Hlt|Hge].
    - rewrite Z.shiftl_spec_low by done. apply andb_false_r.
    - rewrite <- (Z.mod_small a (2 ^ k)) by done.
      rewrite Z.mod_pow2_bits_high by lia. done. }
  rewrite <- Z.lxor_lor, <- Z.add_nocarry_lxor by done.
  rewrite Z.shiftl_mul_pow2 by done. lia.
Qed.

Lemma lor_bytes_3 (a b c : Z) :
  0 ≤ a < 256 → 0 ≤ b < 256 → 0 ≤ c < 256 →
  Z.lor (Z.lor a (Z.shiftl b 8)) (Z.shiftl c 16) = a + 256 * b + 65536 * c.
Proof.
  intros Ha Hb Hc.
  rewrite (lor_shiftl_add a b 8) by (change (2 ^ 8) with 256; lia).
  rewrite lor_shiftl_add by (change (2 ^ 8) with 256; change (2 ^ 16) with 65536; lia).
  done.
Qed.

Section SilenceUnderTheMeter.
Variable f : pcm_format.
Hypothesis physical : physical_width f = 8 ∨ physical_width f = 16 ∨
                      physical_width f = 24 ∨ physical_width f = 32.
Hypothesis host_order : little_endian f = true ∨ silence_64 f = 0.
Hypothesis packed : physical_width f = 24 → CInt.unsigned 32 (silence_64 f) < 2 ^ 24.

(** The decoder reads one sample off the front of the buffer. *)
Lemma decoder_front (sample : list byte → option (Z * list byte)) (data : list byte) :
  Peak.decoder f = Some sample →
  physical_width f / 8 ≤ Z.of_nat (length data) →
  ∃ val data',
    Z.of_nat (length data') = Z.of_nat (length data) - physical_width f / 8 ∧
    ∀ rest, sample (data ++ rest) = Some (val, data' ++ rest).
Proof.
  unfold Peak.decoder. intros Hdec Hlen.
  repeat case_match; simplify_eq;
    repeat match goal with H : (_ =? _) = true |- _ => apply Z.eqb_eq in H end.
  - replace (physical_width f / 8) with 1 in * by (by rewrite H).
    destruct data as [|b0 data]; simpl in *; [lia|].
    do 2 eexists. split; [|done]. lia.
  - replace (physical_width f / 8) with 2 in * by (by rewrite H0).
    destruct data as [|b0 [|b1 data]]; simpl in *; try lia.
    do 2 eexists. split; [|done]. lia.
  - replace (physical_width f / 8) with 3 in * by (by rewrite H1).
    destruct data as [|b0 [|b1 [|b2 data]]]; simpl in *; try lia.
    do 2 eexists. split; [|done]. lia.
  - replace (physical_width f / 8) with 4 in * by (by rewrite H2).
    destruct data as [|b0 [|b1 [|b2 [|b3 data]]]]; simpl in *; try lia.
    do 2 eexists. split; [|done]. lia.
Qed.

(** A silent sample has the amplitude 0. *)
Lemma decoder_silence (sample : list byte → option (Z * list byte)) (rest : list byte) :
  Peak.decoder f = Some sample →
  sample (silence_sample f ++ rest) = Some (0, rest).
Proof.
  unfold Peak.decoder, silence_sample. intros Hdec.
  repeat case_match; simplify_eq;
    repeat match goal with H : (_ =? _) = true |- _ => apply Z.eqb_eq in H end.
  - rewrite H. change (Z.to_nat (8 / 8)) with 1%nat. cbn [seq map app].
    unfold Peak.sample8. rewrite byte_val_of_Z, Z.shiftr_0_r.
    unfold snd_pcm_format_silence, CInt.unsigned. change (2 ^ 8) with 256.
    by rewrite Z.lxor_nilpotent.
  - rewrite H0. change (Z.to_nat (16 / 8)) with 2%nat. cbn [seq map app].
    unfold Peak.sample16. rewrite !byte_val_of_Z, Z.shiftr_0_r.
    unfold snd_pcm_format_silence_16, CInt.unsigned. change (2 ^ 16) with 65536.
    destruct host_order as [->| ->].
    + change (8 * Z.of_nat 1) with 8. rewrite low_bytes_2.
      by rewrite Z.lxor_nilpotent.
    + by destruct (little_endian f).
  - rewrite H1. change (Z.to_nat (24 / 8)) with 3%nat. cbn [seq map app].
    unfold Peak.sample24. rewrite !byte_val_of_Z, Z.shiftr_0_r.
    specialize (packed H1). revert packed.
    unfold snd_pcm_format_silence_32, CInt.unsigned.
    change (2 ^ 32) with 4294967296. change (2 ^ 24) with 16777216. intros Hpacked.
    pose proof (Z.mod_pos_bound (silence_64 f) 4294967296 ltac:(lia)) as Hpos.
    destruct host_order as [->| Hzero].
    + change (8 * Z.of_nat 1) with 8. change (8 * Z.of_nat 2) with 16.
      rewrite lor_bytes_3 by (apply Z.mod_pos_bound; lia).
      rewrite low_bytes_3.
      assert (silence_64 f mod 16777216 = silence_64 f mod 4294967296) as ->.
      { rewrite <- (Z.mod_small (silence_64 f mod 4294967296) 16777216) by lia.
        change 4294967296 with (16777216 * 256).
        rewrite Z.rem_mul_r, Z.mul_comm, Z.mod_add by lia.
        by rewrite Z.mod_mod by lia. }
      unfold CInt.int32. rewrite signed_small by (change (2 ^ (32 - 1)) with 2147483648; lia).
      by rewrite Z.lxor_nilpotent.
    + rewrite Hzero. by destruct (little_endian f).
  - rewrite H2. change (Z.to_nat (32 / 8)) with 4%nat. cbn [seq map app].
    unfold Peak.sample32. rewrite !byte_val_of_Z, Z.shiftr_0_r.
    unfold snd_pcm_format_silence_32, CInt.unsigned. change (2 ^ 32) with 4294967296.
    destruct host_order as [->| ->].
    + change (8 * Z.of_nat 1) with 8. change (8 * Z.of_nat 2) with 16.
      change (8 * Z.of_nat 3) with 24. rewrite low_bytes_4.
      by rewrite Z.lxor_nilpotent.
    + by destruct (little_endian f).
Qed.

(** Silence leaves the running maxima as they are. *)
Lemma scan_silence (sample : list byte → option (Z * list byte)) (stereo : bool)
    (m : nat) (rest : list byte) (c : bool) (max_peak : Z * Z) :
  Peak.decoder f = Some sample →
  0 ≤ max_peak.1 → 0 ≤ max_peak.2 →
  Peak.scan sample stereo m (concat (replicate m (silence_sample f)) ++ rest) c max_peak
  = Some max_peak.
Proof.
  intros Hdec. revert c max_peak.
  induction m as [|m IH]; intros c [m0 m1] H0 H1; [done|].
  cbn [replicate concat Peak.scan]. rewrite <- app_assoc.
  rewrite decoder_silence by done. simpl in *.
  assert ((m0 <? 0) = false) as -> by lia.
  assert ((m1 <? 0) = false) as -> by lia.
  destruct c; by rewrite IH.
Qed.

Lemma scan_then_silence (sample : list byte → option (Z * list byte)) (stereo : bool)
    (n m : nat) (data : list byte) (c : bool) (max_peak : Z * Z) :
  Peak.decoder f = Some sample →
  Z.of_nat (length data) = Z.of_nat n * (physical_width f / 8) →
  0 ≤ max_peak.1 → 0 ≤ max_peak.2 →
  Peak.scan sample stereo (n + m) (data ++ concat (replicate m (silence_sample f)))
    c max_peak
  = Peak.scan sample stereo n data c max_peak.
Proof.
  intros Hdec. 
  assert (0 < physical_width f / 8) as Hw.
  { destruct physical as [->|[->|[->| ->]]]; done. }
  revert data c max_peak.
  induction n as [|n IH]; intros data c [m0 m1] Hlen H0 H1.
  - destruct data; [|simpl in Hlen; lia].
    rewrite <- (app_nil_r (concat _)). by apply scan_silence.
  - destruct (decoder_front sample data Hdec) as (val & data' & Hlen' & Hsample); [nia|].
    cbn [Nat.add Peak.scan]. rewrite Hsample.
    specialize (Hsample []). rewrite !app_nil_r in Hsample. rewrite Hsample.
    apply IH; [nia|..]; destruct c; simpl in *; repeat case_match; lia.
Qed.

End SilenceUnderTheMeter.

(** X17. Silence does not move the peak meter.  For a format of 8, 16, 24 or
    32 bits in the byte order of the host, or one whose silence is all
    zero bits, the peaks of [n] samples followed by [m] silent samples
    are the peaks of the [n] samples: the silence [pcm_write] fills a
    short chunk with leaves the meter where the data put it.  (A packed
    24-bit format is to have a silence pattern of 24 bits.) *)
Theorem silence_keeps_the_peak (f : pcm_format) (stereo : bool) (n m : nat)
    (data : list byte) :
  (physical_width f = 8 ∨ physical_width f = 16 ∨
   physical_width f = 24 ∨ physical_width f = 32) →
  (little_endian f = true ∨ silence_64 f = 0) →
  (physical_width f = 24 → CInt.unsigned 32 (silence_64 f) < 2 ^ 24) →
  Z.of_nat (length data) = Z.of_nat n * (physical_width f / 8) →
  ∃ sample,
    Peak.decoder f = Some sample ∧
    Peak.scan sample stereo (n + m) (data ++ concat (replicate m (silence_sample f)))
      false (0, 0)
    = Peak.scan sample stereo n data false (0, 0).
Proof.
  intros Hphys Horder Hpacked Hlen.
  assert (∃ sample, Peak.decoder f = Some sample) as [sample Hdec].
  { unfold Peak.decoder.
    destruct Hphys as [Hp | [Hp | [Hp | Hp]]]; rewrite Hp; simpl; eauto. }
  exists sample. split; [done|].
  by apply scan_then_silence.
Qed.

(** An example: one unsigned 16-bit sample at full scale and two of
    silence. *)
Lemma silence_keeps_the_peak_witness :
  ∃ sample,
    Peak.decoder (PcmFormat 16 16 true 0x8000800080008000) = Some sample ∧
    Peak.scan sample false (1 + 2)
      ([xff; xff] ++ concat (replicate 2 (silence_sample (PcmFormat 16 16 true 0x8000800080008000))))
      false (0, 0)
    = Peak.scan sample false 1 [xff; xff] false (0, 0).
Proof.
  apply (silence_keeps_the_peak (PcmFormat 16 16 true 0x8000800080008000) false 1 2 [xff; xff]).
  - right; left; reflexivity.
  - left; reflexivity.
  - discriminate.
  - reflexivity.
Defined.

(** ** A recording of a given number of frames *)

Lemma wp_Ret {E F A : Type} (m : M E F A) (Φ : A → state E F → Prop)
    (Q : Z → state E F → Prop) (K : signal → state E F → Prop)
    (s s' : state E F) (a : A) :
  wp m Φ Q K s → m s = Ret a s' → Φ a s'.
Proof. unfold wp. intros H Hrun. by rewrite Hrun in H. Qed.

Section CaptureLimit.
Context {E F : Type} (ops : env_ops E) (fl : float_ops F) (cfg : config).

Variable sample_bytes : Z.
Hypothesis whole_bytes : physical_width (format cfg) = 8 * sample_bytes.
Hypothesis sample_bytes_pos : 0 < sample_bytes.
Hypothesis channels_pos : 0 < channels cfg.
Hypothesis chunk_size_pos : 0 < chunk_size cfg.
Hypothesis chunk_bits : chunk_bytes cfg * 8 < 2 ^ 31.

(** No signal arrives, the device hands over at least one frame at each
    call and never more than asked for, and [write] takes at least one
    byte and never more than it is given. *)
Hypothesis no_signal : ∀ e, (signals ops e).1 = [].
Hypothesis device_reads : ∀ e n, 0 < n → 0 < (readi ops e n).1.1 ≤ n.
Hypothesis write_bounded : ∀ e n, (sys_write ops e n).1 ≤ n.
Hypothesis write_some : ∀ e n, 0 < n → 0 < (sys_write ops e n).1.

Local Abbreviation frame := (channels cfg * sample_bytes).

Lemma do_test_position_capture (s : state E F) :
  ∃ s', when (test_position cfg) (do_test_position ops fl cfg) s = Ret tt s' ∧
        capture_view s' = capture_view s.
Proof.
  unfold when. destruct (test_position cfg); [|by exists s].
  destruct (do_test_position_view ops fl cfg s) as (s' & Hrun & _).
  exists s'. split; [done|].
  refine (wp_Ret _ (λ _ s', capture_view s' = capture_view s)
            (λ _ _, True) (λ _ _, True) s s' tt _ Hrun).
  by apply (inv_do_test_position ops fl cfg (λ s0, capture_view s0 = capture_view s)).
Qed.

Lemma compute_max_peak_capture (data : list byte) (r : Z) (s : state E F) :
  0 ≤ r → frame_bytes cfg r ≤ Z.of_nat (length data) →
  ∃ s', when (negb (bool_decide (vumeter cfg = VUMETER_NONE)))
          (compute_max_peak ops cfg data (r * channels cfg)) s = Ret tt s' ∧
        capture_view s' = capture_view s.
Proof.
  intros Hr Hlen.
  destruct (when_vumeter_view ops cfg sample_bytes whole_bytes sample_bytes_pos
              data r s Hr Hlen) as (s' & Hrun & _).
  exists s'. split; [done|]. revert Hrun. unfold when.
  destruct (negb (bool_decide (vumeter cfg = VUMETER_NONE))); [|by intros [= <-]].
  intros Hrun.
  refine (wp_Ret _ (λ _ s', capture_view s' = capture_view s)
            (λ _ _, True) (λ _ _, True) s s' tt _ Hrun).
  by apply (inv_compute_max_peak ops cfg (λ s0, capture_view s0 = capture_view s)).
Qed.

Lemma frame_bytes_frames (n : Z) : frame_bytes cfg n = n * frame.
Proof. apply (frame_bytes_whole cfg sample_bytes whole_bytes). Qed.

Lemma after_transfer_capture (what : string) (r count : Z) (s : state E F) :
  0 < r ≤ count →
  ∃ s', after_transfer ops cfg what r count s = Ret tt s' ∧
        capture_view s' = capture_view s.
Proof.
  intros Hr. unfold after_transfer.
  destruct (Z.eqb_spec r (- EAGAIN)) as [?|_]; [unfold EAGAIN in *; lia|].
  destruct (Z.leb_spec 0 r) as [_|?]; [|lia]. simpl.
  destruct (Z.ltb_spec r count) as [Hlt|Hge].
  - unfold when, snd_pcm_wait, modify, ret.
    destruct (negb (test_nowait cfg)); eexists; split; reflexivity.
  - destruct (Z.eqb_spec r (- EPIPE)) as [?|_]; [unfold EPIPE in *; lia|].
    destruct (Z.eqb_spec r (- ESTRPIPE)) as [?|_]; [unfold ESTRPIPE in *; lia|].
    destruct (Z.ltb_spec r 0) as [?|_]; [lia|].
    by exists s.
Qed.

Lemma call_readi_capture (data count : Z) (s : state E F) :
  0 < count →
  ∃ r s', call_readi ops cfg data count s = Ret r s' ∧
          0 < r ≤ count ∧
          capture_view s'
          = (in_aborting s, recycle_capture_file s, st_fs s, length (audiobuf s),
             st_frames s + r).
Proof.
  intros Hcount. unfold call_readi, blocking.
  cbv [bind call get modify when ret].
  pose proof (device_reads (st_env s) count Hcount) as Hr.
  destruct (readi ops (st_env s) count) as [[r bytes] e1]. simpl in *.
  pose proof (no_signal e1) as Hsig.
  destruct (signals ops e1) as [sigs e2]. simpl in Hsig. subst sigs. simpl.
  destruct (Z.ltb_spec 0 r) as [_|?]; [|lia].
  exists r. eexists. split; [reflexivity|]. split; [done|].
  unfold capture_view. simpl. by rewrite length_store.
Qed.

(** The loop of [pcm_read], from a state without abort: it returns after
    at most [count] turns with [count] frames taken from the device. *)
Lemma pcm_read_loop_reads (fuel : nat) (data count result : Z) (s : state E F) :
  in_aborting s = false →
  0 ≤ count ≤ Z.of_nat fuel → count < 2 ^ 64 →
  0 ≤ data →
  data + frame_bytes cfg count ≤ Z.of_nat (length (audiobuf s)) →
  ∃ s', pcm_read_loop ops fl cfg fuel data count result s
        = Ret (result + count) s' ∧
        capture_view s'
        = (false, recycle_capture_file s, st_fs s, length (audiobuf s),
           st_frames s + count).
Proof.
  revert data count result s.
  induction fuel as [|fuel IH]; intros data count result s Habort Hcount Hmax Hdata Hlen.
  - assert (count = 0) as -> by lia. cbn [pcm_read_loop].
    unfold bind, get, ret. simpl.
    exists s. rewrite !Z.add_0_r. unfold capture_view. by rewrite Habort.
  - destruct (decide (count = 0)) as [->|Hpos].
    { cbn [pcm_read_loop]. unfold bind, get, ret. simpl.
      exists s. rewrite !Z.add_0_r. unfold capture_view. by rewrite Habort. }
    cbn [pcm_read_loop].
    erewrite bind_Ret by reflexivity. rewrite Habort.
    destruct (Z.ltb_spec 0 count) as [_|?]; [|lia].
    destruct (do_test_position_capture s) as (s1 & Hs1 & Hv1).
    erewrite bind_Ret by exact Hs1.
    erewrite bind_Ret by reflexivity.
    destruct (call_readi_capture data count s1) as (r & s2 & Hs2 & Hr & Hv2); [lia|].
    erewrite bind_Ret by exact Hs2.
    destruct (do_test_position_capture s2) as (s3 & Hs3 & Hv3).
    erewrite bind_Ret by exact Hs3.
    destruct (after_transfer_capture "read error" r count s3 Hr) as (s4 & Hs4 & Hv4).
    erewrite bind_Ret by exact Hs4.
    destruct (Z.ltb_spec 0 r) as [_|?]; [|lia].
    erewrite bind_Ret by reflexivity.
    unfold capture_view in *. simplify_eq.
    assert (frame_bytes cfg count
            = frame_bytes cfg r + frame_bytes cfg (count - r)) as Hsplit.
    { rewrite !frame_bytes_frames. lia. }
    assert (0 ≤ frame_bytes cfg r ∧ 0 ≤ frame_bytes cfg (count - r)) as [Hfr Hfc].
    { rewrite !frame_bytes_frames. split; nia. }
    destruct (compute_max_peak_capture (drop (Z.to_nat data) (audiobuf s4)) r s4)
      as (s5 & Hs5 & Hv5); [lia| |].
    { rewrite length_drop. lia. }
    erewrite bind_Ret by exact Hs5.
    unfold capture_view in *. simplify_eq.
    rewrite size_t_small by lia.
    destruct (IH (data + frame_bytes cfg r) (count - r) (result + r) s5)
      as (s' & Hrun & Hv'); [congruence|lia|lia|lia| |].
    { assert (length (audiobuf s5) = length (audiobuf s)) as -> by congruence. lia. }
    exists s'. split; [rewrite Hrun; f_equal; lia|].
    rewrite Hv'.
    assert (st_frames s5 + (count - r) = st_frames s + count) as -> by lia.
    rewrite !pair_equal_spec. repeat split; congruence.
Qed.

(** [pcm_read] reads a whole chunk, whatever count it is given. *)
Lemma pcm_read_chunk (fuel : nat) (rcount : Z) (s : state E F) :
  in_aborting s = false →
  chunk_size cfg ≤ Z.of_nat fuel →
  chunk_bytes cfg ≤ Z.of_nat (length (audiobuf s)) →
  ∃ s', pcm_read ops fl cfg fuel 0 rcount s = Ret rcount s' ∧
        capture_view s'
        = (false, recycle_capture_file s, st_fs s, length (audiobuf s),
           st_frames s + chunk_size cfg).
Proof.
  intros Habort Hfuel Hlen. unfold pcm_read.
  pose proof (chunk_size_le_bytes cfg sample_bytes whole_bytes sample_bytes_pos
                channels_pos chunk_size_pos) as Hcs.
  assert ((if negb (rcount =? chunk_size cfg) then chunk_size cfg else rcount)
          = chunk_size cfg) as ->.
  { destruct (Z.eqb_spec rcount (chunk_size cfg)); simpl; congruence. }
  destruct (pcm_read_loop_reads fuel 0 (chunk_size cfg) 0 s) as (s' & Hrun & Hv);
    [done|lia|lia|lia|..].
  { change (frame_bytes cfg (chunk_size cfg)) with (chunk_bytes cfg). lia. }
  exists s'. split; [|done]. by erewrite bind_Ret by exact Hrun.
Qed.

(** [xwrite] of the first [save] bytes of the buffer to the file: all
    of them are appended. *)
Lemma xwrite_fd_appends (name : string) (save : Z) (s : state E F) :
  0 ≤ save ≤ Z.of_nat (length (audiobuf s)) → save ≤ CInt.SSIZE_MAX →
  ∃ s', xwrite_fd ops cfg false name save s = Ret save s' ∧
        capture_view s'
        = (in_aborting s, recycle_capture_file s,
           <[name := default [] (st_fs s !! name) ++ take (Z.to_nat save) (audiobuf s)]>
             (st_fs s),
           length (audiobuf s), st_frames s).
Proof.
  intros Hsave Hmax. unfold xwrite_fd.
  erewrite bind_Ret by reflexivity. unfold xwrite.
  destruct (xwrite_loop_outcome ops write_bounded (audiobuf s) save ltac:(lia)
              (Z.to_nat save) (st_env s) (output false name s) 0)
    as (r & out' & e' & Hrun & Hout); [lia..|].
  rewrite app_nil_r in Hrun. rewrite Hrun.
  destruct Hout as [[-> ->]|(Hr & k & e0 & Hk & _ & Hw)].
  - cbv [bind call get modify ret].
    pose proof (no_signal e') as Hsig. simpl.
    destruct (signals ops e') as [sigs e2]. simpl in Hsig. subst sigs. simpl.
    eexists. split; reflexivity.
  - pose proof (write_some e0 (save - k) ltac:(lia)) as Hpos.
    rewrite Hw in Hpos. simpl in Hpos. lia.
Qed.

Lemma frames_of_chunk (c : Z) :
  0 ≤ c → c * 8 / bits_per_frame cfg = c / frame.
Proof.
  intros Hc. unfold bits_per_frame, bits_per_sample. rewrite whole_bytes.
  replace (8 * sample_bytes * channels cfg) with (frame * 8) by lia.
  apply Z.div_mul_cancel_r; nia.
Qed.

(** The inner loop of [capture] with [rest] bytes to go: one chunk is
    read from the device for every [chunk_bytes] of them, or part of
    them, and the whole frames among the bytes are appended to the
    file. *)
Lemma capture_chunks_records (fuel : nat) (name : string) (count rest : Z)
    (old : list byte) (s : state E F) :
  in_aborting s = false → recycle_capture_file s = false →
  st_fs s !! name = Some old →
  chunk_bytes cfg ≤ Z.of_nat (length (audiobuf s)) →
  0 ≤ rest → rest ≤ (Z.of_nat fuel - chunk_size cfg) * chunk_bytes cfg →
  ∃ s' content,
    capture_chunks ops fl cfg fuel false name count rest s = Ret (count - rest) s' ∧
    capture_view s'
    = (false, false, <[name := old ++ content]> (st_fs s), length (audiobuf s),
       st_frames s + (rest + chunk_bytes cfg - 1) / chunk_bytes cfg * chunk_size cfg) ∧
    Z.of_nat (length content) = rest / frame * frame.
Proof.
  pose proof (chunk_size_le_bytes cfg sample_bytes whole_bytes sample_bytes_pos
                channels_pos chunk_size_pos) as Hcs.
  pose proof (chunk_bytes_whole cfg sample_bytes whole_bytes) as Hcb.
  pose proof (frame_pos cfg sample_bytes sample_bytes_pos channels_pos) as Hframe.
  revert count rest old s.
  induction fuel as [|fuel IH]; intros count rest old s Habort Hrecycle Hfile Hbuf Hrest Hfuel.
  { exfalso. nia. }
  cbn [capture_chunks]. erewrite bind_Ret by reflexivity.
  rewrite Habort, Hrecycle.
  destruct (Z.ltb_spec 0 rest) as [Hpos|Hzero]; cbn [andb negb].
  2: { assert (rest = 0) as -> by lia.
       exists s, []. unfold ret. rewrite Z.sub_0_r. split; [done|].
       rewrite app_nil_r, insert_id by done.
       unfold capture_view. rewrite Habort, Hrecycle.
       rewrite Z.add_0_l, (Z.div_small (chunk_bytes cfg - 1)) by lia.
       rewrite Z.mul_0_l, Z.add_0_r. split; [done|]. simpl. by rewrite Z.div_0_l by lia. }
  set (c := if rest <=? chunk_bytes cfg then CInt.size_t rest else chunk_bytes cfg).
  assert (c = Z.min rest (chunk_bytes cfg)) as Hc.
  { unfold c. destruct (Z.leb_spec rest (chunk_bytes cfg)).
    - rewrite size_t_small by lia. lia.
    - lia. }
  assert (0 < c ≤ chunk_bytes cfg) as Hcrange by lia.
  rewrite frames_of_chunk by lia.
  assert (0 ≤ c / frame ≤ chunk_size cfg) as Hf.
  { split; [apply Z.div_pos; lia|].
    apply Z.div_le_upper_bound; [lia|]. rewrite Z.mul_comm. lia. }
  assert (0 ≤ c / frame * frame ≤ c) as Hsave.
  { pose proof (Z.mul_div_le c frame Hframe). nia. }
  destruct (pcm_read_chunk (S fuel) (c / frame) s) as (s1 & Hs1 & Hv1); [done|nia|done|].
  erewrite bind_Ret by exact Hs1.
  rewrite size_t_small by lia. rewrite Z.eqb_refl. cbn [negb when].
  erewrite bind_Ret by reflexivity.
  unfold capture_view in Hv1. rewrite !pair_equal_spec in Hv1.
  destruct Hv1 as ((((Ha1 & Hr1) & Hfs1) & Hl1) & Hfr1).
  assert (c / frame * bits_per_frame cfg / 8 = c / frame * frame) as ->.
  { apply frame_bytes_frames. }
  destruct (xwrite_fd_appends name (c / frame * frame) s1) as (s2 & Hs2 & Hv2);
    [lia|unfold CInt.SSIZE_MAX; lia|].
  erewrite bind_Ret by exact Hs2.
  rewrite size_t_small by lia. rewrite Z.eqb_refl. cbn [negb].
  erewrite bind_Ret by reflexivity.
  unfold capture_view in Hv2. rewrite !pair_equal_spec in Hv2.
  destruct Hv2 as ((((Ha2 & Hr2) & Hfs2) & Hl2) & Hfr2).
  set (s3 := set_fdcount _ s2).
  set (chunk := take (Z.to_nat (c / frame * frame)) (audiobuf s1)) in *.
  assert (Z.of_nat (length chunk) = c / frame * frame) as Hchunk.
  { unfold chunk. rewrite length_take. lia. }
  destruct (IH (count - c) (rest - c) (old ++ chunk) s3) as (s' & content & Hrun & Hv' & Hlen).
  - subst s3. simpl. congruence.
  - subst s3. simpl. congruence.
  - subst s3. simpl.
    rewrite Hfs2, lookup_insert_eq, Hfs1. by rewrite Hfile.
  - subst s3. simpl. lia.
  - lia.
  - rewrite Nat2Z.inj_succ in Hfuel.
    assert (chunk_size cfg ≤ Z.of_nat fuel) by nia.
    destruct (Z.leb_spec rest (chunk_bytes cfg)) as [Hle|Hgt].
    + replace (rest - c) with 0 by lia. nia.
    + replace c with (chunk_bytes cfg) by lia. nia.
  - exists s', (chunk ++ content). split; [rewrite Hrun; f_equal; lia|].
    split.
    + rewrite Hv'. subst s3. simpl.
      rewrite !pair_equal_spec. repeat split.
      * rewrite Hfs2, insert_insert_eq, Hfs1.
        by rewrite (assoc_L (++)).
      * congruence.
      * assert (st_frames s2 = st_frames s + chunk_size cfg) as -> by congruence.
        rewrite <- Z.add_assoc. f_equal.
        replace (rest + chunk_bytes cfg - 1)
          with (rest - c + chunk_bytes cfg - 1 + c) by lia.
        destruct (Z.leb_spec rest (chunk_bytes cfg)) as [Hle|Hgt].
        -- assert (c = rest) as Hcr by lia. rewrite Hcr.
           replace (rest - rest + chunk_bytes cfg - 1) with (chunk_bytes cfg - 1) by lia.
           rewrite (Z.div_small (chunk_bytes cfg - 1)) by lia.
           replace (chunk_bytes cfg - 1 + rest)
             with (1 * chunk_bytes cfg + (rest - 1)) by lia.
           rewrite Z.div_add_l, (Z.div_small (rest - 1)) by lia. lia.
        -- assert (c = chunk_bytes cfg) as Hcr by lia. rewrite Hcr.
           replace (rest - chunk_bytes cfg + chunk_bytes cfg - 1 + chunk_bytes cfg)
             with (1 * chunk_bytes cfg + (rest - chunk_bytes cfg + chunk_bytes cfg - 1))
             by lia.
           rewrite Z.div_add_l by lia. lia.
    + rewrite length_app, Nat2Z.inj_add, Hchunk, Hlen.
      destruct (Z.leb_spec rest (chunk_bytes cfg)) as [Hle|Hgt].
      * assert (c = rest) as Hcr by lia. rewrite Hcr, Z.sub_diag.
        rewrite (Z.div_0_l frame) by lia. lia.
      * assert (c = chunk_bytes cfg) as Hcr by lia. rewrite Hcr, Hcb.
        rewrite Z.div_mul by lia.
        replace rest with (rest - chunk_size cfg * frame + chunk_size cfg * frame) at 2 by lia.
        rewrite Z.div_add by lia. lia.
Qed.

(** A recording with a limit: one file, and the loop over the files
    ends after it. *)
Lemma capture_files_records (fuel : nat) (name : string) (count : Z) (s : state E F) :
  use_strftime cfg = false → sampleslimit cfg ≠ 0 →
  in_aborting s = false → recycle_capture_file s = false →
  chunk_bytes cfg ≤ Z.of_nat (length (audiobuf s)) →
  0 ≤ count → count ≤ (Z.of_nat fuel - chunk_size cfg) * chunk_bytes cfg →
  ∃ s' content,
    capture_files ops fl cfg fuel name false name 0 count s = Ret tt s' ∧
    capture_view s'
    = (false, false, <[name := content]> (st_fs s), length (audiobuf s),
       st_frames s + (count + chunk_bytes cfg - 1) / chunk_bytes cfg * chunk_size cfg) ∧
    Z.of_nat (length content) = count / frame * frame.
Proof.
  intros Hmode Hlimit Habort Hrecycle Hbuf Hcount Hfuel.
  pose proof (chunk_size_le_bytes cfg sample_bytes whole_bytes sample_bytes_pos
                channels_pos chunk_size_pos) as Hcs.
  destruct fuel as [|fuel]; [exfalso; nia|].
  cbn [capture_files]. unfold open_next. rewrite Hmode. cbn [Z.eqb negb orb].
  unfold open_output, fs_remove.
  cbv [bind modify ret]. cbn [st_fs set_st_fs].
  match goal with
  | |- ∃ s' content, match capture_chunks _ _ _ _ _ _ _ _ ?s0 with _ => _ end = _ ∧ _ =>
      set (s1 := s0)
  end.
  destruct (capture_chunks_records (S fuel) name count count [] s1)
    as (s2 & content & Hrun & Hv & Hlen); try done.
  { subst s1. simpl. by rewrite lookup_insert_eq. }
  rewrite Hrun, Z.sub_diag. cbv [get]. 
  unfold capture_view in Hv. rewrite !pair_equal_spec in Hv.
  destruct Hv as ((((Ha2 & Hr2) & Hfs2) & Hl2) & Hfr2).
  cbn [in_aborting set_recycle_capture_file]. rewrite Ha2.
  destruct (Z.eqb_spec (sampleslimit cfg) 0) as [?|_]; [done|].
  rewrite andb_false_r. cbn [orb Z.ltb Z.compare].
  eexists _, content. split; [reflexivity|]. split; [|done].
  unfold capture_view. cbn [in_aborting recycle_capture_file st_fs audiobuf st_frames
                             set_recycle_capture_file].
  rewrite Ha2, Hfs2, Hl2, Hfr2. subst s1. simpl.
  by rewrite insert_insert_eq, insert_delete_eq.
Qed.

End CaptureLimit.

(** X3. With [--samples=n], a recording to a file ends by itself with one
    file.  [capture] makes the count of [n] frames even ("wasting one
    byte isn't a problem"), reads one whole chunk from the device for
    every chunk of that count or part of one, and writes the whole frames
    of the count to the file: the file holds [n] frames, and one more
    when a frame is one byte and [n] is odd.  The device reports no
    fault, no signal arrives and every [write] takes something. *)
Theorem capture_records_sample_limit {E F : Type} (ops : env_ops E)
    (fl : float_ops F) (cfg : config) (sample_bytes : Z) (fuel : nat)
    (name : string) (s : state E F) :
  physical_width (format cfg) = 8 * sample_bytes → 0 < sample_bytes →
  0 < channels cfg → 0 < chunk_size cfg → chunk_bytes cfg * 8 < 2 ^ 31 →
  (∀ e, (signals ops e).1 = []) →
  (∀ e n, 0 < n → 0 < (readi ops e n).1.1 ≤ n) →
  (∀ e n, (sys_write ops e n).1 ≤ n) →
  (∀ e n, 0 < n → 0 < (sys_write ops e n).1) →
  timelimit cfg = 0 →
  0 < sampleslimit cfg → sampleslimit cfg * channels cfg < 2 ^ 32 →
  chunk_size cfg ≠ buffer_size cfg →
  use_strftime cfg = false → name ≠ "-"%string →
  in_aborting s = false → recycle_capture_file s = false →
  pbrec_count s = CInt.LLONG_MAX →
  let bytes := sampleslimit cfg * (channels cfg * sample_bytes) in
  let count := bytes + bytes mod 2 in
  count ≤ (Z.of_nat fuel - chunk_size cfg) * chunk_bytes cfg →
  ∃ s' content,
    capture ops fl cfg fuel (Some name) s = Ret tt s' ∧
    in_aborting s' = false ∧
    st_fs s' = <[name := content]> (st_fs s) ∧
    Z.of_nat (length content)
    = count / (channels cfg * sample_bytes) * (channels cfg * sample_bytes) ∧
    st_frames s'
    = st_frames s + (count + chunk_bytes cfg - 1) / chunk_bytes cfg * chunk_size cfg.
Proof.
  intros Hwhole Hsb Hch Hcs Hbits Hsig Hdev Hwb Hws Htime Hn Hmax Hperiod Hmode
    Hname Habort Hrecycle Hpbrec bytes count Hfuel.
  pose proof (chunk_size_le_bytes cfg sample_bytes Hwhole Hsb Hch Hcs) as Hcsb.
  pose proof (chunk_bytes_whole cfg sample_bytes Hwhole) as Hcb.
  pose proof (frame_pos cfg sample_bytes Hsb Hch) as Hframe.
  assert (0 < bytes) as Hbytes by (unfold bytes; nia).
  assert (bytes < 2 ^ 32 * 2 ^ 28) as Hbytes_max.
  { unfold bytes. 
    assert (sample_bytes < 2 ^ 28) by nia.
    replace (sampleslimit cfg * (channels cfg * sample_bytes))
      with (sampleslimit cfg * channels cfg * sample_bytes) by lia.
    nia. }
  change (2 ^ 32 * 2 ^ 28) with 1152921504606846976 in Hbytes_max.
  unfold capture, calc_count.
  erewrite bind_Ret; cycle 1.
  { erewrite bind_Ret by reflexivity. reflexivity. }
  rewrite Htime, Hpbrec. cbn [Z.eqb].
  destruct (Z.eqb_spec (sampleslimit cfg) 0) as [?|_]; [lia|].
  assert (snd_pcm_format_size (format cfg)
            (CInt.unsigned 32 (sampleslimit cfg * channels cfg)) = bytes) as ->.
  { unfold snd_pcm_format_size, CInt.unsigned. rewrite Z.mod_small by nia.
    rewrite Hwhole.
    replace (sampleslimit cfg * channels cfg * (8 * sample_bytes))
      with (bytes * 8) by (unfold bytes; lia).
    rewrite Z.div_mul by lia. apply ssize_t_small. unfold CInt.SSIZE_MAX. lia. }
  assert ((bytes <? CInt.LLONG_MAX) = true) as ->
    by (apply Z.ltb_lt; unfold CInt.LLONG_MAX; lia).
  destruct (Z.eqb_spec bytes 0) as [?|_]; [lia|].
  assert ((bytes <? CInt.LLONG_MAX) = true) as ->
    by (apply Z.ltb_lt; unfold CInt.LLONG_MAX; lia).
  rewrite Z.rem_mod_nonneg by lia. fold count.
  assert (String.eqb name "-" = false) as -> by (by apply String.eqb_neq).
  erewrite bind_Ret by reflexivity.
  unfold header, set_params.
  destruct (Z.eqb_spec (chunk_size cfg) (buffer_size cfg)) as [?|_]; [done|].
  cbv [when fprintf_stderr bind modify ret]. cbn [default].
  unfold id.
  destruct (negb (quiet_mode cfg)); cbv beta iota.
  all: match goal with
       | |- ∃ s' content, capture_files _ _ _ _ _ _ _ _ _ ?s0 = _ ∧ _ => set (s1 := s0)
       end.
  all: destruct (capture_files_records ops fl cfg sample_bytes Hwhole Hsb Hch Hcs Hbits
                   Hsig Hdev Hwb Hws fuel name count s1)
         as (s' & content & Hrun & Hv & Hlen); try done;
       try (subst s1; simpl; rewrite length_resize; lia);
       try (pose proof (Z.mod_pos_bound bytes 2 ltac:(lia)); unfold count; lia).
  all: exists s', content; split; [exact Hrun|].
  all: unfold capture_view in Hv; rewrite !pair_equal_spec in Hv.
  all: destruct Hv as ((((Ha2 & Hr2) & Hfs2) & Hl2) & Hfr2).
  all: by repeat split.
Qed.

(** Five frames of 8-bit mono in chunks of four: six bytes in the file,
    eight frames taken from the device. *)
Lemma capture_records_sample_limit_witness :
  ∃ s' content,
    capture Steady.ops Script.floats (record_samples Script.U8 1 4 5) 20
      (Some "take.raw"%string) (Steady.initial (Steady.Env 3 1) [])
    = Ret tt s' ∧
    st_fs s' !! "take.raw"%string = Some content ∧
    Z.of_nat (length content) = 6 ∧
    st_frames s' = 8.
Proof.
  destruct (capture_records_sample_limit Steady.ops Script.floats
              (record_samples Script.U8 1 4 5) 1 20 "take.raw"
              (Steady.initial (Steady.Env 3 1) []))
    as (s' & content & Hrun & _ & Hfs & Hlen & Hframes).
  - reflexivity.
  - lia.
  - simpl; lia.
  - simpl; lia.
  - by vm_compute.
  - reflexivity.
  - intros e n Hn. simpl. lia.
  - intros e n. simpl. lia.
  - intros e n Hn. simpl. lia.
  - reflexivity.
  - simpl; lia.
  - by vm_compute.
  - discriminate.
  - reflexivity.
  - discriminate.
  - reflexivity.
  - reflexivity.
  - reflexivity.
  - by vm_compute.
  - exists s', content. split; [exact Hrun|]. split; [|split].
    + rewrite Hfs. apply lookup_insert_eq.
    + exact Hlen.
    + exact Hframes.
Defined.

(** ** The files of a recording that [SIGUSR1] rotates *)

Lemma rec_wav_printed (k : Z) :
  0 ≤ k < 2 ^ 31 → rec_wav k = ("rec-" +:+ sprintf_02d k +:+ ".wav")%string.
Proof. intros Hk. unfold rec_wav. by rewrite sprintf_02d_index_text. Qed.

Lemma rec_wav_inj (a b : Z) :
  0 ≤ a < 2 ^ 31 → 0 ≤ b < 2 ^ 31 → rec_wav a = rec_wav b → a = b.
Proof.
  intros Ha Hb. rewrite !rec_wav_printed by done. by apply file_inj.
Qed.

Lemma rec_wav_not_orig (k : Z) : rec_wav k ≠ "rec.wav"%string.
Proof. intros Heq. discriminate Heq. Qed.

Section CaptureRotation.
Context {E F : Type} (ops : env_ops E) (fl : float_ops F) (cfg : config).

Variable sample_bytes : Z.
Hypothesis whole_bytes : physical_width (format cfg) = 8 * sample_bytes.
Hypothesis sample_bytes_pos : 0 < sample_bytes.
Hypothesis channels_pos : 0 < channels cfg.
Hypothesis chunk_size_pos : 0 < chunk_size cfg.
Hypothesis chunk_bits : chunk_bytes cfg * 8 < 2 ^ 31.

(** No signal but [SIGUSR1] arrives, the device hands over at least one
    frame at each call and never more than asked for, and [write] takes
    at least one byte and never more than it is given. *)
Hypothesis only_usr1 : ∀ e sig, sig ∈ (signals ops e).1 → sig = SIGUSR1.
Hypothesis device_reads : ∀ e n, 0 < n → 0 < (readi ops e n).1.1 ≤ n.
Hypothesis write_bounded : ∀ e n, (sys_write ops e n).1 ≤ n.
Hypothesis write_some : ∀ e n, 0 < n → 0 < (sys_write ops e n).1.

Local Abbreviation frame := (channels cfg * sample_bytes).

(** The handler of [SIGUSR1] sets [recycle_capture_file] and nothing
    else. *)
Lemma deliver_all_usr1 (sigs : list signal) (s : state E F) :
  (∀ sig, sig ∈ sigs → sig = SIGUSR1) → SIGUSR1 ∉ sig_dfl s →
  ∃ s', deliver_all cfg sigs s = Ret tt s' ∧ rotation_view s' = rotation_view s.
Proof.
  revert s. induction sigs as [|sig sigs IH]; intros s Hsigs Hdfl.
  - by exists s.
  - assert (sig = SIGUSR1) as -> by (apply Hsigs; left).
    destruct (IH (set_recycle_capture_file true s)) as (s' & Hrun & Hview).
    { intros sig Hsig. apply Hsigs. by right. }
    { done. }
    exists s'. split; [|done].
    cbn [deliver_all]. unfold deliver, signal_handler_recycle.
    cbv [bind get modify]. by destruct (decide (SIGUSR1 ∈ sig_dfl s)).
Qed.

Lemma do_test_position_rot (s : state E F) :
  ∃ s', when (test_position cfg) (do_test_position ops fl cfg) s = Ret tt s' ∧
        rotation_view s' = rotation_view s.
Proof.
  unfold when. destruct (test_position cfg); [|by exists s].
  destruct (do_test_position_view ops fl cfg s) as (s' & Hrun & _).
  exists s'. split; [done|].
  refine (wp_Ret _ (λ _ s', rotation_view s' = rotation_view s)
            (λ _ _, True) (λ _ _, True) s s' tt _ Hrun).
  by apply (inv_do_test_position ops fl cfg (λ s0, rotation_view s0 = rotation_view s)).
Qed.

Lemma compute_max_peak_rot (data : list byte) (r : Z) (s : state E F) :
  0 ≤ r → frame_bytes cfg r ≤ Z.of_nat (length data) →
  ∃ s', when (negb (bool_decide (vumeter cfg = VUMETER_NONE)))
          (compute_max_peak ops cfg data (r * channels cfg)) s = Ret tt s' ∧
        rotation_view s' = rotation_view s.
Proof.
  intros Hr Hlen.
  destruct (when_vumeter_view ops cfg sample_bytes whole_bytes sample_bytes_pos
              data r s Hr Hlen) as (s' & Hrun & _).
  exists s'. split; [done|]. revert Hrun. unfold when.
  destruct (negb (bool_decide (vumeter cfg = VUMETER_NONE))); [|by intros [= <-]].
  intros Hrun.
  refine (wp_Ret _ (λ _ s', rotation_view s' = rotation_view s)
            (λ _ _, True) (λ _ _, True) s s' tt _ Hrun).
  by apply (inv_compute_max_peak ops cfg (λ s0, rotation_view s0 = rotation_view s)).
Qed.

Lemma after_transfer_rot (what : string) (r count : Z) (s : state E F) :
  0 < r ≤ count →
  ∃ s', after_transfer ops cfg what r count s = Ret tt s' ∧
        rotation_view s' = rotation_view s.
Proof.
  intros Hr. unfold after_transfer.
  destruct (Z.eqb_spec r (- EAGAIN)) as [?|_]; [unfold EAGAIN in *; lia|].
  destruct (Z.leb_spec 0 r) as [_|?]; [|lia]. simpl.
  destruct (Z.ltb_spec r count) as [Hlt|Hge].
  - unfold when, snd_pcm_wait, modify, ret.
    destruct (negb (test_nowait cfg)); eexists; split; reflexivity.
  - destruct (Z.eqb_spec r (- EPIPE)) as [?|_]; [unfold EPIPE in *; lia|].
    destruct (Z.eqb_spec r (- ESTRPIPE)) as [?|_]; [unfold ESTRPIPE in *; lia|].
    destruct (Z.ltb_spec r 0) as [?|_]; [lia|].
    by exists s.
Qed.

Lemma call_readi_rot (data count : Z) (s : state E F) :
  0 < count → SIGUSR1 ∉ sig_dfl s →
  ∃ r s', call_readi ops cfg data count s = Ret r s' ∧
          0 < r ≤ count ∧
          rotation_view s' = rotation_view s.
Proof.
  intros Hcount Hdfl. unfold call_readi, blocking.
  pose proof (device_reads (st_env s) count Hcount) as Hr.
  destruct (readi ops (st_env s) count) as [[r bytes] e1] eqn:Hreadi. simpl in Hr.
  pose proof (only_usr1 e1) as Hsig.
  destruct (signals ops e1) as [sigs e2] eqn:Hsignals. simpl in Hsig.
  destruct (deliver_all_usr1 sigs (set_st_env e2 (set_st_env e1 s)) Hsig Hdfl)
    as (s1 & Hs1 & Hv1).
  exists r. eexists. split; [|split; [done|]].
  - cbv [bind call]. rewrite Hreadi. cbn [set_st_env st_env]. rewrite Hsignals.
    cbn [set_st_env st_env]. rewrite Hs1. cbv [ret when modify].
    destruct (Z.ltb_spec 0 r) as [_|?]; [|lia]. reflexivity.
  - unfold rotation_view in *. simpl in *. rewrite length_store.
    rewrite !pair_equal_spec in Hv1. rewrite !pair_equal_spec. tauto.
Qed.


(** Fields of the view. *)
Lemma rotation_view_eq (s s' : state E F) :
  rotation_view s' = rotation_view s →
  in_aborting s' = in_aborting s ∧ st_fs s' = st_fs s ∧
  length (audiobuf s') = length (audiobuf s) ∧ sig_dfl s' = sig_dfl s.
Proof. unfold rotation_view. rewrite !pair_equal_spec. tauto. Qed.

(** The loop of [pcm_read], from a state without abort: it returns after
    at most [count] turns with [count] frames taken from the device. *)
Lemma pcm_read_loop_rot (fuel : nat) (data count result : Z) (s : state E F) :
  in_aborting s = false → SIGUSR1 ∉ sig_dfl s →
  0 ≤ count ≤ Z.of_nat fuel → count < 2 ^ 64 →
  0 ≤ data →
  data + frame_bytes cfg count ≤ Z.of_nat (length (audiobuf s)) →
  ∃ s', pcm_read_loop ops fl cfg fuel data count result s
        = Ret (result + count) s' ∧
        rotation_view s' = rotation_view s.
Proof.
  revert data count result s.
  induction fuel as [|fuel IH];
    intros data count result s Habort Hdfl Hcount Hmax Hdata Hlen.
  - assert (count = 0) as -> by lia. cbn [pcm_read_loop].
    unfold bind, get, ret. simpl. exists s. by rewrite !Z.add_0_r.
  - destruct (decide (count = 0)) as [->|Hpos].
    { cbn [pcm_read_loop]. unfold bind, get, ret. simpl.
      exists s. by rewrite !Z.add_0_r. }
    cbn [pcm_read_loop].
    erewrite bind_Ret by reflexivity. rewrite Habort.
    destruct (Z.ltb_spec 0 count) as [_|?]; [|lia].
    destruct (do_test_position_rot s) as (s1 & Hs1 & Hv1).
    apply rotation_view_eq in Hv1 as (Ha1 & Hf1 & Hl1 & Hd1).
    erewrite bind_Ret by exact Hs1.
    erewrite bind_Ret by reflexivity.
    destruct (call_readi_rot data count s1) as (r & s2 & Hs2 & Hr & Hv2);
      [lia|by rewrite Hd1|].
    apply rotation_view_eq in Hv2 as (Ha2 & Hf2 & Hl2 & Hd2).
    erewrite bind_Ret by exact Hs2.
    destruct (do_test_position_rot s2) as (s3 & Hs3 & Hv3).
    apply rotation_view_eq in Hv3 as (Ha3 & Hf3 & Hl3 & Hd3).
    erewrite bind_Ret by exact Hs3.
    destruct (after_transfer_rot "read error" r count s3 Hr) as (s4 & Hs4 & Hv4).
    apply rotation_view_eq in Hv4 as (Ha4 & Hf4 & Hl4 & Hd4).
    erewrite bind_Ret by exact Hs4.
    destruct (Z.ltb_spec 0 r) as [_|?]; [|lia].
    erewrite bind_Ret by reflexivity.
    assert (frame_bytes cfg count
            = frame_bytes cfg r + frame_bytes cfg (count - r)) as Hsplit.
    { rewrite !(frame_bytes_whole cfg sample_bytes whole_bytes). lia. }
    assert (0 ≤ frame_bytes cfg r ∧ 0 ≤ frame_bytes cfg (count - r)) as [Hfr Hfc].
    { rewrite !(frame_bytes_whole cfg sample_bytes whole_bytes). split; nia. }
    assert (length (audiobuf s4) = length (audiobuf s)) as Hl by congruence.
    destruct (compute_max_peak_rot (drop (Z.to_nat data) (audiobuf s4)) r s4)
      as (s5 & Hs5 & Hv5); [lia| |].
    { rewrite length_drop. lia. }
    apply rotation_view_eq in Hv5 as (Ha5 & Hf5 & Hl5 & Hd5).
    erewrite bind_Ret by exact Hs5.
    rewrite size_t_small by lia.
    destruct (IH (data + frame_bytes cfg r) (count - r) (result + r) s5)
      as (s' & Hrun & Hv'); [congruence|congruence|lia|lia|lia| |].
    { assert (length (audiobuf s5) = length (audiobuf s)) as -> by congruence. lia. }
    exists s'. split; [rewrite Hrun; f_equal; lia|].
    rewrite Hv'. unfold rotation_view. rewrite !pair_equal_spec.
    repeat split; congruence.
Qed.

(** [pcm_read] reads a whole chunk, whatever count it is given. *)
Lemma pcm_read_chunk_rot (fuel : nat) (rcount : Z) (s : state E F) :
  in_aborting s = false → SIGUSR1 ∉ sig_dfl s →
  chunk_size cfg ≤ Z.of_nat fuel →
  chunk_bytes cfg ≤ Z.of_nat (length (audiobuf s)) →
  ∃ s', pcm_read ops fl cfg fuel 0 rcount s = Ret rcount s' ∧
        rotation_view s' = rotation_view s.
Proof.
  intros Habort Hdfl Hfuel Hlen. unfold pcm_read.
  pose proof (chunk_size_le_bytes cfg sample_bytes whole_bytes sample_bytes_pos
                channels_pos chunk_size_pos) as Hcs.
  assert ((if negb (rcount =? chunk_size cfg) then chunk_size cfg else rcount)
          = chunk_size cfg) as ->.
  { destruct (Z.eqb_spec rcount (chunk_size cfg)); simpl; congruence. }
  destruct (pcm_read_loop_rot fuel 0 (chunk_size cfg) 0 s) as (s' & Hrun & Hv);
    [done|done|lia|lia|lia|..].
  { change (frame_bytes cfg (chunk_size cfg)) with (chunk_bytes cfg). lia. }
  exists s'. split; [|done]. by erewrite bind_Ret by exact Hrun.
Qed.

(** [xwrite] of the first [save] bytes of the buffer to the file: all
    of them are appended. *)
Lemma xwrite_fd_rot (name : string) (save : Z) (s : state E F) :
  0 ≤ save ≤ Z.of_nat (length (audiobuf s)) → save ≤ CInt.SSIZE_MAX →
  SIGUSR1 ∉ sig_dfl s →
  ∃ s', xwrite_fd ops cfg false name save s = Ret save s' ∧
        rotation_view s'
        = (in_aborting s,
           <[name := default [] (st_fs s !! name) ++ take (Z.to_nat save) (audiobuf s)]>
             (st_fs s),
           length (audiobuf s), sig_dfl s).
Proof.
  intros Hsave Hmax Hdfl. unfold xwrite_fd.
  erewrite bind_Ret by reflexivity. unfold xwrite.
  destruct (xwrite_loop_outcome ops write_bounded (audiobuf s) save ltac:(lia)
              (Z.to_nat save) (st_env s) (output false name s) 0)
    as (r & out' & e' & Hrun & Hout); [lia..|].
  rewrite app_nil_r in Hrun. rewrite Hrun.
  destruct Hout as [[-> ->]|(Hr & k & e0 & Hk & _ & Hw)].
  - pose proof (only_usr1 e') as Hsig.
    destruct (signals ops e') as [sigs e2] eqn:Hsignals. simpl in Hsig.
    set (s1 := set_st_env e2
                 (set_output false name
                    (output false name s ++ take (Z.to_nat save) (audiobuf s))
                    (set_st_env e' s))).
    destruct (deliver_all_usr1 sigs s1 Hsig Hdfl) as (s2 & Hs2 & Hv2).
    exists s2. split.
    + cbv [bind call modify set_output]. cbn [set_st_env st_env set_st_fs].
      rewrite Hsignals. unfold s1 in Hs2. cbv [set_output] in Hs2.
      cbn [set_st_env st_env set_st_fs] in Hs2. rewrite Hs2. reflexivity.
    + rewrite Hv2. reflexivity.
  - pose proof (write_some e0 (save - k) ltac:(lia)) as Hpos.
    rewrite Hw in Hpos. simpl in Hpos. lia.
Qed.


Lemma frames_of_chunk_rot (c : Z) :
  0 ≤ c → c * 8 / bits_per_frame cfg = c / frame.
Proof.
  intros Hc. unfold bits_per_frame, bits_per_sample. rewrite whole_bytes.
  replace (8 * sample_bytes * channels cfg) with (frame * 8) by lia.
  apply Z.div_mul_cancel_r; nia.
Qed.

(** The inner loop of [capture] with [rest] bytes to go, up to the
    [SIGUSR1] that ends it: [part] of the bytes are dealt with, a whole
    number of chunks unless they are all of them, and the whole frames
    among them are appended to the file. *)
Lemma capture_chunks_rot (fuel : nat) (name : string) (count rest : Z)
    (old : list byte) (s : state E F) :
  in_aborting s = false → SIGUSR1 ∉ sig_dfl s →
  st_fs s !! name = Some old →
  chunk_bytes cfg ≤ Z.of_nat (length (audiobuf s)) →
  0 ≤ rest → rest ≤ (Z.of_nat fuel - chunk_size cfg) * chunk_bytes cfg →
  ∃ s' content part,
    capture_chunks ops fl cfg fuel false name count rest s = Ret (count - part) s' ∧
    rotation_view s'
    = (false, <[name := old ++ content]> (st_fs s), length (audiobuf s), sig_dfl s) ∧
    0 ≤ part ≤ rest ∧
    (part < rest → ∃ m, part = m * chunk_bytes cfg) ∧
    (recycle_capture_file s = false → 0 < rest → 0 < part) ∧
    Z.of_nat (length content) = part / frame * frame.
Proof.
  pose proof (chunk_size_le_bytes cfg sample_bytes whole_bytes sample_bytes_pos
                channels_pos chunk_size_pos) as Hcs.
  pose proof (chunk_bytes_whole cfg sample_bytes whole_bytes) as Hcb.
  pose proof (frame_pos cfg sample_bytes sample_bytes_pos channels_pos) as Hframe.
  revert count rest old s.
  induction fuel as [|fuel IH];
    intros count rest old s Habort Hdfl Hfile Hbuf Hrest Hfuel.
  { exfalso. nia. }
  assert (∃ s' content part,
            Ret (E:=E) (F:=F) count s = Ret (count - part) s' ∧
            rotation_view s'
            = (false, <[name := old ++ content]> (st_fs s), length (audiobuf s),
               sig_dfl s) ∧
            0 ≤ part ≤ rest ∧
            (part < rest → ∃ m, part = m * chunk_bytes cfg) ∧
            Z.of_nat (length content) = part / frame * frame ∧ part = 0) as Hstop.
  { exists s, [], 0. rewrite Z.sub_0_r, app_nil_r, insert_id by done.
    split; [done|]. split; [unfold rotation_view; by rewrite Habort|].
    split; [lia|]. split; [intros _; exists 0; lia|].
    split; [|done]. simpl. by rewrite Z.div_0_l by lia. }
  cbn [capture_chunks]. erewrite bind_Ret by reflexivity.
  rewrite Habort.
  destruct (Z.ltb_spec 0 rest) as [Hpos|Hzero]; cbn [andb negb].
  2: { destruct Hstop as (s' & content & part & Hrun & Hv & Hd & Hm & Hlen & Hzd).
       exists s', content, part. unfold ret. repeat split; try done; lia. }
  destruct (recycle_capture_file s) eqn:Hrecycle; cbn [andb negb].
  { destruct Hstop as (s' & content & part & Hrun & Hv & Hd & Hm & Hlen & Hzd).
    exists s', content, part. unfold ret. repeat split; try done; lia. }
  clear Hstop.
  set (c := if rest <=? chunk_bytes cfg then CInt.size_t rest else chunk_bytes cfg).
  assert (c = Z.min rest (chunk_bytes cfg)) as Hc.
  { unfold c. destruct (Z.leb_spec rest (chunk_bytes cfg)).
    - rewrite size_t_small by lia. lia.
    - lia. }
  assert (0 < c ≤ chunk_bytes cfg) as Hcrange by lia.
  rewrite frames_of_chunk_rot by lia.
  assert (0 ≤ c / frame ≤ chunk_size cfg) as Hf.
  { split; [apply Z.div_pos; lia|].
    apply Z.div_le_upper_bound; [lia|]. rewrite Z.mul_comm. lia. }
  assert (0 ≤ c / frame * frame ≤ c) as Hsave.
  { pose proof (Z.mul_div_le c frame Hframe). nia. }
  destruct (pcm_read_chunk_rot (S fuel) (c / frame) s) as (s1 & Hs1 & Hv1);
    [done|done|nia|done|].
  apply rotation_view_eq in Hv1 as (Ha1 & Hfs1 & Hl1 & Hd1).
  erewrite bind_Ret by exact Hs1.
  rewrite size_t_small by lia. rewrite Z.eqb_refl. cbn [negb when].
  erewrite bind_Ret by reflexivity.
  assert (c / frame * bits_per_frame cfg / 8 = c / frame * frame) as ->.
  { apply (frame_bytes_whole cfg sample_bytes whole_bytes). }
  destruct (xwrite_fd_rot name (c / frame * frame) s1) as (s2 & Hs2 & Hv2);
    [lia|unfold CInt.SSIZE_MAX; lia|by rewrite Hd1|].
  erewrite bind_Ret by exact Hs2.
  rewrite size_t_small by lia. rewrite Z.eqb_refl. cbn [negb].
  erewrite bind_Ret by reflexivity.
  unfold rotation_view in Hv2. rewrite !pair_equal_spec in Hv2.
  destruct Hv2 as (((Ha2 & Hfs2) & Hl2) & Hd2).
  set (s3 := set_fdcount _ s2).
  set (chunk := take (Z.to_nat (c / frame * frame)) (audiobuf s1)) in *.
  assert (Z.of_nat (length chunk) = c / frame * frame) as Hchunk.
  { unfold chunk. rewrite length_take. lia. }
  destruct (IH (count - c) (rest - c) (old ++ chunk) s3)
    as (s' & content & part & Hrun & Hv' & Hpart & Hmult & _ & Hlen).
  - subst s3. simpl. congruence.
  - subst s3. simpl. congruence.
  - subst s3. simpl.
    rewrite Hfs2, lookup_insert_eq, Hfs1. by rewrite Hfile.
  - subst s3. simpl. lia.
  - lia.
  - rewrite Nat2Z.inj_succ in Hfuel.
    assert (chunk_size cfg ≤ Z.of_nat fuel) by nia.
    destruct (Z.leb_spec rest (chunk_bytes cfg)) as [Hle|Hgt].
    + replace (rest - c) with 0 by lia. nia.
    + replace c with (chunk_bytes cfg) by lia. nia.
  - exists s', (chunk ++ content), (c + part).
    split; [rewrite Hrun; f_equal; lia|].
    split.
    { rewrite Hv'. subst s3. simpl.
      rewrite !pair_equal_spec. repeat split; try congruence.
      rewrite Hfs2, insert_insert_eq, Hfs1. by rewrite (assoc_L (++)). }
    split; [lia|]. split; [|split; [lia|]].
    + intros Hless. destruct (Hmult ltac:(lia)) as (m & Hm).
      exists (m + 1). destruct (Z.leb_spec rest (chunk_bytes cfg)); lia.
    + rewrite length_app, Nat2Z.inj_add, Hchunk, Hlen.
      destruct (Z.leb_spec rest (chunk_bytes cfg)) as [Hle|Hgt].
      * assert (c = rest) as Hcr by lia. assert (part = 0) as -> by lia.
        change (0 `div` frame * frame) with 0. by rewrite !Z.add_0_r.
      * assert (c = chunk_bytes cfg) as Hcr by lia. rewrite Hcr, Hcb.
        rewrite Z.div_mul by lia.
        replace (chunk_size cfg * frame + part)
          with (part + chunk_size cfg * frame) by lia.
        rewrite Z.div_add by lia. lia.
Qed.


Hypothesis counter_mode : use_strftime cfg = false.
Hypothesis limited : sampleslimit cfg ≠ 0.

(** One turn of the loop over the files, from the file opened on: the
    inner loop, and the test that ends the recording when nothing is
    left to record. *)
Lemma capture_files_turn (fuel : nat) (name : string) (count : Z)
    (k : Z → M E F ()) (s : state E F) :
  in_aborting s = false → recycle_capture_file s = false →
  SIGUSR1 ∉ sig_dfl s →
  st_fs s !! name = Some [] →
  chunk_bytes cfg ≤ Z.of_nat (length (audiobuf s)) →
  0 < count → count ≤ (Z.of_nat fuel - chunk_size cfg) * chunk_bytes cfg →
  ∃ s' content part,
    bind (modify (set_fdcount 0))
      (λ _, bind (capture_chunks ops fl cfg fuel false name count count)
         (λ count, bind (modify (set_recycle_capture_file false))
            (λ _, bind get
               (λ s, if in_aborting s then prg_exit cfg EXIT_FAILURE
                     else if ((timelimit cfg =? 0) && (sampleslimit cfg =? 0))
                             || (0 <? count)
                     then k count else ret tt)))) s
    = (if part <? count then k (count - part) s' else Ret tt s') ∧
    in_aborting s' = false ∧ recycle_capture_file s' = false ∧
    sig_dfl s' = sig_dfl s ∧ length (audiobuf s') = length (audiobuf s) ∧
    st_fs s' = <[name := content]> (st_fs s) ∧
    0 < part ≤ count ∧
    (part < count → ∃ m, 0 < m ∧ part = m * chunk_bytes cfg) ∧
    Z.of_nat (length content) = part / frame * frame.
Proof.
  intros Habort Hrecycle Hdfl Hfile Hbuf Hcount Hfuel.
  erewrite bind_Ret by reflexivity. cbv beta.
  destruct (capture_chunks_rot fuel name count count [] (set_fdcount 0 s))
    as (s2 & content & part & Hrun & Hv & Hpart & Hmult & Hsome & Hlen);
    try (simpl; done); try (simpl; lia).
  erewrite bind_Ret by exact Hrun. cbv beta.
  erewrite bind_Ret by reflexivity. cbv beta.
  erewrite bind_Ret by reflexivity. cbv beta.
  unfold rotation_view in Hv. rewrite !pair_equal_spec in Hv.
  destruct Hv as (((Ha2 & Hfs2) & Hl2) & Hd2). simpl in Hfs2, Hl2, Hd2.
  cbn [in_aborting set_recycle_capture_file]. rewrite Ha2.
  destruct (Z.eqb_spec (sampleslimit cfg) 0) as [?|_]; [done|].
  rewrite andb_false_r. cbn [orb].
  exists (set_recycle_capture_file false s2), content, part.
  split.
  { destruct (Z.ltb_spec 0 (count - part)), (Z.ltb_spec part count); try lia; done. }
  pose proof (chunk_size_le_bytes cfg sample_bytes whole_bytes sample_bytes_pos
                channels_pos chunk_size_pos) as Hcs.
  assert (0 < part) as Hpos by (by apply Hsome).
  simpl. rewrite Hfs2, Hl2, Hd2. repeat split; try done; try lia.
  intros Hless. destruct (Hmult Hless) as (m & ->). exists m. split; [nia|done].
Qed.


(** The turns of the loop from the third file on: each turn opens the
    file of its number. *)
Lemma capture_files_later (fuel : nat) (name : string) (k count : Z) (s : state E F) :
  in_aborting s = false → recycle_capture_file s = false →
  SIGUSR1 ∉ sig_dfl s →
  chunk_bytes cfg ≤ Z.of_nat (length (audiobuf s)) →
  2 ≤ k → 0 < count → count ≤ (Z.of_nat fuel - chunk_size cfg) * chunk_bytes cfg →
  k * chunk_bytes cfg + count ≤ (2 ^ 31 - 1) * chunk_bytes cfg →
  ∃ s' contents,
    capture_files ops fl cfg fuel "rec.wav" false name k count s = Ret tt s' ∧
    in_aborting s' = false ∧
    (0 < length contents)%nat ∧
    (Z.of_nat (length contents) - 1) * chunk_bytes cfg < count ∧
    (∀ (i : nat) content, contents !! i = Some content →
       st_fs s' !! rec_wav (k + Z.of_nat i) = Some content) ∧
    (∀ path, (∀ i : nat, (i < length contents)%nat → path ≠ rec_wav (k + Z.of_nat i)) →
       st_fs s' !! path = st_fs s !! path) ∧
    (∀ (i : nat) content, contents !! i = Some content → (S i < length contents)%nat →
       ∃ m, 0 < m ∧ Z.of_nat (length content) = m * chunk_bytes cfg) ∧
    Z.of_nat (length (concat contents)) = count / frame * frame.
Proof.
  pose proof (chunk_size_le_bytes cfg sample_bytes whole_bytes sample_bytes_pos
                channels_pos chunk_size_pos) as Hcs.
  pose proof (chunk_bytes_whole cfg sample_bytes whole_bytes) as Hcb.
  pose proof (frame_pos cfg sample_bytes sample_bytes_pos channels_pos) as Hframe.
  assert (2 ^ 31 = 2147483648) as Hpow by done.
  revert name k count s.
  induction fuel as [|fuel IH];
    intros name k count s Habort Hrecycle Hdfl Hbuf Hk Hcount Hfuel Hmax.
  { exfalso. nia. }
  assert (k < 2 ^ 31 - 1) as Hkmax by nia.
  cbn [capture_files].
  erewrite bind_Ret by (apply (open_next_later ops cfg counter_mode); lia).
  rewrite <- (rec_wav_printed k) by lia. cbv beta iota.
  set (s1 := set_st_fs (<[rec_wav k := []]> (st_fs s)) s).
  destruct (capture_files_turn (S fuel) (rec_wav k) count
              (λ count, capture_files ops fl cfg fuel "rec.wav" false (rec_wav k)
                          (k + 1) count) s1)
    as (s2 & content & part & Hturn & Ha2 & Hr2 & Hd2 & Hl2 & Hfs2 & Hpart & Hmult & Hlen);
    try done; try (subst s1; simpl; done).
  { subst s1. simpl. apply lookup_insert_eq. }
  rewrite Hturn. clear Hturn.
  subst s1. simpl in Hd2, Hl2, Hfs2. rewrite insert_insert_eq in Hfs2.
  destruct (Z.ltb_spec part count) as [Hless|Hall].
  - destruct (Hmult Hless) as (m & Hm & Hpartm).
    assert (chunk_bytes cfg ≤ part) as Hchunk by nia.
    rewrite Nat2Z.inj_succ in Hfuel.
    destruct (IH (rec_wav k) (k + 1) (count - part) s2)
      as (s' & contents & Hrun & Ha' & Hsome & Hnum & Hfiles & Hothers & Hwhole & Htotal);
      [done|done|by rewrite Hd2|by rewrite Hl2|lia|lia|lia|lia|].
    exists s', (content :: contents).
    split; [done|]. split; [done|]. split; [simpl; lia|].
    split; [simpl length; rewrite Nat2Z.inj_succ; lia|].
    assert (k + Z.of_nat (length contents) < 2 ^ 31 - 1) as Hlenmax.
    { apply (Z.mul_lt_mono_pos_r (chunk_bytes cfg)); lia. }
    assert (∀ i : nat, (i < length contents)%nat → k + 1 + Z.of_nat i < 2 ^ 31) as Hfit
      by (intros i Hi; lia).
    split; [|split; [|split]].
    + intros [|i] content' Hi; simpl in Hi.
      * assert (content' = content) as -> by congruence. rewrite Z.add_0_r.
        rewrite Hothers; [rewrite Hfs2; apply lookup_insert_eq|].
        intros j Hj Heq. apply rec_wav_inj in Heq; [lia|lia|].
        specialize (Hfit j Hj). lia.
      * replace (k + Z.of_nat (S i)) with (k + 1 + Z.of_nat i) by lia.
        by apply Hfiles.
    + intros path Hpath. rewrite Hothers.
      * rewrite Hfs2, lookup_insert_ne; [done|].
        intros <-. apply (Hpath 0%nat); [simpl; lia|by rewrite Z.add_0_r].
      * intros i Hi Heq. apply (Hpath (S i)); [simpl; lia|].
        by replace (k + Z.of_nat (S i)) with (k + 1 + Z.of_nat i) by lia.
    + intros [|i] content' Hi Hlast; simpl in Hi, Hlast.
      * assert (content' = content) as -> by congruence. exists m. split; [done|]. rewrite Hlen, Hpartm, Hcb.
        replace (m * (chunk_size cfg * frame)) with (m * chunk_size cfg * frame) by lia.
        by rewrite Z.div_mul by lia.
      * apply (Hwhole i); [done|lia].
    + simpl. rewrite length_app, Nat2Z.inj_add, Hlen, Htotal.
      rewrite Hpartm, Hcb.
      replace count with (count - m * (chunk_size cfg * frame)
                          + m * chunk_size cfg * frame) at 2 by lia.
      rewrite Z.div_add by lia.
      replace (m * (chunk_size cfg * frame)) with (m * chunk_size cfg * frame) by lia.
      rewrite Z.div_mul by lia. lia.
  - assert (part = count) as -> by lia.
    exists s2, [content]. split; [done|]. split; [done|]. split; [simpl; lia|].
    split; [simpl; lia|]. split; [|split; [|split]].
    + intros [|i] content' Hi; simpl in Hi; [|done].
      assert (content' = content) as -> by congruence.
      rewrite Z.add_0_r, Hfs2. apply lookup_insert_eq.
    + intros path Hpath. rewrite Hfs2, lookup_insert_ne; [done|].
      intros <-. apply (Hpath 0%nat); [simpl; lia|by rewrite Z.add_0_r].
    + intros i content' Hi Hlast. simpl in Hlast.
      apply lookup_lt_Some in Hi. simpl in Hi. lia.
    + simpl. by rewrite app_nil_r.
Qed.


(** The loop over the files from its start: the first file is
    [rec.wav], the second turn renames it and opens [rec-02.wav], and
    the turns after that follow the counter. *)
Lemma capture_files_rotates (fuel : nat) (count : Z) (s : state E F) :
  in_aborting s = false → recycle_capture_file s = false →
  SIGUSR1 ∉ sig_dfl s →
  chunk_bytes cfg ≤ Z.of_nat (length (audiobuf s)) →
  0 < count → count ≤ (Z.of_nat fuel - chunk_size cfg) * chunk_bytes cfg →
  count ≤ (2 ^ 31 - 2) * chunk_bytes cfg →
  ∃ s' contents,
    capture_files ops fl cfg fuel "rec.wav" false "rec.wav" 0 count s = Ret tt s' ∧
    in_aborting s' = false ∧
    Z.of_nat (length (concat contents)) = count / frame * frame ∧
    (∀ (i : nat) content, contents !! i = Some content → (S i < length contents)%nat →
       ∃ m, 0 < m ∧ Z.of_nat (length content) = m * chunk_bytes cfg) ∧
    match contents with
    | [] => False
    | [content] => st_fs s' = <["rec.wav"%string := content]> (st_fs s)
    | _ =>
        st_fs s' !! "rec.wav"%string = None ∧
        (∀ (i : nat) content, contents !! i = Some content →
           st_fs s' !! rec_wav (Z.of_nat i + 1) = Some content) ∧
        (∀ path, path ≠ "rec.wav"%string →
           (∀ i : nat, (i < length contents)%nat → path ≠ rec_wav (Z.of_nat i + 1)) →
           st_fs s' !! path = st_fs s !! path)
    end.
Proof.
  intros Habort Hrecycle Hdfl Hbuf Hcount Hfuel Hmax.
  pose proof (chunk_size_le_bytes cfg sample_bytes whole_bytes sample_bytes_pos
                channels_pos chunk_size_pos) as Hcs.
  pose proof (chunk_bytes_whole cfg sample_bytes whole_bytes) as Hcb.
  pose proof (frame_pos cfg sample_bytes sample_bytes_pos channels_pos) as Hframe.
  assert (2 ^ 31 = 2147483648) as Hpow by done.
  assert (∀ m part, 0 < m → part = m * chunk_bytes cfg →
            part / frame * frame = part ∧
            ∀ x, (part + x) / frame * frame = part + x / frame * frame) as Hchunks.
  { intros m part Hm ->. rewrite Hcb.
    replace (m * (chunk_size cfg * frame)) with (m * chunk_size cfg * frame) by lia.
    split; [by rewrite Z.div_mul by lia|]. intros x.
    replace (m * chunk_size cfg * frame + x) with (x + m * chunk_size cfg * frame) by lia.
    rewrite Z.div_add by lia. lia. }
  (* the first file *)
  destruct fuel as [|fuel]; [exfalso; nia|].
  cbn [capture_files].
  erewrite bind_Ret by (apply (open_next_first ops cfg counter_mode)). cbv beta iota.
  set (s1 := set_st_fs (<["rec.wav"%string := []]> (st_fs s)) s).
  destruct (capture_files_turn (S fuel) "rec.wav" count
              (λ count, capture_files ops fl cfg fuel "rec.wav" false "rec.wav" 1 count) s1)
    as (s2 & c1 & p1 & Hturn & Ha2 & Hr2 & Hd2 & Hl2 & Hfs2 & Hp1 & Hm1 & Hlen1);
    try done; try (subst s1; simpl; done).
  { subst s1. simpl. apply lookup_insert_eq. }
  rewrite Hturn. clear Hturn.
  subst s1. simpl in Hd2, Hl2, Hfs2. rewrite insert_insert_eq in Hfs2.
  destruct (Z.ltb_spec p1 count) as [Hless1|Hall1].
  2: { assert (p1 = count) as -> by lia.
       exists s2, [c1]. split; [done|]. split; [done|].
       split; [simpl; by rewrite app_nil_r|]. split; [|done].
       intros i content Hi Hlast. apply lookup_lt_Some in Hi. simpl in *. lia. }
  destruct (Hm1 Hless1) as (m1 & Hm1pos & Hp1m).
  destruct (Hchunks m1 p1 Hm1pos Hp1m) as [Hwhole1 Hadd1].
  (* the second file *)
  destruct fuel as [|fuel]; [exfalso; nia|].
  cbn [capture_files].
  erewrite bind_Ret; cycle 1.
  { apply (open_next_second ops cfg counter_mode "rec.wav" c1).
    rewrite Hfs2. apply lookup_insert_eq. }
  cbv beta iota.
  set (fs2 := <["rec-02.wav"%string := []]>
                (<["rec-01.wav"%string := c1]>
                   (delete "rec.wav"%string (delete "rec-01.wav"%string (st_fs s2))))).
  destruct (capture_files_turn (S fuel) "rec-02.wav" (count - p1)
              (λ count, capture_files ops fl cfg fuel "rec.wav" false "rec-02.wav" 3 count)
              (set_st_fs fs2 s2))
    as (s3 & c2 & p2 & Hturn & Ha3 & Hr3 & Hd3 & Hl3 & Hfs3 & Hp2 & Hm2 & Hlen2);
    [done|done|by simpl; rewrite Hd2|simpl; unfold fs2; apply lookup_insert_eq
    |simpl; by rewrite Hl2|lia| |].
  { assert (chunk_bytes cfg ≤ p1) by nia. lia. }
  rewrite Hturn. clear Hturn.
  simpl in Hd3, Hl3, Hfs3. unfold fs2 in Hfs3. rewrite insert_insert_eq, Hfs2 in Hfs3.
  clear fs2.
  assert (st_fs s3 !! "rec.wav"%string = None) as Hgone.
  { rewrite Hfs3, !lookup_insert_ne by done. apply lookup_delete_eq. }
  assert (st_fs s3 !! "rec-01.wav"%string = Some c1) as Hfirst.
  { rewrite Hfs3, lookup_insert_ne by done. apply lookup_insert_eq. }
  assert (st_fs s3 !! "rec-02.wav"%string = Some c2) as Hsecond.
  { rewrite Hfs3. apply lookup_insert_eq. }
  assert (∀ path, path ≠ "rec.wav"%string → path ≠ "rec-01.wav"%string →
                  path ≠ "rec-02.wav"%string → st_fs s3 !! path = st_fs s !! path)
    as Hrest.
  { intros path H0 H1 H2.
    by rewrite Hfs3, !lookup_insert_ne, !lookup_delete_ne, lookup_insert_ne. }
  destruct (Z.ltb_spec p2 (count - p1)) as [Hless2|Hall2].
  2: { assert (p2 = count - p1) as Hp2all by lia.
       exists s3, [c1; c2]. split; [done|]. split; [done|].
       split; [|split; [|split; [done|split]]].
       - simpl. rewrite app_nil_r, length_app, Nat2Z.inj_add, Hlen1, Hlen2, Hp2all.
         rewrite Hwhole1. replace count with (p1 + (count - p1)) at 2 by lia.
         by rewrite Hadd1.
       - intros [|[|i]] content Hi Hlast; simpl in Hi, Hlast; try lia.
         assert (content = c1) as -> by congruence.
         exists m1. split; [done|]. by rewrite Hlen1, Hwhole1.
       - intros [|[|i]] content Hi; simpl in Hi; try done.
         + by assert (content = c1) as -> by congruence.
         + by assert (content = c2) as -> by congruence.
       - intros path H0 Hpath. apply Hrest; [done|..].
         + apply (Hpath 0%nat). simpl. lia.
         + apply (Hpath 1%nat). simpl. lia. }
  destruct (Hm2 Hless2) as (m2 & Hm2pos & Hp2m).
  destruct (Hchunks m2 p2 Hm2pos Hp2m) as [Hwhole2 Hadd2].
  (* the files after the second *)
  assert (chunk_bytes cfg ≤ p1 ∧ chunk_bytes cfg ≤ p2) as [Hchunk1 Hchunk2] by nia.
  rewrite !Nat2Z.inj_succ in Hfuel.
  destruct (capture_files_later fuel "rec-02.wav" 3 (count - p1 - p2) s3)
    as (s' & contents & Hrun & Ha' & Hsome & Hnum & Hfiles & Hothers & Hwhole & Htotal);
    [done|done|by rewrite Hd3, Hd2|by rewrite Hl3, Hl2|lia|lia|lia|lia|].
  exists s', (c1 :: c2 :: contents). split; [done|]. split; [done|].
  assert (∀ i : nat, (i < length contents)%nat → 0 ≤ 3 + Z.of_nat i < 2 ^ 31) as Hfit
    by (intros i Hi; nia).
  assert (∀ (k : Z) name, 0 ≤ k < 3 → rec_wav k = name →
            st_fs s' !! name = st_fs s3 !! name) as Hkept.
  { intros k name Hk <-. apply Hothers. intros i Hi Heq.
    apply rec_wav_inj in Heq; [lia|lia|by apply Hfit]. }
  split; [|split; [|split; [|split]]].
  - simpl. rewrite !length_app, !Nat2Z.inj_add, Hlen1, Hlen2, Htotal.
    rewrite Hwhole1, Hwhole2.
    replace count with (p1 + (p2 + (count - p1 - p2))) at 2 by lia.
    rewrite Hadd1, Hadd2. lia.
  - intros [|[|i]] content Hi Hlast; simpl in Hi, Hlast.
    + assert (content = c1) as -> by congruence.
      exists m1. split; [done|]. by rewrite Hlen1, Hwhole1.
    + assert (content = c2) as -> by congruence.
      exists m2. split; [done|]. by rewrite Hlen2, Hwhole2.
    + apply (Hwhole i); [done|lia].
  - rewrite Hothers; [done|]. intros i _. apply not_eq_sym, rec_wav_not_orig.
  - intros [|[|i]] content Hi; simpl in Hi.
    + assert (content = c1) as -> by congruence.
      change (rec_wav (Z.of_nat 0 + 1)) with "rec-01.wav"%string.
      by rewrite (Hkept 1 "rec-01.wav"%string).
    + assert (content = c2) as -> by congruence.
      change (rec_wav (Z.of_nat 1 + 1)) with "rec-02.wav"%string.
      by rewrite (Hkept 2 "rec-02.wav"%string).
    + replace (Z.of_nat (S (S i)) + 1) with (3 + Z.of_nat i) by lia.
      by apply Hfiles.
  - intros path H0 Hpath. rewrite Hothers.
    + apply Hrest; [done|..].
      * apply (Hpath 0%nat). simpl. lia.
      * apply (Hpath 1%nat). simpl. lia.
    + intros i Hi. replace (3 + Z.of_nat i) with (Z.of_nat (S (S i)) + 1) by lia.
      apply Hpath. simpl. lia.
Qed.

End CaptureRotation.

(** C4.  Counter-based names for a recording to [rec.wav] that
    [SIGUSR1] rotates.  The recording is one with [--samples], so that
    it ends by itself; no other signal arrives, the device reports no
    fault and every [write] takes something, and there are fewer chunks
    than an [int] counts.  [capture] returns, and [contents] is what it
    has recorded, file by file: every file but the last holds a whole
    number of chunks, and together the files hold the whole frames of
    the count.  A recording that was not rotated is the file [rec.wav].
    Else [rec.wav] does not exist any more, the
    [i]-th file of the recording is [rec-NN.wav] with [NN = i], printed
    with two digits up to 99, and holds the [i]-th content, whatever
    files of these names there were before, and no other path has
    changed. *)
Theorem counter_names_of_rec_wav {E F : Type} (ops : env_ops E)
    (fl : float_ops F) (cfg : config) (sample_bytes : Z) (fuel : nat)
    (s : state E F) :
  physical_width (format cfg) = 8 * sample_bytes → 0 < sample_bytes →
  0 < channels cfg → 0 < chunk_size cfg → chunk_bytes cfg * 8 < 2 ^ 31 →
  (∀ e sig, sig ∈ (signals ops e).1 → sig = SIGUSR1) →
  (∀ e n, 0 < n → 0 < (readi ops e n).1.1 ≤ n) →
  (∀ e n, (sys_write ops e n).1 ≤ n) →
  (∀ e n, 0 < n → 0 < (sys_write ops e n).1) →
  timelimit cfg = 0 →
  0 < sampleslimit cfg → sampleslimit cfg * channels cfg < 2 ^ 32 →
  chunk_size cfg ≠ buffer_size cfg →
  use_strftime cfg = false →
  in_aborting s = false → recycle_capture_file s = false →
  SIGUSR1 ∉ sig_dfl s →
  pbrec_count s = CInt.LLONG_MAX →
  let bytes := sampleslimit cfg * (channels cfg * sample_bytes) in
  let count := bytes + bytes mod 2 in
  count ≤ (Z.of_nat fuel - chunk_size cfg) * chunk_bytes cfg →
  count ≤ (2 ^ 31 - 2) * chunk_bytes cfg →
  ∃ s' contents,
    capture ops fl cfg fuel (Some "rec.wav"%string) s = Ret tt s' ∧
    in_aborting s' = false ∧
    Z.of_nat (length (concat contents))
    = count / (channels cfg * sample_bytes) * (channels cfg * sample_bytes) ∧
    (∀ (i : nat) content, contents !! i = Some content → (S i < length contents)%nat →
       ∃ m, 0 ≤ m ∧ Z.of_nat (length content) = m * chunk_bytes cfg) ∧
    match contents with
    | [] => False
    | [content] => st_fs s' = <["rec.wav"%string := content]> (st_fs s)
    | _ =>
        st_fs s' !! "rec.wav"%string = None ∧
        (∀ (i : nat) content, contents !! i = Some content →
           st_fs s' !! rec_wav (Z.of_nat i + 1) = Some content) ∧
        (∀ path, path ≠ "rec.wav"%string →
           (∀ i : nat, (i < length contents)%nat → path ≠ rec_wav (Z.of_nat i + 1)) →
           st_fs s' !! path = st_fs s !! path)
    end.
Proof.
  intros Hwhole Hsb Hch Hcs Hbits Hsig Hdev Hwb Hws Htime Hn Hmax Hperiod Hmode
    Habort Hrecycle Hdfl Hpbrec bytes count Hfuel Hfiles.
  pose proof (chunk_size_le_bytes cfg sample_bytes Hwhole Hsb Hch Hcs) as Hcsb.
  pose proof (chunk_bytes_whole cfg sample_bytes Hwhole) as Hcb.
  pose proof (frame_pos cfg sample_bytes Hsb Hch) as Hframe.
  assert (0 < bytes) as Hbytes by (unfold bytes; nia).
  assert (bytes < 2 ^ 32 * 2 ^ 28) as Hbytes_max.
  { unfold bytes.
    assert (sample_bytes < 2 ^ 28) by nia.
    replace (sampleslimit cfg * (channels cfg * sample_bytes))
      with (sampleslimit cfg * channels cfg * sample_bytes) by lia.
    nia. }
  change (2 ^ 32 * 2 ^ 28) with 1152921504606846976 in Hbytes_max.
  unfold capture, calc_count.
  erewrite bind_Ret; cycle 1.
  { erewrite bind_Ret by reflexivity. reflexivity. }
  rewrite Htime, Hpbrec. cbn [Z.eqb].
  destruct (Z.eqb_spec (sampleslimit cfg) 0) as [?|_]; [lia|].
  assert (snd_pcm_format_size (format cfg)
            (CInt.unsigned 32 (sampleslimit cfg * channels cfg)) = bytes) as ->.
  { unfold snd_pcm_format_size, CInt.unsigned. rewrite Z.mod_small by nia.
    rewrite Hwhole.
    replace (sampleslimit cfg * channels cfg * (8 * sample_bytes))
      with (bytes * 8) by (unfold bytes; lia).
    rewrite Z.div_mul by lia. apply ssize_t_small. unfold CInt.SSIZE_MAX. lia. }
  assert ((bytes <? CInt.LLONG_MAX) = true) as ->
    by (apply Z.ltb_lt; unfold CInt.LLONG_MAX; lia).
  destruct (Z.eqb_spec bytes 0) as [?|_]; [lia|].
  assert ((bytes <? CInt.LLONG_MAX) = true) as ->
    by (apply Z.ltb_lt; unfold CInt.LLONG_MAX; lia).
  rewrite Z.rem_mod_nonneg by lia. fold count.
  change (String.eqb "rec.wav" "-") with false.
  erewrite bind_Ret by reflexivity.
  unfold header, set_params.
  destruct (Z.eqb_spec (chunk_size cfg) (buffer_size cfg)) as [?|_]; [done|].
  cbv [when fprintf_stderr bind modify ret]. cbn [default].
  unfold id.
  assert (0 < count) as Hcount.
  { pose proof (Z.mod_pos_bound bytes 2 ltac:(lia)). unfold count. lia. }
  assert (sampleslimit cfg ≠ 0) as Hlimit by lia.
  destruct (negb (quiet_mode cfg)); cbv beta iota.
  all: match goal with
       | |- ∃ s' contents, capture_files _ _ _ _ _ _ _ _ _ ?s0 = _ ∧ _ => set (s1 := s0)
       end.
  all: destruct (capture_files_rotates ops fl cfg sample_bytes Hwhole Hsb Hch Hcs Hbits
                   Hsig Hdev Hwb Hws Hmode Hlimit fuel count s1)
         as (s' & contents & Hrun & Ha & Htotal & Hchunks & Hnames);
       try done; try (subst s1; simpl; rewrite length_resize; lia).
  all: exists s', contents; split; [exact Hrun|].
  all: split; [done|]; split; [done|]; split.
  1, 3: intros i content Hi Hlast; destruct (Hchunks i content Hi Hlast) as (m & Hm & Hlen);
    exists m; split; [lia|done].
  all: destruct contents as [|c1 [|c2 contents]]; [done|exact Hnames|exact Hnames].
Qed.

(** Twelve samples of 8-bit mono in chunks of four, with [SIGUSR1]
    during the [write] of the first chunk and of the second one, and
    with files of the names [rec-01.wav] and [rec-03.wav] in the way. *)
Lemma counter_names_of_rec_wav_witness :
  ∃ s' contents,
    capture Rotating.ops Script.floats (record_samples Script.U8 1 4 12) 20
      (Some "rec.wav"%string)
      (Rotating.initial (Rotating.Env 4 1 [false; true; false; true])
         {[ "rec-01.wav"%string := [x01]; "rec-03.wav"%string := [x02; x03];
            "take.raw"%string := [x09] ]})
    = Ret tt s' ∧
    Z.of_nat (length (concat contents)) = 12 ∧
    match contents with
    | [] => False
    | [content] => st_fs s' !! "rec.wav"%string = Some content
    | _ =>
        st_fs s' !! "rec.wav"%string = None ∧
        (∀ (i : nat) content, contents !! i = Some content →
           st_fs s' !! rec_wav (Z.of_nat i + 1) = Some content) ∧
        st_fs s' !! "take.raw"%string = Some [x09]
    end.
Proof.
  destruct (counter_names_of_rec_wav Rotating.ops Script.floats
              (record_samples Script.U8 1 4 12) 1 20
              (Rotating.initial (Rotating.Env 4 1 [false; true; false; true])
                 {[ "rec-01.wav"%string := [x01]; "rec-03.wav"%string := [x02; x03];
                    "take.raw"%string := [x09] ]}))
    as (s' & contents & Hrun & _ & Htotal & _ & Hnames).
  - reflexivity.
  - lia.
  - simpl; lia.
  - simpl; lia.
  - by vm_compute.
  - intros e sig. simpl. destruct (Rotating.usr1 e) as [|[] later]; simpl.
    + by intros ?%elem_of_nil.
    + by intros ->%list_elem_of_singleton.
    + by intros ?%elem_of_nil.
  - intros e n Hn. simpl. lia.
  - intros e n. simpl. lia.
  - intros e n Hn. simpl. lia.
  - reflexivity.
  - simpl; lia.
  - by vm_compute.
  - discriminate.
  - reflexivity.
  - reflexivity.
  - reflexivity.
  - simpl. apply not_elem_of_nil.
  - reflexivity.
  - by vm_compute.
  - by vm_compute.
  - exists s', contents. split; [exact Hrun|]. split; [exact Htotal|].
    destruct contents as [|c1 [|c2 contents]]; [done| |].
    + rewrite Hnames. apply lookup_insert_eq.
    + destruct Hnames as (Hgone & Hfiles & Hothers).
      split; [exact Hgone|]. split; [exact Hfiles|].
      rewrite Hothers; [reflexivity|discriminate|].
      intros i _. discriminate.
Defined.

(** The same recording, run: three files of one chunk each. *)
Lemma recording_of_three_chunks_rotated_twice :
  match
    capture Rotating.ops Script.floats (record_samples Script.U8 1 4 12) 20
      (Some "rec.wav"%string)
      (Rotating.initial (Rotating.Env 4 1 [false; true; false; true])
         {[ "rec-01.wav"%string := [x01]; "rec-03.wav"%string := [x02; x03];
            "take.raw"%string := [x09] ]})
  with
  | Ret _ s' =>
      st_fs s' = {[ "rec-01.wav"%string := replicate 4 x2a;
                    "rec-02.wav"%string := replicate 4 x2a;
                    "rec-03.wav"%string := replicate 4 x2a;
                    "take.raw"%string := [x09] ]}
  | _ => False
  end.
Proof. by vm_compute. Qed.

(** ** Signals after the first *)

Section SignalsAfterTheFirst.
Context {E F : Type} (cfg : config).

(** Once the program is aborting with [sig] back at its default action,
    [sig] ends the process and every other signal leaves the two alone:
    [signal_handler] returns at its first line, before it gets to its
    [signal(sig, SIG_DFL)]. *)
Lemma deliver_all_aborting (sig : signal) (sigs : list signal) (s : state E F) :
  in_aborting s = true → sig_dfl s = [sig] →
  match deliver_all cfg sigs s with
  | Ret _ s' => (sig ∉ sigs) ∧ in_aborting s' = true ∧ sig_dfl s' = [sig] ∧
                pcm_log s' = pcm_log s
  | Killed sig' s' => sig' = sig ∧ sig ∈ sigs ∧ pcm_log s' = pcm_log s
  | Exit _ _ | Stuck => False
  end.
Proof.
  revert s. induction sigs as [|sig' sigs IH]; intros s Habort Hdfl.
  - simpl. split; [apply not_elem_of_nil|done].
  - cbn [deliver_all]. unfold bind at 1. unfold deliver.
    unfold bind at 1. unfold get. rewrite Hdfl.
    destruct (decide (sig' ∈ [sig])) as [Hin|Hout].
    + apply list_elem_of_singleton in Hin as ->.
      split; [done|]. split; [left|done].
    + assert (sig' ≠ sig) as Hne by (by intros ->; apply Hout; left).
      assert (∃ s1, (if decide (sig' = SIGUSR1) then signal_handler_recycle
                     else signal_handler cfg sig') s = Ret tt s1 ∧
                    in_aborting s1 = true ∧ sig_dfl s1 = [sig] ∧
                    pcm_log s1 = pcm_log s) as (s1 & -> & Ha1 & Hd1 & Hl1).
      { destruct (decide (sig' = SIGUSR1)).
        - eexists. split; [reflexivity|]. done.
        - exists s. unfold signal_handler, bind, get. by rewrite Habort. }
      specialize (IH s1 Ha1 Hd1).
      destruct (deliver_all cfg sigs s1) as [[] s'|?|sig'' s'|]; try done.
      * destruct IH as (Hnot & ? & ? & ?).
        split; [|split; [done|split; [done|congruence]]].
        by apply not_elem_of_cons.
      * destruct IH as (-> & Hin & ?).
        split; [done|]. split; [by right|congruence].
Qed.

End SignalsAfterTheFirst.

Lemma deliver_all_first_signal {E F : Type} (cfg : config) (sig : signal)
    (sigs : list signal) (s : state E F) :
  sig = SIGINT ∨ sig = SIGTERM →
  in_aborting s = false → sig_dfl s = [] → handle s = true →
  match deliver_all cfg (sig :: sigs) s with
  | Ret _ s' => (sig ∉ sigs) ∧ in_aborting s' = true ∧
                pcm_log s' = pcm_log s ++ [Pcm_abort]
  | Killed sig' s' => sig' = sig ∧ sig ∈ sigs ∧
                      pcm_log s' = pcm_log s ++ [Pcm_abort]
  | Exit _ _ | Stuck => False
  end.
Proof.
  intros Hsig Habort Hdfl Hhandle.
  cbn [deliver_all]. unfold bind at 1. unfold deliver.
  unfold bind at 1. unfold get. rewrite Hdfl.
  destruct (decide (sig ∈ [])) as [Hin|_]; [by apply not_elem_of_nil in Hin|].
  destruct (decide (sig = SIGUSR1)) as [->|_]; [by destruct Hsig|].
  assert (∃ s1, signal_handler cfg sig s = Ret tt s1 ∧
                in_aborting s1 = true ∧ sig_dfl s1 = [sig] ∧
                pcm_log s1 = pcm_log s ++ [Pcm_abort]) as (s1 & -> & Ha1 & Hd1 & Hl1).
  { unfold signal_handler. cbv [bind get modify when ret putchar fprintf_stderr pcm].
    rewrite Habort, Hhandle.
    destruct (decide (sig = SIGABRT)) as [->|_]; [by destruct Hsig|].
    destruct (verbose cfg =? 2), (negb (quiet_mode cfg)); simpl;
      eexists; (split; [reflexivity|]); simpl; by rewrite ?Hdfl. }
  pose proof (deliver_all_aborting cfg sig sigs s1 Ha1 Hd1) as Hrest.
  destruct (deliver_all cfg sigs s1) as [[] s'|?|sig'' s'|]; try done.
  - destruct Hrest as (? & ? & ? & ?). split; [done|]. split; [done|congruence].
  - destruct Hrest as (? & ? & ?). split; [done|]. split; [done|congruence].
Qed.

(** X11. The first [SIGINT] or [SIGTERM] starts the abort, and of the signals
    that follow only the same one counts: when it comes again the
    process is killed by it, and without it the program goes on in the
    aborting state.  [SIGABRT], [SIGUSR1] and the other of the two are
    then without effect on the abort: [snd_pcm_abort] is called once. *)
Theorem second_signal_of_a_kind_kills {E F : Type} (cfg : config) (sig : signal)
    (sigs : list signal) (s : state E F) :
  sig = SIGINT ∨ sig = SIGTERM →
  in_aborting s = false → sig_dfl s = [] → handle s = true →
  ∃ s',
    pcm_log s' = pcm_log s ++ [Pcm_abort] ∧
    if decide (sig ∈ sigs) then deliver_all cfg (sig :: sigs) s = Killed sig s'
    else deliver_all cfg (sig :: sigs) s = Ret tt s' ∧ in_aborting s' = true.
Proof.
  intros Hsig Habort Hdfl Hhandle.
  pose proof (deliver_all_first_signal cfg sig sigs s Hsig Habort Hdfl Hhandle) as H.
  destruct (deliver_all cfg (sig :: sigs) s) as [[] s'|?|sig' s'|]; try done.
  - destruct H as (? & ? & ?). exists s'. split; [done|].
    by destruct (decide (sig ∈ sigs)).
  - destruct H as (-> & ? & ?). exists s'. split; [done|].
    by destruct (decide (sig ∈ sigs)).
Qed.

(** An example: [SIGINT], then [SIGTERM] and [SIGABRT], then [SIGINT]
    again. *)
Lemma second_signal_of_a_kind_kills_witness :
  ∃ s',
    pcm_log s' = [Pcm_abort] ∧
    deliver_all (Script.play Script.U8 1 4) [SIGINT; SIGTERM; SIGABRT; SIGINT]
      (Script.initial (Script.quiet 1 x00) ∅ [])
    = Killed SIGINT s'.
Proof.
  apply (second_signal_of_a_kind_kills (Script.play Script.U8 1 4) SIGINT
           [SIGTERM; SIGABRT; SIGINT] (Script.initial (Script.quiet 1 x00) ∅ []));
    [by left|reflexivity..].
Defined.

(** ** [create_path] *)

Lemma skip_app (pre suf : string) : skip (String.length pre) (pre +:+ suf) = suf.
Proof.
  induction pre as [|a pre IH]; [by destruct suf|].
  change (String a pre +:+ suf)%string with (String a (pre +:+ suf)). apply IH.
Qed.

Lemma app_empty_r (s : string) : (s +:+ "")%string = s.
Proof.
  induction s as [|a s IH]; [done|].
  change (String a s +:+ "")%string with (String a (s +:+ "")). by rewrite IH.
Qed.

Lemma app_snoc (pre : string) (a : ascii) (suf : string) :
  (pre +:+ String a suf = (pre +:+ String a "") +:+ suf)%string.
Proof. by rewrite append_assoc. Qed.

Lemma length_snoc (pre : string) (a : ascii) :
  String.length (pre +:+ String a "") = S (String.length pre).
Proof. rewrite string_length_app. simpl. lia. Qed.

Section CreatePathProperties.
Context {D : Type} (mkdir : D → string → option Z * D).

(** Every [mkdir] makes its directory or finds it there. *)
Hypothesis mkdir_ok : ∀ d p, (mkdir d p).1 = None ∨ (mkdir d p).1 = Some EEXIST.

(** The loop from the first slash of [suf] on, in the path [pre ++ suf]:
    one [mkdir] for every slash of [suf], with the text before it. *)
Lemma create_path_loop_calls (fuel : nat) (pre suf : string) (d : D) :
  (String.length suf ≤ fuel)%nat →
  ∃ calls d',
    create_path_loop mkdir fuel (pre +:+ suf)
      (strchr_from suf "/" (String.length pre)) d = Some (0, calls, d') ∧
    (∀ p, p ∈ calls ↔ ∃ s1 s2, suf = (s1 +:+ "/" +:+ s2)%string ∧ p = (pre +:+ s1)%string) ∧
    Forall (λ p, (String.length pre ≤ String.length p)%nat) calls ∧
    StronglySorted (λ p q, (String.length p < String.length q)%nat) calls.
Proof.
  revert fuel pre d. induction suf as [|a suf IH]; intros fuel pre d Hfuel.
  - exists [], d. split; [by destruct fuel|]. split; [|split; constructor].
    intros p. split; [by intros ?%not_elem_of_nil|].
    intros (s1 & s2 & Heq & _). destruct s1; discriminate Heq.
  - destruct fuel as [|fuel]; [simpl in Hfuel; lia|].
    cbn [strchr_from]. destruct (Ascii.eqb_spec a "/") as [->|Hne].
    + cbn [create_path_loop].
      rewrite substring_app_l.
      pose proof (mkdir_ok d pre) as Hok.
      destruct (mkdir d pre) as [err d1]. simpl in Hok.
      assert (match err with
              | Some errno => negb (errno =? EEXIST)
              | None => false
              end = false) as ->.
      { destruct Hok as [->| ->]; [done|]. by rewrite Z.eqb_refl. }
      unfold strchr_at.
      rewrite (app_snoc pre "/" suf), <- (length_snoc pre "/"), skip_app.
      destruct (IH fuel (pre +:+ "/")%string d1) as (calls & d' & -> & Hcalls & Hlen & Hsorted).
      { simpl in Hfuel. lia. }
      exists (pre :: calls), d'. split; [done|]. split; [|split].
      * intros p. rewrite elem_of_cons, Hcalls. split.
        -- intros [->|(s1 & s2 & -> & ->)].
           ++ exists EmptyString, suf. split; [done|]. by rewrite app_empty_r.
           ++ exists (String "/" s1), s2. split; [done|]. by rewrite <- app_snoc.
        -- intros (s1 & s2 & Heq & ->). destruct s1 as [|b s1].
           ++ left. apply app_empty_r.
           ++ right. injection Heq as <- ->. exists s1, s2. split; [done|].
              by rewrite <- app_snoc.
      * constructor; [lia|].
        eapply Forall_impl; [exact Hlen|]. intros p. rewrite length_snoc. lia.
      * constructor; [done|].
        eapply Forall_impl; [exact Hlen|]. intros p. rewrite length_snoc. lia.
    + rewrite (app_snoc pre a suf), <- (length_snoc pre a).
      destruct (IH (S fuel) (pre +:+ String a "")%string d) as (calls & d' & -> & Hcalls & Hlen & Hsorted).
      { simpl in Hfuel. lia. }
      exists calls, d'. split; [done|]. split; [|split; [|done]].
      * intros p. rewrite Hcalls. split.
        -- intros (s1 & s2 & -> & ->). exists (String a s1), s2. split; [done|].
           by rewrite <- app_snoc.
        -- intros (s1 & s2 & Heq & ->). destruct s1 as [|b s1].
           ++ injection Heq as -> _. done.
           ++ injection Heq as <- ->. exists s1, s2. split; [done|].
              by rewrite <- app_snoc.
      * eapply Forall_impl; [exact Hlen|]. intros p. rewrite length_snoc. lia.
Qed.

End CreatePathProperties.

(** X16. [create_path] works like [mkdir -p] on the directories above the
    file: when every [mkdir] makes its directory or finds it there, the
    value is 0 and [mkdir] is called, shortest first, with each text that
    is not empty and is followed by a slash in [path].  Nothing is made
    for the text after the last slash, and nothing at all for a path
    without a slash behind its first character. *)
Theorem create_path_makes_every_ancestor {D : Type} (mkdir : D → string → option Z * D)
    (path : string) (d : D) :
  (∀ d p, (mkdir d p).1 = None ∨ (mkdir d p).1 = Some EEXIST) →
  ∃ calls d',
    create_path mkdir path d = Some (0, calls, d') ∧
    (∀ p, p ∈ calls ↔
          p ≠ EmptyString ∧ ∃ rest, path = (p +:+ "/" +:+ rest)%string) ∧
    StronglySorted (λ p q, (String.length p < String.length q)%nat) calls.
Proof.
  intros Hok. unfold create_path.
  destruct path as [|a path].
  - exists [], d. split; [done|]. split; [|constructor].
    intros p. split; [by intros ?%not_elem_of_nil|].
    intros (_ & rest & Heq). destruct p; discriminate Heq.
  - cbn [String.get]. destruct (Ascii.eqb_spec a "/") as [->|Hne].
    + unfold strchr_at. cbn [skip].
      destruct (create_path_loop_calls mkdir Hok (String.length (String "/" path))
                  "/" path d) as (calls & d' & Hrun & Hcalls & _ & Hsorted).
      { simpl. lia. }
      exists calls, d'. split; [exact Hrun|]. split; [|done].
      intros p. rewrite Hcalls. split.
      * intros (s1 & s2 & -> & ->). split; [done|]. by exists s2.
      * intros (Hp & rest & Heq). destruct p as [|b p]; [done|].
        injection Heq as <- ->. by exists p, rest.
    + assert (match a with
              | "/"%char => strchr_at (String a path) 1 "/"
              | _ => strchr_at (String a path) 0 "/"
              end = strchr_from (String a path) "/" 0) as ->.
      { unfold strchr_at. cbn [skip].
        destruct a as [[] [] [] [] [] [] [] []]; try done. }
      destruct (create_path_loop_calls mkdir Hok (String.length (String a path))
                  "" (String a path) d) as (calls & d' & Hrun & Hcalls & _ & Hsorted).
      { lia. }
      exists calls, d'. split; [exact Hrun|]. split; [|done].
      intros p. rewrite Hcalls. split.
      * intros (s1 & s2 & Heq & ->). split; [|by exists s2].
        destruct s1; [|done]. injection Heq as -> _. done.
      * intros (Hp & rest & Heq). by exists p, rest.
Qed.

(** An example: the directories above [out/2026/take.raw], in a file
    system that is the list of the directories made. *)
Lemma create_path_makes_every_ancestor_witness :
  ∃ calls d',
    create_path (λ (d : list string) p, (None, d ++ [p])) "out/2026/take.raw" []
    = Some (0, calls, d') ∧
    (∀ p, p ∈ calls ↔
          p ≠ EmptyString ∧ ∃ rest, "out/2026/take.raw"%string = (p +:+ "/" +:+ rest)%string) ∧
    StronglySorted (λ p q, (String.length p < String.length q)%nat) calls.
Proof.
  apply (create_path_makes_every_ancestor
           (λ (d : list string) p, (None, d ++ [p])) "out/2026/take.raw" []).
  intros d p. left. reflexivity.
Defined.

(** ** The channel map that [setup_chmap] computes *)

Section ChannelMap.
Variables chmap hw : list Z.

(** At its [break] the search is at a hardware channel that is not
    taken and has the position looked for. *)
Lemma chmap_find_found (pos : Z) (mapped : list bool) (i todo j : nat) :
  chmap_find pos hw mapped i todo = Some (Some j) →
  (i ≤ j < i + todo)%nat ∧ mapped !! j = Some false ∧ hw !! j = Some pos.
Proof.
  revert i. induction todo as [|todo IH]; intros i Hfind; [done|].
  cbn [chmap_find] in Hfind.
  destruct (mapped !! i) as [m|] eqn:Hm; [|done].
  destruct (hw !! i) as [h|] eqn:Hh; [|done].
  destruct (negb m && (pos =? h)) eqn:Hhit.
  - simplify_eq. apply andb_true_iff in Hhit as [Hm' Hpos%Z.eqb_eq].
    destruct m; [done|]. subst h. split; [lia|done].
  - apply IH in Hfind as (? & ? & ?). split; [lia|done].
Qed.

(** The search finds a channel when there is one. *)
Lemma chmap_find_finds (pos : Z) (mapped : list bool) (i todo j : nat) :
  (i + todo ≤ length mapped)%nat → (i + todo ≤ length hw)%nat →
  (i ≤ j < i + todo)%nat → mapped !! j = Some false → hw !! j = Some pos →
  ∃ k, chmap_find pos hw mapped i todo = Some (Some k).
Proof.
  revert i. induction todo as [|todo IH]; intros i Hmapped Hhw Hj Hfree Hpos; [lia|].
  cbn [chmap_find].
  destruct (lookup_lt_is_Some_2 mapped i ltac:(lia)) as [m Hm].
  destruct (lookup_lt_is_Some_2 hw i ltac:(lia)) as [h Hh].
  rewrite Hm, Hh.
  destruct (negb m && (pos =? h)) eqn:Hhit; [by eexists|].
  destruct (decide (j = i)) as [->|Hne].
  - simplify_eq. simpl in Hhit. by rewrite Z.eqb_refl in Hhit.
  - apply IH; [lia..|done|done].
Qed.

Lemma chmap_loop_matched (mapped : list bool) (hw_map m : list nat) (ch todo : nat) :
  chmap_loop chmap hw mapped hw_map ch todo = Chmap_ok m →
  length hw_map = length chmap →
  matched chmap hw hw_map ch →
  length m = length chmap ∧ matched chmap hw m (ch + todo).
Proof.
  revert mapped hw_map ch.
  induction todo as [|todo IH]; intros mapped hw_map ch Hloop Hlen Hinv.
  - simpl in Hloop. simplify_eq. by rewrite Nat.add_0_r.
  - cbn [chmap_loop] in Hloop.
    destruct (chmap !! ch) as [c|] eqn:Hc; [|done].
    destruct (hw !! ch) as [h|] eqn:Hh; [|done].
    assert (ch < length hw_map)%nat as Hch.
    { rewrite Hlen. by eapply lookup_lt_Some. }
    assert (∀ i, (i < length hw)%nat → hw !! i = Some c →
                 matched chmap hw (<[ch := i]> hw_map) (S ch))%nat as Hstep.
    { intros i Hi Hpos c' Hc'. destruct (decide (c' = ch)) as [->|Hne].
      - exists i. rewrite list_lookup_insert_eq by done. by rewrite Hc.
      - destruct (Hinv c' ltac:(lia)) as (i' & ? & ? & ?). exists i'.
        by rewrite list_lookup_insert_ne by done. }
    replace (ch + S todo)%nat with (S ch + todo)%nat by lia.
    destruct (Z.eqb_spec c h) as [->|Hne].
    + apply IH in Hloop; [done|by rewrite length_insert|].
      apply Hstep; [by eapply lookup_lt_Some|done].
    + destruct (chmap_find c hw mapped 0 (length hw)) as [[i|]|] eqn:Hfind; try done.
      apply chmap_find_found in Hfind as (Hi & _ & Hpos).
      apply IH in Hloop; [done|by rewrite length_insert|].
      apply Hstep; [lia|done].
Qed.

Hypothesis chmap_NoDup : NoDup chmap.
Hypothesis same_positions : chmap ≡ₚ hw.

Lemma chmap_loop_succeeds (mapped : list bool) (hw_map : list nat) (ch todo : nat) :
  length mapped = length chmap → (ch + todo)%nat = length hw →
  taken chmap hw mapped ch →
  ∃ m, chmap_loop chmap hw mapped hw_map ch todo = Chmap_ok m.
Proof.
  pose proof (Permutation_length same_positions) as Hsame.
  revert mapped hw_map ch.
  induction todo as [|todo IH]; intros mapped hw_map ch Hmapped Htodo Htaken.
  { by eexists. }
  cbn [chmap_loop].
  destruct (lookup_lt_is_Some_2 chmap ch ltac:(lia)) as [c Hc].
  destruct (lookup_lt_is_Some_2 hw ch ltac:(lia)) as [h Hh].
  rewrite Hc, Hh.
  assert (∀ i, hw !! i = Some c → taken chmap hw (<[i := true]> mapped) (S ch)) as Hstep.
  { intros i Hpos i' Hi'. destruct (decide (i' = i)) as [->|Hne].
    - exists ch. split; [lia|congruence].
    - rewrite list_lookup_insert_ne in Hi' by done.
      destruct (Htaken i' Hi') as (c' & ? & ?). exists c'. split; [lia|done]. }
  destruct (Z.eqb_spec c h) as [->|Hne].
  - apply IH; [by rewrite length_insert|lia|by apply Hstep].
  - assert (c ∈ hw) as Hin.
    { rewrite <- same_positions. by eapply list_elem_of_lookup_2. }
    apply list_elem_of_lookup_1 in Hin as [j Hj].
    assert (mapped !! j = Some false) as Hfree.
    { destruct (lookup_lt_is_Some_2 mapped j) as [[] Hm]; [|exfalso|done].
      - apply lookup_lt_Some in Hj. lia.
      - destruct (Htaken j Hm) as (c' & Hc' & Heq).
        rewrite Hj in Heq.
        assert (c' = ch); [|lia].
        by eapply NoDup_lookup. }
    destruct (chmap_find_finds c mapped 0 (length hw) j) as [k Hfind];
      [lia|lia| |done|done|].
    { apply lookup_lt_Some in Hj. lia. }
    rewrite Hfind. apply chmap_find_found in Hfind as (_ & _ & Hk).
    apply IH; [by rewrite length_insert|lia|by apply Hstep].
Qed.

End ChannelMap.

(** X21. When [setup_chmap] returns 0 with a map, [hw_map] has an entry for
    each channel of [hwparams], and the entry of every channel the
    hardware map has is a hardware channel with the position the
    [--chmap] option gives that channel. *)
Theorem setup_chmap_maps_positions (chmap hw : list Z) (channels err : Z)
    (hw_map : list nat) (log : list event) :
  setup_chmap (Some chmap) channels err (Some hw) = Some (0, Some hw_map, log) →
  length hw_map = length chmap ∧
  ∀ ch, (ch < length hw)%nat →
        ∃ i, hw_map !! ch = Some i ∧ (i < length hw)%nat ∧ hw !! i = chmap !! ch.
Proof.
  unfold setup_chmap. intros Hsetup.
  destruct (Z.eqb_spec (Z.of_nat (length chmap)) channels) as [Hn|?]; [|done].
  cbn [negb] in Hsetup.
  destruct (err =? 0); [done|].
  destruct (bool_decide (hw = chmap)); [done|].
  destruct (chmap_loop _ _ _ _ _ _) as [m| |] eqn:Hloop; try done.
  simplify_eq.
  apply chmap_loop_matched in Hloop as [Hlen Hm].
  - split; [done|]. intros ch Hch. by apply Hm.
  - rewrite length_replicate. lia.
  - intros c Hc. lia.
Qed.

(** An example: the file has the channels FL FR FC (3 4 7) and the
    hardware FC FL FR. *)
Lemma setup_chmap_maps_positions_witness :
  length [1; 2; 0]%nat = length [3; 4; 7] ∧
  ∀ ch, (ch < length [7; 3; 4])%nat →
        ∃ i, [1; 2; 0]%nat !! ch = Some i ∧ (i < length [7; 3; 4])%nat ∧
             [7; 3; 4] !! i = [3; 4; 7] !! ch.
Proof.
  apply (setup_chmap_maps_positions [3; 4; 7] [7; 3; 4] 3 (-1) [1; 2; 0]%nat []).
  reflexivity.
Defined.

(** X22. When the two maps have the same positions, each once, and are not
    the same map, [setup_chmap] finds a place for every channel: it
    returns 0 without a message, and [hw_map] is a permutation of the
    channel numbers that takes each channel to the hardware channel of
    its position. *)
Theorem setup_chmap_of_permutation (chmap hw : list Z) (err : Z) :
  NoDup chmap → chmap ≡ₚ hw → hw ≠ chmap → err ≠ 0 →
  ∃ hw_map,
    setup_chmap (Some chmap) (Z.of_nat (length chmap)) err (Some hw)
    = Some (0, Some hw_map, []) ∧
    hw_map ≡ₚ seq 0 (length chmap) ∧
    ∀ ch i, hw_map !! ch = Some i → hw !! i = chmap !! ch.
Proof.
  intros Hnodup Hperm Hdiff Herr.
  pose proof (Permutation_length Hperm) as Hsame.
  destruct (chmap_loop_succeeds chmap hw Hnodup Hperm
              (replicate (length chmap) false) (replicate (length chmap) 0%nat)
              0 (length hw)) as [m Hloop].
  { by rewrite length_replicate. }
  { done. }
  { intros i Hi. apply lookup_replicate in Hi as [? _]. done. }
  assert (setup_chmap (Some chmap) (Z.of_nat (length chmap)) err (Some hw)
          = Some (0, Some m, [])) as Hsetup.
  { unfold setup_chmap. rewrite Z.eqb_refl. cbn [negb].
    destruct (Z.eqb_spec err 0) as [?|_]; [done|].
    rewrite bool_decide_eq_false_2 by done.
    by rewrite Nat2Z.id, Hloop. }
  destruct (chmap_loop_matched chmap hw _ _ m 0 (length hw) Hloop) as [Hlen Hm].
  { by rewrite length_replicate. }
  { intros c Hc. lia. }
  assert (∀ ch i, m !! ch = Some i → (i < length hw)%nat ∧ hw !! i = chmap !! ch)
    as Hsound.
  { intros ch i Hi.
    destruct (Hm ch) as (i' & Hi' & ? & ?).
    - apply lookup_lt_Some in Hi. lia.
    - by simplify_eq. }
  assert (NoDup m) as Hinj.
  { apply NoDup_alt. intros a b i Ha Hb.
    destruct (Hsound a i Ha) as [_ Ha']. destruct (Hsound b i Hb) as [_ Hb'].
    destruct (lookup_lt_is_Some_2 chmap a) as [c Hc].
    { apply lookup_lt_Some in Ha. lia. }
    eapply NoDup_lookup; [exact Hnodup|exact Hc|congruence]. }
  exists m. split; [done|]. split.
  - assert (m ⊆ seq 0 (length chmap)) as Hsub.
    { intros i [ch Hi]%list_elem_of_lookup_1.
      apply elem_of_seq. destruct (Hsound ch i Hi). lia. }
    apply submseteq_length_Permutation; [by apply NoDup_submseteq|].
    rewrite length_seq, Hlen. lia.
  - intros ch i Hi. by apply Hsound.
Qed.

(** An example: the file has the channels FL FR FC (3 4 7) and the
    hardware FC FL FR. *)
Lemma setup_chmap_of_permutation_witness :
  ∃ hw_map,
    setup_chmap (Some [3; 4; 7]) (Z.of_nat (length [3; 4; 7])) (-1) (Some [7; 3; 4])
    = Some (0, Some hw_map, []) ∧
    hw_map ≡ₚ seq 0 (length [3; 4; 7]) ∧
    ∀ ch i, hw_map !! ch = Some i → [7; 3; 4] !! i = [3; 4; 7] !! ch.
Proof.
  apply (setup_chmap_of_permutation [3; 4; 7] [7; 3; 4] (-1)).
  - by apply (bool_decide_unpack _).
  - symmetry. apply (Permutation_cons_append [3; 4] 7).
  - discriminate.
  - discriminate.
Defined.

(** ** What [remap_data] puts in its buffer *)

Section RemapData.
Variables (hw_map : list nat) (sample_bytes : nat).

Lemma remap_frame_samples (src : list byte) (ch todo : nat) (dst : list byte) :
  (ch + todo ≤ length hw_map)%nat →
  (∀ m, m ∈ hw_map → sample_bytes * m + sample_bytes ≤ length src)%nat →
  remap_frame hw_map sample_bytes src ch todo dst
  = Some (dst ++ concat (map (sample_at sample_bytes src) (take todo (drop ch hw_map)))).
Proof.
  intros Hlen Hsrc. revert ch dst Hlen.
  induction todo as [|todo IH]; intros ch dst Hlen.
  - simpl. by rewrite app_nil_r.
  - cbn [remap_frame].
    destruct (lookup_lt_is_Some_2 hw_map ch ltac:(lia)) as [m Hm].
    rewrite Hm. unfold read_bytes.
    rewrite decide_True by (apply Hsrc; by eapply list_elem_of_lookup_2).
    rewrite IH by lia.
    rewrite (drop_S _ _ _ Hm). simpl. by rewrite <- (assoc_L (++)).
Qed.

Lemma remap_frames_samples (step : nat) (src : list byte) (todo : nat) (dst : list byte) :
  (∀ m, m ∈ hw_map → sample_bytes * m + sample_bytes ≤ step)%nat →
  (todo * step ≤ length src)%nat →
  remap_frames hw_map sample_bytes step (length hw_map) src todo dst
  = Some (dst ++ concat (map (λ i, concat (map (sample_at sample_bytes (drop (i * step) src)) hw_map))
                           (seq 0 todo))).
Proof.
  intros Hstep. revert src dst.
  induction todo as [|todo IH]; intros src dst Hsrc.
  - simpl. by rewrite app_nil_r.
  - cbn [remap_frames].
    rewrite remap_frame_samples; [|simpl; lia|].
    2: { intros m Hm. specialize (Hstep m Hm). lia. }
    rewrite drop_0, firstn_all.
    rewrite IH by (rewrite length_drop; lia).
    rewrite <- (assoc_L (++)). do 2 f_equal.
    cbn [seq map concat]. rewrite drop_0. f_equal.
    rewrite <- seq_shift, map_map. f_equal.
    apply map_ext. intros i. f_equal. apply map_ext. intros m.
    rewrite drop_drop; repeat f_equal; lia.
Qed.

End RemapData.

(** X23. With a map from [setup_chmap], [remap_data] makes a buffer of the
    same [count] frames in which the sample of channel [ch] is, frame by
    frame, the sample of channel [hw_map[ch]] of the data; without a map
    it returns the data.  Samples are whole bytes, the map has an entry
    below [channels] for each channel, and the data holds the frames. *)
Theorem remap_data_moves_samples (cfg : config) (hw_map : list nat) (data : list byte)
    (sample_bytes count : nat) :
  bits_per_sample cfg = 8 * Z.of_nat sample_bytes →
  channels cfg = Z.of_nat (length hw_map) → 0 < channels cfg →
  bits_per_frame cfg / 8 < 2 ^ 64 →
  (∀ m, m ∈ hw_map → m < length hw_map)%nat →
  (count * (length hw_map * sample_bytes) ≤ length data)%nat →
  remap_data cfg None data (Z.of_nat count) = Some data ∧
  remap_data cfg (Some hw_map) data (Z.of_nat count)
  = Some (concat (map (λ i,
            concat (map (sample_at sample_bytes
                           (drop (i * (length hw_map * sample_bytes)) data)) hw_map))
            (seq 0 count))).
Proof.
  intros Hbits Hchannels Hpos Hmax Hmap Hdata. split; [done|].
  unfold remap_data.
  assert (bits_per_frame cfg / 8 = Z.of_nat (length hw_map * sample_bytes)) as Hstep.
  { unfold bits_per_frame. rewrite Hbits, Hchannels.
    replace (8 * Z.of_nat sample_bytes * Z.of_nat (length hw_map))
      with (Z.of_nat (length hw_map * sample_bytes) * 8) by lia.
    by rewrite Z.div_mul. }
  assert (bits_per_sample cfg / 8 = Z.of_nat sample_bytes) as Hsample.
  { rewrite Hbits, Z.mul_comm. by rewrite Z.div_mul. }
  rewrite Hstep in *. rewrite Hsample, Hchannels.
  rewrite !size_t_small by nia. rewrite !Nat2Z.id.
  rewrite remap_frames_samples; [|intros m Hm; specialize (Hmap m Hm); nia|done].
  done.
Qed.

(** An example: two stereo frames of 8-bit samples with the channels
    swapped. *)
Lemma remap_data_moves_samples_witness :
  remap_data (Script.play Script.U8 2 4) None [x01; x02; x03; x04] (Z.of_nat 2)
  = Some [x01; x02; x03; x04] ∧
  remap_data (Script.play Script.U8 2 4) (Some [1; 0]%nat) [x01; x02; x03; x04]
    (Z.of_nat 2)
  = Some [x02; x01; x04; x03].
Proof.
  apply (remap_data_moves_samples (Script.play Script.U8 2 4) [1; 0]%nat
           [x01; x02; x03; x04] 1 2).
  - reflexivity.
  - reflexivity.
  - reflexivity.
  - by vm_compute.
  - intros m Hm. simpl.
    apply elem_of_cons in Hm as [->|Hm]; [lia|].
    apply list_elem_of_singleton in Hm as ->. lia.
  - simpl. lia.
Defined.

(** ** The text of the VU meter *)

(** A check of all the values in a range. *)
Lemma forallb_seqZ (P : Z → bool) (lo n x : Z) :
  forallb P (seqZ lo n) = true → lo ≤ x < lo + n → P x = true.
Proof.
  intros Hall Hx. rewrite forallb_forall in Hall. apply Hall.
  apply list_elem_of_In, elem_of_seqZ. lia.
Qed.

Lemma print_vu_meter_mono_checked (line : list ascii) :
  length line = 80%nat →
  forallb (λ perc,
    forallb (λ maxperc,
      String.eqb (print_vu_meter_mono line perc maxperc) (mono_line perc maxperc))
      (seqZ 0 101)) (seqZ 0 101) = true.
Proof.
  intros Hlen.
  do 80 (destruct line as [|? line]; [discriminate Hlen|]).
  destruct line; [|discriminate Hlen]. clear Hlen.
  vm_compute. reflexivity.
Qed.

Lemma print_vu_meter_mono_closed (line : list ascii) (perc maxperc : Z) :
  length line = 80%nat → 0 ≤ perc ≤ 100 → 0 ≤ maxperc ≤ 100 →
  print_vu_meter_mono line perc maxperc = mono_line perc maxperc ∧
  String.length (print_vu_meter_mono line perc maxperc) = 56%nat.
Proof.
  intros Hlen Hperc Hmax.
  assert (print_vu_meter_mono line perc maxperc = mono_line perc maxperc) as ->.
  { apply String.eqb_eq.
    pose proof (print_vu_meter_mono_checked line Hlen) as Hall.
    apply (forallb_seqZ _ _ _ perc) in Hall; [|lia].
    apply (forallb_seqZ _ _ _ maxperc) in Hall; [done|lia]. }
  split; [done|].
  assert (forallb (λ perc, forallb (λ maxperc,
            (String.length (mono_line perc maxperc) =? 56)%nat)
            (seqZ 0 101)) (seqZ 0 101) = true) as Hall by (by vm_compute).
  apply (forallb_seqZ _ _ _ perc) in Hall; [|lia].
  apply (forallb_seqZ _ _ _ maxperc) in Hall; [|lia].
  by apply Nat.eqb_eq.
Qed.

(** X19. The mono meter line.  For levels between 0 and 100 the line is the
    bar of 50 characters and a mark, [#] up to the level (one at least),
    [+] behind the maximum, and the maximum in figures: 56 characters
    whatever the array held before, and never the text [!clip]. *)
Theorem print_vu_meter_mono_line (line : list ascii) (perc maxperc : Z) :
  length line = 80%nat → 0 ≤ perc ≤ 100 → 0 ≤ maxperc ≤ 100 →
  print_vu_meter_mono line perc maxperc = mono_line perc maxperc ∧
  String.length (print_vu_meter_mono line perc maxperc) = 56%nat.
Proof. by apply print_vu_meter_mono_closed. Qed.

(** An example: the level 37 under the maximum 80, in an array of [x]. *)
Lemma print_vu_meter_mono_line_witness :
  print_vu_meter_mono (replicate 80 "x"%char) 37 80
  = "###################                      +         | 80%"%string ∧
  String.length (print_vu_meter_mono (replicate 80 "x"%char) 37 80) = 56%nat.
Proof.
  apply (print_vu_meter_mono_line (replicate 80 "x"%char) 37 80); [reflexivity|lia|lia].
Defined.

(** *** The stereo line *)

Lemma length_poke (line : list ascii) (off : nat) (src : list ascii) :
  length (poke line off src) = length line.
Proof.
  unfold poke. rewrite length_take, !length_app, length_take, length_drop. lia.
Qed.

Lemma poke_app_l (a b : list ascii) (off : nat) (src : list ascii) :
  (off + length src ≤ length a)%nat →
  poke (a ++ b) off src = poke a off src ++ b.
Proof.
  intros Hfit. unfold poke.
  rewrite (take_app_le a b off), (drop_app_le a b (off + length src)) by lia.
  rewrite take_ge by (rewrite !length_app, length_take, length_drop; lia).
  rewrite (take_ge (take off a ++ _))
    by (rewrite !length_app, length_take, length_drop; lia).
  by rewrite <- !app_assoc.
Qed.

Lemma poke_app_r (a b : list ascii) (off : nat) (src : list ascii) :
  poke (a ++ b) (length a + off) src = a ++ poke b off src.
Proof.
  unfold poke.
  rewrite (take_app_add' a b), (drop_app_ge a b) by lia.
  replace (length a + off + length src - length a)%nat with (off + length src)%nat by lia.
  rewrite length_app. rewrite <- !app_assoc. by rewrite take_app_add'.
Qed.

Lemma c_text_app (a b : list ascii) :
  Forall (λ c, c ≠ Ascii.zero) a →
  c_text (a ++ b) = (string_of_list_ascii a +:+ c_text b)%string.
Proof.
  induction 1 as [|c a Hc _ IH]; [done|].
  simpl. destruct (Ascii.eqb_spec c Ascii.zero) as [?|_]; [done|]. by rewrite IH.
Qed.

(** The first turn of the loop writes to the first 38 characters, and
    the second to the characters after the [|]. *)
Lemma vu_channel_left (a b : list ascii) (perc maxperc : Z) :
  length a = 38%nat →
  vu_channel false perc maxperc (a ++ b) = (λ a', a' ++ b) <$> vu_half false perc maxperc a.
Proof.
  intros Ha. unfold vu_channel, vu_half. cbv zeta.
  set (p := if 35 <? Z.quot (CInt.int32 (perc * 35)) 100 then 35
            else Z.quot (CInt.int32 (perc * 35)) 100).
  assert (p ≤ 35) as Hp by (unfold p; case_match; lia).
  destruct (Z.ltb_spec p 0) as [?|Hp0]; [done|].
  set (q := CInt.int32 (Z.quot (CInt.int32 (maxperc * 35)) 100 - 1)).
  set (m := if q <? 0 then 0 else if 35 <=? q then 35 - 1 else q).
  assert (0 ≤ m ≤ 34) as Hm by (unfold m; repeat case_match; lia).
  set (tmp := if (if maxperc <? 0 then negb (CInt.int32 (- maxperc) =? 0)
                  else 99 <? maxperc)
              then c_chars "MAX"
              else c_chars (sprintf_02d maxperc +:+ "%")).
  destruct (4 <? length tmp)%nat; [done|]. simpl.
  rewrite poke_app_l by (rewrite length_replicate; lia).
  rewrite insert_app_l by (rewrite length_poke; lia).
  rewrite poke_app_l; [done|].
  rewrite length_insert, length_poke, length_take. lia.
Qed.

Lemma vu_channel_right (a b : list ascii) (perc maxperc : Z) :
  length a = 39%nat →
  vu_channel true perc maxperc (a ++ b) = (λ b', a ++ b') <$> vu_half true perc maxperc b.
Proof.
  intros Ha. unfold vu_channel, vu_half. cbv zeta.
  set (p := if 35 <? Z.quot (CInt.int32 (perc * 35)) 100 then 35
            else Z.quot (CInt.int32 (perc * 35)) 100).
  destruct (Z.ltb_spec p 0) as [?|Hp0]; [done|].
  set (q := CInt.int32 (Z.quot (CInt.int32 (maxperc * 35)) 100 - 1)).
  set (m := if q <? 0 then 0 else if 35 <=? q then 35 - 1 else q).
  assert (0 ≤ m ≤ 34) as Hm by (unfold m; repeat case_match; lia).
  set (tmp := if (if maxperc <? 0 then negb (CInt.int32 (- maxperc) =? 0)
                  else 99 <? maxperc)
              then c_chars "MAX"
              else c_chars (sprintf_02d maxperc +:+ "%")).
  destruct (4 <? length tmp)%nat; [done|]. simpl.
  change (Z.to_nat (35 + 6 + 1)) with (39 + 3)%nat.
  change (Z.to_nat (35 + 3 + 1)) with (39 + 0)%nat.
  replace (Z.to_nat (35 + 6 + 1 + m)) with (39 + (3 + Z.to_nat m))%nat by lia.
  rewrite <- Ha. by rewrite poke_app_r, insert_app_r, poke_app_r.
Qed.

(** The two halves of the line, for all the levels. *)
Lemma vu_half_left_checked :
  forallb (λ perc,
    forallb (λ maxperc,
      match vu_half false perc maxperc (replicate 38 " "%char) with
      | Some a =>
          String.eqb (string_of_list_ascii a)
            (string_of_list_ascii (reverse (stereo_bar perc maxperc))
             +:+ stereo_figures maxperc)
          && forallb (λ c, negb (Ascii.eqb c Ascii.zero)) a
          && (length a =? 38)%nat
      | None => false
      end) (seqZ 0 101)) (seqZ 0 101) = true.
Proof. by vm_compute. Qed.

Lemma vu_half_right_checked (c : ascii) :
  forallb (λ perc,
    forallb (λ maxperc,
      match vu_half true perc maxperc (replicate 40 " "%char ++ [c]) with
      | Some b =>
          String.eqb (c_text (<[39%nat := Ascii.zero]> b))
            (stereo_figures maxperc
             +:+ string_of_list_ascii (stereo_bar perc maxperc) +:+ " ")
      | None => false
      end) (seqZ 0 101)) (seqZ 0 101) = true.
Proof. by vm_compute. Qed.

Lemma string_of_list_ascii_app (a b : list ascii) :
  string_of_list_ascii (a ++ b)
  = (string_of_list_ascii a +:+ string_of_list_ascii b)%string.
Proof. induction a as [|c a IH]; [done|]. simpl. by rewrite IH. Qed.

Lemma print_vu_meter_stereo_closed (line : list ascii) (perc maxperc : Z * Z) :
  length line = 80%nat →
  0 ≤ perc.1 ≤ 100 → 0 ≤ perc.2 ≤ 100 →
  0 ≤ maxperc.1 ≤ 100 → 0 ≤ maxperc.2 ≤ 100 →
  print_vu_meter_stereo line perc maxperc = Some (stereo_line perc maxperc) ∧
  String.length (stereo_line perc maxperc) = 78%nat.
Proof.
  intros Hlen Hp1 Hp2 Hm1 Hm2.
  destruct perc as [perc1 perc2], maxperc as [max1 max2]. simpl in *.
  split.
  - unfold print_vu_meter_stereo. cbv zeta. cbn [fst snd].
    assert (∃ c, <[Z.to_nat (35 + 3) := "|"%char]>
                   (poke line 0 (replicate (length line - 1) " "%char))
                 = replicate 38 " "%char ++ (["|"%char] ++ (replicate 40 " "%char ++ [c])))
      as [c ->].
    { do 80 (destruct line as [|? line]; [discriminate Hlen|]).
      destruct line; [|discriminate Hlen]. eexists. vm_compute. reflexivity. }
    rewrite vu_channel_left by done.
    pose proof vu_half_left_checked as Hleft.
    apply (forallb_seqZ _ _ _ perc1) in Hleft; [|lia].
    apply (forallb_seqZ _ _ _ max1) in Hleft; [|lia]. cbv beta in Hleft.
    destruct (vu_half false perc1 max1 (replicate 38 " "%char)) as [a|]; [|done].
    apply andb_true_iff in Hleft as [[Ha Hnonzero]%andb_true_iff Hlen_a%Nat.eqb_eq].
    apply String.eqb_eq in Ha.
    cbn [fmap option_fmap option_map mbind option_bind].
    rewrite (assoc_L (++) a). rewrite vu_channel_right by (rewrite length_app; simpl; lia).
    pose proof (vu_half_right_checked c) as Hright.
    apply (forallb_seqZ _ _ _ perc2) in Hright; [|lia].
    apply (forallb_seqZ _ _ _ max2) in Hright; [|lia]. cbv beta in Hright.
    destruct (vu_half true perc2 max2 (replicate 40 " "%char ++ [c])) as [b|]; [|done].
    apply String.eqb_eq in Hright.
    cbn [fmap option_fmap option_map mbind option_bind]. f_equal.
    change (Z.to_nat (35 * 2 + 6 + 2)) with (39 + 39)%nat.
    replace (39 + 39)%nat with (length (a ++ ["|"%char]) + 39)%nat
      by (rewrite length_app; simpl; lia).
    rewrite insert_app_r, c_text_app.
    + rewrite Hright, string_of_list_ascii_app, Ha. unfold stereo_line. simpl.
      by rewrite <- !append_assoc.
    + apply Forall_app. split; [|by repeat constructor].
      apply Forall_forall. intros x Hx.
      rewrite forallb_forall in Hnonzero.
      apply list_elem_of_In, Hnonzero in Hx.
      destruct (Ascii.eqb_spec x Ascii.zero); [done|done].
  - assert (forallb (λ p1, forallb (λ m1,
              (String.length (string_of_list_ascii (reverse (stereo_bar p1 m1))
                              +:+ stereo_figures m1) =? 38)%nat
              && (String.length (stereo_figures m1
                                 +:+ string_of_list_ascii (stereo_bar p1 m1)
                                 +:+ " ") =? 39)%nat)
              (seqZ 0 101)) (seqZ 0 101) = true) as Hall by (by vm_compute).
    pose proof Hall as Hall'.
    apply (forallb_seqZ _ _ _ perc1) in Hall; [|lia].
    apply (forallb_seqZ _ _ _ max1) in Hall; [|lia].
    apply (forallb_seqZ _ _ _ perc2) in Hall'; [|lia].
    apply (forallb_seqZ _ _ _ max2) in Hall'; [|lia].
    apply andb_true_iff in Hall as [H1%Nat.eqb_eq _].
    apply andb_true_iff in Hall' as [_ H2%Nat.eqb_eq].
    unfold stereo_line. simpl.
    rewrite !string_length_app in *. simpl in *. lia.
Qed.

(** X20. The stereo meter line.  For levels between 0 and 100 the function
    prints the two bars of 35 characters, the left one growing to the
    left, with [#] up to the level and [+] on the maximum, and the two
    maxima in figures around the [|]: 78 characters whatever the array
    held before. *)
Theorem print_vu_meter_stereo_line (line : list ascii) (perc maxperc : Z * Z) :
  length line = 80%nat →
  0 ≤ perc.1 ≤ 100 → 0 ≤ perc.2 ≤ 100 →
  0 ≤ maxperc.1 ≤ 100 → 0 ≤ maxperc.2 ≤ 100 →
  print_vu_meter_stereo line perc maxperc = Some (stereo_line perc maxperc) ∧
  String.length (stereo_line perc maxperc) = 78%nat.
Proof. by apply print_vu_meter_stereo_closed. Qed.

(** An example: the levels 50 and 70 under the maxima 60 and 80. *)
Lemma print_vu_meter_stereo_line_witness :
  print_vu_meter_stereo (replicate 80 "x"%char) (50, 70) (60, 80)
  = Some "              +   #################60%|80%########################   +        "%string ∧
  String.length (stereo_line (50, 70) (60, 80)) = 78%nat.
Proof.
  apply (print_vu_meter_stereo_line (replicate 80 "x"%char) (50, 70) (60, 80));
    [reflexivity|simpl; lia..].
Defined.

(** ** The meter during a transfer *)



(** ** What the options leave behind *)

Section OptionProperties.
Variable strtol : string → Z * bool.
Variable snd_pcm_format_value : string → Z.
Variable snd_pcm_chmap_parse_string : string → option (list Z).

Local Abbreviation run_case := (option_case strtol snd_pcm_format_value snd_pcm_chmap_parse_string).
Local Abbreviation run_loop := (options_loop strtol snd_pcm_format_value snd_pcm_chmap_parse_string).

Lemma ints_assign (var var' : ivar) (v : Z) (o : settings) :
  ints (assign var v o) var' = if decide (var' = var) then v else ints o var'.
Proof. done. Qed.

Lemma assign_long_next (var : ivar) (conv : Z → Z) (optarg : string) (o o' : settings) :
  assign_long strtol var conv optarg o = Next o' →
  ∃ v, o' = assign var (conv v) o.
Proof.
  unfold assign_long, parse_long. destruct (strtol optarg) as [val []]; [|done].
  simpl. intros [= <-]. by eexists.
Qed.

Lemma option_case_well_set (c : opt) (o o' : settings) :
  well_set o → run_case c o = Next o' → well_set o'.
Proof.
  unfold well_set. intros Hwell Hcase.
  destruct c; simpl in Hcase;
    repeat match goal with
    | H : match assign_long _ ?var ?conv ?a ?o with _ => _ end = Next _ |- _ =>
        let Heq := fresh in
        destruct (assign_long strtol var conv a o) eqn:Heq; [|done];
        apply assign_long_next in Heq as [? ->]
    | H : assign_long _ _ _ _ _ = Next _ |- _ => apply assign_long_next in H as [? ->]
    | H : context [parse_long _ ?a] |- _ => destruct (parse_long strtol a) as [? ?]
    | H : context [if ?b then _ else _] |- _ => destruct b eqn:?
    | H : match ?x with _ => _ end = Next _ |- _ => destruct x eqn:?
    | H : Next _ = Next _ |- _ => injection H as <-
    | H : Return _ = Next _ |- _ => discriminate H
    end;
    rewrite ?ints_assign in *; simpl in *;
    repeat match goal with
    | H : (_ || _) = false |- _ => apply orb_false_iff in H as [? ?]
    | H : (_ <? _) = false |- _ => apply Z.ltb_ge in H
    | H : (_ <? _) = true |- _ => apply Z.ltb_lt in H
    | H : negb (_ =? _) = false |- _ => apply negb_false_iff, Z.eqb_eq in H
    end;
    rewrite ?ints_assign in *; simpl in *; try lia.
Qed.

Lemma options_loop_well_set (opts : list opt) (o o' : settings) :
  well_set o → run_loop opts o = Next o' → well_set o'.
Proof.
  revert o. induction opts as [|c opts IH]; intros o Hwell Hloop.
  - simpl in Hloop. by simplify_eq.
  - cbn [options_loop] in Hloop.
    destruct (run_case c o) as [o1|] eqn:Hcase; [|done].
    eapply IH; [|done]. by eapply option_case_well_set.
Qed.

(** A turn that goes on keeps [duration_or_sample] once it is set, and
    [-d] and [-s] set it. *)
Lemma option_case_keeps_flag (c : opt) (o o' : settings) :
  ints o V_duration_or_sample ≠ 0 → run_case c o = Next o' →
  ints o' V_duration_or_sample ≠ 0.
Proof.
  intros Hflag Hcase.
  destruct c; simpl in Hcase;
    repeat match goal with
    | H : match assign_long _ ?var ?conv ?a ?o with _ => _ end = Next _ |- _ =>
        let Heq := fresh in
        destruct (assign_long strtol var conv a o) eqn:Heq; [|done];
        apply assign_long_next in Heq as [? ->]
    | H : assign_long _ _ _ _ _ = Next _ |- _ => apply assign_long_next in H as [? ->]
    | H : context [parse_long _ ?a] |- _ => destruct (parse_long strtol a) as [? ?]
    | H : context [if ?b then _ else _] |- _ => destruct b eqn:?
    | H : match ?x with _ => _ end = Next _ |- _ => destruct x eqn:?
    | H : Next _ = Next _ |- _ => injection H as <-
    | H : Return _ = Next _ |- _ => discriminate H
    end;
    rewrite ?ints_assign in *; simpl in *; try done.
Qed.

Lemma option_case_sets_flag (c : opt) (o o' : settings) :
  is_limit c = true → run_case c o = Next o' →
  ints o' V_duration_or_sample ≠ 0.
Proof.
  intros Hlimit Hcase.
  destruct c; try discriminate Hlimit; simpl in Hcase;
    destruct (negb (ints o V_duration_or_sample =? 0)); try done;
    match goal with
    | H : match assign_long _ ?var ?conv ?a ?o with _ => _ end = Next _ |- _ =>
        destruct (assign_long strtol var conv a o); [|done]
    end;
    by simplify_eq.
Qed.

Lemma options_loop_after_limit (opts : list opt) (c : opt) (rest : list opt)
    (o : settings) :
  ints o V_duration_or_sample ≠ 0 → is_limit c = true →
  ∃ status, run_loop (opts ++ c :: rest) o = Return status.
Proof.
  revert o. induction opts as [|c' opts IH]; intros o Hflag Hlimit.
  - exists 1. simpl.
    assert (negb (ints o V_duration_or_sample =? 0) = true) as Hset.
    { by apply negb_true_iff, Z.eqb_neq. }
    destruct c; try discriminate Hlimit; simpl; by rewrite Hset.
  - cbn [app options_loop].
    destruct (run_case c' o) as [o1|status] eqn:Hcase; [|by eexists].
    apply IH; [|done]. by eapply option_case_keeps_flag.
Qed.

End OptionProperties.

(** X24. The loop over the options leaves the channels between 1 and 256,
    the test coefficient at 1 or more, the meter at one of its three
    values and at most one of the two limits set, whatever the options
    and the numbers in them are: where an option would break this, the
    loop ends in a [return]. *)
Theorem options_keep_settings_in_range (strtol : string → Z * bool)
    (snd_pcm_format_value : string → Z)
    (snd_pcm_chmap_parse_string : string → option (list Z))
    (argv0 : string) (opts : list opt) (o : settings) :
  options_loop strtol snd_pcm_format_value snd_pcm_chmap_parse_string opts
    (initial_settings argv0) = Next o →
  1 ≤ ints o V_channels ≤ 256 ∧
  1 ≤ ints o V_test_coef ∧
  0 ≤ ints o V_vumeter ≤ 2 ∧
  (ints o V_timelimit = 0 ∨ ints o V_sampleslimit = 0).
Proof.
  intros Hloop.
  apply options_loop_well_set in Hloop as (? & ? & ? & ? & _); [done|].
  unfold well_set. simpl. lia.
Qed.

(** X25. [-d] and [-s] are taken once between them: when a second one of
    either kind follows, the loop does not come to its end, it returns
    at that option or before it. *)
Theorem second_limit_is_refused (strtol : string → Z * bool)
    (snd_pcm_format_value : string → Z)
    (snd_pcm_chmap_parse_string : string → option (list Z))
    (argv0 : string) (before : list opt) (first : opt) (between : list opt)
    (second : opt) (after : list opt) :
  is_limit first = true → is_limit second = true →
  ∃ status,
    options_loop strtol snd_pcm_format_value snd_pcm_chmap_parse_string
      (before ++ first :: between ++ second :: after) (initial_settings argv0)
    = Return status.
Proof.
  intros Hfirst Hsecond. generalize (initial_settings argv0).
  induction before as [|c before IH]; intros o.
  - cbn [app options_loop].
    destruct (option_case _ _ _ first o) as [o1|status] eqn:Hcase; [|by eexists].
    apply options_loop_after_limit; [|done].
    eapply (option_case_sets_flag _ _ _ first o); [exact Hfirst|exact Hcase].
  - cbn [app options_loop].
    destruct (option_case _ _ _ c o) as [o1|status]; [|by eexists].
    apply IH.
Qed.

(** An example: [-c 2 -r 44 --test-coef 0 -vv], with the numbers read by
    a [strtol] that knows these three. *)
Lemma options_keep_settings_in_range_witness :
  ∃ o,
    options_loop
      (λ s, if String.eqb s "2" then (2, true) else if String.eqb s "44" then (44, true)
            else if String.eqb s "0" then (0, true) else (0, false))
      (λ _, SND_PCM_FORMAT_UNKNOWN) (λ _, None)
      [Opt_c "2"; Opt_r "44"; Opt_test_coef "0"; Opt_v; Opt_v]
      (initial_settings "fplay") = Next o ∧
    ints o V_rate = 44000 ∧
    1 ≤ ints o V_channels ≤ 256 ∧
    1 ≤ ints o V_test_coef ∧
    0 ≤ ints o V_vumeter ≤ 2 ∧
    (ints o V_timelimit = 0 ∨ ints o V_sampleslimit = 0).
Proof.
  eexists. split; [reflexivity|]. split; [reflexivity|].
  apply (options_keep_settings_in_range
           (λ s, if String.eqb s "2" then (2, true) else if String.eqb s "44" then (44, true)
                 else if String.eqb s "0" then (0, true) else (0, false))
           (λ _, SND_PCM_FORMAT_UNKNOWN) (λ _, None) "fplay"
           [Opt_c "2"; Opt_r "44"; Opt_test_coef "0"; Opt_v; Opt_v]).
  reflexivity.
Defined.

(** An example: [-d 5 -q -d 5]. *)
Lemma second_limit_is_refused_witness :
  ∃ status,
    options_loop (λ _, (5, true)) (λ _, SND_PCM_FORMAT_UNKNOWN) (λ _, None)
      ([] ++ Opt_d "5" :: [Opt_q] ++ Opt_d "5" :: []) (initial_settings "fplay")
    = Return status.
Proof.
  apply (second_limit_is_refused (λ _, (5, true)) (λ _, SND_PCM_FORMAT_UNKNOWN)
           (λ _, None) "fplay" [] (Opt_d "5") [Opt_q] (Opt_d "5") []);
    reflexivity.
Defined.
